(* ===== verification/_CoqProject ===== *)
-Q . S2P
Prelude.v
Failure.v
Errors.v
Asn1.v
Asn1Facts.v
Der.v
Types.v
TypesFacts.v
StatusInfo.v
Enrollment.v
EnrollmentFacts.v
Crmf.v
CrmfFacts.v
X509.v
CertPath.v
CertPathFacts.v
RevocationMsg.v
RevocationMsgFacts.v
Message.v
MessageFacts.v
BodyFacts.v
Totality.v
TypedBodies.v
Monad.v
Algorithms.v
Protect.v
Verify.v
Keeps.v
Orderly.v
Http.v
ProtectFacts.v
SignatureFacts.v
Instances.v
CodecProps.v
ProtectionProps.v
Transactions.v
TransactionsFacts.v
TransactionRace.v
Handler.v
ServerRequest.v
CAHandler.v
Policy.v
Server.v
ServerHTTP.v
MockCA.v
Snapshot.v
SnapshotFacts.v
ServerFacts.v
ServerRuns.v
ServerSafety.v
Authority.v
TransactionMachine.v
ServerReplies.v
ServerTotality.v
MockFacts.v
ServerExamples.v
ServerProps.v
TransactionProps.v
PolicyProps.v
Client.v
ClientEnroll.v
ClientExamples.v
MockClient.v
MockExamples.v
MockProps.v
ClientFacts.v
ClientRuns.v
ClientErrors.v
HttpFacts.v
ClientProps.v
Agreement.v
Admission.v
SessionFacts.v
Session.v
SessionExample.v
SessionServer.v
Liveness.v
