(* ===== verification/Prelude.v ===== *)
(** * go-pkicmp-ng: a verification development

    A model of the CMP library (RFC 9810, RFC 9483) in [src/]: the messages and their DER
    encoding ([src/pkicmp]), certification paths with composite ML-DSA signatures
    ([src/internal/certpath]), the server ([src/server]), the client ([src/client]) and the
    example programs that run them ([src/examples]), with the theorems that make them
    correct. Definitions keep the names of the Go code;
    a method [T.m] is [m], or [T_m] where two types share it.

    ** How the model reads

    A Go [error] is a value of [Errors.error], with the chain that [errors.As] follows, and
    a fallible function gives a [result]: [Ok] of a value or [Err] of an error. [GoPanic]
    marks the points where the Go code would dereference nil or panic by itself, as
    [BytesOrPanic] does in [wrapSequence]; theorems say where it cannot be reached. Functions that change shared state and can fail are in the monad of
    [Monad.ST]. Integers are [Z]; where a Go width matters (the [int64] of polling intervals
    and of size limits, the [uint32] of length prefixes, the range that DER integers are
    read into) the wrap-around or the range is written out. Byte slices are lists of octets.

    What is not in [src/] is a parameter, given as a type class with the operations the code
    calls: the ASN.1 builder and reader ([Asn1.Cryptobyte], instantiated by the DER of
    [Der]), [crypto] and [crypto/x509] with the composite ML-DSA packages ([X509],
    [Algorithms]), names ([Types]), [encoding/asn1], [encoding/json], randomness and HTTP.
    Their laws are separate classes and hypotheses ([CryptobyteLaws], [GoCryptoLaws],
    [GoPBMAC1Laws], [GoJSONLaws], ...), each satisfied by the instances of [Der],
    [Instances] and the example files, in which whole runs of the model are evaluated.

    ** The parts

    - Foundations: [Prelude] (lists, results, tactics), [Failure] and [Errors] (status.go,
      errors.go of the packages), [Asn1], [Asn1Facts] and [Der] (the ASN.1 layer, its laws
      and its implementation), [Monad].
    - Messages, [src/pkicmp]: [Types] (types.go), [StatusInfo] (status.go), [Enrollment]
      (enrollment.go), [Crmf] (crmf.go), [RevocationMsg] (revocation.go), [X509], [Message]
      (pkimessage.go, pkibody.go), each with its round trips in the [...Facts] file of its
      name; [BodyFacts], [Totality], [TypedBodies] and [CodecProps] for whole messages.
    - Protection, [src/pkicmp]: [Algorithms] (algorithms.go, confirmation hashes), [Protect]
      (protect.go, credentials.go), [Verify] (verify.go, pop.go), [Keeps], [ProtectFacts],
      [SignatureFacts] and [ProtectionProps]. [CertPath] and [CertPathFacts] are
      certpath.go.
    - Server, [src/server]: [Transactions] (transaction.go: tracker, counters, states),
      [Handler] (handler.go, errors.go), [ServerRequest] (certrequest.go), [CAHandler] (ca.go,
      revocation.go), [Policy] (lwpolicy.go), [Server] (server.go, response.go,
      protection.go, confirm_poll.go, nested.go, options.go), [ServerHTTP] (ServeHTTP) and
      [Snapshot] (snapshot.go). A server has a [World]: its tracker, the count of random
      draws and the state of its CA, of any type. [processMessage] is a function on worlds;
      [TransactionRace] has the same tracker again as threads that take one step on the
      shared tables at a time, for requests that run concurrently.
    - Client, [src/client]: [Client] (client.go, options.go, errors.go and the checks of
      transport.go) and [ClientEnroll] (its exchanges, crmf.go, p10cr.go, rr.go), over an
      arbitrary [Transport], whose state is that of the network and the clock. A history
      of what was sent, received and waited for is carried along for the theorems;
      [ClientFacts] and [ClientRuns] say what runs leave in it, and that it is a trace of
      the outside world; [HttpFacts] is about the octets between the two sides.
    - Examples, [src/examples]: [MockCA] (mockserver.go and its main: the CA, its server, and
      the program as a sequence of requests and ticks) with [MockFacts], and [MockClient]
      (mockclient.go and its main).
    - [Instances], [ServerExamples], [ClientExamples] and [MockExamples]: concrete parameters,
      a CA with its server, a client whose transport is that server, and the two example
      programs against each other.

    ** What is proved

    Each property has its number in the comment above its theorem.
    - [CodecProps] (C1 to C4): encoding and decoding are inverse, forwarding keeps octets,
      decoding terminates without a panic, that of [wrapSequence] included, and gives
      well-typed contents; also, the version
      follows the body and getters are idempotent.
    - [ProtectionProps] (C6 to C9, C13, C14): MACs and signatures verify after the wire,
      accepted ones were made with the secret or a trusted certificate of the sender, echoed
      parameters are accepted, and the path search is sound and, within its budget,
      complete; also, proofs of possession verify.
    - [ServerProps] (C15 to C20): every effect of a message is owed to an authenticated
      sender with the authority for it, every message is answered and every sweep ends
      without a panic if handler and lookups behave, answers echo nonces and transaction and
      are protected for the sender that was verified, so that the clients they are meant for
      accept them, the errors for unsupported versions excepted. [Authority], [ServerSafety],
      [ServerRuns] (whom a response answers, with which parameters), [ServerReplies] (the
      parameters the table keeps, the responses on the wire) and [ServerTotality] hold the
      lemmas.
    - [TransactionProps] (C21 to C29, C31): a message moves its own transaction only, any run
      is one of the abstract machine of [TransactionMachine], which has the step of every
      message and sweep on the entries of the table, with exact counters, limits hold
      under every interleaving, confirmations, polls and expiry follow their rules, and
      snapshots restore, as far as the decoder of references reads what [encoding/json]
      makes of them.
    - [PolicyProps] (C32, C33): the profile policy lets no other request through, and the
      texts of internal errors do not show.
    - [ClientProps] (C11, C34 to C39): what an enrollment or a revocation that succeeds has
      checked, where the errors of one that fails come from ([ClientErrors] on top of
      [Orderly], for the functions of the package it calls), the bounds on messages and
      waits, the report of refused certificates, and the HTTP layer between the two sides.
    - [MockProps] (C5, C12, C30): the example CA behaves as the server's theorems ask of a
      handler; its invariant holds in every world the program reaches, only the holder of a
      certificate can revoke it, and no revoked certificate authenticates a message again.
      [MockExamples] runs the example session: enrollment, key update and revocation.
    - [Agreement] (C40) and [Liveness] (C10): client and server composed. What a client
      holds after an enrollment is what its server took as confirmed; and an honest client
      that shares a secret with a server whose CA grants its request is enrolled in two
      exchanges. [Session] has the parties, the messages of the run and what each has to
      satisfy, [SessionFacts] and [Admission] what either side makes of a message,
      [SessionServer] the run of the server, and [SessionExample] a session to evaluate.

    ** Bounds and fuel

    The list readers of [Asn1] take the length of their input as fuel, which C3 shows is
    enough. [Server.process] takes the nesting depth of forwarded messages, 2, since the
    code refuses a nested message inside another. [ClientEnroll.poll_from] takes the number
    of polls the code's loop may make, so its fuel is the loop bound itself. The path
    search of [CertPath] counts signature checks down as the code does.

    ** Not modelled

    Formatting of names and object identifiers by the Go libraries, and the contents of
    errors made outside [src/], are opaque. One clock reading stands for those the server
    takes while it processes a message. The accessors [Server.Err], [SharedSecret] and
    [Certificate], the adapters of function types to interfaces, package documentation, and
    of the example programs the listening socket, the multiplexer and the log lines have no
    definition. Requests to the example server are served one after the other; the locks
    and the atomic counter of its CA make each step on its lists one such step. The version
    that encoding writes back into the header of an unprotected message inside a nested body
    is not kept. *)

From Stdlib Require Export ZArith Lia.
From stdpp Require Export base gmap list strings pretty.

#[export] Set Default Goal Selector "!".
Open Scope Z_scope.

Declare Scope cmp_scope.
Delimit Scope cmp_scope with cmp.
Open Scope cmp_scope.

(** ** Bytes

    A Go [[]byte] is a list of octets, each a [Z]; [nil] and an empty slice are
    the same list, and the places where the source tells them apart use
    [option]. *)
Abbreviation bytes := (list Z).

(** [octet b] is the range of a Go [byte]. *)
Definition octet (b : Z) : Prop := 0 <= b < 256.

(** [nonempty s] is Go's [len(s) > 0], on any slice. *)
Definition nonempty {A} (l : list A) : bool :=
  match l with [] => false | _ :: _ => true end.

(** [bytes_eqb] is [bytes.Equal]. *)
Definition bytes_eqb (a b : bytes) : bool := bool_decide (a = b).

(** [is_nil p] is the Go test [p == nil] on a pointer. *)
Definition is_nil {A} (p : option A) : bool :=
  match p with None => true | Some _ => false end.

(** ** The result of a fallible Go function: a value, or the error. *)
Inductive res (E A : Type) : Type :=
| Ok (a : A)
| Err (e : E).
Arguments Ok {E A} a.
Arguments Err {E A} e.

Definition res_bind {E A B} (r : res E A) (k : A -> res E B) : res E B :=
  match r with Ok a => k a | Err e => Err e end.

Definition res_map {E A B} (f : A -> B) (r : res E A) : res E B :=
  match r with Ok a => Ok (f a) | Err e => Err e end.

(** [of_option e o] turns a failed [bool]-style read into the error [e]. *)
Definition of_option {E A} (e : E) (o : option A) : res E A :=
  match o with Some a => Ok a | None => Err e end.

Definition is_ok {E A} (r : res E A) : bool :=
  match r with Ok _ => true | Err _ => false end.

Notation "'let?' x := r 'in' k" := (res_bind r (fun x => k))
  (at level 10, x pattern, r at level 100, k at level 200,
   format "'[v' 'let?'  x  :=  r  'in' '/' k ']'") : cmp_scope.

(** [check c e k] is Go's [if c { return e }; k]. *)
Notation "'reject_if' c 'with' e ';;' k" := (if c then Err e else k)
  (at level 10, c at level 99, e at level 99, k at level 200,
   format "'[v' 'reject_if'  c  'with'  e  ';;' '/' k ']'") : cmp_scope.

Lemma Ok_inj {E A} (x y : A) : @Ok E A x = Ok y -> x = y.
Proof. congruence. Qed.

Lemma res_bind_ok {E A B} (r : res E A) (k : A -> res E B) b :
  res_bind r k = Ok b -> exists a, r = Ok a /\ k a = Ok b.
Proof. destruct r; simpl; [eauto | discriminate]. Qed.

Lemma res_bind_err {E A B} (r : res E A) (k : A -> res E B) e :
  res_bind r k = Err e -> r = Err e \/ exists a, r = Ok a /\ k a = Err e.
Proof. destruct r; simpl; intros H; [right; eauto | left; congruence]. Qed.

Lemma of_option_ok {E A} (e : E) (o : option A) a :
  of_option e o = Ok a <-> o = Some a.
Proof. destruct o; simpl; split; congruence. Qed.

(** Splits every [let?] equation of the context whose result is known. *)
Ltac split_res :=
  repeat match goal with
  | H : res_bind _ _ = Ok _ |- _ =>
      let a := fresh "a" in let E := fresh "E" in
      apply res_bind_ok in H; destruct H as (a & E & H)
  | H : of_option _ _ = Ok _ |- _ => apply of_option_ok in H
  | H : Ok _ = Ok _ |- _ => injection H as H; subst
  | H : Err _ = Ok _ |- _ => discriminate H
  | H : Ok _ = Err _ |- _ => discriminate H
  | a : (_ * _)%type |- _ => destruct a
  end; simpl in *.

(** Destructs the scrutinee of the outermost [match] or [if] of [H]. *)
Ltac case_in H :=
  match type of H with
  | context [match ?x with _ => _ end] => let E := fresh "E" in destruct x eqn:E
  end.

(** The same for the goal. *)
Ltac case_goal :=
  match goal with
  | |- context [match ?x with _ => _ end] => let E := fresh "E" in destruct x eqn:E
  end.

(** ** Lists and byte strings *)

Lemma nonempty_true {A} (l : list A) : nonempty l = true <-> l <> [].
Proof. destruct l; simpl; split; congruence. Qed.

Lemma nonempty_false {A} (l : list A) : nonempty l = false <-> l = [].
Proof. destruct l; simpl; split; congruence. Qed.

Lemma bytes_eqb_eq a b : bytes_eqb a b = true <-> a = b.
Proof. apply bool_decide_eq_true. Qed.

Lemma bytes_eqb_neq a b : bytes_eqb a b = false <-> a <> b.
Proof. apply bool_decide_eq_false. Qed.

Lemma bytes_eqb_refl a : bytes_eqb a a = true.
Proof. by apply bytes_eqb_eq. Qed.

Create Rewrite HintDb cmp.
#[export] Hint Rewrite @bytes_eqb_refl : cmp.

Lemma app_inj_same_length {A} (a a' b b' : list A) :
  length a = length a' -> a ++ b = a' ++ b' -> a = a' /\ b = b'.
Proof. intros Hl H. by apply app_inj_1 in H. Qed.

(** ** Big-endian 32-bit integers: [binary.BigEndian.PutUint32] of [uint32(n)]. *)

Definition uint32 (n : Z) : Z := n mod 2 ^ 32.

Definition put_uint32 (n : Z) : bytes :=
  let v := uint32 n in
  [ Z.land (Z.shiftr v 24) 255; Z.land (Z.shiftr v 16) 255;
    Z.land (Z.shiftr v 8) 255; Z.land v 255 ].

(** The conversion of a sum or product of Go [int64] values back to [int64]. *)
Definition int64_wrap (n : Z) : Z := (n + 2 ^ 63) mod 2 ^ 64 - 2 ^ 63.

Lemma int64_wrap_id n : - 2 ^ 63 <= n < 2 ^ 63 -> int64_wrap n = n.
Proof. intros H. unfold int64_wrap. rewrite Z.mod_small; lia. Qed.

Lemma length_put_uint32 n : length (put_uint32 n) = 4%nat.
Proof. reflexivity. Qed.

Lemma byte_of_shift v k :
  0 <= k -> Z.land (Z.shiftr v k) 255 = (v / 2 ^ k) mod 256.
Proof.
  intros. change 255 with (Z.ones 8).
  rewrite Z.land_ones, Z.shiftr_div_pow2 by lia. reflexivity.
Qed.

Lemma put_uint32_value n :
  put_uint32 n =
  [ (uint32 n / 2 ^ 24) mod 256; (uint32 n / 2 ^ 16) mod 256;
    (uint32 n / 2 ^ 8) mod 256; uint32 n mod 256 ].
Proof.
  unfold put_uint32. rewrite !byte_of_shift by lia.
  change 255 with (Z.ones 8). by rewrite Z.land_ones by lia.
Qed.

Lemma uint32_of_bytes v :
  0 <= v < 2 ^ 32 ->
  v = (v / 2 ^ 24) mod 256 * 2 ^ 24 + (v / 2 ^ 16) mod 256 * 2 ^ 16
      + (v / 2 ^ 8) mod 256 * 2 ^ 8 + v mod 256.
Proof.
  intros Hv. change (2 ^ 24) with 16777216. change (2 ^ 16) with 65536.
  change (2 ^ 8) with 256. change (2 ^ 32) with 4294967296 in Hv.
  Z.to_euclidean_division_equations. lia.
Qed.

Lemma put_uint32_inj a b :
  0 <= a < 2 ^ 32 -> 0 <= b < 2 ^ 32 -> put_uint32 a = put_uint32 b -> a = b.
Proof.
  intros Ha Hb H. rewrite !put_uint32_value in H. unfold uint32 in H.
  rewrite !(Z.mod_small _ (2 ^ 32)) in H by lia. injection H as H1 H2 H3 H4.
  rewrite (uint32_of_bytes a), (uint32_of_bytes b) by lia. by rewrite H1, H2, H3, H4.
Qed.

(** ** Go strings: [\[\]byte(s)] and [string(b)]. *)

Fixpoint string_bytes (s : string) : bytes :=
  match s with
  | EmptyString => []
  | String a s' => Z.of_N (Ascii.N_of_ascii a) :: string_bytes s'
  end.

Fixpoint bytes_string (b : bytes) : string :=
  match b with
  | [] => EmptyString
  | z :: b' => String (Ascii.ascii_of_N (Z.to_N z)) (bytes_string b')
  end.

Lemma bytes_string_bytes s : bytes_string (string_bytes s) = s.
Proof.
  induction s as [|a s IH]; simpl; [done|].
  by rewrite IH, N2Z.id, Ascii.ascii_N_embedding.
Qed.

Lemma string_bytes_inj s s' : string_bytes s = string_bytes s' -> s = s'.
Proof. intros H. by rewrite <- (bytes_string_bytes s), H, bytes_string_bytes. Qed.
