(* ===== verification/Failure.v ===== *)
(** * PKIStatus and PKIFailureInfo

    The status codes and the failure bit mask of [src/pkicmp/status.go], with
    their textual forms. A [PKIFailureInfo] is a Go [uint32], kept as a [Z]
    between 0 and 2^32; ASN.1 bit [k] is the integer bit [31 - k]. *)
From S2P Require Import Prelude.

(** ** PKIStatus *)

Abbreviation PKIStatus := Z.

Definition StatusAccepted : PKIStatus := 0.
Definition StatusGrantedWithMods : PKIStatus := 1.
Definition StatusRejection : PKIStatus := 2.
Definition StatusWaiting : PKIStatus := 3.
Definition StatusRevocationWarning : PKIStatus := 4.
Definition StatusRevocationNotification : PKIStatus := 5.
Definition StatusKeyUpdateWarning : PKIStatus := 6.

Definition PKIStatus_String (s : PKIStatus) : string :=
  if s =? StatusAccepted then "accepted"
  else if s =? StatusGrantedWithMods then "grantedWithMods"
  else if s =? StatusRejection then "rejection"
  else if s =? StatusWaiting then "waiting"
  else if s =? StatusRevocationWarning then "revocationWarning"
  else if s =? StatusRevocationNotification then "revocationNotification"
  else if s =? StatusKeyUpdateWarning then "keyUpdateWarning"
  else ("unknown(" +:+ pretty s +:+ ")").

(** ** PKIFailureInfo *)

Abbreviation PKIFailureInfo := Z.

(** [fail_bit k] is the Go constant [1 << (31 - k)]. *)
Definition fail_bit (k : Z) : PKIFailureInfo := Z.shiftl 1 (31 - k).

Definition FailBadAlg := fail_bit 0.
Definition FailBadMessageCheck := fail_bit 1.
Definition FailBadRequest := fail_bit 2.
Definition FailBadTime := fail_bit 3.
Definition FailBadCertId := fail_bit 4.
Definition FailBadDataFormat := fail_bit 5.
Definition FailWrongAuthority := fail_bit 6.
Definition FailIncorrectData := fail_bit 7.
Definition FailMissingTimeStamp := fail_bit 8.
Definition FailBadPOP := fail_bit 9.
Definition FailCertRevoked := fail_bit 10.
Definition FailCertConfirmed := fail_bit 11.
Definition FailWrongIntegrity := fail_bit 12.
Definition FailBadRecipientNonce := fail_bit 13.
Definition FailTimeNotAvailable := fail_bit 14.
Definition FailUnacceptedPolicy := fail_bit 15.
Definition FailUnacceptedExtension := fail_bit 16.
Definition FailAddInfoNotAvailable := fail_bit 17.
Definition FailBadSenderNonce := fail_bit 18.
Definition FailBadCertTemplate := fail_bit 19.
Definition FailSignerNotTrusted := fail_bit 20.
Definition FailTransactionIdInUse := fail_bit 21.
Definition FailUnsupportedVersion := fail_bit 22.
Definition FailNotAuthorized := fail_bit 23.
Definition FailSystemUnavail := fail_bit 24.
Definition FailSystemFailure := fail_bit 25.
Definition FailDuplicateCertReq := fail_bit 26.

Definition failureInfoNames : list (PKIFailureInfo * string) :=
  [ (FailBadAlg, "badAlg"); (FailBadMessageCheck, "badMessageCheck");
    (FailBadRequest, "badRequest"); (FailBadTime, "badTime");
    (FailBadCertId, "badCertId"); (FailBadDataFormat, "badDataFormat");
    (FailWrongAuthority, "wrongAuthority"); (FailIncorrectData, "incorrectData");
    (FailMissingTimeStamp, "missingTimeStamp"); (FailBadPOP, "badPOP");
    (FailCertRevoked, "certRevoked"); (FailCertConfirmed, "certConfirmed");
    (FailWrongIntegrity, "wrongIntegrity");
    (FailBadRecipientNonce, "badRecipientNonce");
    (FailTimeNotAvailable, "timeNotAvailable");
    (FailUnacceptedPolicy, "unacceptedPolicy");
    (FailUnacceptedExtension, "unacceptedExtension");
    (FailAddInfoNotAvailable, "addInfoNotAvailable");
    (FailBadSenderNonce, "badSenderNonce"); (FailBadCertTemplate, "badCertTemplate");
    (FailSignerNotTrusted, "signerNotTrusted");
    (FailTransactionIdInUse, "transactionIdInUse");
    (FailUnsupportedVersion, "unsupportedVersion");
    (FailNotAuthorized, "notAuthorized"); (FailSystemUnavail, "systemUnavail");
    (FailSystemFailure, "systemFailure"); (FailDuplicateCertReq, "duplicateCertReq") ].

(** The Go map lookup [failureInfoNames[bit]]. *)
Definition failure_name (bit : PKIFailureInfo) : option string :=
  snd <$> head (filter (fun p => fst p = bit) failureInfoNames).

(** [strings.Join]. *)
Fixpoint strings_join (sep : string) (parts : list string) : string :=
  match parts with
  | [] => ""
  | [p] => p
  | p :: rest => p +:+ sep +:+ strings_join sep rest
  end.

(** The [parts] slice that [PKIFailureInfo.String] collects for bits 0 to 26. *)
Definition failure_parts (f : PKIFailureInfo) : list string :=
  omap (fun i : nat =>
    let bit := fail_bit (Z.of_nat i) in
    if Z.land f bit =? 0 then None
    else match failure_name bit with
         | Some name => Some name
         | None => Some ("unknown(" +:+ pretty (Z.of_nat i) +:+ ")")
         end) (seq 0 27).

Definition PKIFailureInfo_String (f : PKIFailureInfo) : string :=
  strings_join ", " (failure_parts f).

(** ** Lemmas on the bit mask *)

Lemma fail_bit_pow k : 0 <= k <= 31 -> fail_bit k = 2 ^ (31 - k).
Proof. intros. unfold fail_bit. by rewrite Z.shiftl_1_l. Qed.

(** A mask test [f & Fail... != 0] is the test of one bit. *)
Lemma land_fail_bit f k :
  0 <= k <= 31 -> (Z.land f (fail_bit k) =? 0) = negb (Z.testbit f (31 - k)).
Proof.
  intros Hk. rewrite fail_bit_pow by done.
  destruct (Z.testbit f (31 - k)) eqn:E; simpl.
  - apply Z.eqb_neq. intros H. apply (f_equal (fun z => Z.testbit z (31 - k))) in H.
    rewrite Z.land_spec, E, Z.pow2_bits_true, Z.bits_0 in H by lia. done.
  - apply Z.eqb_eq, Z.bits_inj'. intros n Hn.
    rewrite Z.land_spec, Z.bits_0, Z.pow2_bits_eqb by lia.
    destruct (Z.eqb_spec (31 - k) n) as [<-|]; [by rewrite E | by rewrite andb_false_r].
Qed.

Lemma failure_names_total : forall i, (i < 27)%nat ->
  exists name, failure_name (fail_bit (Z.of_nat i)) = Some name.
Proof.
  intros i Hi. do 27 (destruct i as [|i]; [vm_compute; eauto|]). lia.
Qed.
