(* ===== verification/Errors.v ===== *)
(** * Error values

    The error types of [src/pkicmp/errors.go], [src/pkicmp/status.go],
    [src/server/errors.go] and [src/client/errors.go], and the errors the
    packages make with [errors.New] and [fmt.Errorf], as one inductive type with
    the [Unwrap] chain that [errors.As] follows. *)
From S2P Require Import Prelude Failure.

(** [InvalidReason] with its Go constants in [iota] order. *)
Inductive InvalidReason :=
| ReasonUnknown
| ReasonUnsupportedAlgorithm
| ReasonMissingSharedSecret
| ReasonMissingSigner
| ReasonBadMAC
| ReasonSignatureFailed
| ReasonMissingTrustAnchors
| ReasonUnexpectedProtection
| ReasonSenderMismatch
| ReasonKeyUsageNotPermitted
| ReasonCertificateExpired
| ReasonNoCandidateSigner.

#[export] Instance InvalidReason_eq_dec : EqDecision InvalidReason.
Proof. solve_decision. Defined.

Definition InvalidReason_String (r : InvalidReason) : string :=
  match r with
  | ReasonUnknown => "unknown"
  | ReasonUnsupportedAlgorithm => "unsupported algorithm"
  | ReasonMissingSharedSecret => "missing shared secret"
  | ReasonMissingSigner => "missing signer"
  | ReasonBadMAC => "MAC verification failed"
  | ReasonSignatureFailed => "signature verification failed"
  | ReasonMissingTrustAnchors => "missing trust anchors"
  | ReasonUnexpectedProtection => "unexpected protection mechanism"
  | ReasonSenderMismatch => "sender does not match protection certificate subject"
  | ReasonKeyUsageNotPermitted => "protection certificate is not permitted to sign"
  | ReasonCertificateExpired => "protection certificate is outside its validity period"
  | ReasonNoCandidateSigner => "no candidate signer certificate"
  end.

(** The errors of the program. [errorString] is [errors.New] or [fmt.Errorf]
    without [%w]; [wrapError text e] is [fmt.Errorf] with [%w] on [e], [text]
    being the formatted message; [errors_Join e e'] is [errors.Join];
    [externalError] is an error made by code outside [src/]; [OutOfFuel] is not
    an error of the program: it marks a bounded loop of the model that ran out of
    fuel, which the parsing theorems rule out. [GoPanic] marks a point where the
    Go code panics: on a nil pointer, or in [BytesOrPanic]. *)
Inductive error :=
| ParseError (Detail : string) (Err_ : option error)
| VerificationError (Reason : InvalidReason) (Err_ : option error)
| ProtectionError (Reason : InvalidReason) (Err_ : option error)
| PKIStatusError (Status : PKIStatus) (StatusString : string) (FailInfo : PKIFailureInfo)
| ErrWaiting
| ServerError (Status : PKIStatus) (FailureInfo : PKIFailureInfo) (StatusText : string)
| ClientError (Op : string) (Err_ : option error)
| UnverifiedStatusError (Status : PKIStatus) (StatusString : string)
    (FailInfo : PKIFailureInfo) (Err_ : option error)
| errorString (text : string)
| wrapError (text : string) (Err_ : error)
| errors_Join (e e' : error)
| externalError (code : Z)
| OutOfFuel
| GoPanic.

(** The [Unwrap] methods. *)
Definition Unwrap (e : error) : option error :=
  match e with
  | ParseError _ e' | VerificationError _ e' | ProtectionError _ e'
  | ClientError _ e' | UnverifiedStatusError _ _ _ e' => e'
  | wrapError _ e' => Some e'
  | _ => None
  end.

(** [errors_As pick e] is [errors.As] / [errors.AsType]: the first error of the
    chain, depth first, that [pick] recognises. *)
Fixpoint errors_As {A} (pick : error -> option A) (e : error) {struct e} : option A :=
  match pick e with
  | Some a => Some a
  | None =>
      match e with
      | ParseError _ (Some e') | VerificationError _ (Some e')
      | ProtectionError _ (Some e') | ClientError _ (Some e')
      | UnverifiedStatusError _ _ _ (Some e') => errors_As pick e'
      | wrapError _ e' => errors_As pick e'
      | errors_Join e1 e2 =>
          match errors_As pick e1 with Some a => Some a | None => errors_As pick e2 end
      | _ => None
      end
  end.

Definition as_VerificationError (e : error) : option InvalidReason :=
  match e with VerificationError r _ => Some r | _ => None end.

Definition as_ParseError (e : error) : option string :=
  match e with ParseError d _ => Some d | _ => None end.

Definition as_PKIStatusError (e : error) : option (PKIStatus * string * PKIFailureInfo) :=
  match e with PKIStatusError s t f => Some (s, t, f) | _ => None end.

Definition as_ServerError (e : error) : option (PKIStatus * PKIFailureInfo * string) :=
  match e with ServerError s f t => Some (s, f, t) | _ => None end.

(** [errors.Is(err, pkicmp.ErrWaiting)]. *)
Definition is_ErrWaiting (e : error) : bool :=
  negb (is_nil (errors_As (fun e => match e with ErrWaiting => Some tt | _ => None end) e)).

(** The [": %v"] suffix of an optional wrapped error. *)
Definition colon_err (text : option string) : string :=
  match text with None => "" | Some t => ": " +:+ t end.

(** The [Error] methods of the types; a wrapped error is given by its own text. *)
Definition failInfo_suffix (f : PKIFailureInfo) : string :=
  if f =? 0 then "" else ", failInfo: " +:+ PKIFailureInfo_String f.
Definition ParseError_Error (detail : string) (err : option string) : string :=
  "pkicmp: " +:+ detail +:+ colon_err err.
Definition VerificationError_Error (r : InvalidReason) (err : option string) : string :=
  "pkicmp: verification failed: " +:+ InvalidReason_String r +:+ colon_err err.
Definition ProtectionError_Error (r : InvalidReason) (err : option string) : string :=
  "pkicmp: protection failed: " +:+ InvalidReason_String r +:+ colon_err err.
Definition PKIStatusError_Error (s : PKIStatus) (t : string) (f : PKIFailureInfo) : string :=
  "pkicmp: status " +:+ PKIStatus_String s +:+ failInfo_suffix f
  +:+ (if decide (t = "") then "" else ", details: " +:+ t).
Definition ServerError_Error (s : PKIStatus) (f : PKIFailureInfo) (t : string) : string :=
  "server: status " +:+ PKIStatus_String s +:+ failInfo_suffix f
  +:+ (if decide (t = "") then "" else ": " +:+ t).
Definition ClientError_Error (op : string) (err : option string) : string :=
  "cmp: " +:+ op +:+ colon_err err.
Definition UnverifiedStatusError_Error (s : PKIStatus) (f : PKIFailureInfo) (err : option string) : string :=
  "cmp: unverified status " +:+ PKIStatus_String s +:+ failInfo_suffix f +:+ colon_err err.

(** The text of an error. *)
Fixpoint Error_text (e : error) : string :=
  match e with
  | ParseError d e' => ParseError_Error d (Error_text <$> e')
  | VerificationError r e' => VerificationError_Error r (Error_text <$> e')
  | ProtectionError r e' => ProtectionError_Error r (Error_text <$> e')
  | PKIStatusError s t f => PKIStatusError_Error s t f
  | ErrWaiting => "pkicmp: waiting"
  | ServerError s f t => ServerError_Error s f t
  | ClientError op e' => ClientError_Error op (Error_text <$> e')
  | UnverifiedStatusError s _ f e' => UnverifiedStatusError_Error s f (Error_text <$> e')
  | errorString t => t
  | wrapError t _ => t
  | errors_Join e1 e2 => Error_text e1 +:+ String (Ascii.ascii_of_nat 10) EmptyString +:+ Error_text e2
  | externalError c => "external error " +:+ pretty c
  | OutOfFuel => "out of fuel"
  | GoPanic => "panic"
  end.

(** [fmt.Errorf("prefix: %w", e)]. *)
Definition Errorf_w (prefix : string) (e : error) : error :=
  wrapError (prefix +:+ ": " +:+ Error_text e) e.

(** [HasFailure] of [src/pkicmp/status.go]. *)
Definition HasFailure (err : error) (info : PKIFailureInfo) : bool :=
  match errors_As as_PKIStatusError err with
  | Some (_, _, failInfo) => negb (Z.land failInfo info =? 0)
  | None => false
  end.

Abbreviation result A := (res error A).

(** [rejection] of [src/server/errors.go]. *)
Definition rejection (failInfo : PKIFailureInfo) (text : string) : error :=
  ServerError StatusRejection failInfo text.

(** A plain [&ParseError{Detail: d}]. *)
Definition parse_error (d : string) : error := ParseError d None.

(** What no decoder may give, whatever its callers wrap around it: the mark of a bounded
    loop that ran out of fuel, a panic, or the status of a peer, which only [AsError]
    makes an error of. *)
Definition as_disorder (e : error) : option unit :=
  match e with OutOfFuel | GoPanic | PKIStatusError _ _ _ => Some tt | _ => None end.
Definition disorderly (e : error) : bool := negb (is_nil (errors_As as_disorder e)).

(** [completes r]: a value, or an error in order. *)
Definition completes {A} (r : result A) : Prop :=
  match r with Ok _ => True | Err e => disorderly e = false end.
