(* ===== verification/Asn1.v ===== *)
(** * The ASN.1 layer the codecs are written against

    [src/pkicmp] encodes with [cryptobyte.Builder] and decodes with
    [cryptobyte.String], of golang.org/x/crypto, which is not part of the
    repository. [Cryptobyte] is what the codecs use of it, as a type class; its
    laws state the documented behaviour: a built element reads back, and a read
    takes a whole DER element off the front. [Der.v] gives an instance. On top of
    it this file defines the builder and the readers the source calls by name. *)
From S2P Require Import Prelude Failure Errors.

(** A tag is the identifier octet; a time is the number of nanoseconds since
    Go's zero time, January 1, year 1, 00:00:00 UTC. *)
Abbreviation Tag := Z.
Abbreviation Time := Z.
Abbreviation ObjectIdentifier := (list Z).

(** ** Tags *)

Definition BOOLEAN : Tag := 1.
Definition INTEGER : Tag := 2.
Definition BIT_STRING : Tag := 3.
Definition OCTET_STRING : Tag := 4.
Definition NULL : Tag := 5.
Definition OBJECT_IDENTIFIER : Tag := 6.
Definition UTF8String : Tag := 12.
Definition SEQUENCE : Tag := 48.
Definition SET : Tag := 49.
Definition GeneralizedTimeTag : Tag := 24.

(** [cbasn1.Tag(n).ContextSpecific()] and [.Constructed()]. *)
Definition ContextSpecific (t : Tag) : Tag := Z.lor t 128.
Definition Constructed (t : Tag) : Tag := Z.lor t 32.
Definition ctx (n : Z) : Tag := ContextSpecific n.
Definition ctxc (n : Z) : Tag := Constructed (ContextSpecific n).

(** ** The interface

    [tlv t c]: the element with tag [t] and content [c], [None] when the builder
    reports an error (a high tag number, or a content too long for four length
    octets). [read_any s]: tag, whole element, content and remaining input of the
    element [s] starts with. The others are the content octets of INTEGER, OBJECT
    IDENTIFIER and GeneralizedTime values. *)
Class Cryptobyte := {
  tlv : Tag -> bytes -> option bytes;
  read_any : bytes -> option (Tag * bytes * bytes * bytes);
  int_content : Z -> bytes;
  int_value : bytes -> option Z;
  oid_content : ObjectIdentifier -> option bytes;
  oid_value : bytes -> option ObjectIdentifier;
  gtime_content : Time -> option bytes;
  gtime_value : bytes -> option Time
}.

(** GeneralizedTime carries whole seconds. *)
Definition truncate_second (t : Time) : Time := t / 10 ^ 9 * 10 ^ 9.

(** The range of a Go [int64]. *)
Definition int64_ok (n : Z) : bool := (- 2 ^ 63 <=? n) && (n <? 2 ^ 63).

(** The octets of an OBJECT IDENTIFIER hold subidentifiers, the first of which joins two
    components. The reader takes those below 2^31 only. *)
Definition subidentifiers (o : ObjectIdentifier) : list Z :=
  match o with a :: b :: rest => a * 40 + b :: rest | _ => [] end.
Definition OID_ok (o : ObjectIdentifier) : bool := forallb (fun v => v <? 2 ^ 31) (subidentifiers o).

Class CryptobyteLaws (CB : Cryptobyte) : Prop := {
  tlv_read t c e rest :
    tlv t c = Some e -> read_any (e ++ rest) = Some (t, e, c, rest);
  tlv_retag t t' c e :
    tlv t c = Some e -> Z.land t' 31 <> 31 -> exists e', tlv t' c = Some e';
  tlv_head t c e : tlv t c = Some e -> exists e', e = t :: e';
  read_any_split s t e c rest :
    read_any s = Some (t, e, c, rest) -> s = e ++ rest /\ exists e', e = t :: e';
  read_any_tlv s t e c rest :
    read_any s = Some (t, e, c, rest) -> tlv t c = Some e;
  int_roundtrip n : int_value (int_content n) = Some n;
  int64_builds n : int64_ok n = true -> exists e, tlv INTEGER (int_content n) = Some e;
  int_canonical c n : int_value c = Some n -> int_content n = c;
  oid_roundtrip o c : OID_ok o = true -> oid_content o = Some c -> oid_value c = Some o;
  oid_range c o : oid_value c = Some o -> OID_ok o = true;
  gtime_roundtrip t c : gtime_content t = Some c -> gtime_value c = Some (truncate_second t)
}.

Section Cryptobyte.
Context {CB : Cryptobyte}.

(** ** The builder

    A [Builder] value is what a call adds to the output, or the first error
    reported, together with the last assignment the call makes to
    [mctx.MinRequiredPVNO], the state the source threads beside it. *)
Record Builder := mkBuilder { bout : result bytes; bpvno : option Z }.

Definition b_nil : Builder := mkBuilder (Ok []) None.
Definition AddBytes (bs : bytes) : Builder := mkBuilder (Ok bs) None.
Definition AddUint8 (v : Z) : Builder := AddBytes [v].
Definition SetError (e : error) : Builder := mkBuilder (Err e) None.
Definition set_pvno (v : Z) : Builder := mkBuilder (Ok []) (Some v).

(** Two calls in a row. *)
Definition b_seq (b1 b2 : Builder) : Builder :=
  mkBuilder
    (let? o1 := bout b1 in let? o2 := bout b2 in Ok (o1 ++ o2))
    (match bpvno b2 with Some v => Some v | None => bpvno b1 end).

Definition b_if (c : bool) (b : Builder) : Builder := if c then b else b_nil.

(** [for _, x := range l { f(x) }]. *)
Definition b_list {A} (f : A -> Builder) (l : list A) : Builder :=
  foldr (fun x acc => b_seq (f x) acc) b_nil l.

(** [if p != nil { f(p) }]. *)
Definition b_opt {A} (p : option A) (f : A -> Builder) : Builder :=
  match p with Some x => f x | None => b_nil end.

Definition cryptobyte_error : error := externalError 1.

Definition AddASN1 (t : Tag) (b : Builder) : Builder :=
  mkBuilder (let? c := bout b in of_option cryptobyte_error (tlv t c)) (bpvno b).

(** [AddASN1Int64] and [AddASN1BigInt]. *)
Definition AddASN1Integer (n : Z) : Builder := AddASN1 INTEGER (AddBytes (int_content n)).
Definition AddASN1OctetString (bs : bytes) : Builder := AddASN1 OCTET_STRING (AddBytes bs).
Definition AddASN1ObjectIdentifier (o : ObjectIdentifier) : Builder :=
  match oid_content o with
  | Some c => AddASN1 OBJECT_IDENTIFIER (AddBytes c)
  | None => SetError cryptobyte_error
  end.
Definition AddASN1GeneralizedTime (t : Time) : Builder :=
  match gtime_content t with
  | Some c => AddASN1 GeneralizedTimeTag (AddBytes c)
  | None => SetError cryptobyte_error
  end.

(** [b.Bytes()]. *)
Definition Bytes (b : Builder) : result bytes := bout b.

(** ** The readers

    A read gives the value and the remaining input, or [None] for the Go result
    [false]; a failed read leaves its input alone. *)
Definition ReadAnyASN1 (s : bytes) : option (bytes * Tag * bytes) :=
  '(t, _, c, rest) ← read_any s; Some (c, t, rest).
Definition ReadAnyASN1Element (s : bytes) : option (bytes * Tag * bytes) :=
  '(t, e, _, rest) ← read_any s; Some (e, t, rest).
Definition ReadASN1 (tag : Tag) (s : bytes) : option (bytes * bytes) :=
  '(t, _, c, rest) ← read_any s; if t =? tag then Some (c, rest) else None.
Definition ReadASN1Element (tag : Tag) (s : bytes) : option (bytes * bytes) :=
  '(t, e, _, rest) ← read_any s; if t =? tag then Some (e, rest) else None.
Definition ReadASN1Bytes (tag : Tag) (s : bytes) : option (bytes * bytes) := ReadASN1 tag s.
Definition PeekASN1Tag (tag : Tag) (s : bytes) : bool :=
  match s with [] => false | b :: _ => b =? tag end.
Definition Empty (s : bytes) : bool := negb (nonempty s).
Definition ReadUint8 (s : bytes) : option (Z * bytes) :=
  match s with [] => None | b :: rest => Some (b, rest) end.

(** [ReadASN1Integer] into a [*big.Int], and into an [*int64], which also
    fails when the value does not fit. *)
Definition ReadASN1BigInt (s : bytes) : option (Z * bytes) :=
  '(c, rest) ← ReadASN1 INTEGER s; n ← int_value c; Some (n, rest).
Definition ReadASN1Int64 (s : bytes) : option (Z * bytes) :=
  '(n, rest) ← ReadASN1BigInt s; if int64_ok n then Some (n, rest) else None.
Definition ReadASN1ObjectIdentifier (s : bytes) : option (ObjectIdentifier * bytes) :=
  '(c, rest) ← ReadASN1 OBJECT_IDENTIFIER s; o ← oid_value c; Some (o, rest).
Definition ReadASN1GeneralizedTime (s : bytes) : option (Time * bytes) :=
  '(c, rest) ← ReadASN1 GeneralizedTimeTag s; t ← gtime_value c; Some (t, rest).

(** [isSingleElement] of [src/pkicmp/revocation.go]. *)
Definition isSingleElement (der : bytes) (tag : Tag) : bool :=
  match ReadASN1Element tag der with
  | Some (_, rest) => Empty rest
  | None => false
  end.

(** ** The decoding loop [for !seq.Empty() { x.unmarshal(&seq); append }]

    Each pass of the source takes at least one octet, so the length of the input
    bounds the number of passes; [read_list_total] below shows that the fuel is
    never exhausted. *)
Definition reader (A : Type) : Type := bytes -> result (A * bytes).

Fixpoint read_list_fuel {A} (fuel : nat) (u : reader A) (s : bytes) : result (list A) :=
  if Empty s then Ok []
  else match fuel with
       | O => Err OutOfFuel
       | S fuel' =>
           let? (x, rest) := u s in
           let? xs := read_list_fuel fuel' u rest in
           Ok (x :: xs)
       end.

Definition read_list {A} (u : reader A) (s : bytes) : result (list A) :=
  read_list_fuel (length s) u s.

(** The decoding loop that updates a value on each pass. *)
Fixpoint read_fold_fuel {A} (fuel : nat) (step : A -> reader A) (acc : A) (s : bytes)
    : result A :=
  if Empty s then Ok acc
  else match fuel with
       | O => Err OutOfFuel
       | S fuel' => let? (acc', rest) := step acc s in read_fold_fuel fuel' step acc' rest
       end.
Definition read_fold {A} (step : A -> reader A) (acc : A) (s : bytes) : result A :=
  read_fold_fuel (length s) step acc s.

End Cryptobyte.

Infix "⊕" := b_seq (at level 60, right associativity) : cmp_scope.

#[global] Arguments bout : simpl never.
#[global] Arguments b_seq : simpl never.
#[global] Arguments b_list : simpl never.
#[global] Arguments AddASN1 : simpl never.
#[global] Arguments AddASN1Integer : simpl never.
#[global] Arguments AddASN1ObjectIdentifier : simpl never.
#[global] Arguments AddASN1GeneralizedTime : simpl never.
#[global] Arguments AddASN1OctetString : simpl never.
#[global] Arguments AddBytes : simpl never.
#[global] Arguments SetError : simpl never.
#[global] Arguments read_list : simpl never.
#[global] Arguments read_fold : simpl never.
