(* ===== verification/Asn1Facts.v ===== *)
(** * Round trips over the ASN.1 layer

    [roundtrips m u wf]: what [m] builds for a [wf] value, [u] reads back,
    leaving the rest of the input. The lemmas here carry round trips from the
    primitive elements to the structures of the codecs, and [rt] is the tactic
    that runs a reader on a built value. *)
From S2P Require Import Prelude Failure Errors Asn1.

(** What the builders produced, split into its parts. *)
Definition roundtrips {A} (m : A -> Builder) (u : reader A) (wf : A -> Prop) : Prop :=
  forall x e r, wf x -> bout (m x) = Ok e -> u (e ++ r) = Ok (x, r).

(** The round trips the tactic [rt_step] looks up. *)
Class Roundtrips {A} (m : A -> Builder) (u : reader A) (wf : A -> Prop) : Prop :=
  rt_spec : roundtrips m u wf.

(** The first octet a marshal method writes. *)
Class Starts {A} (m : A -> Builder) (t : Tag) (wf : A -> Prop) : Prop :=
  starts_spec : forall x e, wf x -> bout (m x) = Ok e -> exists e', e = t :: e'.

(** A marshal method that always writes something. *)
Class Writes {A} (m : A -> Builder) (wf : A -> Prop) : Prop :=
  writes_spec : forall x e, wf x -> bout (m x) = Ok e -> e <> [].

(** A read at the end of the input is the read with an empty rest. *)
Lemma at_end {A} (f g : bytes -> A) (e : bytes) :
  (forall r, f (e ++ r) = g r) -> f e = g [].
Proof. intros H. by rewrite <- H, app_nil_r. Qed.

(** [starts t e]: the first octet of [e] is the tag [t]. *)
Definition starts (t : Tag) (e : bytes) : Prop := exists e', e = t :: e'.

Section Facts.
Context {CB : Cryptobyte} {L : CryptobyteLaws CB}.

Lemma bout_mk o p : bout (mkBuilder o p) = o.
Proof. reflexivity. Qed.

Lemma bout_seq b1 b2 e :
  bout (b1 ⊕ b2) = Ok e ->
  exists e1 e2, bout b1 = Ok e1 /\ bout b2 = Ok e2 /\ e = e1 ++ e2.
Proof. unfold b_seq. rewrite bout_mk. intros H. split_res. eauto. Qed.

Lemma bout_AddASN1 t b e :
  bout (AddASN1 t b) = Ok e -> exists c, bout b = Ok c /\ tlv t c = Some e.
Proof. unfold AddASN1. rewrite bout_mk. intros H. split_res. eauto. Qed.

Lemma bout_AddBytes bs e : bout (AddBytes bs) = Ok e -> e = bs.
Proof. unfold AddBytes. rewrite bout_mk. congruence. Qed.

Lemma bout_nil e : bout b_nil = Ok e -> e = [].
Proof. unfold b_nil. rewrite bout_mk. congruence. Qed.

Lemma bout_AddASN1ObjectIdentifier o e :
  bout (AddASN1ObjectIdentifier o) = Ok e ->
  exists c, oid_content o = Some c /\ tlv OBJECT_IDENTIFIER c = Some e.
Proof.
  unfold AddASN1ObjectIdentifier. destruct (oid_content o); [|done].
  intros H. apply bout_AddASN1 in H as (? & [= <-] & ?). eauto.
Qed.

Lemma bout_AddASN1GeneralizedTime t e :
  bout (AddASN1GeneralizedTime t) = Ok e ->
  exists c, gtime_content t = Some c /\ tlv GeneralizedTimeTag c = Some e.
Proof.
  unfold AddASN1GeneralizedTime. destruct (gtime_content t); [|done].
  intros H. apply bout_AddASN1 in H as (? & [= <-] & ?). eauto.
Qed.

Lemma tlv_starts t c e : tlv t c = Some e -> starts t e.
Proof. apply tlv_head. Qed.

Lemma AddASN1_starts t b e : bout (AddASN1 t b) = Ok e -> starts t e.
Proof. intros (c & _ & H)%bout_AddASN1. by apply tlv_starts in H. Qed.

(** ** Readers on built elements *)

Lemma Peek_starts t t' e r : starts t' e -> PeekASN1Tag t (e ++ r) = (t' =? t).
Proof. by intros [e' ->]. Qed.
Lemma Empty_starts t e r : starts t e -> Empty (e ++ r) = false.
Proof. by intros [e' ->]. Qed.

Lemma ReadASN1_tlv t c e r : tlv t c = Some e -> ReadASN1 t (e ++ r) = Some (c, r).
Proof. intros H. unfold ReadASN1. rewrite (tlv_read _ _ _ r H). simpl. by rewrite Z.eqb_refl. Qed.
Lemma ReadASN1Element_tlv t c e r :
  tlv t c = Some e -> ReadASN1Element t (e ++ r) = Some (e, r).
Proof.
  intros H. unfold ReadASN1Element. rewrite (tlv_read _ _ _ r H). simpl. by rewrite Z.eqb_refl.
Qed.
Lemma ReadAnyASN1_tlv t c e r : tlv t c = Some e -> ReadAnyASN1 (e ++ r) = Some (c, t, r).
Proof. intros H. unfold ReadAnyASN1. by rewrite (tlv_read _ _ _ r H). Qed.
Lemma ReadAnyASN1Element_tlv t c e r :
  tlv t c = Some e -> ReadAnyASN1Element (e ++ r) = Some (e, t, r).
Proof. intros H. unfold ReadAnyASN1Element. by rewrite (tlv_read _ _ _ r H). Qed.

Lemma ReadASN1BigInt_add n e r :
  bout (AddASN1Integer n) = Ok e -> ReadASN1BigInt (e ++ r) = Some (n, r).
Proof.
  intros (c & Hc & H)%bout_AddASN1. injection Hc as <-.
  unfold ReadASN1BigInt. rewrite (ReadASN1_tlv _ _ _ r H). simpl. by rewrite int_roundtrip.
Qed.
Lemma ReadASN1Int64_add n e r :
  int64_ok n = true -> bout (AddASN1Integer n) = Ok e -> ReadASN1Int64 (e ++ r) = Some (n, r).
Proof.
  intros Hn H. unfold ReadASN1Int64. rewrite (ReadASN1BigInt_add _ _ r H). simpl. by rewrite Hn.
Qed.
Lemma ReadASN1ObjectIdentifier_add o e r :
  OID_ok o = true -> bout (AddASN1ObjectIdentifier o) = Ok e -> ReadASN1ObjectIdentifier (e ++ r) = Some (o, r).
Proof.
  intros Ho (c & Hc & H)%bout_AddASN1ObjectIdentifier. unfold ReadASN1ObjectIdentifier.
  rewrite (ReadASN1_tlv _ _ _ r H). simpl. by rewrite (oid_roundtrip _ _ Ho Hc).
Qed.
Lemma ReadASN1ObjectIdentifier_range s o r : ReadASN1ObjectIdentifier s = Some (o, r) -> OID_ok o = true.
Proof.
  unfold ReadASN1ObjectIdentifier. destruct (ReadASN1 _ _) as [[c r']|]; simpl; [|done].
  destruct (oid_value c) eqn:E; simpl; [|done]. intros [= <- _]. by eapply oid_range.
Qed.
Lemma ReadASN1GeneralizedTime_add t e r :
  bout (AddASN1GeneralizedTime t) = Ok e ->
  ReadASN1GeneralizedTime (e ++ r) = Some (truncate_second t, r).
Proof.
  intros (c & Hc & H)%bout_AddASN1GeneralizedTime. unfold ReadASN1GeneralizedTime.
  rewrite (ReadASN1_tlv _ _ _ r H). simpl. by rewrite (gtime_roundtrip _ _ Hc).
Qed.
Lemma AddASN1ObjectIdentifier_starts o e :
  bout (AddASN1ObjectIdentifier o) = Ok e -> starts OBJECT_IDENTIFIER e.
Proof. intros (c & _ & H)%bout_AddASN1ObjectIdentifier. by apply tlv_starts in H. Qed.
Lemma AddASN1Integer_starts n e : bout (AddASN1Integer n) = Ok e -> starts INTEGER e.
Proof. apply AddASN1_starts. Qed.

(** ** Single elements *)

(** [element t e]: [e] is one DER element with tag [t], with content [c]. *)
Lemma single_element_tlv t c e : tlv t c = Some e -> isSingleElement e t = true.
Proof.
  intros H. unfold isSingleElement.
  rewrite <- (app_nil_r e), (ReadASN1Element_tlv _ _ _ [] H). done.
Qed.

Lemma single_element_inv t e :
  isSingleElement e t = true -> exists c, tlv t c = Some e.
Proof.
  unfold isSingleElement, ReadASN1Element. intros H.
  destruct (read_any e) as [[[[t' e'] c] r]|] eqn:E; simpl in H; [|done].
  destruct (Z.eqb_spec t' t) as [->|]; [|done].
  destruct r; [|done]. pose proof (read_any_split _ _ _ _ _ E) as [Hs _].
  rewrite app_nil_r in Hs. subst e'. exists c. by eapply read_any_tlv.
Qed.

(** ** Loops *)

(** [consumes u]: a successful read takes at least one octet. *)
Definition consumes {A} (u : reader A) : Prop :=
  forall s x r, u s = Ok (x, r) -> (length r < length s)%nat.

Lemma read_any_shorter s t e c r :
  read_any s = Some (t, e, c, r) -> (length r < length s)%nat.
Proof.
  intros H. pose proof (read_any_split _ _ _ _ _ H) as [-> [e' ->]].
  rewrite length_app. simpl. lia.
Qed.

Lemma ReadASN1_shorter t s c r : ReadASN1 t s = Some (c, r) -> (length r < length s)%nat.
Proof.
  unfold ReadASN1. destruct (read_any s) as [[[[t' e'] c'] r']|] eqn:E; simpl; [|done].
  destruct (t' =? t); intros [= <- <-]. by eapply read_any_shorter.
Qed.

Lemma ReadAnyASN1Element_shorter s e t r :
  ReadAnyASN1Element s = Some (e, t, r) -> (length r < length s)%nat.
Proof.
  unfold ReadAnyASN1Element.
  destruct (read_any s) as [[[[t' e'] c'] r']|] eqn:E; simpl; [|done].
  intros [= <- <- <-]. by eapply read_any_shorter.
Qed.

Lemma read_list_fuel_S {A} fuel (u : reader A) s :
  Empty s = false ->
  read_list_fuel (S fuel) u s =
  (let? (x, rest) := u s in let? xs := read_list_fuel fuel u rest in Ok (x :: xs)).
Proof. intros H. simpl. by rewrite H. Qed.

Lemma read_list_roundtrip {A} (m : A -> Builder) (u : reader A) wf l e :
  roundtrips m u wf -> (forall x ex, wf x -> bout (m x) = Ok ex -> ex <> []) ->
  Forall wf l -> bout (b_list m l) = Ok e -> read_list u e = Ok l.
Proof.
  intros Hrt Hne Hwf He. unfold read_list.
  assert (Hf : (length e <= length e)%nat) by lia. revert Hf.
  generalize (length e) at 2 3 as fuel. revert e He.
  induction Hwf as [|x l Hx Hwf IH]; intros e He fuel Hf.
  - apply bout_nil in He as ->. by destruct fuel.
  - apply bout_seq in He as (e1 & e2 & H1 & H2 & ->).
    assert (He1 : Empty (e1 ++ e2) = false) by (destruct e1; [by destruct (Hne _ _ Hx H1) | done]).
    assert (Hl : (0 < length e1)%nat) by (destruct e1; simpl; [by destruct (Hne _ _ Hx H1) | lia]).
    rewrite length_app in Hf. destruct fuel as [|fuel]; [lia|].
    rewrite read_list_fuel_S, (Hrt x e1 e2 Hx H1) by done. simpl.
    by rewrite (IH e2 H2 fuel) by lia.
Qed.

Lemma read_list_rt {A} (m : A -> Builder) (u : reader A) wf l e
  (R : Roundtrips m u wf) (W : Writes m wf) :
  Forall wf l -> bout (b_list m l) = Ok e -> read_list u e = Ok l.
Proof. intros. by eapply (read_list_roundtrip m u wf). Qed.

Lemma starts_writes {A} (m : A -> Builder) t wf : Starts m t wf -> Writes m wf.
Proof. intros S x e Hx He. destruct (S x e Hx He) as [e' ->]. done. Qed.

(** The fuel of [read_list] is enough: it only fails when an element does. *)
Lemma read_list_total {A} (u : reader A) s :
  consumes u -> (forall s', completes (u s')) -> completes (read_list u s).
Proof.
  intros Hc Hu. unfold read_list.
  assert (Hf : (length s <= length s)%nat) by lia. revert Hf.
  generalize (length s) at 2 3 as fuel. intros fuel. revert s.
  induction fuel as [|fuel IH]; intros s Hf; simpl.
  - destruct s; simpl in *; [done | lia].
  - destruct (Empty s); [done|]. specialize (Hu s).
    destruct (u s) as [[x r]|err] eqn:E; simpl; [|done].
    pose proof (Hc _ _ _ E). specialize (IH r ltac:(lia)).
    by destruct (read_list_fuel fuel u r).
Qed.

(** The fuel of [read_fold] beyond the length of the input changes nothing. *)
Lemma read_fold_fuel_enough {A} (step : A -> reader A) :
  (forall acc, consumes (step acc)) ->
  forall n m acc s, (length s <= n)%nat -> (length s <= m)%nat ->
  read_fold_fuel n step acc s = read_fold_fuel m step acc s.
Proof.
  intros Hc n. induction n as [|n IH]; intros m acc s Hn Hm.
  - destruct s; simpl in Hn; [by destruct m | lia].
  - destruct s as [|b s]; [by destruct m|]. destruct m as [|m]; [simpl in Hm; lia|].
    simpl. destruct (step acc (b :: s)) as [[acc' r]|] eqn:E; [|done].
    pose proof (Hc _ _ _ _ E). simpl in *. apply IH; lia.
Qed.

Lemma read_fold_cons {A} (step : A -> reader A) acc s :
  (forall acc, consumes (step acc)) -> s <> [] ->
  read_fold step acc s = (let? (acc', r) := step acc s in read_fold step acc' r).
Proof.
  intros Hc Hs. unfold read_fold. destruct s as [|b s]; [done|]. simpl.
  destruct (step acc (b :: s)) as [[acc' r]|] eqn:E; [|done]. simpl.
  pose proof (Hc _ _ _ _ E). simpl in *. apply read_fold_fuel_enough; [done|lia|lia].
Qed.

Lemma read_fold_total {A} (step : A -> reader A) acc s :
  (forall acc, consumes (step acc)) -> (forall acc s', completes (step acc s')) ->
  completes (read_fold step acc s).
Proof.
  intros Hc Hu. unfold read_fold.
  assert (Hf : (length s <= length s)%nat) by lia. revert Hf.
  generalize (length s) at 2 3 as fuel. intros fuel. revert acc s.
  induction fuel as [|fuel IH]; intros acc s Hf; simpl.
  - destruct s; simpl in *; [done | lia].
  - destruct (Empty s); [done|]. specialize (Hu acc s).
    destruct (step acc s) as [[x r]|err] eqn:E; simpl; [|done].
    pose proof (Hc _ _ _ _ E). apply IH. lia.
Qed.

(** What the element reader guarantees, every element of the list has. *)
Lemma read_list_Forall {A} (u : reader A) (P : A -> Prop) s l :
  (forall s' x r, u s' = Ok (x, r) -> P x) -> read_list u s = Ok l -> Forall P l.
Proof.
  intros Hu. unfold read_list. generalize (length s) as fuel. intros fuel. revert s l.
  induction fuel as [|fuel IH]; intros s l H; simpl in H.
  - destruct (Empty s); [|done]. injection H as <-. constructor.
  - destruct (Empty s); [injection H as <-; constructor|]. split_res.
    constructor; [by eapply Hu | by eapply IH].
Qed.

End Facts.

(** ** The tactics *)

(** [rt_inv] splits every equation on a builder of the context into the equations
    of its parts, down to the [tlv] of each element. *)
Ltac rt_inv :=
  repeat match goal with
  | H : bout (b_seq _ _) = Ok _ |- _ =>
      let e1 := fresh "e" in let e2 := fresh "e" in let H1 := fresh "H" in
      apply bout_seq in H; destruct H as (e1 & e2 & H1 & H & ->)
  | H : bout (AddASN1 ?t _) = Ok _ |- _ =>
      let c := fresh "c" in let H1 := fresh "H" in
      apply bout_AddASN1 in H; destruct H as (c & H1 & H)
  | H : bout (AddBytes _) = Ok _ |- _ => apply bout_AddBytes in H; subst
  | H : bout (AddUint8 _) = Ok _ |- _ => apply bout_AddBytes in H; subst
  | H : bout b_nil = Ok _ |- _ => apply bout_nil in H; subst
  | H : bout (SetError _) = Ok _ |- _ => discriminate H
  | H : bout (set_pvno _) = Ok _ |- _ => injection H as H; subst
  | H : bout (b_if ?c _) = Ok _ |- _ =>
      let c' := eval simpl in c in
      lazymatch c' with true => idtac | false => idtac end; simpl b_if in H
  | H : bout (b_opt (Some _) _) = Ok _ |- _ => simpl b_opt in H
  | H : bout (b_opt None _) = Ok _ |- _ => simpl b_opt in H
  end.

(** Proves the well-formedness of a part from that of the whole. *)
Ltac rt_wf := cbv beta; first [ done | assumption | by eauto | intuition (eauto; done) ].

(** Records the first octet of every element of the context. *)
Ltac rt_starts :=
  repeat match goal with
  | H : tlv ?t _ = Some ?e |- _ =>
      lazymatch goal with
      | _ : starts t e |- _ => fail
      | _ => pose proof (tlv_starts _ _ _ H)
      end
  | H : bout (AddASN1Integer _) = Ok ?e |- _ =>
      lazymatch goal with
      | _ : starts INTEGER e |- _ => fail
      | _ => pose proof (AddASN1Integer_starts _ _ H)
      end
  | H : bout (AddASN1ObjectIdentifier _) = Ok ?e |- _ =>
      lazymatch goal with
      | _ : starts OBJECT_IDENTIFIER e |- _ => fail
      | _ => pose proof (AddASN1ObjectIdentifier_starts _ _ H)
      end
  | H : bout (?m ?x) = Ok ?e |- _ =>
      lazymatch goal with
      | _ : starts _ e |- _ => fail
      | _ =>
          let S := fresh "S" in
          unshelve epose proof (starts_spec (m := m) x e _ H) as S;
          [ rt_wf
          | match type of S with exists _, _ = ?t :: _ => change (starts t e) in S end ]
      end
  end.

(** Decides a comparison of two constant tags. *)
Ltac tag_eqb :=
  repeat match goal with
  | |- context [?a =? ?b] =>
      let v := eval vm_compute in (a =? b) in
      lazymatch v with
      | true => change (a =? b) with true
      | false => change (a =? b) with false
      end
  end.

(** One read of a built element at the front of the input, or at its end. *)
Ltac rt_step :=
  match goal with
  | |- context [PeekASN1Tag _ (?e ++ _)] =>
      match goal with H : starts _ e |- _ => rewrite (Peek_starts _ _ e _ H) end; tag_eqb
  | |- context [Empty (?e ++ _)] =>
      match goal with H : starts _ e |- _ => rewrite (Empty_starts _ e _ H) end
  | H : tlv ?t _ = Some ?e |- context [ReadASN1 ?t (?e ++ _)] =>
      rewrite (ReadASN1_tlv _ _ _ _ H)
  | H : tlv ?t _ = Some ?e |- context [ReadASN1Bytes ?t (?e ++ _)] =>
      unfold ReadASN1Bytes at 1; rewrite (ReadASN1_tlv _ _ _ _ H)
  | H : tlv ?t _ = Some ?e |- context [ReadASN1Element ?t (?e ++ _)] =>
      rewrite (ReadASN1Element_tlv _ _ _ _ H)
  | H : tlv _ _ = Some ?e |- context [ReadAnyASN1 (?e ++ _)] =>
      rewrite (ReadAnyASN1_tlv _ _ _ _ H)
  | H : tlv _ _ = Some ?e |- context [ReadAnyASN1Element (?e ++ _)] =>
      rewrite (ReadAnyASN1Element_tlv _ _ _ _ H)
  | H : bout (AddASN1Integer ?n) = Ok ?e |- context [ReadASN1Int64 (?e ++ ?r)] =>
      rewrite (ReadASN1Int64_add n e r ltac:(rt_wf) H)
  | H : bout (AddASN1Integer _) = Ok ?e |- context [ReadASN1BigInt (?e ++ _)] =>
      rewrite (ReadASN1BigInt_add _ e _ H)
  | H : bout (AddASN1ObjectIdentifier ?o) = Ok ?e
    |- context [ReadASN1ObjectIdentifier (?e ++ ?r)] =>
      rewrite (ReadASN1ObjectIdentifier_add o e r ltac:(rt_wf) H)
  | H : bout (AddASN1GeneralizedTime _) = Ok ?e
    |- context [ReadASN1GeneralizedTime (?e ++ _)] =>
      rewrite (ReadASN1GeneralizedTime_add _ e _ H)
  | H : bout (b_list ?m ?l) = Ok ?e |- context [read_list ?u ?e] =>
      let R := fresh "R" in
      unshelve epose proof (read_list_rt m u _ l e _ _ _ H) as R;
      [ rt_wf | rewrite R; clear R ]
  | H : bout (?m ?x) = Ok ?e |- context [?u (?e ++ ?r)] =>
      let R := fresh "R" in
      unshelve epose proof (rt_spec (m := m) (u := u) x e r _ H) as R;
      [ rt_wf | rewrite R; clear R ]
  | H : starts ?t ?e |- context [PeekASN1Tag ?t' ?e] =>
      rewrite (at_end (PeekASN1Tag t') (fun _ => t =? t') e
                 (fun r => Peek_starts t' t e r H)); cbv beta; tag_eqb
  | H : starts ?t ?e |- context [Empty ?e] =>
      rewrite (at_end Empty (fun _ => false) e (fun r => Empty_starts t e r H)); cbv beta
  | H : tlv ?t ?c = Some ?e |- context [ReadASN1 ?t ?e] =>
      rewrite (at_end (ReadASN1 t) (fun r => Some (c, r)) e (fun r => ReadASN1_tlv _ _ _ r H))
  | H : tlv ?t ?c = Some ?e |- context [ReadASN1Bytes ?t ?e] =>
      rewrite (at_end (ReadASN1Bytes t) (fun r => Some (c, r)) e
                 (fun r => ReadASN1_tlv _ _ _ r H))
  | H : tlv ?t _ = Some ?e |- context [ReadASN1Element ?t ?e] =>
      rewrite (at_end (ReadASN1Element t) (fun r => Some (e, r)) e
                 (fun r => ReadASN1Element_tlv _ _ _ r H))
  | H : tlv ?t ?c = Some ?e |- context [ReadAnyASN1 ?e] =>
      rewrite (at_end ReadAnyASN1 (fun r => Some (c, t, r)) e
                 (fun r => ReadAnyASN1_tlv _ _ _ r H))
  | H : tlv ?t _ = Some ?e |- context [ReadAnyASN1Element ?e] =>
      rewrite (at_end ReadAnyASN1Element (fun r => Some (e, t, r)) e
                 (fun r => ReadAnyASN1Element_tlv _ _ _ r H))
  | H : bout (AddASN1Integer ?n) = Ok ?e |- context [ReadASN1Int64 ?e] =>
      rewrite (at_end ReadASN1Int64 (fun r => Some (n, r)) e
                 (fun r => ReadASN1Int64_add n e r ltac:(rt_wf) H))
  | H : bout (AddASN1Integer ?n) = Ok ?e |- context [ReadASN1BigInt ?e] =>
      rewrite (at_end ReadASN1BigInt (fun r => Some (n, r)) e
                 (fun r => ReadASN1BigInt_add n e r H))
  | H : bout (AddASN1ObjectIdentifier ?o) = Ok ?e |- context [ReadASN1ObjectIdentifier ?e] =>
      rewrite (at_end ReadASN1ObjectIdentifier (fun r => Some (o, r)) e
                 (fun r => ReadASN1ObjectIdentifier_add o e r ltac:(rt_wf) H))
  | H : bout (AddASN1GeneralizedTime ?t) = Ok ?e |- context [ReadASN1GeneralizedTime ?e] =>
      rewrite (at_end ReadASN1GeneralizedTime (fun r => Some (truncate_second t, r)) e
                 (fun r => ReadASN1GeneralizedTime_add t e r H))
  | H : bout (?m ?x) = Ok ?e |- context [?u ?e] =>
      let R := fresh "R" in
      unshelve epose proof (fun r => rt_spec (m := m) (u := u) x e r _ H) as R;
      [ rt_wf | rewrite (at_end u (fun r => Ok (x, r)) e R); clear R ]
  end; rewrite <- ?app_assoc; cbn [of_option res_bind app negb andb orb]; cbv iota beta.

(** Runs the reader as far as the built elements go. *)
Ltac rt_run := rt_starts; repeat (progress rt_step).
