(* ===== verification/Der.v ===== *)
(** * DER: an instance of the ASN.1 interface

    The distinguished encoding of the elements the codecs use: tags of one octet,
    definite lengths of up to four octets, INTEGER in the least number of octets,
    OBJECT IDENTIFIER in base 128 and GeneralizedTime in the UTC form. A decoder
    compares with the encoding of what it decoded, which rejects every form that is
    not the distinguished one. The examples of the development run on it. *)
From S2P Require Import Prelude Failure Errors Asn1.

(** ** Big-endian octets *)

Fixpoint be_bytes (k : nat) (n : Z) : bytes :=
  match k with
  | O => []
  | S k' => (n / 256 ^ Z.of_nat k') mod 256 :: be_bytes k' n
  end.

Definition be_value (l : bytes) : Z := fold_left (fun a b => a * 256 + b) l 0.

Lemma fold_be l a : fold_left (fun a b => a * 256 + b) l a = a * 256 ^ Z.of_nat (length l) + be_value l.
Proof.
  unfold be_value. revert a. induction l as [|b l IH]; intros a; cbn [fold_left length]; [lia|].
  rewrite (IH (a * 256 + b)), (IH (0 * 256 + b)), Nat2Z.inj_succ, Z.pow_succ_r by lia. ring.
Qed.

Lemma length_be_bytes k n : length (be_bytes k n) = k.
Proof. induction k; simpl; congruence. Qed.

Lemma be_value_bytes k n : be_value (be_bytes k n) = n mod 256 ^ Z.of_nat k.
Proof.
  induction k as [|k IH]; [by rewrite Z.mod_1_r|]. cbn [be_bytes].
  unfold be_value. cbn [fold_left]. rewrite fold_be, length_be_bytes, IH.
  rewrite Nat2Z.inj_succ, Z.pow_succ_r by lia.
  rewrite (Z.mul_comm 256), Z.rem_mul_r by lia. ring.
Qed.

(** ** Lengths *)

Definition len_octets (n : Z) : bytes :=
  if n <? 128 then [n]
  else if n <? 256 ^ 1 then 129 :: be_bytes 1 n
  else if n <? 256 ^ 2 then 130 :: be_bytes 2 n
  else if n <? 256 ^ 3 then 131 :: be_bytes 3 n
  else 132 :: be_bytes 4 n.

Definition max_len : Z := 4294967294.

Definition read_len (s : bytes) : option (Z * bytes) :=
  match s with
  | [] => None
  | b :: r =>
      let k := if b <? 128 then O else Z.to_nat (b - 128) in
      if (4 <? k)%nat then None
      else
        let n := if b <? 128 then b else be_value (take k r) in
        if bool_decide (len_octets n = b :: take k r) && (0 <=? n) && (n <=? max_len)
        then Some (n, drop k r) else None
  end.

Lemma read_len_octets n r : 0 <= n <= max_len -> read_len (len_octets n ++ r) = Some (n, r).
Proof.
  intros Hn. unfold max_len in Hn.
  assert (Hk : forall k b, (k <= 4)%nat -> b = 128 + Z.of_nat k -> n < 256 ^ Z.of_nat k ->
    len_octets n = b :: be_bytes k n -> read_len (len_octets n ++ r) = Some (n, r)).
  { intros k b Hk -> Hlt He. rewrite He. cbn [app read_len].
    destruct (Z.ltb_spec (128 + Z.of_nat k) 128) as [Hb|Hb].
    - assert (k = 0%nat) as -> by lia. simpl in Hlt. lia.
    - replace (Z.to_nat (128 + Z.of_nat k - 128)) with k by lia.
      rewrite (proj2 (Nat.ltb_ge 4 k)) by lia.
      rewrite take_app_length', drop_app_length' by (by rewrite length_be_bytes).
      rewrite be_value_bytes, Z.mod_small by lia. rewrite He, bool_decide_eq_true_2 by done.
      unfold max_len. rewrite (proj2 (Z.leb_le 0 n)), (proj2 (Z.leb_le n _)) by lia. done. }
  destruct (Z.lt_ge_cases n 128) as [H1|H1].
  { assert (He : len_octets n = [n]) by (unfold len_octets; by rewrite (proj2 (Z.ltb_lt n 128)) by lia).
    rewrite He. cbn [app read_len]. rewrite (proj2 (Z.ltb_lt n 128)) by lia. simpl.
    rewrite He, take_0, drop_0, bool_decide_eq_true_2 by done. unfold max_len.
    rewrite (proj2 (Z.leb_le 0 n)), (proj2 (Z.leb_le n _)) by lia. done. }
  assert (Hlt : forall m, n < m -> (n <? m) = true) by (intros; by apply Z.ltb_lt).
  assert (Hge : forall m, m <= n -> (n <? m) = false) by (intros; by apply Z.ltb_ge).
  destruct (Z.lt_ge_cases n (256 ^ 1)) as [H2|H2];
    [apply (Hk 1%nat 129); try done; [lia|]; unfold len_octets; by rewrite Hge, Hlt by done|].
  destruct (Z.lt_ge_cases n (256 ^ 2)) as [H3|H3];
    [apply (Hk 2%nat 130); try done; [lia|]; unfold len_octets; by rewrite !Hge, Hlt by done|].
  destruct (Z.lt_ge_cases n (256 ^ 3)) as [H4|H4];
    [apply (Hk 3%nat 131); try done; [lia|]; unfold len_octets; by rewrite !Hge, Hlt by done|].
  apply (Hk 4%nat 132); [lia | done | simpl; lia |]. unfold len_octets. by rewrite !Hge by done.
Qed.

Lemma read_len_inv s n r : read_len s = Some (n, r) -> s = len_octets n ++ r /\ 0 <= n <= max_len.
Proof.
  unfold read_len. destruct s as [|b s]; [done|]. case_goal; [done|]. case_goal; [|done].
  intros [= <- <-]. apply andb_prop in E0 as [[E0 E1]%andb_prop E2].
  apply bool_decide_eq_true_1 in E0. rewrite E0. simpl. rewrite take_drop. split; [done|lia].
Qed.

(** ** Elements *)

Definition high_tag (t : Tag) : bool := Z.land t 31 =? 31.

Definition der_tlv (t : Tag) (c : bytes) : option bytes :=
  let n := Z.of_nat (length c) in
  if high_tag t || (max_len <? n) then None else Some (t :: len_octets n ++ c).

Definition der_read_any (s : bytes) : option (Tag * bytes * bytes * bytes) :=
  match s with
  | [] => None
  | t :: s1 =>
      if high_tag t then None
      else
        '(n, s2) ← read_len s1;
        if n <=? Z.of_nat (length s2) then
          let c := take (Z.to_nat n) s2 in
          Some (t, t :: len_octets n ++ c, c, drop (Z.to_nat n) s2)
        else None
  end.

Lemma der_tlv_read t c e rest :
  der_tlv t c = Some e -> der_read_any (e ++ rest) = Some (t, e, c, rest).
Proof.
  unfold der_tlv. case_goal; [done|]. intros [= <-]. apply orb_false_elim in E as [Ht Hl].
  unfold der_read_any. cbn [app]. rewrite Ht, <- app_assoc, read_len_octets by lia. simpl.
  rewrite length_app. rewrite (proj2 (Z.leb_le _ _)) by lia.
  rewrite Nat2Z.id, take_app_length, drop_app_length. done.
Qed.

Lemma der_read_any_inv s t e c rest :
  der_read_any s = Some (t, e, c, rest) -> s = e ++ rest /\ der_tlv t c = Some e.
Proof.
  unfold der_read_any. destruct s as [|t' s]; [done|]. case_goal; [done|].
  destruct (read_len s) as [[n s2]|] eqn:Hl; [|done]. simpl. case_goal; [|done].
  intros [= <- <- <- <-]. apply read_len_inv in Hl as [-> Hn].
  assert (Hlen : Z.of_nat (length (take (Z.to_nat n) s2)) = n) by (rewrite length_take; lia).
  unfold der_tlv. rewrite E, Hlen. cbn [orb]. rewrite (proj2 (Z.ltb_ge _ _)) by lia.
  split; [|done]. simpl. by rewrite <- app_assoc, take_drop.
Qed.

(** ** INTEGER *)

(** The bits of the magnitude: of [n], or of [-n-1] when negative. *)
Definition magnitude (n : Z) : Z := if n <? 0 then - n - 1 else n.
Definition bit_length (x : Z) : Z := if x =? 0 then 0 else Z.log2 x + 1.
Definition int_length (n : Z) : nat := Z.to_nat (bit_length (magnitude n) / 8 + 1).

Definition der_int_content (n : Z) : bytes := be_bytes (int_length n) n.

Definition int_decode (c : bytes) : Z :=
  let u := be_value c in
  let m := 256 ^ Z.of_nat (length c) in
  if 2 * u <? m then u else u - m.

Definition der_int_value (c : bytes) : option Z :=
  let n := int_decode c in
  if bool_decide (der_int_content n = c) then Some n else None.

Lemma bit_length_bound x : 0 <= x -> 0 <= bit_length x /\ x < 2 ^ bit_length x.
Proof.
  intros Hx. unfold bit_length. destruct (Z.eqb_spec x 0) as [->|]; [lia|].
  pose proof (Z.log2_nonneg x). pose proof (Z.log2_spec x ltac:(lia)).
  rewrite <- Z.add_1_r in *. lia.
Qed.

Lemma int_length_bound n :
  - 256 ^ Z.of_nat (int_length n) <= 2 * n < 256 ^ Z.of_nat (int_length n).
Proof.
  unfold int_length. set (x := magnitude n).
  assert (Hx : 0 <= x) by (unfold x, magnitude; destruct (Z.ltb_spec n 0); lia).
  destruct (bit_length_bound x Hx) as [Hb Hlt].
  assert (Hd : 0 <= bit_length x / 8) by (apply Z.div_pos; lia).
  rewrite Z2Nat.id by lia. change 256 with (2 ^ 8). rewrite <- Z.pow_mul_r by lia.
  assert (Hle : 2 ^ (bit_length x + 1) <= 2 ^ (8 * (bit_length x / 8 + 1))).
  { apply Z.pow_le_mono_r; [lia|]. Z.to_euclidean_division_equations. lia. }
  rewrite Z.pow_add_r in Hle by lia. change (2 ^ 1) with 2 in Hle.
  unfold x, magnitude in *. destruct (Z.ltb_spec n 0); lia.
Qed.

Lemma int_decode_content n : int_decode (der_int_content n) = n.
Proof.
  unfold int_decode, der_int_content. rewrite be_value_bytes, length_be_bytes.
  pose proof (int_length_bound n) as Hb. set (m := 256 ^ Z.of_nat (int_length n)) in *.
  assert (Hm : 0 < m) by (apply Z.pow_pos_nonneg; lia).
  destruct (Z.lt_ge_cases n 0).
  - rewrite <- (Z.mod_add n 1 m) by lia. rewrite Z.mod_small by lia.
    destruct (Z.ltb_spec (2 * (n + 1 * m)) m); lia.
  - rewrite Z.mod_small by lia. destruct (Z.ltb_spec (2 * n) m); lia.
Qed.

Lemma int_length_int64 n : int64_ok n = true -> (int_length n <= 8)%nat.
Proof.
  intros Hn. unfold int64_ok in Hn. unfold int_length.
  assert (Hx : 0 <= magnitude n < 2 ^ 63) by (unfold magnitude; destruct (Z.ltb_spec n 0); lia).
  assert (Hb : bit_length (magnitude n) <= 63).
  { unfold bit_length. destruct (Z.eqb_spec (magnitude n) 0); [lia|].
    pose proof (Z.log2_lt_pow2 (magnitude n) 63 ltac:(lia)). lia. }
  assert (bit_length (magnitude n) / 8 <= 7) by (Z.to_euclidean_division_equations; lia). lia.
Qed.

(** ** OBJECT IDENTIFIER *)

(** Base 128, most significant group first, the bit 8 set on all but the last. *)
Fixpoint base128_high (fuel : nat) (n : Z) : bytes :=
  match fuel with
  | O => []
  | S fuel' => if n =? 0 then [] else base128_high fuel' (n / 128) ++ [n mod 128 + 128]
  end.
Definition base128_encode (n : Z) : bytes :=
  base128_high (S (Z.to_nat (Z.log2 n))) (n / 128) ++ [n mod 128].

(** The components of the content octets, [acc] being the one being read. *)
Fixpoint base128_decode (c : bytes) (acc : Z) : list Z :=
  match c with
  | [] => []
  | b :: c' => if b <? 128 then acc * 128 + b :: base128_decode c' 0
               else base128_decode c' (acc * 128 + (b - 128))
  end.

Definition der_oid_content (o : ObjectIdentifier) : option bytes :=
  match o with
  | a :: b :: rest =>
      if (0 <=? a) && (a <=? 2) && ((a =? 2) || (b <? 40)) && forallb (Z.leb 0) (b :: rest)
      then Some (concat (base128_encode <$> (a * 40 + b :: rest)))
      else None
  | _ => None
  end.

Definition der_oid_value (c : bytes) : option ObjectIdentifier :=
  match base128_decode c 0 with
  | [] => None
  | v :: rest =>
      let o := (if v <? 80 then [v / 40; v mod 40] else [2; v - 80]) ++ rest in
      if OID_ok o && bool_decide (der_oid_content o = Some c) then Some o else None
  end.

Lemma base128_decode_high fuel n r :
  0 <= n < 128 ^ Z.of_nat fuel -> base128_decode (base128_high fuel n ++ r) 0 = base128_decode r n.
Proof.
  revert n r. induction fuel as [|fuel IH]; intros n r Hn; simpl.
  - simpl in Hn. by assert (n = 0) as -> by lia.
  - destruct (Z.eqb_spec n 0) as [->|]; [done|]. rewrite <- app_assoc.
    rewrite Nat2Z.inj_succ, Z.pow_succ_r in Hn by lia.
    rewrite IH by (split; [apply Z.div_pos; lia | apply Z.div_lt_upper_bound; lia]).
    cbn [app base128_decode]. pose proof (Z.mod_pos_bound n 128 ltac:(lia)).
    rewrite (proj2 (Z.ltb_ge _ 128)) by lia. f_equal. pose proof (Z.div_mod n 128). lia.
Qed.

Lemma base128_decode_encode n r :
  0 <= n -> base128_decode (base128_encode n ++ r) 0 = n :: base128_decode r 0.
Proof.
  intros Hn. unfold base128_encode. rewrite <- app_assoc, base128_decode_high.
  - cbn [app base128_decode]. pose proof (Z.mod_pos_bound n 128 ltac:(lia)).
    rewrite (proj2 (Z.ltb_lt _ 128)) by lia. f_equal. pose proof (Z.div_mod n 128). lia.
  - pose proof (Z.log2_nonneg n). split; [apply Z.div_pos; lia|].
    apply (Z.le_lt_trans _ n); [apply Z.div_le_upper_bound; lia|].
    destruct (Z.eqb_spec n 0) as [->|]; [apply Z.pow_pos_nonneg; lia|].
    pose proof (Z.log2_spec n ltac:(lia)) as [_ Hlt].
    apply (Z.lt_le_trans _ (2 ^ Z.succ (Z.log2 n))); [done|].
    apply (Z.le_trans _ (128 ^ Z.succ (Z.log2 n))); [apply Z.pow_le_mono_l; lia|].
    apply Z.pow_le_mono_r; lia.
Qed.

Lemma base128_decode_concat l :
  forallb (Z.leb 0) l = true -> base128_decode (concat (base128_encode <$> l)) 0 = l.
Proof.
  induction l as [|n l IH]; [done|]. rewrite fmap_cons. cbn [forallb concat].
  intros [Hn Hl]%andb_prop.
  rewrite base128_decode_encode by lia. by rewrite IH.
Qed.

Lemma der_oid_range c o : der_oid_value c = Some o -> OID_ok o = true.
Proof.
  unfold der_oid_value. destruct (base128_decode c 0); [done|].
  match goal with |- context [OID_ok ?x] => destruct (OID_ok x) eqn:E end; [|done].
  cbn [andb]. destruct (bool_decide _); [congruence | done].
Qed.

Lemma der_oid_roundtrip o c : OID_ok o = true -> der_oid_content o = Some c -> der_oid_value c = Some o.
Proof.
  intros Hrange H. pose proof H as H'. unfold der_oid_content in H'. destruct o as [|a [|b rest]]; try done.
  case_in H'; [|done].
  assert (Hc : c = concat (base128_encode <$> (a * 40 + b :: rest))) by congruence. clear H'.
  apply andb_prop in E as [[[Ha Ha2]%andb_prop Hb]%andb_prop Hr].
  simpl in Hr. apply andb_prop in Hr as [Hb0 Hr].
  unfold der_oid_value. rewrite Hc at 1.
  rewrite base128_decode_concat by (cbn [forallb]; rewrite Hr; lia).
  assert (Ho : (if a * 40 + b <? 80 then [(a * 40 + b) / 40; (a * 40 + b) mod 40]
                else [2; a * 40 + b - 80]) = [a; b]).
  { destruct (Z.ltb_spec (a * 40 + b) 80).
    - assert (a < 2 /\ b < 40) as [Hlt Hb40] by lia.
      rewrite Z.add_comm, Z.div_add, Z.mod_add, Z.div_small, Z.mod_small by lia. done.
    - assert (a = 2) as -> by lia. f_equal. f_equal. lia. }
  rewrite Ho. cbn [app]. rewrite Hrange, H. by rewrite bool_decide_eq_true_2.
Qed.

(** ** GeneralizedTime

    The proleptic Gregorian calendar, with days counted from March 1 of year 0 in
    eras of 400 years. *)

Definition era_days : Z := 146097.

(** Year of the era and day of the year, by centuries, leap cycles and years. *)
Definition year_of_doe (doe : Z) : Z * Z :=
  let c := Z.min (doe / 36524) 3 in
  let r := doe - 36524 * c in
  let q := r / 1461 in
  let r := r - 1461 * q in
  let y := Z.min (r / 365) 3 in
  (100 * c + 4 * q + y, r - 365 * y).
Definition doe_of_year (yoe doy : Z) : Z :=
  36524 * (yoe / 100) + 1461 * (yoe mod 100 / 4) + 365 * (yoe mod 4) + doy.

Lemma year_of_doe_spec doe yoe doy :
  0 <= doe < era_days -> year_of_doe doe = (yoe, doy) ->
  doe_of_year yoe doy = doe /\ 0 <= yoe < 400 /\ 0 <= doy < 366.
Proof.
  unfold era_days, year_of_doe. intros Hd.
  set (c := Z.min (doe / 36524) 3). assert (Hc : 0 <= c <= 3 /\ 0 <= doe - 36524 * c <= 36524)
    by (unfold c; Z.to_euclidean_division_equations; lia).
  clearbody c. set (r := doe - 36524 * c) in *.
  set (q := r / 1461). assert (Hq : 0 <= q <= 24 /\ 0 <= r - 1461 * q < 1461)
    by (unfold q; Z.to_euclidean_division_equations; lia).
  clearbody q. set (r2 := r - 1461 * q) in *.
  set (y := Z.min (r2 / 365) 3). assert (Hy : 0 <= y <= 3 /\ 0 <= r2 - 365 * y < 366)
    by (unfold y; Z.to_euclidean_division_equations; lia).
  clearbody y. intros [= <- <-]. unfold doe_of_year.
  replace ((100 * c + 4 * q + y) / 100) with c by (Z.to_euclidean_division_equations; lia).
  replace ((100 * c + 4 * q + y) mod 100) with (4 * q + y)
    by (Z.to_euclidean_division_equations; lia).
  replace ((4 * q + y) / 4) with q by (Z.to_euclidean_division_equations; lia).
  replace ((100 * c + 4 * q + y) mod 4) with y by (Z.to_euclidean_division_equations; lia).
  unfold r2, r in *. lia.
Qed.

(** Month, counted from March, and day of the month. *)
Definition month_of_doy (doy : Z) : Z * Z :=
  let mp := (5 * doy + 2) / 153 in (mp, doy - (153 * mp + 2) / 5 + 1).
Definition doy_of_month (mp d : Z) : Z := (153 * mp + 2) / 5 + d - 1.

Lemma month_of_doy_spec doy mp d :
  0 <= doy < 366 -> month_of_doy doy = (mp, d) ->
  doy_of_month mp d = doy /\ 0 <= mp < 12 /\ 1 <= d <= 31.
Proof.
  unfold month_of_doy, doy_of_month. intros Hd [= <- <-].
  Z.to_euclidean_division_equations. lia.
Qed.

Definition civil_of_doe (doe : Z) : Z * Z * Z :=
  let (yoe, doy) := year_of_doe doe in
  let (mp, d) := month_of_doy doy in
  (yoe, mp, d).
Definition doe_of_civil (yoe mp d : Z) : Z := doe_of_year yoe (doy_of_month mp d).

Lemma civil_of_doe_spec x yoe mp d :
  0 <= x < era_days -> civil_of_doe x = (yoe, mp, d) ->
  doe_of_civil yoe mp d = x /\ 0 <= yoe < 400 /\ 0 <= mp < 12 /\ 1 <= d <= 31.
Proof.
  unfold civil_of_doe, doe_of_civil. intros Hx.
  destruct (year_of_doe x) as [yoe' doy] eqn:Hy. destruct (month_of_doy doy) as [mp' d'] eqn:Hm.
  intros [= <- <- <-]. destruct (year_of_doe_spec _ _ _ Hx Hy) as (He & ? & Hdoy).
  destruct (month_of_doy_spec _ _ _ Hdoy Hm) as (Hd & ? & ?). by rewrite Hd.
Qed.

(** [t] is a number of nanoseconds since January 1 of year 1, which is day 306. *)
Definition time_fields (t : Time) : Z * Z * Z * Z * Z * Z :=
  let secs := t / 10 ^ 9 in
  let z := secs / 86400 + 306 in
  let sod := secs mod 86400 in
  let '(yoe, mp, d) := civil_of_doe (z mod era_days) in
  let m := if mp <? 10 then mp + 3 else mp - 9 in
  let y := yoe + z / era_days * 400 + (if m <=? 2 then 1 else 0) in
  (y, m, d, sod / 3600, sod / 60 mod 60, sod mod 60).

Definition fields_time (y m d hh mm ss : Z) : Time :=
  let y' := y - (if m <=? 2 then 1 else 0) in
  let mp := if m <=? 2 then m + 9 else m - 3 in
  let z := y' / 400 * era_days + doe_of_civil (y' mod 400) mp d in
  ((z - 306) * 86400 + hh * 3600 + mm * 60 + ss) * 10 ^ 9.

Lemma fields_time_fields t y m d hh mm ss :
  time_fields t = (y, m, d, hh, mm, ss) ->
  fields_time y m d hh mm ss = truncate_second t
  /\ 1 <= m <= 12 /\ 1 <= d <= 31 /\ 0 <= hh < 24 /\ 0 <= mm < 60 /\ 0 <= ss < 60.
Proof.
  unfold time_fields. set (secs := t / 10 ^ 9). set (z := secs / 86400 + 306).
  destruct (civil_of_doe (z mod era_days)) as [[yoe mp] d'] eqn:Hc.
  pose proof (Z.mod_pos_bound z era_days ltac:(done)) as Hz.
  destruct (civil_of_doe_spec _ _ _ _ Hz Hc)
    as (Hdoe & Hy & Hmp & Hd).
  intros [= <- <- <- <- <- <-]. unfold fields_time.
  set (sod := secs mod 86400). assert (Hsod : 0 <= sod < 86400) by (apply Z.mod_pos_bound; lia).
  assert (Hm : (if (if mp <? 10 then mp + 3 else mp - 9) <=? 2
                then (if mp <? 10 then mp + 3 else mp - 9) + 9
                else (if mp <? 10 then mp + 3 else mp - 9) - 3) = mp).
  { destruct (Z.ltb_spec mp 10);
      match goal with |- context [?a <=? 2] => destruct (Z.leb_spec a 2) end; lia. }
  rewrite Hm. rewrite Z.add_simpl_r.
  rewrite Z.div_add, Z.mod_add, Z.div_small, Z.mod_small by lia. rewrite Hdoe.
  split.
  - unfold truncate_second. fold secs. f_equal.
    pose proof (Z.div_mod z era_days ltac:(done)). pose proof (Z.div_mod secs 86400 ltac:(lia)).
    fold sod in H0. unfold z in *. Z.to_euclidean_division_equations. lia.
  - split; [destruct (Z.ltb_spec mp 10); lia|]. split; [lia|].
    Z.to_euclidean_division_equations. lia.
Qed.

(** Decimal digits. *)
Definition two_digits (n : Z) : bytes := [48 + n / 10; 48 + n mod 10].
Definition read_two (a b : Z) : Z := (a - 48) * 10 + (b - 48).

Definition der_gtime_content (t : Time) : option bytes :=
  let '(y, m, d, hh, mm, ss) := time_fields t in
  if (0 <=? y) && (y <=? 9999) then
    Some (two_digits (y / 100) ++ two_digits (y mod 100) ++ two_digits m ++ two_digits d
          ++ two_digits hh ++ two_digits mm ++ two_digits ss ++ [90])
  else None.

Definition der_gtime_value (c : bytes) : option Time :=
  match c with
  | [y1; y2; y3; y4; m1; m2; d1; d2; h1; h2; n1; n2; s1; s2; 90] =>
      let t := fields_time (read_two y1 y2 * 100 + read_two y3 y4) (read_two m1 m2)
                 (read_two d1 d2) (read_two h1 h2) (read_two n1 n2) (read_two s1 s2) in
      if bool_decide (der_gtime_content t = Some c) then Some t else None
  | _ => None
  end.

Lemma read_two_digits n : read_two (48 + n / 10) (48 + n mod 10) = n.
Proof. unfold read_two. pose proof (Z.div_mod n 10). lia. Qed.

Lemma time_fields_truncate t : time_fields (truncate_second t) = time_fields t.
Proof. unfold time_fields, truncate_second. by rewrite Z.div_mul by lia. Qed.

Lemma der_gtime_roundtrip t c :
  der_gtime_content t = Some c -> der_gtime_value c = Some (truncate_second t).
Proof.
  intros H. pose proof H as H'. unfold der_gtime_content in H.
  destruct (time_fields t) as [[[[[y m] d] hh] mm] ss] eqn:Hf.
  destruct (fields_time_fields t y m d hh mm ss Hf) as [Ht _].
  case_in H; [|done]. injection H as <-. unfold two_digits. cbn [app].
  unfold der_gtime_value. rewrite !read_two_digits.
  replace (y / 100 * 100 + y mod 100) with y by (pose proof (Z.div_mod y 100); lia).
  rewrite Ht, bool_decide_eq_true_2; [done|].
  unfold der_gtime_content in *. rewrite time_fields_truncate. by rewrite Hf, E in *.
Qed.

(** ** The instance *)

#[export] Instance Der : Cryptobyte := {|
  tlv := der_tlv;
  read_any := der_read_any;
  int_content := der_int_content;
  int_value := der_int_value;
  oid_content := der_oid_content;
  oid_value := der_oid_value;
  gtime_content := der_gtime_content;
  gtime_value := der_gtime_value
|}.

#[export] Instance DerLaws : CryptobyteLaws Der.
Proof.
  split; simpl.
  - apply der_tlv_read.
  - intros t t' c e. unfold der_tlv. case_goal; [done|]. intros _ Ht'.
    apply orb_false_elim in E as [_ ->]. unfold high_tag.
    rewrite (proj2 (Z.eqb_neq _ _)) by done. eauto.
  - intros t c e. unfold der_tlv. case_goal; [done|]. intros [= <-]. eauto.
  - intros s t e c rest H. apply der_read_any_inv in H as [-> H]. split; [done|].
    unfold der_tlv in H. case_in H; [done|]. injection H as <-. eauto.
  - intros s t e c rest H. by apply der_read_any_inv in H as [_ H].
  - intros n. unfold der_int_value. by rewrite int_decode_content, bool_decide_eq_true_2.
  - intros n Hn. unfold der_tlv, der_int_content. rewrite length_be_bytes.
    pose proof (int_length_int64 n Hn). unfold max_len.
    rewrite (proj2 (Z.ltb_ge _ _)) by lia. eauto.
  - intros c n. unfold der_int_value. case_goal; [|done].
    apply bool_decide_eq_true_1 in E. by intros [= <-].
  - apply der_oid_roundtrip.
  - apply der_oid_range.
  - apply der_gtime_roundtrip.
Qed.

Example der_integer : der_tlv INTEGER (der_int_content (-129)) = Some [2; 2; 255; 127].
Proof. reflexivity. Qed.
Example der_oid : der_oid_content [1; 2; 840; 113549] = Some [42; 134; 72; 134; 247; 13].
Proof. reflexivity. Qed.
Example der_time :
  option_map (fun c => bytes_string c) (der_gtime_content (63845193601 * 10 ^ 9))
  = Some "20240305000001Z"%string.
Proof. vm_compute. reflexivity. Qed.
