(* ===== verification/Types.v ===== *)
(** * Shared CMP structures

    [src/pkicmp/types.go]: certificates, free text, typed values, algorithm
    identifiers, general names and the encrypted containers, with their [marshal]
    and [unmarshal] methods. *)
From S2P Require Import Prelude Failure Errors Asn1.

(** [any] values of a name attribute: a string, or another Go value. *)
Inductive AttrValue := AVString (s : string) | AVOther (v : Z).
#[export] Instance AttrValue_eq_dec : EqDecision AttrValue.
Proof. solve_decision. Defined.

(** [pkix.AttributeTypeAndValue], [pkix.RelativeDistinguishedNameSET] and
    [pkix.RDNSequence]. *)
Record AttributeTypeAndValue_pkix := mkATV { atv_Type : ObjectIdentifier; atv_Value : AttrValue }.
#[export] Instance ATV_eq_dec : EqDecision AttributeTypeAndValue_pkix.
Proof. solve_decision. Defined.
Abbreviation RDNSequence := (list (list AttributeTypeAndValue_pkix)).

(** [pkix.Name]: the typed fields the packages read, all the attributes it was
    decoded from, and the attributes set explicitly. *)
Record Name := mkName {
  CommonName : string;
  SerialNumber_name : string;
  Country : list string;
  Organization : list string;
  OrganizationalUnit : list string;
  Locality : list string;
  Province : list string;
  StreetAddress : list string;
  PostalCode : list string;
  Names : list AttributeTypeAndValue_pkix;
  ExtraNames : option (list AttributeTypeAndValue_pkix)
}.
Definition emptyName : Name := mkName "" "" [] [] [] [] [] [] [] [] None.

(** [encoding/asn1] and [crypto/x509/pkix] on names. [asn1_Unmarshal_RDN] gives
    the decoded name and the trailing data. *)
Class GoNames := {
  asn1_Unmarshal_RDN : bytes -> option (RDNSequence * bytes);
  asn1_Marshal_value : Z -> option bytes;
  FillFromRDNSequence : RDNSequence -> Name;
  ToRDNSequence : Name -> RDNSequence;
  Name_String : Name -> string;
  RDN_String : RDNSequence -> string
}.
Definition asn1_error : error := externalError 2.

(** ** The types *)

(** The Go struct is a single byte slice. *)
Record CMPCertificate := mkCMPCertificate { cert_Raw : bytes }.
#[export] Instance CMPCertificate_eq_dec : EqDecision CMPCertificate.
Proof. solve_decision. Defined.

Abbreviation PKIFreeText := (list string).

Record InfoTypeAndValue := mkInfo { InfoType : ObjectIdentifier; InfoValue : bytes }.
Record AlgorithmIdentifier := mkAlg { Algorithm : ObjectIdentifier; Parameters_ : bytes }.
#[export] Instance AlgorithmIdentifier_eq_dec : EqDecision AlgorithmIdentifier.
Proof. solve_decision. Defined.

Record GeneralName := mkGeneralName {
  DirectoryName : RDNSequence;
  RFC822Name : string;
  gn_Raw : bytes
}.
Definition emptyGeneralName : GeneralName := mkGeneralName [] "" [].

Definition tagRFC822Name : Z := 1.
Definition tagDirectoryName : Z := 4.

Record envelopedData := mkEnvelopedData { ed_Raw : bytes }.
Record encryptedValue := mkEncryptedValue { ev_Raw : bytes }.
Record encryptedKey := mkEncryptedKey {
  ek_encryptedValue : option encryptedValue;
  ek_envelopedData : option envelopedData
}.

Section Codecs.
Context {CB : Cryptobyte}.

(** ** Names *)

Definition isTypedNameAttribute (t : ObjectIdentifier) : bool :=
  match t with
  | [a; b; c; d] =>
      if (a =? 2) && (b =? 5) && (c =? 4)
      then existsb (Z.eqb d) [3; 5; 6; 7; 8; 9; 10; 11; 17]
      else false
  | _ => false
  end.

Definition toFullRDNSequence {GN : GoNames} (name : Name) : RDNSequence :=
  let rdns :=
    match ExtraNames name with
    | None =>
        (fun atv => [atv]) <$>
          filter (fun atv => isTypedNameAttribute (atv_Type atv) = false) (Names name)
    | Some _ => []
    end in
  rdns ++ ToRDNSequence name.

Definition NewDirectoryName {GN : GoNames} (name : Name) : GeneralName :=
  mkGeneralName (toFullRDNSequence name) "" [].

Definition NewDirectoryNameFromRawDER (rawName : bytes) : GeneralName :=
  let b := AddASN1 (ctxc tagDirectoryName) (AddBytes rawName) in
  mkGeneralName [] "" (match Bytes b with Ok raw => raw | Err _ => [] end).

(** ** AlgorithmIdentifier *)

Definition AlgorithmIdentifier_marshalInner (a : AlgorithmIdentifier) : Builder :=
  AddASN1ObjectIdentifier (Algorithm a)
  ⊕ b_if (nonempty (Parameters_ a)) (AddBytes (Parameters_ a)).
Definition AlgorithmIdentifier_marshal (a : AlgorithmIdentifier) : Builder :=
  AddASN1 SEQUENCE (AlgorithmIdentifier_marshalInner a).

Definition AlgorithmIdentifier_unmarshalInner : reader AlgorithmIdentifier := fun seq =>
  let? (oid, seq) := of_option (parse_error "invalid AlgorithmIdentifier OID")
                       (ReadASN1ObjectIdentifier seq) in
  if Empty seq then Ok (mkAlg oid [], seq)
  else match ReadAnyASN1Element seq with
       | Some (params, _, seq) => Ok (mkAlg oid params, seq)
       | None => Ok (mkAlg oid seq, [])
       end.
Definition AlgorithmIdentifier_unmarshal : reader AlgorithmIdentifier := fun s =>
  let? (seq, s) := of_option (parse_error "invalid AlgorithmIdentifier sequence")
                     (ReadASN1 SEQUENCE s) in
  let? (a, _) := AlgorithmIdentifier_unmarshalInner seq in
  Ok (a, s).

(** ** InfoTypeAndValue *)

Definition InfoTypeAndValue_marshal (itv : InfoTypeAndValue) : Builder :=
  AddASN1 SEQUENCE
    (AddASN1ObjectIdentifier (InfoType itv)
     ⊕ b_if (nonempty (InfoValue itv)) (AddBytes (InfoValue itv))).
Definition InfoTypeAndValue_unmarshal : reader InfoTypeAndValue := fun s =>
  let? (seq, s) := of_option (parse_error "invalid InfoTypeAndValue sequence")
                     (ReadASN1 SEQUENCE s) in
  let? (oid, seq) := of_option (parse_error "invalid InfoTypeAndValue OID")
                       (ReadASN1ObjectIdentifier seq) in
  Ok (mkInfo oid (if Empty seq then [] else seq), s).

(** ** PKIFreeText *)

Definition UTF8String_marshal (s : string) : Builder :=
  AddASN1 UTF8String (AddBytes (string_bytes s)).
Definition PKIFreeText_marshal (ft : PKIFreeText) : Builder :=
  if nonempty ft then AddASN1 SEQUENCE (b_list UTF8String_marshal ft) else b_nil.

Definition UTF8String_unmarshal : reader string := fun seq =>
  let? (utf8, seq) := of_option (parse_error "invalid PKIFreeText element")
                        (ReadASN1 UTF8String seq) in
  Ok (bytes_string utf8, seq).
Definition PKIFreeText_unmarshal : reader PKIFreeText := fun s =>
  let? (seq, s) := of_option (parse_error "invalid PKIFreeText sequence")
                     (ReadASN1 SEQUENCE s) in
  let? ft := read_list UTF8String_unmarshal seq in
  Ok (ft, s).

(** ** GeneralName *)

Definition ATV_marshal {GN : GoNames} (atv : AttributeTypeAndValue_pkix) : Builder :=
  AddASN1 SEQUENCE
    (AddASN1ObjectIdentifier (atv_Type atv)
     ⊕ match atv_Value atv with
       | AVString val => UTF8String_marshal val
       | AVOther v =>
           match asn1_Marshal_value v with Some der => AddBytes der | None => b_nil end
       end).
Definition marshalRDNSequence {GN : GoNames} (rdn : RDNSequence) : Builder :=
  AddASN1 SEQUENCE (b_list (fun rset => AddASN1 SET (b_list ATV_marshal rset)) rdn).

Definition parseRDNSequence {GN : GoNames} (s : bytes) : result RDNSequence :=
  let? (der, _, _) := of_option (parse_error "invalid Name element") (ReadAnyASN1Element s) in
  let? (rdn, _) := of_option asn1_error (asn1_Unmarshal_RDN der) in
  Ok rdn.

Definition GeneralName_marshal {GN : GoNames} (gn : GeneralName) : Builder :=
  if nonempty (gn_Raw gn) then AddBytes (gn_Raw gn)
  else if negb (bool_decide (RFC822Name gn = "")) then
    AddASN1 (ContextSpecific tagRFC822Name) (AddBytes (string_bytes (RFC822Name gn)))
  else AddASN1 (ctxc tagDirectoryName) (marshalRDNSequence (DirectoryName gn)).

Definition GeneralName_unmarshal {GN : GoNames} : reader GeneralName := fun s =>
  let? (raw, tag, s) := of_option (parse_error "missing GeneralName") (ReadAnyASN1Element s) in
  if tag =? ctxc tagDirectoryName then
    let? (content, _, _) := of_option (parse_error "invalid directoryName")
                              (ReadAnyASN1 raw) in
    let? rdn := parseRDNSequence content in
    Ok (mkGeneralName rdn "" raw, s)
  else if tag =? ContextSpecific tagRFC822Name then
    let? (content, _, _) := of_option (parse_error "invalid rfc822Name") (ReadAnyASN1 raw) in
    Ok (mkGeneralName [] (bytes_string content) raw, s)
  else Ok (mkGeneralName [] "" raw, s).

(** ** CMPCertificate *)

Definition CMPCertificate_marshal (c : CMPCertificate) : Builder := AddBytes (cert_Raw c).
Definition CMPCertificate_unmarshal : reader CMPCertificate := fun s =>
  let? (der, _, s) := of_option (parse_error "invalid CMPCertificate element")
                        (ReadAnyASN1Element s) in
  Ok (mkCMPCertificate der, s).

(** ** Sequences stripped and wrapped *)

Definition stripSequence (der : bytes) : result bytes :=
  let? (content, _) := of_option (parse_error "not a sequence") (ReadASN1 SEQUENCE der) in
  Ok content.

(** The last call is [BytesOrPanic]: when the builder fails, the program panics. *)
Definition wrapSequence (content : bytes) : result bytes :=
  match Bytes (AddASN1 SEQUENCE (AddBytes content)) with
  | Ok der => Ok der
  | Err _ => Err GoPanic
  end.

(** ** Encrypted containers *)

Definition envelopedData_marshalInner (e : envelopedData) : Builder :=
  match stripSequence (ed_Raw e) with
  | Err _ => AddBytes (ed_Raw e)
  | Ok content => AddBytes content
  end.
Definition envelopedData_marshal (e : envelopedData) : Builder :=
  AddASN1 SEQUENCE (envelopedData_marshalInner e).
Definition envelopedData_unmarshalInner (s : bytes) : result envelopedData :=
  let? raw := wrapSequence s in Ok (mkEnvelopedData raw).
Definition envelopedData_unmarshal : reader envelopedData := fun s =>
  let? (der, _, s) := of_option (parse_error "invalid envelopedData element")
                        (ReadAnyASN1Element s) in
  Ok (mkEnvelopedData der, s).

Definition encryptedValue_marshal (e : encryptedValue) : Builder := AddBytes (ev_Raw e).
Definition encryptedValue_unmarshal : reader encryptedValue := fun s =>
  let? (der, _, s) := of_option (parse_error "invalid encryptedValue element")
                        (ReadAnyASN1Element s) in
  Ok (mkEncryptedValue der, s).

Definition PVNO2 : Z := 2.
Definition PVNO3 : Z := 3.

Definition encryptedKey_marshal (k : encryptedKey) : Builder :=
  match ek_envelopedData k with
  | Some ed => set_pvno PVNO3 ⊕ AddASN1 (ctxc 0) (envelopedData_marshalInner ed)
  | None =>
      match ek_encryptedValue k with
      | Some ev => encryptedValue_marshal ev
      | None => b_nil
      end
  end.
Definition encryptedKey_unmarshal : reader encryptedKey := fun s =>
  reject_if Empty s with parse_error "missing encryptedKey" ;;
  if PeekASN1Tag (ctxc 0) s then
    let? (sub, s) := of_option (parse_error "invalid envelopedData tag")
                       (ReadASN1 (ctxc 0) s) in
    let? ed := envelopedData_unmarshalInner sub in
    Ok (mkEncryptedKey None (Some ed), s)
  else
    let? (ev, s) := encryptedValue_unmarshal s in
    Ok (mkEncryptedKey (Some ev) None, s).

(** ** Implicitly tagged integers *)

Definition marshalImplicitInt64 (val : Z) : bytes :=
  let der := match Bytes (AddASN1Integer val) with Ok d => d | Err _ => [] end in
  match ReadASN1 INTEGER der with Some (content, _) => content | None => [] end.

(** [BytesOrPanic]: an integer whose octets have no length panics. *)
Definition marshalImplicitBigInt (n : Z) : result bytes :=
  match Bytes (AddASN1Integer n) with
  | Ok der => Ok (match ReadASN1 INTEGER der with Some (content, _) => content | None => [] end)
  | Err _ => Err GoPanic
  end.

Definition unmarshalImplicitBigInt (content : bytes) : result Z :=
  let? der := Bytes (AddASN1 INTEGER (AddBytes content)) in
  let? (n, _) := of_option (parse_error "invalid integer") (ReadASN1BigInt der) in
  Ok n.
Definition unmarshalImplicitInt64 (content : bytes) : result Z :=
  let? der := Bytes (AddASN1 INTEGER (AddBytes content)) in
  let? (n, _) := of_option (parse_error "invalid integer") (ReadASN1Int64 der) in
  Ok n.

End Codecs.
