(* ===== verification/TypesFacts.v ===== *)
(** * Round trips of the shared structures

    What the [marshal] methods of [Types.v] write, the [unmarshal] methods read
    back. The [_wf] predicates are the values the wire can carry. *)
From S2P Require Import Prelude Failure Errors Asn1 Asn1Facts Types.

Section Facts.
Context {CB : Cryptobyte} {L : CryptobyteLaws CB}.

(** [element e]: one whole DER element. *)
Definition element (e : bytes) : Prop := exists t c, tlv t c = Some e.

(** What is read back: an object identifier in the range of the reader, and as parameters
    none, one element, or octets that are no element, which the decoder keeps as they
    are. *)
Definition AlgorithmIdentifier_wf (a : AlgorithmIdentifier) : Prop :=
  OID_ok (Algorithm a) = true /\
  (Parameters_ a = [] \/ element (Parameters_ a) \/ ReadAnyASN1Element (Parameters_ a) = None).

Lemma element_starts e : element e -> exists t, starts t e.
Proof. intros (t & c & H). exists t. by apply tlv_starts in H. Qed.

Lemma element_nonempty e : element e -> nonempty e = true.
Proof. intros (t & e' & ->)%element_starts. done. Qed.

Lemma ReadAnyASN1Element_element e r :
  element e -> exists t, ReadAnyASN1Element (e ++ r) = Some (e, t, r).
Proof. intros (t & c & H). exists t. by eapply ReadAnyASN1Element_tlv. Qed.

(** ** Algorithm identifiers and typed values *)

Lemma AlgorithmIdentifier_inner_rt a e :
  AlgorithmIdentifier_wf a -> bout (AlgorithmIdentifier_marshalInner a) = Ok e ->
  AlgorithmIdentifier_unmarshalInner e = Ok (a, []).
Proof.
  destruct a as [oid p]. unfold AlgorithmIdentifier_marshalInner. simpl.
  intros [Ho Hwf] H. cbn [Algorithm] in Ho. rt_inv. unfold AlgorithmIdentifier_unmarshalInner. rt_step.
  destruct Hwf as [Hp|[Hp|Hp]]; simpl in Hp.
  - subst p. simpl in H. rt_inv. done.
  - rewrite (element_nonempty p Hp) in H. rt_inv.
    destruct (ReadAnyASN1Element_element p [] Hp) as [t Ht]. rewrite app_nil_r in Ht.
    destruct (element_starts p Hp) as (t' & p' & ->). simpl Empty. by rewrite Ht.
  - destruct p as [|b p]; simpl in H; rt_inv; [done|]. simpl Empty. by rewrite Hp.
Qed.

(** What the decoder gives can be written again. *)
Lemma AlgorithmIdentifier_inner_wf s a r :
  AlgorithmIdentifier_unmarshalInner s = Ok (a, r) -> AlgorithmIdentifier_wf a.
Proof.
  unfold AlgorithmIdentifier_unmarshalInner. intros H. split_res.
  apply ReadASN1ObjectIdentifier_range in E as Ho.
  case_in H; [injection H as <- _; by split; [|left]|].
  destruct (ReadAnyASN1Element _) as [[[p t] r']|] eqn:Er in H; injection H as <- _; (split; [done|]); right.
  - left. unfold ReadAnyASN1Element in Er.
    destruct (read_any _) as [[[[t' e'] c] r'']|] eqn:Ea in Er; [|done].
    injection Er as <- <- <-. exists t', c. by eapply read_any_tlv.
  - by right.
Qed.

Lemma AlgorithmIdentifier_unmarshal_wf s a r :
  AlgorithmIdentifier_unmarshal s = Ok (a, r) -> AlgorithmIdentifier_wf a.
Proof.
  unfold AlgorithmIdentifier_unmarshal. intros H. split_res. by eapply AlgorithmIdentifier_inner_wf.
Qed.

#[export] Instance AlgorithmIdentifier_rt :
  Roundtrips AlgorithmIdentifier_marshal AlgorithmIdentifier_unmarshal AlgorithmIdentifier_wf.
Proof.
  intros a e r Hwf H. unfold AlgorithmIdentifier_marshal in H. rt_inv.
  unfold AlgorithmIdentifier_unmarshal. rt_step.
  by rewrite (AlgorithmIdentifier_inner_rt a c Hwf H0).
Qed.

#[export] Instance AlgorithmIdentifier_starts :
  Starts AlgorithmIdentifier_marshal SEQUENCE (fun _ => True).
Proof. intros a e _. apply AddASN1_starts. Qed.

#[export] Instance InfoTypeAndValue_rt :
  Roundtrips InfoTypeAndValue_marshal InfoTypeAndValue_unmarshal (fun i => OID_ok (InfoType i) = true).
Proof.
  intros [oid v] e r Ho H. cbn [InfoType] in Ho. unfold InfoTypeAndValue_marshal in H. simpl in H. rt_inv.
  unfold InfoTypeAndValue_unmarshal. rt_step. rt_step.
  destruct v; simpl in *; rt_inv; done.
Qed.

(** ** Free text *)

#[export] Instance UTF8String_rt : Roundtrips UTF8String_marshal UTF8String_unmarshal (fun _ => True).
Proof.
  intros s e r _ H. unfold UTF8String_marshal in H. rt_inv.
  unfold UTF8String_unmarshal. rt_step. by rewrite bytes_string_bytes.
Qed.

#[export] Instance UTF8String_writes : Writes UTF8String_marshal (fun _ => True).
Proof. intros s e _ H%AddASN1_starts. destruct H as [e' ->]. done. Qed.

#[export] Instance PKIFreeText_rt :
  Roundtrips PKIFreeText_marshal PKIFreeText_unmarshal (fun ft => ft <> []).
Proof.
  intros ft e r Hne H. unfold PKIFreeText_marshal in H.
  destruct ft as [|t ft]; [done|]. cbn [nonempty] in H. rt_inv.
  unfold PKIFreeText_unmarshal. rt_step.
  by rewrite (read_list_rt _ _ _ _ _ _ _ ltac:(by apply Forall_forall) H0).
Qed.

#[export] Instance PKIFreeText_starts :
  Starts PKIFreeText_marshal SEQUENCE (fun ft => ft <> []).
Proof. intros ft e. destruct ft; [done|]. intros _. apply AddASN1_starts. Qed.

(** ** Certificates *)

Definition CMPCertificate_wf (c : CMPCertificate) : Prop := element (cert_Raw c).

#[export] Instance CMPCertificate_rt :
  Roundtrips CMPCertificate_marshal CMPCertificate_unmarshal CMPCertificate_wf.
Proof.
  intros [raw] e r Hwf H. apply bout_AddBytes in H as ->. simpl.
  destruct (ReadAnyASN1Element_element raw r Hwf) as [t Ht].
  unfold CMPCertificate_unmarshal. by rewrite Ht.
Qed.

#[export] Instance CMPCertificate_writes : Writes CMPCertificate_marshal CMPCertificate_wf.
Proof. intros x e Hx ->%bout_AddBytes. destruct (element_starts _ Hx) as (t & e' & ->). done. Qed.

(** ** Stripped and wrapped sequences *)

Definition single_sequence (der : bytes) : Prop := isSingleElement der SEQUENCE = true.

Lemma stripSequence_single der :
  single_sequence der -> exists c, stripSequence der = Ok c /\ tlv SEQUENCE c = Some der.
Proof.
  intros (c & H)%single_element_inv. exists c. split; [|done].
  unfold stripSequence. rewrite <- (app_nil_r der). by rewrite (ReadASN1_tlv _ _ _ _ H).
Qed.

Lemma wrapSequence_tlv c der : tlv SEQUENCE c = Some der -> wrapSequence c = Ok der.
Proof.
  intros H. unfold wrapSequence, Bytes, AddASN1. rewrite !bout_mk. simpl. by rewrite H.
Qed.

Lemma wrap_strip der c : single_sequence der -> stripSequence der = Ok c -> wrapSequence c = Ok der.
Proof.
  intros (c' & H1 & H2)%stripSequence_single H. assert (c' = c) as -> by congruence.
  by apply wrapSequence_tlv.
Qed.

(** ** Encrypted containers *)

Definition envelopedData_wf (e : envelopedData) : Prop := single_sequence (ed_Raw e).

Lemma envelopedData_inner_rt ed c :
  envelopedData_wf ed -> bout (envelopedData_marshalInner ed) = Ok c ->
  envelopedData_unmarshalInner c = Ok ed.
Proof.
  destruct ed as [raw]. intros Hwf. destruct (stripSequence_single _ Hwf) as (c' & Hs & Ht).
  unfold envelopedData_marshalInner. rewrite Hs. intros ->%bout_AddBytes.
  unfold envelopedData_unmarshalInner. by rewrite (wrapSequence_tlv _ _ Ht).
Qed.

Definition encryptedKey_wf (k : encryptedKey) : Prop :=
  match ek_envelopedData k, ek_encryptedValue k with
  | Some ed, None => envelopedData_wf ed
  | None, Some ev => exists t c, t <> ctxc 0 /\ tlv t c = Some (ev_Raw ev)
  | _, _ => False
  end.

#[export] Instance encryptedKey_rt : Roundtrips encryptedKey_marshal encryptedKey_unmarshal encryptedKey_wf.
Proof.
  intros [[[raw]|] [ed|]] e r Hwf H; simpl in Hwf; try done; unfold encryptedKey_marshal in H;
    simpl in H; unfold encryptedKey_unmarshal.
  - destruct Hwf as (t & c & Hne & Ht). apply bout_AddBytes in H as ->. simpl in *. rt_starts.
    rewrite (Empty_starts t), (Peek_starts _ t) by done.
    rewrite (proj2 (Z.eqb_neq _ _)) by done.
    unfold encryptedValue_unmarshal. by rewrite (ReadAnyASN1Element_tlv _ _ _ r Ht).
  - rt_inv. rt_starts. simpl app. do 2 rt_step. rt_step.
    by rewrite (envelopedData_inner_rt ed c).
Qed.

(** ** Implicitly tagged integers *)

Lemma unmarshalImplicit_tlv c der :
  tlv INTEGER c = Some der -> Bytes (AddASN1 INTEGER (AddBytes c)) = Ok der.
Proof. intros H. unfold Bytes, AddASN1, AddBytes. rewrite !bout_mk. simpl. by rewrite H. Qed.

Lemma AddASN1Integer_bytes n e : tlv INTEGER (int_content n) = Some e ->
  bout (AddASN1Integer n) = Ok e.
Proof. apply unmarshalImplicit_tlv. Qed.

Lemma marshalImplicitInt64_content n :
  int64_ok n = true -> marshalImplicitInt64 n = int_content n.
Proof.
  intros (e & He)%int64_builds. unfold marshalImplicitInt64, Bytes.
  rewrite (AddASN1Integer_bytes _ _ He), <- (app_nil_r e), (ReadASN1_tlv _ _ _ _ He). done.
Qed.

Lemma ImplicitInt64_rt n :
  int64_ok n = true -> unmarshalImplicitInt64 (marshalImplicitInt64 n) = Ok n.
Proof.
  intros Hn. rewrite marshalImplicitInt64_content by done.
  destruct (int64_builds n Hn) as (e & He). unfold unmarshalImplicitInt64.
  rewrite (unmarshalImplicit_tlv _ _ He). simpl. rewrite <- (app_nil_r e).
  by rewrite (ReadASN1Int64_add n e [] Hn (AddASN1Integer_bytes _ _ He)).
Qed.

Lemma ImplicitBigInt_rt n c :
  marshalImplicitBigInt n = Ok c -> unmarshalImplicitBigInt c = Ok n.
Proof.
  unfold marshalImplicitBigInt, Bytes.
  destruct (bout (AddASN1Integer n)) as [der|] eqn:E; [|done].
  pose proof E as (c' & ->%bout_AddBytes & Ht)%bout_AddASN1.
  rewrite <- (app_nil_r der), (ReadASN1_tlv _ _ _ _ Ht). intros [= <-].
  unfold unmarshalImplicitBigInt. rewrite (unmarshalImplicit_tlv _ _ Ht). simpl.
  rewrite <- (app_nil_r der). by rewrite (ReadASN1BigInt_add n der [] E).
Qed.

End Facts.

(** ** General names *)
Section Names.
Context {CB : Cryptobyte} {L : CryptobyteLaws CB} {GN : GoNames}.

(** [reads_as gn gn']: the peer of a sender that writes [gn] reads [gn']. *)
Definition reads_as (gn gn' : GeneralName) : Prop :=
  forall e r, bout (GeneralName_marshal gn) = Ok e -> GeneralName_unmarshal (e ++ r) = Ok (gn', r).

(** A general name as the parser leaves it: its fields are those of [Raw]. *)
Definition GeneralName_wf (gn : GeneralName) : Prop :=
  GeneralName_unmarshal (gn_Raw gn) = Ok (gn, []).

Lemma GeneralName_unmarshal_inv s gn r :
  GeneralName_unmarshal s = Ok (gn, r) ->
  exists t c, read_any s = Some (t, gn_Raw gn, c, r).
Proof.
  unfold GeneralName_unmarshal, ReadAnyASN1Element. intros H.
  destruct (read_any s) as [[[[t e] c] r']|] eqn:E; simpl in H; [|done].
  exists t, c. destruct (t =? _); [|destruct (t =? _)]; split_res; done.
Qed.

Lemma GeneralName_wf_tlv gn :
  GeneralName_wf gn -> exists t c, tlv t c = Some (gn_Raw gn).
Proof.
  intros (t & c & H)%GeneralName_unmarshal_inv. exists t, c. by eapply read_any_tlv.
Qed.

#[export] Instance GeneralName_rt : Roundtrips GeneralName_marshal GeneralName_unmarshal GeneralName_wf.
Proof.
  intros gn e r Hwf H. destruct (GeneralName_wf_tlv gn Hwf) as (t & c & Ht).
  assert (He : e = gn_Raw gn).
  { unfold GeneralName_marshal in H. rewrite element_nonempty in H by (by exists t, c).
    by apply bout_AddBytes in H. }
  subst e. rename Hwf into Hu. unfold GeneralName_wf in Hu.
  pose proof (ReadAnyASN1Element_tlv _ _ _ [] Ht) as H0. rewrite app_nil_r in H0.
  unfold GeneralName_unmarshal in *. rewrite (ReadAnyASN1Element_tlv _ _ _ r Ht).
  rewrite H0 in Hu. cbn [of_option res_bind] in *.
  destruct (t =? ctxc tagDirectoryName); [|destruct (t =? ContextSpecific tagRFC822Name)].
  - destruct (ReadAnyASN1 (gn_Raw gn)) as [[[content t'] r']|]; simpl in *; [|done].
    destruct (parseRDNSequence content); simpl in *; congruence.
  - destruct (ReadAnyASN1 (gn_Raw gn)) as [[[content t'] r']|]; simpl in *; congruence.
  - congruence.
Qed.

Lemma reads_as_wf gn : GeneralName_wf gn -> reads_as gn gn.
Proof. intros H e r He. exact (GeneralName_rt gn e r H He). Qed.

(** A name that is written as the octets of a parsed one. *)
Lemma reads_as_by gn gn' :
  GeneralName_wf gn' -> bout (GeneralName_marshal gn) = Ok (gn_Raw gn') -> reads_as gn gn'.
Proof.
  intros Hwf H e r He. apply (GeneralName_rt gn' e r Hwf). rewrite He in H. injection H as ->.
  destruct (GeneralName_wf_tlv gn' Hwf) as (t & c & Ht). unfold GeneralName_marshal.
  rewrite element_nonempty by (by exists t, c). apply bout_mk.
Qed.

(** The element of a directory name, read back. *)
Lemma directoryName_read raw rdn rest e r :
  element raw -> asn1_Unmarshal_RDN raw = Some (rdn, rest) ->
  tlv (ctxc tagDirectoryName) raw = Some e ->
  GeneralName_unmarshal (e ++ r) = Ok (mkGeneralName rdn "" e, r).
Proof.
  intros Hraw Hrdn He. unfold GeneralName_unmarshal. rewrite (ReadAnyASN1Element_tlv _ _ _ r He).
  cbn [of_option res_bind]. rewrite Z.eqb_refl, <- (app_nil_r e), (ReadAnyASN1_tlv _ _ _ [] He).
  cbn [of_option res_bind]. unfold parseRDNSequence.
  destruct (ReadAnyASN1Element_element raw [] Hraw) as [t Ht]. rewrite app_nil_r in Ht.
  rewrite Ht. cbn [of_option res_bind]. by rewrite Hrdn, app_nil_r.
Qed.

(** A name made of its DER: the peer reads the name the DER holds. *)
Lemma reads_as_raw raw rdn rest e :
  element raw -> asn1_Unmarshal_RDN raw = Some (rdn, rest) ->
  tlv (ctxc tagDirectoryName) raw = Some e ->
  NewDirectoryNameFromRawDER raw = mkGeneralName [] "" e
  /\ reads_as (NewDirectoryNameFromRawDER raw) (mkGeneralName rdn "" e).
Proof.
  intros Hraw Hrdn He.
  assert (E : NewDirectoryNameFromRawDER raw = mkGeneralName [] "" e).
  { unfold NewDirectoryNameFromRawDER, Bytes, AddASN1, AddBytes. rewrite !bout_mk.
    cbn [res_bind]. by rewrite He. }
  split; [done|]. rewrite E. intros e' r. unfold GeneralName_marshal. cbn [gn_Raw].
  rewrite element_nonempty by (by exists (ctxc tagDirectoryName), raw).
  intros ->%bout_AddBytes. by eapply directoryName_read.
Qed.

(** A name made of its attributes. *)
Lemma reads_as_attributes rdn rdn' rest der e :
  bout (marshalRDNSequence rdn) = Ok der -> asn1_Unmarshal_RDN der = Some (rdn', rest) ->
  tlv (ctxc tagDirectoryName) der = Some e ->
  reads_as (mkGeneralName rdn "" []) (mkGeneralName rdn' "" e).
Proof.
  intros Hder Hrdn He e' r H. unfold GeneralName_marshal in H. simpl in H.
  apply bout_AddASN1 in H as (c & Hc & H). replace c with der in * by congruence.
  replace e' with e by congruence. eapply directoryName_read; [|done|done].
  apply bout_AddASN1 in Hder as (c' & _ & Hder). by exists SEQUENCE, c'.
Qed.

Lemma GeneralName_starts gn e :
  GeneralName_wf gn -> bout (GeneralName_marshal gn) = Ok e -> exists t, starts t e.
Proof.
  intros Hwf H. destruct (GeneralName_wf_tlv gn Hwf) as (t & c & Ht).
  unfold GeneralName_marshal in H. rewrite element_nonempty in H by (by exists t, c).
  apply bout_AddBytes in H as ->. exists t. by eapply tlv_starts.
Qed.

End Names.
