(* ===== verification/StatusInfo.v ===== *)
(** * PKIStatusInfo and ErrorMsgContent

    The wire structures of [src/pkicmp/status.go]: the status information with its
    named bit list, and the error message content. *)
From S2P Require Import Prelude Failure Errors Asn1 Asn1Facts Types TypesFacts.

Record PKIStatusInfo := mkPKIStatusInfo {
  Status : PKIStatus;
  StatusString : PKIFreeText;
  FailInfo : PKIFailureInfo
}.

Record ErrorMsgContent := mkErrorMsgContent {
  em_PKIStatusInfo : PKIStatusInfo;
  ErrorCode : Z;
  ErrorDetails : PKIFreeText
}.

(** [AsError]: the Go error of a wire status, [None] being [nil]. *)
Definition AsError (si : PKIStatusInfo) : option error :=
  if (Status si =? StatusAccepted) || (Status si =? StatusGrantedWithMods) then None
  else if Status si =? StatusWaiting then Some ErrWaiting
  else Some (PKIStatusError (Status si) (strings_join "; " (StatusString si)) (FailInfo si)).

(** [bits.TrailingZeros32]. *)
Fixpoint pos_trailing_zeros (p : positive) : Z :=
  match p with xO p' => 1 + pos_trailing_zeros p' | _ => 0 end.
Definition TrailingZeros32 (x : Z) : Z :=
  match x with Zpos p => pos_trailing_zeros p | _ => 32 end.

Section Codecs.
Context {CB : Cryptobyte}.

(** The content octets of the failInfo BIT STRING: the count of unused bits and
    the octets up to the last one with a set bit. *)
Definition failInfo_content (failInfo : PKIFailureInfo) : Builder :=
  let trailing := TrailingZeros32 failInfo in
  let n := 4 - trailing / 8 in
  let unused := trailing mod 8 in
  AddUint8 unused ⊕ AddBytes (take (Z.to_nat n) (put_uint32 failInfo)).
Definition failInfo_marshal (failInfo : PKIFailureInfo) : Builder :=
  AddASN1 BIT_STRING (failInfo_content failInfo).

Definition PKIStatusInfo_marshal (si : PKIStatusInfo) : Builder :=
  AddASN1 SEQUENCE
    (AddASN1Integer (Status si)
     ⊕ b_if (nonempty (StatusString si)) (PKIFreeText_marshal (StatusString si))
     ⊕ b_if (negb (FailInfo si =? 0)) (failInfo_marshal (FailInfo si))).

(** The loop that reads up to four octets into [val]. *)
Fixpoint read_failInfo (i : nat) (bitString : bytes) (val : Z) : Z :=
  match bitString with
  | [] => val
  | b :: bitString' =>
      if (i <? 4)%nat
      then read_failInfo (S i) bitString' (Z.lor val (uint32 (Z.shiftl b (8 * (3 - Z.of_nat i)))))
      else val
  end.

Definition failInfo_unmarshal (seq : bytes) : result (PKIFailureInfo * bytes) :=
  let? (bitString, seq) := of_option (parse_error "invalid failInfo BIT STRING")
                             (ReadASN1 BIT_STRING seq) in
  let? (_, bitString) := of_option (parse_error "invalid failInfo unused bits")
                           (ReadUint8 bitString) in
  Ok (read_failInfo 0 bitString 0, seq).

Definition PKIStatusInfo_unmarshal : reader PKIStatusInfo := fun s =>
  let? (seq, s) := of_option (parse_error "invalid PKIStatusInfo sequence")
                     (ReadASN1 SEQUENCE s) in
  let? (status, seq) := of_option (parse_error "invalid PKIStatus") (ReadASN1Int64 seq) in
  let? (statusString, seq) :=
    (if PeekASN1Tag SEQUENCE seq then PKIFreeText_unmarshal seq else Ok ([], seq)) in
  let? (failInfo, _) :=
    (if PeekASN1Tag BIT_STRING seq then failInfo_unmarshal seq else Ok (0, seq)) in
  Ok (mkPKIStatusInfo status statusString failInfo, s).

Definition ErrorMsgContent_marshal (e : ErrorMsgContent) : Builder :=
  AddASN1 SEQUENCE
    (PKIStatusInfo_marshal (em_PKIStatusInfo e)
     ⊕ b_if (negb (ErrorCode e =? 0)) (AddASN1Integer (ErrorCode e))
     ⊕ b_if (nonempty (ErrorDetails e)) (PKIFreeText_marshal (ErrorDetails e))).

Definition ErrorMsgContent_unmarshal : reader ErrorMsgContent := fun s =>
  let? (seq, s) := of_option (parse_error "invalid ErrorMsgContent sequence")
                     (ReadASN1 SEQUENCE s) in
  let? (si, seq) := PKIStatusInfo_unmarshal seq in
  let? (code, seq) :=
    (if negb (Empty seq) && PeekASN1Tag INTEGER seq
     then of_option (parse_error "invalid errorCode") (ReadASN1Int64 seq)
     else Ok (0, seq)) in
  let? (details, _) :=
    (if negb (Empty seq) && PeekASN1Tag SEQUENCE seq
     then PKIFreeText_unmarshal seq else Ok ([], seq)) in
  Ok (mkErrorMsgContent si code details, s).

End Codecs.

(** ** The named bit list *)

Lemma pos_trailing_zeros_nonneg p : 0 <= pos_trailing_zeros p.
Proof. induction p; simpl; lia. Qed.

Lemma pos_trailing_zeros_divide p : exists q, Zpos p = q * 2 ^ pos_trailing_zeros p.
Proof.
  induction p as [p _|p [q IH]|]; [by exists (Zpos p~1); simpl; lia| |by exists 1].
  exists q. pose proof (pos_trailing_zeros_nonneg p). cbn [pos_trailing_zeros].
  rewrite Z.pow_add_r by lia. change (Zpos p~0) with (2 * Zpos p). rewrite IH. ring.
Qed.

Lemma trailing_zero_bits f n :
  0 < f -> 0 <= n < TrailingZeros32 f -> Z.testbit f n = false.
Proof.
  intros Hf Hn. destruct f as [|p|]; [lia| |lia]. simpl in Hn.
  destruct (pos_trailing_zeros_divide p) as [q ->]. by rewrite Z.mul_pow2_bits_low by lia.
Qed.

Lemma trailing_zeros_lt f : 0 < f < 2 ^ 32 -> 0 <= TrailingZeros32 f < 32.
Proof.
  intros [Hf Hlt]. destruct f as [|p|]; [lia| |lia]. simpl.
  pose proof (pos_trailing_zeros_nonneg p). split; [done|].
  destruct (pos_trailing_zeros_divide p) as [q Hq]. rewrite Hq in Hf, Hlt.
  assert (1 <= q) by nia. apply (Z.pow_lt_mono_r_iff 2); nia.
Qed.

(** Bit [n] of octet [k] (most significant first) put back in place. *)
Lemma octet_bit f k n :
  0 <= n -> (k = 0 \/ k = 8 \/ k = 16 \/ k = 24) ->
  Z.testbit (uint32 (Z.shiftl (Z.land (Z.shiftr f k) 255) k)) n
  = Z.testbit f n && (k <=? n) && (n <? k + 8).
Proof.
  intros Hn Hk. unfold uint32. change 255 with (Z.ones 8).
  rewrite <- Z.land_ones, Z.land_spec, Z.testbit_ones_nonneg by lia.
  destruct (Z.ltb_spec n 32); destruct (Z.leb_spec k n).
  - rewrite Z.shiftl_spec, Z.land_spec, Z.testbit_ones_nonneg, Z.shiftr_spec by lia.
    replace (n - k + k) with n by lia.
    destruct (Z.ltb_spec (n - k) 8), (Z.ltb_spec n (k + 8)); try lia;
      by rewrite ?andb_true_r, ?andb_false_r.
  - rewrite Z.shiftl_spec_low by lia. by rewrite andb_false_r.
  - destruct (Z.ltb_spec n (k + 8)); [lia|]. by rewrite !andb_false_r.
  - lia.
Qed.

Lemma octet_bit0 f n : 0 <= n ->
  Z.testbit (uint32 (Z.shiftl (Z.land f 255) 0)) n = Z.testbit f n && (0 <=? n) && (n <? 8).
Proof. intros Hn. by rewrite <- (Z.shiftr_0_r f) at 1; apply (octet_bit f 0 n Hn); auto. Qed.

Lemma failInfo_bits f :
  0 < f < 2 ^ 32 ->
  read_failInfo 0 (take (Z.to_nat (4 - TrailingZeros32 f / 8)) (put_uint32 f)) 0 = f.
Proof.
  intros Hf. pose proof (trailing_zeros_lt f Hf) as Ht.
  pose proof (trailing_zero_bits f) as Hz. specialize (fun n => Hz n (proj1 Hf)).
  assert (Hd : TrailingZeros32 f / 8 = 0 \/ TrailingZeros32 f / 8 = 1 \/
               TrailingZeros32 f / 8 = 2 \/ TrailingZeros32 f / 8 = 3)
    by (Z.to_euclidean_division_equations; lia).
  assert (Hb : 8 * (TrailingZeros32 f / 8) <= TrailingZeros32 f)
    by (Z.to_euclidean_division_equations; lia).
  apply Z.bits_inj'. intros n Hn. unfold put_uint32, uint32 at 1 2 3 4.
  rewrite (Z.mod_small f) by lia.
  assert (Hhigh : 32 <= n -> Z.testbit f n = false).
  { intros. rewrite <- (Z.mod_small f (2 ^ 32)), <- Z.land_ones, Z.land_spec,
      Z.testbit_ones_nonneg by lia. by destruct (Z.ltb_spec n 32); [lia|rewrite andb_false_r]. }
  specialize (Hz n). destruct (Z.testbit f n) eqn:E.
  - assert (n < 32) by (destruct (Z.lt_ge_cases n 32); [done | by discriminate Hhigh]).
    assert (TrailingZeros32 f <= n)
      by (destruct (Z.lt_ge_cases n (TrailingZeros32 f)); [by discriminate Hz | done]).
    destruct Hd as [Hd|[Hd|[Hd|Hd]]]; rewrite Hd in *; simpl;
      rewrite ?Z.lor_spec, ?octet_bit, ?octet_bit0, ?E, ?Z.bits_0 by auto;
      repeat (match goal with |- context [8 * (3 - Z.of_nat ?i)] =>
        let v := eval vm_compute in (8 * (3 - Z.of_nat i)) in change (8 * (3 - Z.of_nat i)) with v end);
      simpl; lia.
  - destruct Hd as [Hd|[Hd|[Hd|Hd]]]; rewrite Hd in *; simpl;
      rewrite ?Z.lor_spec, ?octet_bit, ?octet_bit0, ?E, ?Z.bits_0 by auto; done.
Qed.

(** ** Round trips *)
Section Facts.
Context {CB : Cryptobyte} {L : CryptobyteLaws CB}.

Definition PKIStatusInfo_wf (si : PKIStatusInfo) : Prop :=
  int64_ok (Status si) = true /\ 0 <= FailInfo si < 2 ^ 32.

#[export] Instance failInfo_starts : Starts failInfo_marshal BIT_STRING (fun _ => True).
Proof. intros f e _. apply AddASN1_starts. Qed.

#[export] Instance failInfo_rt :
  Roundtrips failInfo_marshal failInfo_unmarshal (fun f => 0 < f < 2 ^ 32).
Proof.
  intros f e r Hf H. unfold failInfo_marshal in H. rt_inv. unfold failInfo_content in H0. rt_inv.
  unfold failInfo_unmarshal. rt_run. simpl. by rewrite failInfo_bits.
Qed.

#[export] Instance PKIStatusInfo_starts :
  Starts PKIStatusInfo_marshal SEQUENCE (fun _ => True).
Proof. intros f e _. apply AddASN1_starts. Qed.

#[export] Instance PKIStatusInfo_rt :
  Roundtrips PKIStatusInfo_marshal PKIStatusInfo_unmarshal PKIStatusInfo_wf.
Proof.
  intros [st ss fi] e r [Hst Hfi] H. unfold PKIStatusInfo_marshal in H. simpl in *.
  unfold PKIStatusInfo_unmarshal. rt_inv.
  destruct ss as [|s ss]; destruct (Z.eqb_spec fi 0) as [->|Hne]; rt_inv;
    try assert (0 < fi < 2 ^ 32) by lia; rt_run; done.
Qed.

Definition ErrorMsgContent_wf (e : ErrorMsgContent) : Prop :=
  PKIStatusInfo_wf (em_PKIStatusInfo e) /\ int64_ok (ErrorCode e) = true.

#[export] Instance ErrorMsgContent_rt :
  Roundtrips ErrorMsgContent_marshal ErrorMsgContent_unmarshal ErrorMsgContent_wf.
Proof.
  intros [si code det] e r [Hsi Hcode] H. unfold ErrorMsgContent_marshal in H. simpl in *.
  unfold ErrorMsgContent_unmarshal. rt_inv.
  destruct det as [|s ss]; destruct (Z.eqb_spec code 0) as [->|Hne]; rt_inv; rt_run; done.
Qed.
End Facts.
