(* ===== verification/Enrollment.v ===== *)
(** * Enrollment and confirmation contents

    [src/pkicmp/enrollment.go]: certificate responses, certificate confirmation,
    PKI confirmation and polling, with their [marshal] and [unmarshal] methods. *)
From S2P Require Import Prelude Failure Errors Asn1 Types StatusInfo.

Record CertOrEncCert := mkCertOrEncCert {
  ce_Certificate : option CMPCertificate;
  EncryptedCert : option encryptedKey
}.
Record CertifiedKeyPair := mkCertifiedKeyPair {
  ckp_CertOrEncCert : CertOrEncCert;
  PrivateKey : option encryptedKey
}.
Record CertResponse := mkCertResponse {
  cr_CertReqID : Z;
  cr_Status : PKIStatusInfo;
  cr_CertifiedKeyPair : option CertifiedKeyPair;
  RspInfo : bytes
}.
Record CertRepMessage := mkCertRepMessage {
  CAPubs : list CMPCertificate;
  Response_ : list CertResponse
}.
Record CertStatus := mkCertStatus {
  CertHash : bytes;
  cs_CertReqID : Z;
  StatusInfo : option PKIStatusInfo;
  HashAlg : option AlgorithmIdentifier
}.
Abbreviation CertConfirmContent := (list CertStatus).
Abbreviation PollReqContent := (list Z).
Record PollRepItem := mkPollRepItem {
  pr_CertReqID : Z;
  CheckAfter : Z;
  Reason_ : PKIFreeText
}.
Abbreviation PollRepContent := (list PollRepItem).

Definition detailInvalidCertReqID : string := "invalid certReqId".

Section Codecs.
Context {CB : Cryptobyte}.

(** ** CertOrEncCert *)

Definition CertOrEncCert_marshal (c : CertOrEncCert) : Builder :=
  match ce_Certificate c with
  | Some cert => AddASN1 (ctxc 0) (CMPCertificate_marshal cert)
  | None =>
      match EncryptedCert c with
      | Some k => AddASN1 (ctxc 1) (encryptedKey_marshal k)
      | None => b_nil
      end
  end.
Definition CertOrEncCert_unmarshal : reader CertOrEncCert := fun s =>
  reject_if Empty s with parse_error "missing CertOrEncCert" ;;
  if PeekASN1Tag (ctxc 0) s then
    let? (sub, s) := of_option (parse_error "invalid certificate tag") (ReadASN1 (ctxc 0) s) in
    let? (cert, _) := CMPCertificate_unmarshal sub in
    Ok (mkCertOrEncCert (Some cert) None, s)
  else if PeekASN1Tag (ctxc 1) s then
    let? (sub, s) := of_option (parse_error "invalid encryptedCert tag") (ReadASN1 (ctxc 1) s) in
    let? (k, _) := encryptedKey_unmarshal sub in
    Ok (mkCertOrEncCert None (Some k), s)
  else Err (parse_error "unsupported CertOrEncCert variant").

(** ** CertifiedKeyPair *)

Definition CertifiedKeyPair_marshal (ckp : CertifiedKeyPair) : Builder :=
  AddASN1 SEQUENCE
    (CertOrEncCert_marshal (ckp_CertOrEncCert ckp)
     ⊕ b_opt (PrivateKey ckp) (fun k => AddASN1 (ctxc 0) (encryptedKey_marshal k))).
Definition CertifiedKeyPair_unmarshal : reader CertifiedKeyPair := fun s =>
  let? (seq, s) := of_option (parse_error "invalid CertifiedKeyPair sequence")
                     (ReadASN1 SEQUENCE s) in
  let? (c, seq) := CertOrEncCert_unmarshal seq in
  if negb (Empty seq) && PeekASN1Tag (ctxc 0) seq then
    let? (sub, _) := of_option (parse_error "invalid privateKey tag") (ReadASN1 (ctxc 0) seq) in
    let? (k, _) := encryptedKey_unmarshal sub in
    Ok (mkCertifiedKeyPair c (Some k), s)
  else Ok (mkCertifiedKeyPair c None, s).

(** ** CertResponse *)

Definition CertResponse_marshal (r : CertResponse) : Builder :=
  AddASN1 SEQUENCE
    (AddASN1Integer (cr_CertReqID r)
     ⊕ PKIStatusInfo_marshal (cr_Status r)
     ⊕ b_opt (cr_CertifiedKeyPair r) CertifiedKeyPair_marshal
     ⊕ b_if (nonempty (RspInfo r)) (AddASN1 OCTET_STRING (AddBytes (RspInfo r)))).

(** [cbasn1.Tag(seq[0]).ContextSpecific() == cbasn1.Tag(seq[0])]. *)
Definition peek_context_specific (seq : bytes) : bool :=
  match seq with [] => false | b :: _ => ContextSpecific b =? b end.

Definition CertResponse_unmarshal : reader CertResponse := fun s =>
  let? (seq, s) := of_option (parse_error "invalid CertResponse sequence")
                     (ReadASN1 SEQUENCE s) in
  let? (id, seq) := of_option (parse_error detailInvalidCertReqID) (ReadASN1Int64 seq) in
  let? (status, seq) := PKIStatusInfo_unmarshal seq in
  let? (ckp, seq) :=
    (if negb (Empty seq) && (PeekASN1Tag SEQUENCE seq || peek_context_specific seq)
     then let? (ckp, seq) := CertifiedKeyPair_unmarshal seq in Ok (Some ckp, seq)
     else Ok (None, seq)) in
  let? (rspInfo, _) :=
    (if negb (Empty seq) && PeekASN1Tag OCTET_STRING seq
     then of_option (parse_error "invalid rspInfo") (ReadASN1Bytes OCTET_STRING seq)
     else Ok ([], seq)) in
  Ok (mkCertResponse id status ckp rspInfo, s).

(** ** CertRepMessage *)

Definition CertRepMessage_marshal (m : CertRepMessage) : Builder :=
  AddASN1 SEQUENCE
    (b_if (nonempty (CAPubs m))
       (AddASN1 (ctxc 1) (AddASN1 SEQUENCE (b_list CMPCertificate_marshal (CAPubs m))))
     ⊕ AddASN1 SEQUENCE (b_list CertResponse_marshal (Response_ m))).
Definition CertRepMessage_unmarshal : reader CertRepMessage := fun s =>
  let? (seq, s) := of_option (parse_error "invalid CertRepMessage sequence")
                     (ReadASN1 SEQUENCE s) in
  let? (caPubs, seq) :=
    (if PeekASN1Tag (ctxc 1) seq then
       let? (sub, seq) := of_option (parse_error "invalid caPubs tag") (ReadASN1 (ctxc 1) seq) in
       let? (certsSeq, _) := of_option (parse_error "invalid caPubs sequence")
                               (ReadASN1 SEQUENCE sub) in
       let? certs := read_list CMPCertificate_unmarshal certsSeq in
       Ok (certs, seq)
     else Ok ([], seq)) in
  let? (respSeq, _) := of_option (parse_error "invalid response sequence")
                         (ReadASN1 SEQUENCE seq) in
  let? resps := read_list CertResponse_unmarshal respSeq in
  Ok (mkCertRepMessage caPubs resps, s).

(** ** CertStatus and CertConfirmContent *)

Definition CertStatus_marshal (cs : CertStatus) : Builder :=
  AddASN1 SEQUENCE
    (AddASN1 OCTET_STRING (AddBytes (CertHash cs))
     ⊕ AddASN1Integer (cs_CertReqID cs)
     ⊕ b_opt (StatusInfo cs) PKIStatusInfo_marshal
     ⊕ b_opt (HashAlg cs) (fun alg =>
         set_pvno PVNO3 ⊕ AddASN1 (ctxc 0) (AlgorithmIdentifier_marshal alg))).
Definition CertStatus_unmarshal : reader CertStatus := fun inner =>
  let? (seq, inner) := of_option (parse_error "invalid CertStatus sequence")
                         (ReadASN1 SEQUENCE inner) in
  let? (hash, seq) := of_option (parse_error "invalid certHash")
                        (ReadASN1Bytes OCTET_STRING seq) in
  let? (id, seq) := of_option (parse_error detailInvalidCertReqID) (ReadASN1Int64 seq) in
  let? (si, seq) :=
    (if negb (Empty seq) && PeekASN1Tag SEQUENCE seq
     then let? (si, seq) := PKIStatusInfo_unmarshal seq in Ok (Some si, seq)
     else Ok (None, seq)) in
  let? (alg, seq) :=
    (if negb (Empty seq) && PeekASN1Tag (ctxc 0) seq then
       let? (sub, seq) := of_option (parse_error "invalid hashAlg tag") (ReadASN1 (ctxc 0) seq) in
       let? (algorithm, sub) := of_option (parse_error "invalid hashAlg sequence")
                                  (ReadASN1 SEQUENCE sub) in
       let? (alg, algorithm) := AlgorithmIdentifier_unmarshalInner algorithm in
       reject_if negb (Empty sub) || negb (Empty algorithm)
         with parse_error "trailing hashAlg data" ;;
       Ok (Some alg, seq)
     else Ok (None, seq)) in
  reject_if negb (Empty seq) with parse_error "trailing CertStatus data" ;;
  Ok (mkCertStatus hash id si alg, inner).

Definition CertConfirmContent_marshal (c : CertConfirmContent) : Builder :=
  AddASN1 SEQUENCE (b_list CertStatus_marshal c).
Definition CertConfirmContent_unmarshal : reader CertConfirmContent := fun s =>
  let? (seq, s) := of_option (parse_error "invalid CertConfirmContent sequence")
                     (ReadASN1 SEQUENCE s) in
  let? c := read_list CertStatus_unmarshal seq in
  Ok (c, s).

(** ** PKIConfirmContent *)

Definition PKIConfirmContent_marshal (_ : unit) : Builder := AddASN1 NULL b_nil.
Definition PKIConfirmContent_unmarshal : reader unit := fun s =>
  if Empty s then Ok (tt, s)
  else let? (_, s) := of_option (parse_error "invalid PKIConfirmContent (expected NULL)")
                        (ReadASN1 NULL s) in
       Ok (tt, s).

(** ** Polling *)

Definition pollReq_item_marshal (id : Z) : Builder := AddASN1 SEQUENCE (AddASN1Integer id).
Definition PollReqContent_marshal (c : PollReqContent) : Builder :=
  AddASN1 SEQUENCE (b_list pollReq_item_marshal c).
Definition pollReq_item_unmarshal : reader Z := fun seq =>
  let? (sub, seq) := of_option (parse_error "invalid pollReq element") (ReadASN1 SEQUENCE seq) in
  let? (id, _) := of_option (parse_error "invalid certReqId in pollReq") (ReadASN1Int64 sub) in
  Ok (id, seq).
Definition PollReqContent_unmarshal : reader PollReqContent := fun s =>
  let? (seq, s) := of_option (parse_error "invalid PollReqContent sequence")
                     (ReadASN1 SEQUENCE s) in
  let? c := read_list pollReq_item_unmarshal seq in
  Ok (c, s).

Definition PollRepItem_marshal (item : PollRepItem) : Builder :=
  AddASN1 SEQUENCE
    (AddASN1Integer (pr_CertReqID item)
     ⊕ AddASN1Integer (CheckAfter item)
     ⊕ b_if (nonempty (Reason_ item)) (PKIFreeText_marshal (Reason_ item))).
Definition PollRepContent_marshal (c : PollRepContent) : Builder :=
  AddASN1 SEQUENCE (b_list PollRepItem_marshal c).
Definition PollRepItem_unmarshal : reader PollRepItem := fun seq =>
  let? (sub, seq) := of_option (parse_error "invalid pollRep element") (ReadASN1 SEQUENCE seq) in
  let? (id, sub) := of_option (parse_error "invalid certReqId in pollRep") (ReadASN1Int64 sub) in
  let? (after, sub) := of_option (parse_error "invalid checkAfter in pollRep")
                         (ReadASN1Int64 sub) in
  if negb (Empty sub) then
    let? (reason, _) := PKIFreeText_unmarshal sub in
    Ok (mkPollRepItem id after reason, seq)
  else Ok (mkPollRepItem id after [], seq).
Definition PollRepContent_unmarshal : reader PollRepContent := fun s =>
  let? (seq, s) := of_option (parse_error "invalid PollRepContent sequence")
                     (ReadASN1 SEQUENCE s) in
  let? c := read_list PollRepItem_unmarshal seq in
  Ok (c, s).

End Codecs.
