(* ===== verification/EnrollmentFacts.v ===== *)
(** * Round trips of the enrollment and confirmation contents *)
From S2P Require Import Prelude Failure Errors Asn1 Asn1Facts Types TypesFacts StatusInfo.
From S2P Require Import Enrollment.

(** [opt_wf P o]: the pointer is nil, or its target satisfies [P]. *)
Definition opt_wf {A} (P : A -> Prop) (o : option A) : Prop :=
  match o with Some x => P x | None => True end.

Section Facts.
Context {CB : Cryptobyte} {L : CryptobyteLaws CB}.

Definition CertOrEncCert_wf (c : CertOrEncCert) : Prop :=
  match ce_Certificate c, EncryptedCert c with
  | Some cert, None => CMPCertificate_wf cert
  | None, Some k => encryptedKey_wf k
  | _, _ => False
  end.

#[export] Instance CertOrEncCert_rt :
  Roundtrips CertOrEncCert_marshal CertOrEncCert_unmarshal CertOrEncCert_wf.
Proof.
  intros [[cert|] [k|]] e r Hwf H; simpl in Hwf; try done;
    unfold CertOrEncCert_marshal in H; simpl in H; rt_inv; unfold CertOrEncCert_unmarshal;
    rt_run; done.
Qed.

#[export] Instance CertOrEncCert_writes : Writes CertOrEncCert_marshal CertOrEncCert_wf.
Proof.
  intros [[cert|] [k|]] e Hwf H; simpl in Hwf; try done;
    apply AddASN1_starts in H as [e' ->]; done.
Qed.

Definition CertifiedKeyPair_wf (ckp : CertifiedKeyPair) : Prop :=
  CertOrEncCert_wf (ckp_CertOrEncCert ckp) /\ opt_wf encryptedKey_wf (PrivateKey ckp).

#[export] Instance CertifiedKeyPair_starts :
  Starts CertifiedKeyPair_marshal SEQUENCE (fun _ => True).
Proof. intros x e _. apply AddASN1_starts. Qed.

#[export] Instance CertifiedKeyPair_rt :
  Roundtrips CertifiedKeyPair_marshal CertifiedKeyPair_unmarshal CertifiedKeyPair_wf.
Proof.
  intros [c [k|]] e r [Hc Hk] H; simpl in *; unfold CertifiedKeyPair_marshal in H; simpl in H;
    rt_inv; unfold CertifiedKeyPair_unmarshal; rt_run; done.
Qed.

Definition CertResponse_wf (r : CertResponse) : Prop :=
  int64_ok (cr_CertReqID r) = true /\ PKIStatusInfo_wf (cr_Status r)
  /\ opt_wf CertifiedKeyPair_wf (cr_CertifiedKeyPair r).

Lemma peek_context_specific_starts t e :
  starts t e -> peek_context_specific e = (ContextSpecific t =? t).
Proof. by intros [e' ->]. Qed.

#[export] Instance CertResponse_rt :
  Roundtrips CertResponse_marshal CertResponse_unmarshal CertResponse_wf.
Proof.
  intros [id st [ckp|] ri] e r (Hid & Hst & Hckp) H; simpl in *;
    unfold CertResponse_marshal in H; simpl in H;
    destruct ri as [|b ri]; rt_inv; unfold CertResponse_unmarshal; rt_run; try done;
    rewrite (peek_context_specific_starts OCTET_STRING) by done; tag_eqb; cbn [andb orb negb of_option res_bind]; rt_run; done.
Qed.

#[export] Instance CertResponse_writes : Writes CertResponse_marshal CertResponse_wf.
Proof. intros x e _ [e' ->]%AddASN1_starts. done. Qed.

Definition CertRepMessage_wf (m : CertRepMessage) : Prop :=
  Forall CMPCertificate_wf (CAPubs m) /\ Forall CertResponse_wf (Response_ m).

#[export] Instance CertRepMessage_rt :
  Roundtrips CertRepMessage_marshal CertRepMessage_unmarshal CertRepMessage_wf.
Proof.
  intros [[|ca cas] resps] e r [Hcas Hresps] H; simpl in *;
    unfold CertRepMessage_marshal in H; simpl in H; rt_inv; unfold CertRepMessage_unmarshal;
    rt_run; done.
Qed.

Definition CertStatus_wf (cs : CertStatus) : Prop :=
  int64_ok (cs_CertReqID cs) = true /\ opt_wf PKIStatusInfo_wf (StatusInfo cs)
  /\ opt_wf AlgorithmIdentifier_wf (HashAlg cs).

#[export] Instance CertStatus_rt :
  Roundtrips CertStatus_marshal CertStatus_unmarshal CertStatus_wf.
Proof.
  intros [hash id [si|] [alg|]] e r (Hid & Hsi & Halg) H; simpl in *;
    unfold CertStatus_marshal, AlgorithmIdentifier_marshal in H; simpl in H; rt_inv;
    unfold CertStatus_unmarshal; rt_run; try done;
    erewrite AlgorithmIdentifier_inner_rt by done; rt_run; done.
Qed.

#[export] Instance CertStatus_writes : Writes CertStatus_marshal CertStatus_wf.
Proof. intros x e _ [e' ->]%AddASN1_starts. done. Qed.

#[export] Instance CertConfirmContent_rt :
  Roundtrips CertConfirmContent_marshal CertConfirmContent_unmarshal (Forall CertStatus_wf).
Proof.
  intros c e r Hwf H. unfold CertConfirmContent_marshal in H. rt_inv.
  unfold CertConfirmContent_unmarshal. rt_run. done.
Qed.

#[export] Instance PKIConfirmContent_rt :
  Roundtrips PKIConfirmContent_marshal PKIConfirmContent_unmarshal (fun _ => True).
Proof.
  intros [] e r _ H. unfold PKIConfirmContent_marshal in H. rt_inv.
  unfold PKIConfirmContent_unmarshal. rt_run. done.
Qed.

#[export] Instance pollReq_item_rt :
  Roundtrips pollReq_item_marshal pollReq_item_unmarshal (fun id => int64_ok id = true).
Proof.
  intros id e r Hid H. unfold pollReq_item_marshal in H. rt_inv.
  unfold pollReq_item_unmarshal. rt_run. done.
Qed.
#[export] Instance pollReq_item_writes : Writes pollReq_item_marshal (fun id => int64_ok id = true).
Proof. intros x e _ [e' ->]%AddASN1_starts. done. Qed.

Definition PollReqContent_wf (c : PollReqContent) : Prop :=
  Forall (fun id => int64_ok id = true) c.

#[export] Instance PollReqContent_rt :
  Roundtrips PollReqContent_marshal PollReqContent_unmarshal PollReqContent_wf.
Proof.
  intros c e r Hwf H. unfold PollReqContent_marshal in H. rt_inv.
  unfold PollReqContent_unmarshal. rt_run. done.
Qed.

Definition PollRepItem_wf (item : PollRepItem) : Prop :=
  int64_ok (pr_CertReqID item) = true /\ int64_ok (CheckAfter item) = true.

#[export] Instance PollRepItem_rt :
  Roundtrips PollRepItem_marshal PollRepItem_unmarshal PollRepItem_wf.
Proof.
  intros [id after [|s ss]] e r [Hid Hafter] H; simpl in *;
    unfold PollRepItem_marshal in H; simpl in H; rt_inv; unfold PollRepItem_unmarshal;
    rt_run; done.
Qed.
#[export] Instance PollRepItem_writes : Writes PollRepItem_marshal PollRepItem_wf.
Proof. intros x e _ [e' ->]%AddASN1_starts. done. Qed.

#[export] Instance PollRepContent_rt :
  Roundtrips PollRepContent_marshal PollRepContent_unmarshal (Forall PollRepItem_wf).
Proof.
  intros c e r Hwf H. unfold PollRepContent_marshal in H. rt_inv.
  unfold PollRepContent_unmarshal. rt_run. done.
Qed.

End Facts.
