(* ===== verification/Crmf.v ===== *)
(** * Certificate request messages

    [src/pkicmp/crmf.go]: the CRMF request, template, controls and proof of
    possession structures, with their [marshal] and [unmarshal] methods. *)
From S2P Require Import Prelude Failure Errors Asn1 Types StatusInfo.

(** [AttributeTypeAndValue] of the package (a registration control). *)
Record AttributeTypeAndValue := mkControl { control_Type : ObjectIdentifier; control_Value : bytes }.

Record CertTemplate := mkCertTemplate {
  tmpl_SerialNumber : option Z;
  tmpl_Issuer : bytes;
  tmpl_Subject : GeneralName;
  tmpl_PublicKey : bytes;
  tmpl_Extensions : bytes
}.
Definition emptyCertTemplate : CertTemplate := mkCertTemplate None [] emptyGeneralName [] [].

Record CertRequest := mkCertRequest {
  cr_req_CertReqID : Z;
  cr_CertTemplate : CertTemplate;
  Controls : list AttributeTypeAndValue;
  cr_Raw : bytes
}.

Record popoSigningKeyInput := mkPopoSigningKeyInput {
  ski_Sender : option GeneralName;
  ski_PublicKey : bytes
}.
Record popoSigningKey := mkPopoSigningKey {
  PoposkInput : option popoSigningKeyInput;
  psk_Algorithm : AlgorithmIdentifier;
  psk_Signature : bytes
}.
Record popoPrivKey := mkPopoPrivKey {
  SubsequentMessage : option Z;
  ppk_encryptedKey : option envelopedData
}.
Record proofOfPossession := mkPOP {
  RAVerified : bool;
  pop_Signature : option popoSigningKey;
  KeyEncipherment : option popoPrivKey;
  KeyAgreement : option popoPrivKey
}.
Record CertReqMsg := mkCertReqMsg { CertReq : CertRequest; Popo : option proofOfPossession }.
Abbreviation CertReqMessages := (list CertReqMsg).

Record challenge := mkChallenge {
  OWF_ : option AlgorithmIdentifier;
  Witness : bytes;
  EncryptedRand : option envelopedData
}.

Definition NewRAVerifiedPOP : proofOfPossession := mkPOP true None None None.
Definition NewKeyEnciphermentPOP (subsequent : option Z) : proofOfPossession :=
  mkPOP false None (Some (mkPopoPrivKey subsequent None)) None.
Definition NewEncryptedKeyPOP (raw : bytes) : proofOfPossession :=
  mkPOP false None (Some (mkPopoPrivKey None (Some (mkEnvelopedData raw)))) None.

Section Codecs.
Context {CB : Cryptobyte} {GN : GoNames}.

(** ** Controls *)

Definition AttributeTypeAndValue_marshal (a : AttributeTypeAndValue) : Builder :=
  AddASN1 SEQUENCE
    (AddASN1ObjectIdentifier (control_Type a)
     ⊕ if nonempty (control_Value a) then AddBytes (control_Value a)
       else SetError (errorString "pkicmp: attribute type and value is empty")).
Definition AttributeTypeAndValue_unmarshal : reader AttributeTypeAndValue := fun s =>
  let? (seq, s) := of_option (parse_error "invalid AttributeTypeAndValue sequence")
                     (ReadASN1 SEQUENCE s) in
  let? (oid, seq) := of_option (parse_error "invalid AttributeTypeAndValue OID")
                       (ReadASN1ObjectIdentifier seq) in
  let? (value, _, seq) := of_option (parse_error "invalid AttributeTypeAndValue value")
                            (ReadAnyASN1Element seq) in
  reject_if negb (Empty seq) with parse_error "invalid AttributeTypeAndValue value" ;;
  Ok (mkControl oid value, s).

(** ** CertTemplate *)

Definition strip_or_error (what : string) (der : bytes) (t : Tag) : Builder :=
  match stripSequence der with
  | Err err => SetError (Errorf_w ("pkicmp: invalid " +:+ what +:+ " DER") err)
  | Ok content => AddASN1 t (AddBytes content)
  end.

Definition serialNumber_marshal (n : Z) : Builder :=
  AddASN1 (ctx 1)
    (match marshalImplicitBigInt n with
     | Ok content => AddBytes content
     | Err err => SetError err
     end).

Definition CertTemplate_marshal (t : CertTemplate) : Builder :=
  AddASN1 SEQUENCE
    (b_opt (tmpl_SerialNumber t) serialNumber_marshal
     ⊕ b_if (nonempty (tmpl_Issuer t))
         (if negb (isSingleElement (tmpl_Issuer t) SEQUENCE)
          then SetError (errorString "pkicmp: invalid issuer DER")
          else AddASN1 (ctxc 3) (AddBytes (tmpl_Issuer t)))
     ⊕ b_if (nonempty (DirectoryName (tmpl_Subject t)))
         (AddASN1 (ctxc 5) (marshalRDNSequence (DirectoryName (tmpl_Subject t))))
     ⊕ b_if (nonempty (tmpl_PublicKey t))
         (strip_or_error "publicKey" (tmpl_PublicKey t) (ctxc 6))
     ⊕ b_if (nonempty (tmpl_Extensions t))
         (strip_or_error "extensions" (tmpl_Extensions t) (ctxc 9))).

(** One pass of the loop: the element [sub] with its [tag] is read into [t]. *)
Definition CertTemplate_field (t : CertTemplate) (sub : bytes) (tag : Tag) : result CertTemplate :=
  let '(mkCertTemplate serial issuer subject publicKey extensions) := t in
  if tag =? ctx 1 then
    let? (content, _) := of_option (parse_error "invalid serialNumber tag") (ReadASN1 tag sub) in
    let? n := unmarshalImplicitBigInt content in
    Ok (mkCertTemplate (Some n) issuer subject publicKey extensions)
  else if tag =? ctxc 3 then
    let? (content, _) := of_option (parse_error "invalid issuer tag") (ReadASN1 tag sub) in
    let? (name, content) := of_option (parse_error "invalid issuer name")
                              (ReadASN1Element SEQUENCE content) in
    reject_if negb (Empty content) with parse_error "invalid issuer name" ;;
    Ok (mkCertTemplate serial name subject publicKey extensions)
  else if tag =? ctxc 5 then
    let? (content, _) := of_option (parse_error "invalid subject tag") (ReadASN1 tag sub) in
    let? rdn := parseRDNSequence content in
    Ok (mkCertTemplate serial issuer
          (mkGeneralName rdn (RFC822Name subject) (gn_Raw subject)) publicKey extensions)
  else if tag =? ctxc 6 then
    let? (content, _) := of_option (parse_error "invalid publicKey tag") (ReadASN1 tag sub) in
    let? der := wrapSequence content in
    Ok (mkCertTemplate serial issuer subject der extensions)
  else if tag =? ctxc 9 then
    let? (content, _) := of_option (parse_error "invalid extensions tag") (ReadASN1 tag sub) in
    let? der := wrapSequence content in
    Ok (mkCertTemplate serial issuer subject publicKey der)
  else Ok t.

Definition CertTemplate_step (t : CertTemplate) : reader CertTemplate := fun seq =>
  let? (sub, tag, seq) := of_option (parse_error "invalid CertTemplate element")
                            (ReadAnyASN1Element seq) in
  let? t := CertTemplate_field t sub tag in
  Ok (t, seq).
Definition CertTemplate_unmarshal : reader CertTemplate := fun s =>
  let? (seq, s) := of_option (parse_error "invalid CertTemplate sequence")
                     (ReadASN1 SEQUENCE s) in
  let? t := read_fold CertTemplate_step emptyCertTemplate seq in
  Ok (t, s).

(** ** CertRequest *)

Definition CertRequest_marshal (r : CertRequest) : Builder :=
  AddASN1 SEQUENCE
    (AddASN1Integer (cr_req_CertReqID r)
     ⊕ CertTemplate_marshal (cr_CertTemplate r)
     ⊕ b_if (nonempty (Controls r))
         (AddASN1 SEQUENCE (b_list AttributeTypeAndValue_marshal (Controls r)))).
Definition CertRequest_unmarshal : reader CertRequest := fun s =>
  let? (raw, s) := of_option (parse_error "invalid CertRequest sequence")
                     (ReadASN1Element SEQUENCE s) in
  let? (seq, _) := of_option (parse_error "invalid CertRequest sequence")
                     (ReadASN1 SEQUENCE raw) in
  let? (id, seq) := of_option (parse_error "invalid certReqId") (ReadASN1Int64 seq) in
  let? (tmpl, seq) := CertTemplate_unmarshal seq in
  if Empty seq then Ok (mkCertRequest id tmpl [] raw, s)
  else
    let? (controls, seq) := of_option (parse_error "invalid Controls sequence")
                              (ReadASN1 SEQUENCE seq) in
    reject_if Empty controls with parse_error "invalid Controls sequence" ;;
    let? cs := read_list AttributeTypeAndValue_unmarshal controls in
    reject_if negb (Empty seq) with parse_error "trailing data in CertRequest" ;;
    Ok (mkCertRequest id tmpl cs raw, s).

(** ** Proof of possession *)

Definition popoPrivKey_marshal (p : popoPrivKey) : Builder :=
  match SubsequentMessage p with
  | Some v => AddASN1 (ctx 1) (AddBytes (marshalImplicitInt64 v))
  | None =>
      match ppk_encryptedKey p with
      | Some ed => set_pvno PVNO3 ⊕ AddASN1 (ctxc 4) (envelopedData_marshalInner ed)
      | None => b_nil
      end
  end.
Definition popoPrivKey_unmarshal : reader popoPrivKey := fun s =>
  let? (sub, tag, s) := of_option (parse_error "missing popoPrivKey") (ReadAnyASN1 s) in
  if tag =? ctx 1 then
    let? v := unmarshalImplicitInt64 sub in Ok (mkPopoPrivKey (Some v) None, s)
  else if tag =? ctxc 4 then
    let? ed := envelopedData_unmarshalInner sub in Ok (mkPopoPrivKey None (Some ed), s)
  else Err (parse_error ("unsupported popoPrivKey variant: " +:+ pretty tag)).

Definition popoSigningKeyInput_marshalInner (p : popoSigningKeyInput) : Builder :=
  b_opt (ski_Sender p) (fun gn => AddASN1 (ctxc 0) (GeneralName_marshal gn))
  ⊕ AddBytes (ski_PublicKey p).
Definition popoSigningKeyInput_marshal (p : popoSigningKeyInput) : Builder :=
  AddASN1 SEQUENCE (popoSigningKeyInput_marshalInner p).
Definition popoSigningKeyInput_unmarshalInner : reader popoSigningKeyInput := fun seq =>
  let? (sender, seq) :=
    (if negb (Empty seq) && PeekASN1Tag (ctxc 0) seq then
       let? (sub, seq) := of_option (parse_error "invalid sender tag") (ReadASN1 (ctxc 0) seq) in
       let? (gn, _) := GeneralName_unmarshal sub in
       Ok (Some gn, seq)
     else Ok (None, seq)) in
  let? (pub, _, seq) := of_option (parse_error "missing publicKey") (ReadAnyASN1Element seq) in
  Ok (mkPopoSigningKeyInput sender pub, seq).
Definition popoSigningKeyInput_unmarshal : reader popoSigningKeyInput := fun s =>
  let? (seq, s) := of_option (parse_error "invalid popoSigningKeyInput sequence")
                     (ReadASN1 SEQUENCE s) in
  let? (p, _) := popoSigningKeyInput_unmarshalInner seq in
  Ok (p, s).

Definition popoSigningKey_marshalInner (p : popoSigningKey) : Builder :=
  b_opt (PoposkInput p) (fun i => AddASN1 (ctxc 0) (popoSigningKeyInput_marshalInner i))
  ⊕ AlgorithmIdentifier_marshal (psk_Algorithm p)
  ⊕ AddASN1 BIT_STRING (AddUint8 0 ⊕ AddBytes (psk_Signature p)).
Definition popoSigningKey_marshal (p : popoSigningKey) : Builder :=
  AddASN1 SEQUENCE (popoSigningKey_marshalInner p).
Definition popoSigningKey_unmarshalInner : reader popoSigningKey := fun seq =>
  let? (input, seq) :=
    (if PeekASN1Tag (ctxc 0) seq then
       let? (sub, seq) := of_option (parse_error "invalid poposkInput tag")
                            (ReadASN1 (ctxc 0) seq) in
       let? (i, _) := popoSigningKeyInput_unmarshalInner sub in
       Ok (Some i, seq)
     else Ok (None, seq)) in
  let? (alg, seq) := AlgorithmIdentifier_unmarshal seq in
  let? (bitString, seq) := of_option (parse_error "invalid signature BIT STRING")
                             (ReadASN1 BIT_STRING seq) in
  let? (_, bitString) := of_option (parse_error "invalid signature unused bits")
                           (ReadUint8 bitString) in
  Ok (mkPopoSigningKey input alg bitString, seq).
Definition popoSigningKey_unmarshal : reader popoSigningKey := fun s =>
  let? (seq, s) := of_option (parse_error "invalid popoSigningKey sequence")
                     (ReadASN1 SEQUENCE s) in
  let? (p, _) := popoSigningKey_unmarshalInner seq in
  Ok (p, s).

Definition proofOfPossession_marshal (p : proofOfPossession) : Builder :=
  if RAVerified p then AddASN1 (ctx 0) b_nil
  else match pop_Signature p with
  | Some sk => AddASN1 (ctxc 1) (popoSigningKey_marshalInner sk)
  | None =>
      match KeyEncipherment p with
      | Some k => AddASN1 (ctxc 2) (popoPrivKey_marshal k)
      | None =>
          match KeyAgreement p with
          | Some k => AddASN1 (ctxc 3) (popoPrivKey_marshal k)
          | None => b_nil
          end
      end
  end.
Definition proofOfPossession_unmarshal : reader proofOfPossession := fun s =>
  let? (sub, tag, s) := of_option (parse_error "missing proofOfPossession") (ReadAnyASN1 s) in
  if tag =? ctx 0 then Ok (mkPOP true None None None, s)
  else if tag =? ctxc 1 then
    let? (sk, _) := popoSigningKey_unmarshalInner sub in
    Ok (mkPOP false (Some sk) None None, s)
  else if tag =? ctxc 2 then
    let? (k, _) := popoPrivKey_unmarshal sub in Ok (mkPOP false None (Some k) None, s)
  else if tag =? ctxc 3 then
    let? (k, _) := popoPrivKey_unmarshal sub in Ok (mkPOP false None None (Some k), s)
  else Err (parse_error ("unsupported proofOfPossession variant: " +:+ pretty tag)).

(** ** CertReqMsg and CertReqMessages *)

Definition CertReqMsg_marshal (m : CertReqMsg) : Builder :=
  AddASN1 SEQUENCE
    (CertRequest_marshal (CertReq m) ⊕ b_opt (Popo m) proofOfPossession_marshal).
Definition CertReqMsg_unmarshal : reader CertReqMsg := fun s =>
  let? (seq, s) := of_option (parse_error "invalid CertReqMsg sequence")
                     (ReadASN1 SEQUENCE s) in
  let? (req, seq) := CertRequest_unmarshal seq in
  if negb (Empty seq) && negb (PeekASN1Tag SEQUENCE seq) then
    let? (popo, _) := proofOfPossession_unmarshal seq in
    Ok (mkCertReqMsg req (Some popo), s)
  else Ok (mkCertReqMsg req None, s).

Definition CertReqMessages_marshal (m : CertReqMessages) : Builder :=
  AddASN1 SEQUENCE (b_list CertReqMsg_marshal m).
Definition CertReqMessages_unmarshal : reader CertReqMessages := fun s =>
  let? (seq, s) := of_option (parse_error "invalid CertReqMessages sequence")
                     (ReadASN1 SEQUENCE s) in
  let? m := read_list CertReqMsg_unmarshal seq in
  Ok (m, s).

(** ** The challenge of RFC 9810 5.2.8.3.3 *)

Definition challenge_marshal (c : challenge) : Builder :=
  AddASN1 SEQUENCE
    (b_opt (OWF_ c) AlgorithmIdentifier_marshal
     ⊕ AddASN1OctetString (Witness c)
     ⊕ AddASN1OctetString []
     ⊕ b_opt (EncryptedRand c) (fun ed =>
         set_pvno PVNO3 ⊕ AddASN1 (ctxc 0) (envelopedData_marshalInner ed))).
Definition challenge_unmarshal : reader challenge := fun s =>
  let? (seq, s) := of_option (parse_error "invalid challenge sequence") (ReadASN1 SEQUENCE s) in
  let? (owf, seq) :=
    (if negb (Empty seq) && PeekASN1Tag SEQUENCE seq
     then let? (a, seq) := AlgorithmIdentifier_unmarshal seq in Ok (Some a, seq)
     else Ok (None, seq)) in
  let? (witness, seq) := of_option (parse_error "invalid witness")
                           (ReadASN1Bytes OCTET_STRING seq) in
  let? (_, seq) := of_option (parse_error "missing deprecated challenge")
                     (ReadASN1Bytes OCTET_STRING seq) in
  if negb (Empty seq) && PeekASN1Tag (ctxc 0) seq then
    let? (sub, _) := of_option (parse_error "invalid encryptedRand tag") (ReadASN1 (ctxc 0) seq) in
    let? ed := envelopedData_unmarshalInner sub in
    Ok (mkChallenge owf witness (Some ed), s)
  else Ok (mkChallenge owf witness None, s).

End Codecs.
