(* ===== verification/CrmfFacts.v ===== *)
(** * Round trips of the certificate request messages

    The subject of a template is decoded by [encoding/asn1]; [RDN_wf] is what the
    round trip asks of that decoder at the name at hand. *)
From S2P Require Import Prelude Failure Errors Asn1 Asn1Facts Types TypesFacts StatusInfo.
From S2P Require Import Enrollment EnrollmentFacts Crmf.

Section Facts.
Context {CB : Cryptobyte} {L : CryptobyteLaws CB} {GN : GoNames}.

(** ** Controls *)

Definition control_wf (a : AttributeTypeAndValue) : Prop :=
  OID_ok (control_Type a) = true /\ element (control_Value a).

#[export] Instance AttributeTypeAndValue_rt :
  Roundtrips AttributeTypeAndValue_marshal AttributeTypeAndValue_unmarshal control_wf.
Proof.
  intros [oid v] e r Hwf H. unfold AttributeTypeAndValue_marshal in H. simpl in *.
  destruct Hwf as [Ho Hwf]. cbn [control_Type control_Value] in Ho, Hwf. rewrite (element_nonempty v Hwf) in H. rt_inv.
  unfold AttributeTypeAndValue_unmarshal. rt_step. rt_step.
  destruct (ReadAnyASN1Element_element v [] Hwf) as [t Ht]. rewrite app_nil_r in Ht.
  by rewrite Ht.
Qed.
#[export] Instance AttributeTypeAndValue_writes : Writes AttributeTypeAndValue_marshal control_wf.
Proof. intros x e _ [e' ->]%AddASN1_starts. done. Qed.

(** ** Templates *)

Definition RDN_wf (rdn : RDNSequence) : Prop :=
  forall e, bout (marshalRDNSequence rdn) = Ok e -> asn1_Unmarshal_RDN e = Some (rdn, []).

Definition CertTemplate_wf (t : CertTemplate) : Prop :=
  tmpl_Subject t = mkGeneralName (DirectoryName (tmpl_Subject t)) "" []
  /\ RDN_wf (DirectoryName (tmpl_Subject t))
  /\ (tmpl_PublicKey t = [] \/ single_sequence (tmpl_PublicKey t))
  /\ (tmpl_Extensions t = [] \/ single_sequence (tmpl_Extensions t)).

Lemma CertTemplate_step_consumes t : consumes (CertTemplate_step t).
Proof.
  intros s x r H. unfold CertTemplate_step in H. split_res. by eapply ReadAnyASN1Element_shorter.
Qed.

(** One field of the encoding, read by one pass of the loop. *)
Lemma CertTemplate_read_field t t' tag c e r :
  tlv tag c = Some e -> CertTemplate_field t e tag = Ok t' ->
  read_fold CertTemplate_step t (e ++ r) = read_fold CertTemplate_step t' r.
Proof.
  intros Ht Hf. pose proof (tlv_starts _ _ _ Ht) as [e' He].
  rewrite read_fold_cons; [|apply CertTemplate_step_consumes|by rewrite He].
  unfold CertTemplate_step at 1. rewrite (ReadAnyASN1Element_tlv _ _ _ _ Ht). simpl. by rewrite Hf.
Qed.

Lemma read_fold_nil {A} (step : A -> reader A) acc : read_fold step acc [] = Ok acc.
Proof. reflexivity. Qed.

Lemma parseRDNSequence_rt rdn c :
  RDN_wf rdn -> bout (marshalRDNSequence rdn) = Ok c -> parseRDNSequence c = Ok rdn.
Proof.
  intros Hwf H. pose proof H as H'. unfold marshalRDNSequence in H'. rt_inv.
  unfold parseRDNSequence. rt_run. by rewrite (Hwf _ H).
Qed.

Lemma strip_or_error_inv what der t e :
  single_sequence der -> bout (strip_or_error what der t) = Ok e ->
  exists c, tlv t c = Some e /\ wrapSequence c = Ok der.
Proof.
  intros (c & Hs & Ht)%stripSequence_single H. unfold strip_or_error in H. rewrite Hs in H.
  rt_inv. exists c. split; [done|]. by apply wrapSequence_tlv.
Qed.

Lemma ReadASN1_end t c e : tlv t c = Some e -> ReadASN1 t e = Some (c, []).
Proof. intros H. rewrite <- (app_nil_r e). by apply ReadASN1_tlv. Qed.

Section Fields.
Variables (serial : option Z) (issuer : bytes) (subject : GeneralName) (pk ext : bytes).

(** The optional fields, in the order they are written. *)
Lemma field_serial n e r :
  bout (b_opt n serialNumber_marshal) = Ok e ->
  read_fold CertTemplate_step (mkCertTemplate None issuer subject pk ext) (e ++ r)
  = read_fold CertTemplate_step (mkCertTemplate n issuer subject pk ext) r.
Proof.
  destruct n as [n|]; simpl; intros H; [|by rt_inv].
  unfold serialNumber_marshal in H. rt_inv. destruct (marshalImplicitBigInt n) eqn:E; [|done].
  rt_inv. eapply CertTemplate_read_field; [done|]. unfold CertTemplate_field. tag_eqb.
  rewrite (ReadASN1_end _ _ _ H). simpl. by rewrite (ImplicitBigInt_rt _ _ E).
Qed.

Lemma field_issuer e r :
  bout (b_if (nonempty issuer)
         (if negb (isSingleElement issuer SEQUENCE)
          then SetError (errorString "pkicmp: invalid issuer DER")
          else AddASN1 (ctxc 3) (AddBytes issuer))) = Ok e ->
  read_fold CertTemplate_step (mkCertTemplate serial [] subject pk ext) (e ++ r)
  = read_fold CertTemplate_step (mkCertTemplate serial issuer subject pk ext) r.
Proof.
  destruct (nonempty issuer) eqn:Hne.
  - destruct (isSingleElement issuer SEQUENCE) eqn:Hs; intros H; [|done].
    change (bout (AddASN1 (ctxc 3) (AddBytes issuer)) = Ok e) in H. rt_inv.
    apply single_element_inv in Hs as (c & Hc).
    eapply CertTemplate_read_field; [done|]. unfold CertTemplate_field. tag_eqb. cbv iota.
    rewrite (ReadASN1_end _ _ _ H). cbn [of_option res_bind]. rt_run. done.
  - apply nonempty_false in Hne as ->. intros H. simpl in H. by rt_inv.
Qed.

Lemma field_subject rdn e r :
  RDN_wf rdn ->
  bout (b_if (nonempty rdn) (AddASN1 (ctxc 5) (marshalRDNSequence rdn))) = Ok e ->
  read_fold CertTemplate_step (mkCertTemplate serial issuer emptyGeneralName pk ext) (e ++ r)
  = read_fold CertTemplate_step (mkCertTemplate serial issuer (mkGeneralName rdn "" []) pk ext) r.
Proof.
  intros Hwf H. destruct rdn as [|x rdn]; simpl in H; [by rt_inv|].
  apply bout_AddASN1 in H as (c & Hc & H). eapply CertTemplate_read_field; [done|].
  unfold CertTemplate_field. tag_eqb. cbv iota. rewrite (ReadASN1_end _ _ _ H).
  cbn [of_option res_bind]. by rewrite (parseRDNSequence_rt _ _ Hwf Hc).
Qed.

Lemma field_publicKey what e r :
  pk = [] \/ single_sequence pk ->
  bout (b_if (nonempty pk) (strip_or_error what pk (ctxc 6))) = Ok e ->
  read_fold CertTemplate_step (mkCertTemplate serial issuer subject [] ext) (e ++ r)
  = read_fold CertTemplate_step (mkCertTemplate serial issuer subject pk ext) r.
Proof.
  intros Hwf H. destruct (nonempty pk) eqn:Hne.
  - apply nonempty_true in Hne. destruct Hwf as [|Hwf]; [done|].
    apply strip_or_error_inv in H as (c & Ht & Hw); [|done].
    eapply CertTemplate_read_field; [done|]. unfold CertTemplate_field. tag_eqb. cbv iota.
    rewrite (ReadASN1_end _ _ _ Ht). simpl. by rewrite Hw.
  - apply nonempty_false in Hne as ->. by rt_inv.
Qed.

Lemma field_extensions what e r :
  ext = [] \/ single_sequence ext ->
  bout (b_if (nonempty ext) (strip_or_error what ext (ctxc 9))) = Ok e ->
  read_fold CertTemplate_step (mkCertTemplate serial issuer subject pk []) (e ++ r)
  = read_fold CertTemplate_step (mkCertTemplate serial issuer subject pk ext) r.
Proof.
  intros Hwf H. destruct (nonempty ext) eqn:Hne.
  - apply nonempty_true in Hne. destruct Hwf as [|Hwf]; [done|].
    apply strip_or_error_inv in H as (c & Ht & Hw); [|done].
    eapply CertTemplate_read_field; [done|]. unfold CertTemplate_field. tag_eqb. cbv iota.
    rewrite (ReadASN1_end _ _ _ Ht). simpl. by rewrite Hw.
  - apply nonempty_false in Hne as ->. by rt_inv.
Qed.
End Fields.

#[export] Instance CertTemplate_starts : Starts CertTemplate_marshal SEQUENCE (fun _ => True).
Proof. intros t e _. apply AddASN1_starts. Qed.

#[export] Instance CertTemplate_rt :
  Roundtrips CertTemplate_marshal CertTemplate_unmarshal CertTemplate_wf.
Proof.
  intros [serial issuer subject pk ext] e r (Hsub & Hrdn & Hpk & Hext) H.
  unfold CertTemplate_marshal in H. simpl in *. apply bout_AddASN1 in H as (c & Hc & H).
  apply bout_seq in Hc as (e1 & c1 & H1 & (e2 & c2 & H2 & (e3 & c3 & H3
    & (e4 & e5 & H4 & H5 & ->)%bout_seq & ->)%bout_seq & ->)%bout_seq & ->).
  unfold CertTemplate_unmarshal. rewrite (ReadASN1_tlv _ _ _ _ H). simpl. rewrite Hsub.
  unfold emptyCertTemplate.
  rewrite (field_serial [] emptyGeneralName [] [] serial e1 _ H1).
  rewrite (field_issuer serial issuer emptyGeneralName [] [] e2 _ H2).
  rewrite (field_subject serial issuer [] [] _ e3 _ Hrdn H3).
  rewrite (field_publicKey serial issuer _ pk [] "publicKey" e4 _ Hpk H4).
  rewrite <- (app_nil_r e5).
  rewrite (field_extensions serial issuer _ pk ext "extensions" e5 [] Hext H5).
  by rewrite read_fold_nil.
Qed.

(** ** Requests *)

(** [Raw] is what the parser keeps of the encoding. *)
Definition CertRequest_wf (r : CertRequest) : Prop :=
  int64_ok (cr_req_CertReqID r) = true /\ CertTemplate_wf (cr_CertTemplate r)
  /\ Forall control_wf (Controls r) /\ bout (CertRequest_marshal r) = Ok (cr_Raw r).

#[export] Instance CertRequest_rt :
  Roundtrips CertRequest_marshal CertRequest_unmarshal CertRequest_wf.
Proof.
  intros [id t cs raw] e r (Hid & Ht & Hcs & Hraw) H. rewrite H in Hraw. injection Hraw as <-.
  unfold CertRequest_marshal in H. simpl in *. unfold CertRequest_unmarshal.
  destruct cs as [|c0 cs]; rt_inv; [rt_run; done|].
  match goal with H : bout (b_list _ _) = Ok ?x |- _ =>
    assert (Hne : starts SEQUENCE x) by
      (change (bout (AttributeTypeAndValue_marshal c0
         ⊕ b_list AttributeTypeAndValue_marshal cs) = Ok x) in H;
       apply bout_seq in H as (? & ? & Hc0 & _ & ->);
       apply AddASN1_starts in Hc0 as [? ->]; by eexists)
  end.
  rt_run. done.
Qed.
#[export] Instance CertRequest_starts : Starts CertRequest_marshal SEQUENCE (fun _ => True).
Proof. intros t e _. apply AddASN1_starts. Qed.

(** ** Proof of possession *)

Definition popoPrivKey_wf (p : popoPrivKey) : Prop :=
  match SubsequentMessage p, ppk_encryptedKey p with
  | Some v, None => int64_ok v = true
  | None, Some ed => envelopedData_wf ed
  | _, _ => False
  end.

#[export] Instance popoPrivKey_rt :
  Roundtrips popoPrivKey_marshal popoPrivKey_unmarshal popoPrivKey_wf.
Proof.
  intros [[v|] [ed|]] e r Hwf H; simpl in Hwf; try done; unfold popoPrivKey_marshal in H;
    simpl in H; rt_inv; unfold popoPrivKey_unmarshal; rt_run; tag_eqb; cbv iota.
  - by rewrite ImplicitInt64_rt.
  - by rewrite (envelopedData_inner_rt ed c).
Qed.

Definition popoSigningKeyInput_wf (p : popoSigningKeyInput) : Prop :=
  opt_wf GeneralName_wf (ski_Sender p)
  /\ exists t c, tlv t c = Some (ski_PublicKey p) /\ t <> ctxc 0.

Lemma popoSigningKeyInput_inner_rt p e :
  popoSigningKeyInput_wf p -> bout (popoSigningKeyInput_marshalInner p) = Ok e ->
  popoSigningKeyInput_unmarshalInner e = Ok (p, []).
Proof.
  intros [Hs (t & c & Ht & Hne)] H. destruct p as [[gn|] pk]; simpl in *;
    unfold popoSigningKeyInput_marshalInner in H; simpl in H; rt_inv;
    unfold popoSigningKeyInput_unmarshalInner.
  - rt_run. done.
  - rt_starts. simpl app.
    rewrite (at_end (PeekASN1Tag (ctxc 0)) (fun _ => t =? ctxc 0) pk
               (fun r => Peek_starts (ctxc 0) t pk r ltac:(done))).
    rewrite (proj2 (Z.eqb_neq _ _) Hne), andb_false_r. cbn [res_bind]. rt_run. done.
Qed.

Definition popoSigningKey_wf (p : popoSigningKey) : Prop :=
  opt_wf popoSigningKeyInput_wf (PoposkInput p) /\ AlgorithmIdentifier_wf (psk_Algorithm p).

Lemma popoSigningKey_inner_rt p e :
  popoSigningKey_wf p -> bout (popoSigningKey_marshalInner p) = Ok e ->
  popoSigningKey_unmarshalInner e = Ok (p, []).
Proof.
  intros [Hi Ha] H. destruct p as [[i|] alg sig]; simpl in *;
    unfold popoSigningKey_marshalInner in H; simpl in H; rt_inv;
    unfold popoSigningKey_unmarshalInner; simpl app; rt_run.
  - rewrite (popoSigningKeyInput_inner_rt i c) by done. cbn [res_bind]. rt_run. done.
  - done.
Qed.

(** Exactly one variant of the CHOICE is set. *)
Definition proofOfPossession_wf (p : proofOfPossession) : Prop :=
  match p with
  | mkPOP true None None None => True
  | mkPOP false (Some sk) None None => popoSigningKey_wf sk
  | mkPOP false None (Some k) None => popoPrivKey_wf k
  | mkPOP false None None (Some k) => popoPrivKey_wf k
  | _ => False
  end.

#[export] Instance proofOfPossession_rt :
  Roundtrips proofOfPossession_marshal proofOfPossession_unmarshal proofOfPossession_wf.
Proof.
  intros [[|] [sk|] [ke|] [ka|]] e r Hwf H; simpl in Hwf; try done;
    unfold proofOfPossession_marshal in H; simpl in H; rt_inv;
    unfold proofOfPossession_unmarshal; rt_run; tag_eqb; cbv iota; try done.
  - by erewrite popoSigningKey_inner_rt by done.
Qed.

(** ** Request messages *)

Definition CertReqMsg_wf (m : CertReqMsg) : Prop :=
  CertRequest_wf (CertReq m) /\ opt_wf proofOfPossession_wf (Popo m).

Lemma proofOfPossession_starts p e :
  proofOfPossession_wf p -> bout (proofOfPossession_marshal p) = Ok e ->
  exists t, starts t e /\ t <> SEQUENCE.
Proof.
  destruct p as [[|] [sk|] [ke|] [ka|]]; simpl; intros Hwf H; try done;
    unfold proofOfPossession_marshal in H; simpl in H; apply AddASN1_starts in H;
    by eexists.
Qed.

#[export] Instance CertReqMsg_rt :
  Roundtrips CertReqMsg_marshal CertReqMsg_unmarshal CertReqMsg_wf.
Proof.
  intros [req [pop|]] e r [Hreq Hpop] H; simpl in *; unfold CertReqMsg_marshal in H;
    simpl in H; rt_inv; unfold CertReqMsg_unmarshal.
  - destruct (proofOfPossession_starts _ _ Hpop H0) as (t & Ht & Hne).
    rewrite (ReadASN1_tlv _ _ _ _ H). cbn [of_option res_bind].
    rewrite (rt_spec (m := CertRequest_marshal) (u := CertRequest_unmarshal) req e0 e1 Hreq H1).
    cbn [res_bind]. rewrite <- (app_nil_r e1), (Empty_starts t), (Peek_starts _ t) by done.
    rewrite (proj2 (Z.eqb_neq _ _) Hne). cbn [negb andb]. rt_run. done.
  - rt_run. done.
Qed.
#[export] Instance CertReqMsg_writes : Writes CertReqMsg_marshal CertReqMsg_wf.
Proof. intros x e _ [e' ->]%AddASN1_starts. done. Qed.

#[export] Instance CertReqMessages_rt :
  Roundtrips CertReqMessages_marshal CertReqMessages_unmarshal (Forall CertReqMsg_wf).
Proof.
  intros c e r Hwf H. unfold CertReqMessages_marshal in H. rt_inv.
  unfold CertReqMessages_unmarshal. rt_run. done.
Qed.

(** ** Challenges *)

Definition challenge_wf (c : challenge) : Prop :=
  opt_wf AlgorithmIdentifier_wf (OWF_ c) /\ opt_wf envelopedData_wf (EncryptedRand c).

#[export] Instance challenge_rt : Roundtrips challenge_marshal challenge_unmarshal challenge_wf.
Proof.
  intros [[a|] w [ed|]] e r [Ha Hed] H; simpl in *; unfold challenge_marshal, AddASN1OctetString in H;
    simpl in H; rt_inv; unfold challenge_unmarshal; rt_run; try done;
    by erewrite envelopedData_inner_rt by done.
Qed.

End Facts.
