(* ===== verification/X509.v ===== *)
(** * Certificates, keys and encoding/asn1

    The values of [crypto/x509], [crypto/x509/pkix] and of the composite ML-DSA
    packages as records of the fields [src/] reads, and the functions of those
    packages it calls as type classes. A [crypto.PublicKey] is an interface
    value: its constructor is the dynamic type the source switches on. *)
From S2P Require Import Prelude Failure Errors Asn1 Types.

(** The dynamic types of a public key, each with what the source reads of it and
    the key material. *)
Inductive PublicKey :=
| RSAPublicKey (bitLen : Z) (material : bytes)
| ECDSAPublicKey (bitSize : Z) (material : bytes)
| Ed25519PublicKey (material : bytes)
| MLDSAPublicKey (parameters : Z) (material : bytes)
| CompositePublicKey (algorithm : Z) (material : bytes)
| OtherPublicKey (material : bytes).
#[export] Instance PublicKey_eq_dec : EqDecision PublicKey.
Proof. solve_decision. Defined.

(** [x509.SignatureAlgorithm]: the values the source names. *)
Inductive SignatureAlgorithm :=
| UnknownSignatureAlgorithm
| SHA1WithRSA | DSAWithSHA1 | ECDSAWithSHA1
| SHA256WithRSA | SHA384WithRSA | SHA512WithRSA
| ECDSAWithSHA256 | ECDSAWithSHA384 | ECDSAWithSHA512
| SHA256WithRSAPSS | SHA384WithRSAPSS | SHA512WithRSAPSS
| PureEd25519 | MLDSA44 | MLDSA65 | MLDSA87
| OtherSignatureAlgorithm (n : Z).
#[export] Instance SignatureAlgorithm_eq_dec : EqDecision SignatureAlgorithm.
Proof. solve_decision. Defined.

(** [crypto.Hash]: the values the source names, [HashNone] being zero. *)
Inductive Hash := HashNone | SHA1 | SHA224 | SHA256 | SHA384 | SHA512 | OtherHash (n : Z).
#[export] Instance Hash_eq_dec : EqDecision Hash.
Proof. solve_decision. Defined.

(** [Hash.Size]. *)
Definition Hash_Size (h : Hash) : Z :=
  match h with
  | SHA1 => 20 | SHA224 => 28 | SHA256 => 32 | SHA384 => 48 | SHA512 => 64
  | HashNone | OtherHash _ => 0
  end.
(** [Hash.New().BlockSize()]. *)
Definition Hash_BlockSize (h : Hash) : Z :=
  match h with
  | SHA384 | SHA512 => 128
  | SHA1 | SHA224 | SHA256 | HashNone | OtherHash _ => 64
  end.

(** [pkix.Extension]. *)
Record Extension := mkExtension { Id : ObjectIdentifier; Critical : bool; ext_Value : bytes }.
#[export] Instance Extension_eq_dec : EqDecision Extension.
Proof. solve_decision. Defined.

(** [x509.Certificate]. *)
Record Certificate := mkCertificate {
  Raw : bytes;
  RawSubject : bytes;
  RawIssuer : bytes;
  RawSubjectPublicKeyInfo : bytes;
  SerialNumber : option Z;
  Subject : Name;
  Issuer : Name;
  cert_PublicKey : option PublicKey;
  SubjectKeyId : bytes;
  cert_SignatureAlgorithm : SignatureAlgorithm;
  NotBefore : Time;
  NotAfter : Time;
  KeyUsage : Z;
  Extensions : list Extension;
  ExtraExtensions : list Extension;
  UnhandledCriticalExtensions : list ObjectIdentifier;
  BasicConstraintsValid : bool;
  MaxPathLen : Z;
  MaxPathLenZero : bool;
  cert_IsCA : bool
}.

(** The zero [x509.Certificate]. *)
Definition emptyCertificate : Certificate :=
  mkCertificate [] [] [] [] None emptyName emptyName None [] UnknownSignatureAlgorithm
    0 0 0 [] [] [] false 0 false false.

(** [x509.CertificateRequest]. *)
Record CertificateRequest := mkCSR {
  csr_Raw : bytes;
  csr_RawSubjectPublicKeyInfo : bytes;
  csr_Subject : Name;
  csr_Extensions : list Extension
}.

(** An [x509.CertPool], as the certificates added to it. *)
Abbreviation CertPool := (list Certificate).

(** [crypto/x509] and the composite ML-DSA packages. The [Hash] of a composite
    algorithm is its pre-hash. A check gives [None] when it succeeds.
    [x509_Verify cert roots intermediates now] is [cert.Verify] with any extended
    key usage accepted. [PublicKey_Equal] is the [Equal] method of a key, [false]
    when its type has none. *)
Class GoX509 := {
  x509_ParseCertificate : bytes -> option Certificate;
  x509_ParseCertificateRequest : bytes -> option CertificateRequest;
  ParsePKIXPublicKey : bytes -> option PublicKey;
  MarshalPKIXPublicKey : option PublicKey -> option bytes;
  PublicKey_Equal : PublicKey -> option PublicKey -> bool;
  x509_CheckSignature : option PublicKey -> SignatureAlgorithm -> bytes -> bytes -> option error;
  compositemldsa_Verify : PublicKey -> bytes -> bytes -> option error;
  composite_AlgorithmFromOID : ObjectIdentifier -> option Z;
  composite_OID : Z -> ObjectIdentifier;
  composite_PreHash : Z -> Hash;
  compositex509_SignatureAlgorithm : bytes -> option Z;
  CheckSignatureFrom : Certificate -> Certificate -> option error;
  x509_Verify : Certificate -> CertPool -> CertPool -> Time -> result (list (list Certificate));
  CheckCertificateRequestSignature : CertificateRequest -> option error
}.

(** The error of [x509.ErrUnsupportedAlgorithm], for [errors.Is]. *)
Definition x509_ErrUnsupportedAlgorithm : error := externalError 3.
Definition x509_error : error := externalError 4.

(** [encoding/asn1] on the values the source encodes and decodes with it. A
    decoder gives the value and the trailing data. *)
Class GoASN1 := {
  asn1_Unmarshal_Extensions : bytes -> option (list Extension * bytes);
  asn1_Marshal_Extensions : list Extension -> option bytes;
  asn1_Unmarshal_Enumerated : bytes -> option (Z * bytes);
  asn1_Marshal_Enumerated : Z -> option bytes;
  asn1_Marshal_RDN : RDNSequence -> option bytes;
  asn1_Unmarshal_Strings : bytes -> option (list string * bytes);
  asn1_Unmarshal_BasicConstraints : bytes -> option ((bool * Z) * bytes);
  asn1_Marshal_GeneralizedTime : Time -> option bytes;
  asn1_Unmarshal_GeneralizedTime : bytes -> option (Time * bytes)
}.

(** [CMPCertificate.Parse]. *)
Definition CMPCertificate_Parse {GX : GoX509} (c : CMPCertificate) : option Certificate :=
  x509_ParseCertificate (cert_Raw c).

(** [oid.Equal]. *)
Definition OID_Equal (a b : ObjectIdentifier) : bool := bool_decide (a = b).
