(* ===== verification/CertPath.v ===== *)
(** * Certification paths with composite signatures

    [src/internal/certpath/certpath.go]: the search below the paths
    [crypto/x509] builds, for links it cannot check. The search is the code's
    recursion on the depth, its state the fields of the Go [search] that change:
    the signature checks left, the cache of upper chains and the certificates on
    the current path. *)
From S2P Require Import Prelude Failure Errors Asn1 Types X509.

Definition maxDepth : nat := 8.
Definition maxSignatureChecks : nat := 100.
Definition oidNameConstraints : ObjectIdentifier := [2; 5; 29; 30].
Definition errUntrusted : error :=
  errorString "certificate does not chain to a trusted certificate".

(** ** Checks on one certificate *)

Definition hasNameConstraints (cert : Certificate) : bool :=
  existsb (fun ext => OID_Equal (Id ext) oidNameConstraints) (Extensions cert).

Definition validAt (cert : Certificate) (now : Time) : bool :=
  (NotBefore cert <=? now) && (now <=? NotAfter cert)
  && negb (nonempty (UnhandledCriticalExtensions cert)).

Definition allowsFollowing (issuer : Certificate) (intermediates : Z) : bool :=
  if negb (BasicConstraintsValid issuer) || (MaxPathLen issuer <? 0)
     || ((MaxPathLen issuer =? 0) && negb (MaxPathLenZero issuer))
  then true
  else intermediates <=? MaxPathLen issuer.

(** The loop over one chain, from its [i]-th certificate on. *)
Fixpoint chain_accepts (i : Z) (chain : list Certificate) (depth : Z) : bool :=
  match chain with
  | [] => true
  | ancestor :: chain =>
      if hasNameConstraints ancestor || ((0 <? i) && negb (allowsFollowing ancestor (depth + i - 1)))
      then false
      else chain_accepts (i + 1) chain depth
  end.
Definition acceptsLowerPath (chains : list (list Certificate)) (depth : Z) : bool :=
  existsb (fun chain => chain_accepts 0 chain depth) chains.

(** ** The search *)

Record search := mkSearch {
  checksLeft : nat;
  upper : gmap bytes (list (list Certificate));
  onPath : gset bytes
}.
Definition set_onPath (p : gset bytes) (s : search) : search := mkSearch (checksLeft s) (upper s) p.

Section CertPath.
Context {GX : GoX509}.
(** The fields of [search] that do not change: the candidate issuers and the
    options of [crypto/x509]. *)
Variables (candidates : list Certificate) (roots : CertPool) (now : Time).

(** [chains, _ = cert.Verify(s.opts)]. *)
Definition x509_chains (cert : Certificate) : list (list Certificate) :=
  match x509_Verify cert roots candidates now with Ok chains => chains | Err _ => [] end.

Definition upperChains (cert : Certificate) (s : search) : search * list (list Certificate) :=
  match upper s !! Raw cert with
  | Some chains => (s, chains)
  | None =>
      let chains := x509_chains cert in
      (mkSearch (checksLeft s) (<[Raw cert := chains]> (upper s)) (onPath s), chains)
  end.

(** Whether the loop goes past [parent] without checking a signature. *)
Definition skips (s : search) (cert parent : Certificate) (depth : Z) : bool :=
  bool_decide (Raw parent ∈ onPath s) || negb (bytes_eqb (RawSubject parent) (RawIssuer cert))
  || hasNameConstraints parent || negb (allowsFollowing parent depth).

(** The loop over the candidates; [next] is the recursive call on a parent. *)
Fixpoint try_parents (next : Certificate -> search -> search * bool) (cert : Certificate)
    (depth : Z) (parents : list Certificate) (s : search) : search * bool :=
  match parents with
  | [] => (s, false)
  | parent :: parents =>
      if skips s cert parent depth then try_parents next cert depth parents s
      else match checksLeft s with
           | O => (s, false)
           | S checks =>
               let s := mkSearch checks (upper s) (onPath s) in
               match CheckSignatureFrom cert parent with
               | Some _ => try_parents next cert depth parents s
               | None =>
                   let '(s, found) := next parent s in
                   if found then (s, true) else try_parents next cert depth parents s
               end
           end
  end.

(** [trusted cert (maxDepth - room)]: [room] is the depth left, so the recursion is
    structural and [room = 0] is [depth >= maxDepth]. *)
Fixpoint trusted (room : nat) (cert : Certificate) (s : search) : search * bool :=
  let depth := Z.of_nat (maxDepth - room) in
  let '(s, accepted) :=
    if 0 <? depth
    then let '(s, chains) := upperChains cert s in (s, acceptsLowerPath chains depth)
    else (s, false) in
  if accepted then (s, true)
  else match room with
       | O => (s, false)
       | S room' =>
           if negb (validAt cert now) then (s, false)
           else
             let s := set_onPath ({[ Raw cert ]} ∪ onPath s) s in
             let '(s, found) := try_parents (trusted room') cert depth candidates s in
             (set_onPath (onPath s ∖ {[ Raw cert ]}) s, found)
       end.

Definition initial_search : search := mkSearch maxSignatureChecks ∅ ∅.

(** [Verify] of the package. *)
Definition certpath_Verify (cert : Certificate) : option error :=
  match x509_Verify cert roots candidates now with
  | Ok _ => None
  | Err err =>
      if snd (trusted maxDepth cert initial_search) then None
      else Some (errors_Join errUntrusted err)
  end.

(** ** What the search looks for *)

(** [link depth cert parent]: the code follows [cert] to [parent]. *)
Definition link (depth : Z) (cert parent : Certificate) : Prop :=
  parent ∈ candidates /\ RawSubject parent = RawIssuer cert
  /\ hasNameConstraints parent = false /\ allowsFollowing parent depth = true
  /\ CheckSignatureFrom cert parent = None.

(** [path room cert rest]: from [cert], [maxDepth - room] links below it, the
    certificates [rest] lead to one that [crypto/x509] anchors. *)
Fixpoint path (room : nat) (cert : Certificate) (rest : list Certificate) : Prop :=
  let depth := Z.of_nat (maxDepth - room) in
  match rest with
  | [] => 0 < depth /\ acceptsLowerPath (x509_chains cert) depth = true
  | parent :: rest =>
      match room with
      | O => False
      | S room' => validAt cert now = true /\ link depth cert parent /\ path room' parent rest
      end
  end.

End CertPath.
