(* ===== verification/CertPathFacts.v ===== *)
(** * Facts on the certification path search

    The bounded search of [CertPath] finds only paths that satisfy every rule the
    code checks, and it finds one when there is one and its signature checks
    last. *)
From S2P Require Import Prelude Failure Errors Asn1 Types X509 CertPath.

Section CertPathFacts.
Context {GX : GoX509}.
Variables (candidates : list Certificate) (roots : CertPool) (now : Time).

(** A certificate as [x509.ParseCertificate] gives it. *)
Definition parsed (c : Certificate) : Prop := x509_ParseCertificate (Raw c) = Some c.

Lemma parsed_inj c c' : parsed c -> parsed c' -> Raw c = Raw c' -> c = c'.
Proof. unfold parsed. intros H H' E. congruence. Qed.

(** No certificate comes twice on a path, nor is one of the current path. *)
Definition simple (s : search) (cert : Certificate) (rest : list Certificate) : Prop :=
  NoDup (Raw <$> (cert :: rest)) /\ Forall (fun p => Raw p ∉ onPath s) rest.

Definition cache_ok (s : search) : Prop :=
  forall c chains, parsed c -> upper s !! Raw c = Some chains ->
                   chains = x509_chains candidates roots now c.

Definition outcome (room : nat) (cert : Certificate) (s s' : search) (found : bool) : Prop :=
  cache_ok s' /\ (checksLeft s' <= checksLeft s)%nat /\ onPath s' = onPath s
  /\ if found
     then exists rest, path candidates roots now room cert rest /\ simple s cert rest
     else (checksLeft s' <> 0%nat ->
           forall rest, path candidates roots now room cert rest -> ~ simple s cert rest).

Lemma upperChains_spec cert s s' chains :
  cache_ok s -> parsed cert -> upperChains candidates roots now cert s = (s', chains) ->
  cache_ok s' /\ checksLeft s' = checksLeft s /\ onPath s' = onPath s
  /\ chains = x509_chains candidates roots now cert.
Proof.
  intros Hc Hp H. unfold upperChains in H. case_in H; injection H as <- <-.
  - split; [done|]. split; [done|]. split; [done|]. by eapply Hc.
  - split; [|done]. intros c chains Hpc. simpl. intros Hl.
    apply lookup_insert_Some in Hl as [[Hraw <-]|[_ Hl]]; [|by eapply Hc].
    by rewrite (parsed_inj _ _ Hp Hpc Hraw).
Qed.

(** What the loop over [parents] does, for the path above [cert]. *)
Definition loop_outcome (room : nat) (cert : Certificate) (depth : Z) (parents : list Certificate)
    (s s' : search) (found : bool) : Prop :=
  let step parent rest := parent ∈ parents /\ link candidates depth cert parent
    /\ Raw parent ∉ onPath s /\ path candidates roots now room parent rest
    /\ simple s parent rest in
  cache_ok s' /\ (checksLeft s' <= checksLeft s)%nat /\ onPath s' = onPath s
  /\ if found then exists parent rest, step parent rest
     else (checksLeft s' <> 0%nat -> forall parent rest, ~ step parent rest).

Lemma skips_true s cert parent depth :
  skips s cert parent depth = true ->
  link candidates depth cert parent -> Raw parent ∈ onPath s.
Proof.
  unfold skips. intros H (_ & Hs & Hn & Ha & _).
  rewrite Hs, bytes_eqb_refl, Hn, Ha in H. simpl in H. rewrite !orb_false_r in H.
  by apply bool_decide_eq_true in H.
Qed.

Lemma skips_false s cert parent depth :
  skips s cert parent depth = false -> parent ∈ candidates -> CheckSignatureFrom cert parent = None ->
  link candidates depth cert parent /\ Raw parent ∉ onPath s.
Proof.
  unfold skips. rewrite !orb_false_iff, !negb_false_iff, bool_decide_eq_false, bytes_eqb_eq.
  intros (((Hp & Hs) & Hn) & Ha). done.
Qed.

(** Adding a parent that leads nowhere. *)
Lemma loop_outcome_skip room cert depth parent parents s s1 s' found :
  onPath s1 = onPath s -> (checksLeft s1 <= checksLeft s)%nat ->
  (checksLeft s' <> 0%nat -> link candidates depth cert parent -> Raw parent ∉ onPath s ->
   forall rest, path candidates roots now room parent rest -> ~ simple s parent rest) ->
  loop_outcome room cert depth parents s1 s' found ->
  loop_outcome room cert depth (parent :: parents) s s' found.
Proof.
  intros Ep Hle Hno (Hc & Hle' & Ep' & H). unfold loop_outcome, simple in *. rewrite Ep in *.
  split; [done|]. split; [lia|]. split; [done|]. destruct found.
  - destruct H as (p & rest & Hin & H). exists p, rest. split; [by right | done].
  - intros Hz p rest (Hin & Hl & Hnp & Hpath & Hs).
    apply elem_of_cons in Hin as [->|Hin]; [by eapply Hno|].
    by eapply (H Hz p rest).
Qed.

Lemma try_parents_spec room next cert depth parents s s' found :
  (forall p s s' found, parsed p -> cache_ok s -> Raw p ∉ onPath s -> next p s = (s', found) ->
     outcome room p s s' found) ->
  Forall parsed parents -> Forall (.∈ candidates) parents -> cache_ok s ->
  try_parents next cert depth parents s = (s', found) ->
  loop_outcome room cert depth parents s s' found.
Proof.
  intros Hnext. revert s. induction parents as [|p parents IH]; intros s Hp Hcand Hc H; simpl in H.
  - injection H as <- <-. split; [done|]. split; [done|]. split; [done|].
    intros _ p rest (Hin & _). by apply not_elem_of_nil in Hin.
  - inversion_clear Hp. inversion_clear Hcand. destruct (skips s cert p depth) eqn:Esk.
    { eapply (loop_outcome_skip _ _ _ _ _ s s); [done|done| |by apply IH].
      intros _ Hl Hnp. by destruct Hnp; eapply skips_true. }
    destruct (checksLeft s) as [|left'] eqn:El.
    { injection H as <- <-. split; [done|]. split; [done|]. by split. }
    set (s1 := mkSearch left' (upper s) (onPath s)) in *.
    assert (Hc1 : cache_ok s1) by done.
    destruct (CheckSignatureFrom cert p) eqn:Esig.
    { eapply (loop_outcome_skip _ _ _ _ _ s s1); [done|simpl; lia| |by apply IH].
      intros _ (_ & _ & _ & _ & Hsig) _. congruence. }
    destruct (skips_false _ _ _ _ Esk ltac:(done) Esig) as [Hl Hnp].
    destruct (next p s1) as [s2 f2] eqn:En.
    destruct (Hnext p s1 s2 f2 ltac:(done) Hc1 Hnp En) as (Hc2 & Hle2 & Ep2 & Hf2).
    change (checksLeft s1) with left' in Hle2. change (onPath s1) with (onPath s) in Ep2.
    destruct f2.
    + injection H as <- <-. destruct Hf2 as (rest & Hpath & Hs).
      split; [done|]. split; [lia|]. split; [done|]. exists p, rest.
      split; [by left|]. done.
    + apply IH in H; [|done..]. pose proof H as (_ & Hle3 & _ & _).
      eapply (loop_outcome_skip _ _ _ _ _ s s2); [done|lia| |done].
      intros Hz _ _ rest. apply Hf2. lia.
Qed.

Lemma trusted_S room cert s :
  trusted candidates roots now (S room) cert s =
  let depth := Z.of_nat (maxDepth - S room) in
  let '(s, accepted) :=
    if 0 <? depth
    then let '(s, chains) := upperChains candidates roots now cert s in
         (s, acceptsLowerPath chains depth)
    else (s, false) in
  if accepted then (s, true)
  else if negb (validAt cert now) then (s, false)
  else
    let s := set_onPath ({[ Raw cert ]} ∪ onPath s) s in
    let '(s, found) := try_parents (trusted candidates roots now room) cert depth candidates s in
    (set_onPath (onPath s ∖ {[ Raw cert ]}) s, found).
Proof. reflexivity. Qed.

Lemma trusted_spec room cert s s' found :
  (room <= maxDepth)%nat -> Forall parsed candidates -> parsed cert -> cache_ok s ->
  Raw cert ∉ onPath s -> trusted candidates roots now room cert s = (s', found) ->
  outcome room cert s s' found.
Proof.
  intros Hr Hcand. revert cert s s' found Hr.
  induction room as [|room IH]; intros cert s s' found Hr Hp Hc Hnp H.
  - simpl in H. destruct (upperChains candidates roots now cert s) as [s1 chains] eqn:Eu.
    destruct (upperChains_spec _ _ _ _ Hc Hp Eu) as (Hc1 & Hl1 & Ep1 & ->).
    destruct (acceptsLowerPath _ _) eqn:Ea; injection H as <- <-;
      (split; [done|]); (split; [lia|]); (split; [done|]).
    + exists []. split; [by split|]. split; [apply NoDup_singleton | done].
    + intros _ [|p rest]; [|done]. intros [_ Ha]. simpl in Ha. congruence.
  - rewrite trusted_S in H. set (depth := Z.of_nat (maxDepth - S room)) in *. cbv zeta in H.
    destruct (if 0 <? depth then _ else _) as [s1 acc] eqn:Eacc.
    assert (Hs1 : cache_ok s1 /\ checksLeft s1 = checksLeft s /\ onPath s1 = onPath s
      /\ acc = (0 <? depth) && acceptsLowerPath (x509_chains candidates roots now cert) depth).
    { case_in Eacc; [|by injection Eacc as <- <-].
      destruct (upperChains candidates roots now cert s) as [s2 chains] eqn:Eu.
      destruct (upperChains_spec _ _ _ _ Hc Hp Eu) as (Hc1 & Hl1 & Ep1 & ->).
      by injection Eacc as <- <-. }
    clear Eacc. destruct Hs1 as (Hc1 & Hl1 & Ep1 & Hacc). destruct acc.
    { injection H as <- <-. symmetry in Hacc. apply andb_true_iff in Hacc as [Hd Ha].
      split; [done|]. split; [lia|]. split; [done|]. exists [].
      split; [split; [lia | done]|]. split; [apply NoDup_singleton | done]. }
    symmetry in Hacc. apply andb_false_iff in Hacc.
    assert (Hnil : ~ path candidates roots now (S room) cert []).
    { intros [Hd Ha]. fold depth in Hd, Ha. destruct Hacc; [lia | congruence]. }
    destruct (validAt cert now) eqn:Ev; cbn [negb] in H.
    2: { injection H as <- <-. split; [done|]. split; [lia|]. split; [done|].
         intros _ [|p rest] Hpath; [done|]. destruct Hpath as (Hv & _). congruence. }
    set (s2 := set_onPath ({[Raw cert]} ∪ onPath s1) s1) in *.
    destruct (try_parents _ cert depth candidates s2) as [s3 f3] eqn:Et. injection H as <- <-.
    apply (try_parents_spec room) in Et;
      [|by intros; eapply IH; [lia|..]|done|by apply Forall_forall|done].
    destruct Et as (Hc3 & Hle3 & Ep3 & Hf3).
    change (onPath s2) with ({[Raw cert]} ∪ onPath s1) in Ep3. change (checksLeft s2) with (checksLeft s1) in Hle3.
    split; [done|]. split; [simpl; lia|].
    split; [rewrite Ep3, Ep1; set_solver|].
    assert (Hstep : forall p rest, simple s cert (p :: rest) <->
              Raw p ∉ onPath s2 /\ simple s2 p rest).
    { intros p rest. unfold simple. rewrite !fmap_cons, !NoDup_cons, !Forall_cons.
      change (onPath s2) with ({[Raw cert]} ∪ onPath s1). rewrite Ep1.
      rewrite !Forall_forall, not_elem_of_cons, !list_elem_of_fmap. set_solver. }
    destruct f3.
    + destruct Hf3 as (p & rest & Hin & Hl & Hnp3 & Hpath & Hs). exists (p :: rest).
      split; [done|]. by apply Hstep.
    + intros Hz [|p rest] Hpath; [done|]. destruct Hpath as (_ & Hl & Hpath). rewrite Hstep.
      intros [Hnp3 Hs]. refine (Hf3 Hz p rest _). by split; [apply Hl|].
Qed.

(** Every accepted certificate has a path that the rules allow. *)
Lemma certpath_Verify_sound cert :
  Forall parsed candidates -> parsed cert ->
  certpath_Verify candidates roots now cert = None ->
  (exists chains, x509_Verify cert roots candidates now = Ok chains)
  \/ exists rest, path candidates roots now maxDepth cert rest /\ NoDup (Raw <$> (cert :: rest))
                  /\ (0 < length rest <= maxDepth)%nat.
Proof.
  intros Hcand Hp H. unfold certpath_Verify in H. case_in H; [by left; eexists|]. right.
  destruct (trusted _ _ _ _ _ _) as [s' found] eqn:Et. destruct found; [|done].
  apply trusted_spec in Et; [|lia|done|done|done|set_solver].
  destruct Et as (_ & _ & _ & rest & Hpath & Hnd & _). exists rest. split; [done|]. split; [done|].
  assert (Hlen : forall room c r, path candidates roots now room c r -> (length r <= room)%nat).
  { induction room as [|room IH]; intros c [|p r]; simpl; try done; [lia|].
    intros (_ & _ & Hr). apply IH in Hr. lia. }
  split; [|by eapply Hlen]. destruct rest; [|simpl; lia]. by destruct Hpath.
Qed.

(** A path that the rules allow is found, unless the signature checks run out. *)
Lemma certpath_Verify_complete cert rest :
  Forall parsed candidates -> parsed cert ->
  path candidates roots now maxDepth cert rest -> NoDup (Raw <$> (cert :: rest)) ->
  (0 < checksLeft (fst (trusted candidates roots now maxDepth cert initial_search)))%nat ->
  certpath_Verify candidates roots now cert = None.
Proof.
  intros Hcand Hp Hpath Hnd Hz. unfold certpath_Verify. case_goal; [done|].
  destruct (trusted _ _ _ _ _ _) as [s' found] eqn:Et. destruct found; [done|]. exfalso.
  apply trusted_spec in Et; [|lia|done|done|done|set_solver].
  destruct Et as (_ & _ & _ & Hno). apply (Hno ltac:(simpl in Hz; lia) rest Hpath).
  split; [done|]. apply Forall_forall. set_solver.
Qed.

End CertPathFacts.
