(* ===== verification/RevocationMsg.v ===== *)
(** * Revocation contents

    [src/pkicmp/revocation.go]: reason codes, the revocation request and response
    and the certificate identifiers, with their codecs. *)
From S2P Require Import Prelude Failure Errors Asn1 Types StatusInfo Crmf X509.

Definition oidCRLReason : ObjectIdentifier := [2; 5; 29; 21].

(** ** Reason codes: Go [int]s *)

Abbreviation CRLReason := Z.
Definition CRLReasonUnspecified : CRLReason := 0.
Definition CRLReasonKeyCompromise : CRLReason := 1.
Definition CRLReasonCACompromise : CRLReason := 2.
Definition CRLReasonAffiliationChanged : CRLReason := 3.
Definition CRLReasonSuperseded : CRLReason := 4.
Definition CRLReasonCessationOfOperation : CRLReason := 5.
Definition CRLReasonCertificateHold : CRLReason := 6.
Definition CRLReasonRemoveFromCRL : CRLReason := 8.
Definition CRLReasonPrivilegeWithdrawn : CRLReason := 9.
Definition CRLReasonAACompromise : CRLReason := 10.

Definition CRLReason_String (r : CRLReason) : string :=
  if r =? CRLReasonUnspecified then "unspecified"
  else if r =? CRLReasonKeyCompromise then "keyCompromise"
  else if r =? CRLReasonCACompromise then "cACompromise"
  else if r =? CRLReasonAffiliationChanged then "affiliationChanged"
  else if r =? CRLReasonSuperseded then "superseded"
  else if r =? CRLReasonCessationOfOperation then "cessationOfOperation"
  else if r =? CRLReasonCertificateHold then "certificateHold"
  else if r =? CRLReasonRemoveFromCRL then "removeFromCRL"
  else if r =? CRLReasonPrivilegeWithdrawn then "privilegeWithdrawn"
  else if r =? CRLReasonAACompromise then "aACompromise"
  else "CRLReason(" +:+ pretty r +:+ ")".

Definition CRLReason_Valid (r : CRLReason) : bool :=
  (CRLReasonUnspecified <=? r) && (r <=? CRLReasonAACompromise) && negb (r =? 7).

(** ** Contents *)

Record RevDetails := mkRevDetails { CertDetails : CertTemplate; CRLEntryDetails : bytes }.
Abbreviation RevReqContent := (list RevDetails).
Record CertID := mkCertID { cid_Issuer : GeneralName; cid_SerialNumber : option Z }.
Record RevRepContent := mkRevRepContent {
  rev_Status : list PKIStatusInfo;
  RevCerts : list CertID;
  CRLs : list bytes
}.

Section Codecs.
Context {CB : Cryptobyte} {GN : GoNames}.

Definition NewRevDetails {GA : GoASN1} (cert : option Certificate) (reason : CRLReason)
    : result RevDetails :=
  match cert with
  | None => Err (errorString "pkicmp: revocation certificate is nil")
  | Some cert =>
      match SerialNumber cert with
      | None => Err (errorString "pkicmp: revocation certificate serial number is nil")
      | Some serial =>
          reject_if negb (CRLReason_Valid reason)
            with errorString ("pkicmp: invalid CRL reason " +:+ pretty reason) ;;
          let? issuer :=
            (if nonempty (RawIssuer cert) then Ok (RawIssuer cert)
             else of_option (Errorf_w "pkicmp: encode revocation issuer" asn1_error)
                    (asn1_Marshal_RDN (toFullRDNSequence (Issuer cert)))) in
          let? reasonValue := of_option (Errorf_w "pkicmp: encode CRL reason" asn1_error)
                                (asn1_Marshal_Enumerated reason) in
          let? crlEntryDetails :=
            of_option (Errorf_w "pkicmp: encode crlEntryDetails" asn1_error)
              (asn1_Marshal_Extensions [mkExtension oidCRLReason false reasonValue]) in
          Ok (mkRevDetails (mkCertTemplate (Some serial) issuer emptyGeneralName [] [])
                crlEntryDetails)
      end
  end.

Definition CRLEntryExtensions {GA : GoASN1} (d : RevDetails) : result (list Extension) :=
  if negb (nonempty (CRLEntryDetails d)) then Ok []
  else
    let? (exts, rest) := of_option (ParseError "invalid crlEntryDetails" (Some asn1_error))
                           (asn1_Unmarshal_Extensions (CRLEntryDetails d)) in
    reject_if nonempty rest with parse_error "trailing data in crlEntryDetails" ;;
    Ok exts.

(** ** RevReqContent *)

Definition RevDetails_marshal (d : RevDetails) : Builder :=
  AddASN1 SEQUENCE
    (CertTemplate_marshal (CertDetails d)
     ⊕ b_if (nonempty (CRLEntryDetails d))
         (if negb (isSingleElement (CRLEntryDetails d) SEQUENCE)
          then SetError (errorString "pkicmp: invalid crlEntryDetails DER")
          else AddBytes (CRLEntryDetails d))).
Definition RevDetails_unmarshal : reader RevDetails := fun s =>
  let? (seq, s) := of_option (parse_error "invalid RevDetails sequence")
                     (ReadASN1 SEQUENCE s) in
  let? (tmpl, seq) := CertTemplate_unmarshal seq in
  let? (exts, seq) :=
    (if negb (Empty seq)
     then of_option (parse_error "invalid crlEntryDetails sequence")
            (ReadASN1Element SEQUENCE seq)
     else Ok ([], seq)) in
  reject_if negb (Empty seq) with parse_error "trailing data in RevDetails" ;;
  Ok (mkRevDetails tmpl exts, s).

Definition RevReqContent_marshal (c : RevReqContent) : Builder :=
  AddASN1 SEQUENCE (b_list RevDetails_marshal c).
Definition RevReqContent_unmarshal : reader RevReqContent := fun s =>
  let? (seq, s) := of_option (parse_error "invalid RevReqContent sequence")
                     (ReadASN1 SEQUENCE s) in
  let? c := read_list RevDetails_unmarshal seq in
  Ok (c, s).

(** ** CertID *)

Definition CertID_marshal (id : CertID) : Builder :=
  AddASN1 SEQUENCE
    (match cid_SerialNumber id with
     | None => SetError (errorString "pkicmp: CertId serial number is nil")
     | Some n => GeneralName_marshal (cid_Issuer id) ⊕ AddASN1Integer n
     end).
Definition CertID_unmarshal : reader CertID := fun s =>
  let? (seq, s) := of_option (parse_error "invalid CertId sequence") (ReadASN1 SEQUENCE s) in
  let? (issuer, seq) := GeneralName_unmarshal seq in
  let? (n, seq) := of_option (parse_error "invalid CertId serialNumber")
                     (ReadASN1BigInt seq) in
  reject_if negb (Empty seq) with parse_error "trailing data in CertId" ;;
  Ok (mkCertID issuer (Some n), s).

(** ** RevRepContent *)

Definition CRL_marshal (crl : bytes) : Builder :=
  if negb (isSingleElement crl SEQUENCE)
  then SetError (errorString "pkicmp: invalid CertificateList DER")
  else AddBytes crl.
Definition CRL_unmarshal : reader bytes := fun crls =>
  of_option (parse_error "invalid CertificateList") (ReadASN1Element SEQUENCE crls).

Definition RevRepContent_marshal (c : RevRepContent) : Builder :=
  AddASN1 SEQUENCE
    (AddASN1 SEQUENCE (b_list PKIStatusInfo_marshal (rev_Status c))
     ⊕ b_if (nonempty (RevCerts c))
         (AddASN1 (ctxc 0) (AddASN1 SEQUENCE (b_list CertID_marshal (RevCerts c))))
     ⊕ b_if (nonempty (CRLs c))
         (AddASN1 (ctxc 1) (AddASN1 SEQUENCE (b_list CRL_marshal (CRLs c))))).

(** An optional [n] EXPLICIT SEQUENCE OF, which must fill its tag. *)
Definition read_tagged_sequence {A} (n : Z) (what : string) (u : reader A) (seq : bytes)
    : result (list A * bytes) :=
  if PeekASN1Tag (ctxc n) seq then
    let? (tagged, seq) := of_option (parse_error what) (ReadASN1 (ctxc n) seq) in
    let? (items, tagged) := of_option (parse_error what) (ReadASN1 SEQUENCE tagged) in
    reject_if negb (Empty tagged) with parse_error what ;;
    let? l := read_list u items in
    Ok (l, seq)
  else Ok ([], seq).

Definition RevRepContent_unmarshal : reader RevRepContent := fun s =>
  let? (seq, s) := of_option (parse_error "invalid RevRepContent sequence")
                     (ReadASN1 SEQUENCE s) in
  let? (statusSeq, seq) := of_option (parse_error "invalid RevRepContent status sequence")
                             (ReadASN1 SEQUENCE seq) in
  let? status := read_list PKIStatusInfo_unmarshal statusSeq in
  let? (revCerts, seq) := read_tagged_sequence 0 "invalid revCerts" CertID_unmarshal seq in
  let? (crls, seq) := read_tagged_sequence 1 "invalid crls" CRL_unmarshal seq in
  reject_if negb (Empty seq) with parse_error "trailing data in RevRepContent" ;;
  Ok (mkRevRepContent status revCerts crls, s).

End Codecs.
