(* ===== verification/RevocationMsgFacts.v ===== *)
(** * Round trips of the revocation contents *)
From S2P Require Import Prelude Failure Errors Asn1 Asn1Facts Types TypesFacts StatusInfo.
From S2P Require Import Crmf CrmfFacts X509 RevocationMsg.

Section Facts.
Context {CB : Cryptobyte} {L : CryptobyteLaws CB} {GN : GoNames}.

Definition RevDetails_wf (d : RevDetails) : Prop := CertTemplate_wf (CertDetails d).

#[export] Instance RevDetails_rt : Roundtrips RevDetails_marshal RevDetails_unmarshal RevDetails_wf.
Proof.
  intros [tmpl exts] e r Hwf H. unfold RevDetails_wf in Hwf.
  unfold RevDetails_marshal in H. simpl in *. destruct (nonempty exts) eqn:Hne.
  - destruct (isSingleElement exts SEQUENCE) eqn:Hs.
    + cbn [negb] in H. rt_inv. apply single_element_inv in Hs as (c & Hc).
      unfold RevDetails_unmarshal. rt_run. done.
    + cbn [negb] in H. apply bout_AddASN1 in H as (c & (e1 & e2 & _ & H & _)%bout_seq & _).
      discriminate H.
  - apply nonempty_false in Hne as ->. rt_inv. unfold RevDetails_unmarshal. rt_run. done.
Qed.
#[export] Instance RevDetails_writes : Writes RevDetails_marshal RevDetails_wf.
Proof. intros x e _ [e' ->]%AddASN1_starts. done. Qed.

#[export] Instance RevReqContent_rt :
  Roundtrips RevReqContent_marshal RevReqContent_unmarshal (Forall RevDetails_wf).
Proof.
  intros c e r Hwf H. unfold RevReqContent_marshal in H. rt_inv.
  unfold RevReqContent_unmarshal. rt_run. done.
Qed.

Definition CertID_wf (id : CertID) : Prop := GeneralName_wf (cid_Issuer id).

#[export] Instance CertID_rt : Roundtrips CertID_marshal CertID_unmarshal CertID_wf.
Proof.
  intros [issuer [n|]] e r Hwf H; unfold CertID_wf in Hwf; unfold CertID_marshal in H;
    simpl in *; rt_inv. unfold CertID_unmarshal. rt_run. done.
Qed.
#[export] Instance CertID_writes : Writes CertID_marshal CertID_wf.
Proof. intros x e _ [e' ->]%AddASN1_starts. done. Qed.

#[export] Instance CRL_rt : Roundtrips CRL_marshal CRL_unmarshal (fun _ => True).
Proof.
  intros crl e r _ H. unfold CRL_marshal in H.
  destruct (isSingleElement crl SEQUENCE) eqn:Hs; [|done]. cbn [negb] in H. rt_inv.
  apply single_element_inv in Hs as (c & Hc). unfold CRL_unmarshal. rt_run. done.
Qed.
#[export] Instance CRL_writes : Writes CRL_marshal (fun _ => True).
Proof.
  intros crl e _ H. unfold CRL_marshal in H.
  destruct (isSingleElement crl SEQUENCE) eqn:Hs; [|done]. cbn [negb] in H. rt_inv.
  apply single_element_inv in Hs as (c & Hc). by destruct (tlv_starts _ _ _ Hc) as [e' ->].
Qed.
#[export] Instance PKIStatusInfo_writes : Writes PKIStatusInfo_marshal PKIStatusInfo_wf.
Proof. intros x e _ [e' ->]%AddASN1_starts. done. Qed.

Definition RevRepContent_wf (c : RevRepContent) : Prop :=
  Forall PKIStatusInfo_wf (rev_Status c) /\ Forall CertID_wf (RevCerts c).

Lemma Forall_True {A} (l : list A) : Forall (fun _ => True) l.
Proof. by apply Forall_forall. Qed.
Local Hint Resolve Forall_True : core.

#[export] Instance RevRepContent_rt :
  Roundtrips RevRepContent_marshal RevRepContent_unmarshal RevRepContent_wf.
Proof.
  intros [sts [|id ids] [|crl crls]] e r [Hs Hids] H; unfold RevRepContent_marshal in H;
    simpl in *; rt_inv; unfold RevRepContent_unmarshal, read_tagged_sequence; rt_run; try done.
  change (Empty []) with true. cbn [negb res_bind]. rt_run. done.
Qed.

End Facts.
