(* ===== verification/Message.v ===== *)
(** * PKIMessage, PKIHeader and PKIBody

    [src/pkicmp/pkimessage.go] and [src/pkicmp/pkibody.go]. A body holds the
    content its constructor or a getter put in the field of its type; the fields
    of the other types are nil in every body the package makes, so one optional
    content stands for all of them. A nested body holds messages, which makes
    messages, bodies and contents one mutual type. *)
From S2P Require Import Prelude Failure Errors Asn1 Types StatusInfo Enrollment Crmf X509.
From S2P Require Import RevocationMsg.

(** ** Body types *)

Abbreviation BodyType := Z.
Definition BodyTypeIR : BodyType := ctxc 0.
Definition BodyTypeIP : BodyType := ctxc 1.
Definition BodyTypeCR : BodyType := ctxc 2.
Definition BodyTypeCP : BodyType := ctxc 3.
Definition BodyTypeP10CR : BodyType := ctxc 4.
Definition BodyTypeKUR : BodyType := ctxc 7.
Definition BodyTypeKUP : BodyType := ctxc 8.
Definition BodyTypeRR : BodyType := ctxc 11.
Definition BodyTypeRP : BodyType := ctxc 12.
Definition BodyTypePKIConf : BodyType := ctxc 19.
Definition BodyTypeNested : BodyType := ctxc 20.
Definition BodyTypeError : BodyType := ctxc 23.
Definition BodyTypeCertConf : BodyType := ctxc 24.
Definition BodyTypePollReq : BodyType := ctxc 25.
Definition BodyTypePollRep : BodyType := ctxc 26.

Definition BodyType_String (t : BodyType) : string :=
  if t =? BodyTypeIR then "ir" else if t =? BodyTypeIP then "ip"
  else if t =? BodyTypeCR then "cr" else if t =? BodyTypeCP then "cp"
  else if t =? BodyTypeP10CR then "p10cr"
  else if t =? BodyTypeKUR then "kur" else if t =? BodyTypeKUP then "kup"
  else if t =? BodyTypeRR then "rr" else if t =? BodyTypeRP then "rp"
  else if t =? BodyTypePKIConf then "pkiconf" else if t =? BodyTypeNested then "nested"
  else if t =? BodyTypeError then "error" else if t =? BodyTypeCertConf then "certConf"
  else if t =? BodyTypePollReq then "pollReq" else if t =? BodyTypePollRep then "pollRep"
  else "BodyType(" +:+ pretty t +:+ ")".

(** ** The data *)

Record PKIHeader := mkPKIHeader {
  PVNO : Z;
  Sender : GeneralName;
  Recipient : GeneralName;
  MessageTime : Time;
  ProtectionAlg : option AlgorithmIdentifier;
  SenderKID : bytes;
  RecipKID : bytes;
  TransactionID : bytes;
  SenderNonce : bytes;
  RecipNonce : bytes;
  FreeText : PKIFreeText;
  GeneralInfo : list InfoTypeAndValue;
  messageTimePresent : bool
}.
Definition emptyPKIHeader : PKIHeader :=
  mkPKIHeader 0 emptyGeneralName emptyGeneralName 0 None [] [] [] [] [] [] [] false.

Inductive PKIMessage :=
| mkPKIMessage (Header : PKIHeader) (Body : option PKIBody) (Protection : bytes)
    (ExtraCerts : list CMPCertificate) (rawHeader rawBody : bytes)
with PKIBody :=
| mkPKIBody (Type_ : BodyType) (Raw : bytes) (dirty : bool) (err : option error)
    (content : option BodyContent)
with BodyContent :=
| C_ir (m : CertReqMessages)
| C_ip (m : CertRepMessage)
| C_cr (m : CertReqMessages)
| C_cp (m : CertRepMessage)
| C_p10cr (csr : CertificateRequest)
| C_kur (m : CertReqMessages)
| C_kup (m : CertRepMessage)
| C_rr (m : RevReqContent)
| C_rp (m : RevRepContent)
| C_certConf (m : CertConfirmContent)
| C_pkiConf
| C_pollReq (m : PollReqContent)
| C_pollRep (m : PollRepContent)
| C_error (m : ErrorMsgContent)
| C_nested (msgs : list (option PKIMessage)).

Definition Header (m : PKIMessage) := let '(mkPKIMessage h _ _ _ _ _) := m in h.
Definition Body (m : PKIMessage) := let '(mkPKIMessage _ b _ _ _ _) := m in b.
Definition Protection (m : PKIMessage) := let '(mkPKIMessage _ _ p _ _ _) := m in p.
Definition ExtraCerts (m : PKIMessage) := let '(mkPKIMessage _ _ _ e _ _) := m in e.
Definition rawHeader (m : PKIMessage) := let '(mkPKIMessage _ _ _ _ r _) := m in r.
Definition rawBody (m : PKIMessage) := let '(mkPKIMessage _ _ _ _ _ r) := m in r.

Definition Type_ (b : PKIBody) := let '(mkPKIBody t _ _ _ _) := b in t.
Definition body_Raw (b : PKIBody) := let '(mkPKIBody _ r _ _ _) := b in r.
Definition dirty (b : PKIBody) := let '(mkPKIBody _ _ d _ _) := b in d.
Definition body_err (b : PKIBody) := let '(mkPKIBody _ _ _ e _) := b in e.
Definition content (b : PKIBody) := let '(mkPKIBody _ _ _ _ c) := b in c.

(** Assignments to header fields. *)
Definition set_PVNO (v : Z) (h : PKIHeader) : PKIHeader :=
  let '(mkPKIHeader _ s r t a k rk tx sn rn f g p) := h in
  mkPKIHeader v s r t a k rk tx sn rn f g p.
Definition set_ProtectionAlg (v : option AlgorithmIdentifier) (h : PKIHeader) : PKIHeader :=
  let '(mkPKIHeader n s r t _ k rk tx sn rn f g p) := h in
  mkPKIHeader n s r t v k rk tx sn rn f g p.
Definition set_SenderKID (v : bytes) (h : PKIHeader) : PKIHeader :=
  let '(mkPKIHeader n s r t a _ rk tx sn rn f g p) := h in
  mkPKIHeader n s r t a v rk tx sn rn f g p.
Definition set_TransactionID (v : bytes) (h : PKIHeader) : PKIHeader :=
  let '(mkPKIHeader n s r t a k rk _ sn rn f g p) := h in
  mkPKIHeader n s r t a k rk v sn rn f g p.
Definition set_Header (h : PKIHeader) (m : PKIMessage) : PKIMessage :=
  let '(mkPKIMessage _ b p e rh rb) := m in mkPKIMessage h b p e rh rb.
Definition set_Body (b : option PKIBody) (m : PKIMessage) : PKIMessage :=
  let '(mkPKIMessage h _ p e rh rb) := m in mkPKIMessage h b p e rh rb.
Definition set_Protection (p : bytes) (m : PKIMessage) : PKIMessage :=
  let '(mkPKIMessage h b _ e rh rb) := m in mkPKIMessage h b p e rh rb.
Definition set_ExtraCerts (e : list CMPCertificate) (m : PKIMessage) : PKIMessage :=
  let '(mkPKIMessage h b p _ rh rb) := m in mkPKIMessage h b p e rh rb.

Definition set_rawHeader (r : bytes) (m : PKIMessage) : PKIMessage :=
  let '(mkPKIMessage h b p e _ rb) := m in mkPKIMessage h b p e r rb.
Definition set_rawBody (r : bytes) (m : PKIMessage) : PKIMessage :=
  let '(mkPKIMessage h b p e rh _) := m in mkPKIMessage h b p e rh r.

Definition detailMissingMessageBody : string := "missing message body".

Definition HasMessageTime (h : PKIHeader) : bool :=
  messageTimePresent h || negb (MessageTime h =? 0).

(** ** Constructors *)

Definition new_body (t : BodyType) (c : BodyContent) : PKIBody :=
  mkPKIBody t [] true None (Some c).
Definition NewIRBody (m : CertReqMessages) := new_body BodyTypeIR (C_ir m).
Definition NewCRBody (m : CertReqMessages) := new_body BodyTypeCR (C_cr m).
Definition NewKURBody (m : CertReqMessages) := new_body BodyTypeKUR (C_kur m).
Definition NewKUPBody (m : CertRepMessage) := new_body BodyTypeKUP (C_kup m).
Definition NewP10CRBody (csr : CertificateRequest) := new_body BodyTypeP10CR (C_p10cr csr).
Definition NewCPBody (m : CertRepMessage) := new_body BodyTypeCP (C_cp m).
Definition NewIPBody (m : CertRepMessage) := new_body BodyTypeIP (C_ip m).
Definition NewRRBody (m : RevReqContent) := new_body BodyTypeRR (C_rr m).
Definition NewRPBody (m : RevRepContent) := new_body BodyTypeRP (C_rp m).
Definition NewCertConfBody (m : CertConfirmContent) := new_body BodyTypeCertConf (C_certConf m).
Definition NewPKIConfBody := new_body BodyTypePKIConf C_pkiConf.
Definition NewPollReqBody (m : PollReqContent) := new_body BodyTypePollReq (C_pollReq m).
Definition NewPollRepBody (m : PollRepContent) := new_body BodyTypePollRep (C_pollRep m).
Definition NewErrorBody (m : ErrorMsgContent) := new_body BodyTypeError (C_error m).
Definition NewNestedBody (msgs : list (option PKIMessage)) := new_body BodyTypeNested (C_nested msgs).

(** [MessageOptions]: an absent transactionID or senderNonce is drawn at random. *)
Record MessageOptions := mkMessageOptions {
  mo_Sender : GeneralName;
  mo_Recipient : GeneralName;
  mo_TransactionID : option bytes;
  mo_SenderNonce : option bytes;
  mo_RecipNonce : bytes
}.

(** [random1], [random2] are the two draws of [crypto/rand], [now] the clock. *)
Definition NewPKIMessage (random1 random2 : bytes) (now : Time) (body : PKIBody)
    (opts : MessageOptions) : PKIMessage :=
  mkPKIMessage
    (mkPKIHeader PVNO2 (mo_Sender opts) (mo_Recipient opts) now None [] []
       (default random1 (mo_TransactionID opts)) (default random2 (mo_SenderNonce opts))
       (mo_RecipNonce opts) [] [] false)
    (Some body) [] [] [] [].

Section Codecs.
Context {CB : Cryptobyte} {GN : GoNames} {GX : GoX509}.

(** ** The header *)

Definition octet_field (n : Z) (v : bytes) : Builder :=
  b_if (nonempty v) (AddASN1 (ctxc n) (AddASN1 OCTET_STRING (AddBytes v))).

Definition PKIHeader_marshal (h : PKIHeader) : Builder :=
  AddASN1 SEQUENCE
    (AddASN1Integer (PVNO h)
     ⊕ GeneralName_marshal (Sender h)
     ⊕ GeneralName_marshal (Recipient h)
     ⊕ b_if (HasMessageTime h) (AddASN1 (ctxc 0) (AddASN1GeneralizedTime (MessageTime h)))
     ⊕ b_opt (ProtectionAlg h) (fun a => AddASN1 (ctxc 1) (AlgorithmIdentifier_marshal a))
     ⊕ octet_field 2 (SenderKID h)
     ⊕ octet_field 3 (RecipKID h)
     ⊕ octet_field 4 (TransactionID h)
     ⊕ octet_field 5 (SenderNonce h)
     ⊕ octet_field 6 (RecipNonce h)
     ⊕ b_if (nonempty (FreeText h)) (AddASN1 (ctxc 7) (PKIFreeText_marshal (FreeText h)))
     ⊕ b_if (nonempty (GeneralInfo h))
         (AddASN1 (ctxc 8) (AddASN1 SEQUENCE (b_list InfoTypeAndValue_marshal (GeneralInfo h))))).

Definition readOptionalOctetString (tagNum : Z) (name : string) (seq : bytes)
    : result (bytes * bytes) :=
  if negb (PeekASN1Tag (ctxc tagNum) seq) then Ok ([], seq)
  else
    let? (sub, seq) := of_option (parse_error ("invalid " +:+ name +:+ " tag"))
                         (ReadASN1 (ctxc tagNum) seq) in
    let? (out, _) := of_option (parse_error ("invalid " +:+ name))
                       (ReadASN1Bytes OCTET_STRING sub) in
    Ok (out, seq).

Definition read_messageTime (seq : bytes) : result (Time * bool * bytes) :=
  if PeekASN1Tag (ctxc 0) seq then
    let? (sub, seq) := of_option (parse_error "invalid messageTime tag")
                         (ReadASN1 (ctxc 0) seq) in
    let? (t, _) := of_option (parse_error "invalid messageTime")
                     (ReadASN1GeneralizedTime sub) in
    Ok (t, true, seq)
  else Ok (0, false, seq).

Definition read_protectionAlg (seq : bytes) : result (option AlgorithmIdentifier * bytes) :=
  if PeekASN1Tag (ctxc 1) seq then
    let? (sub, seq) := of_option (parse_error "invalid protectionAlg tag")
                         (ReadASN1 (ctxc 1) seq) in
    let? (a, _) := AlgorithmIdentifier_unmarshal sub in
    Ok (Some a, seq)
  else Ok (None, seq).

Definition read_freeText (seq : bytes) : result (PKIFreeText * bytes) :=
  if PeekASN1Tag (ctxc 7) seq then
    let? (sub, seq) := of_option (parse_error "invalid freeText tag") (ReadASN1 (ctxc 7) seq) in
    let? (ft, _) := PKIFreeText_unmarshal sub in
    Ok (ft, seq)
  else Ok ([], seq).

Definition unmarshalGeneralInfo (seq : bytes) : result (list InfoTypeAndValue) :=
  if negb (PeekASN1Tag (ctxc 8) seq) then Ok []
  else
    let? (sub, _) := of_option (parse_error "invalid generalInfo tag") (ReadASN1 (ctxc 8) seq) in
    let? (giSeq, _) := of_option (parse_error "invalid generalInfo sequence")
                         (ReadASN1 SEQUENCE sub) in
    read_list InfoTypeAndValue_unmarshal giSeq.

(** [&ParseError{Detail: what, Err: err}]. *)
Definition wrap_parse {A} (what : string) (r : result A) : result A :=
  match r with Ok a => Ok a | Err e => Err (ParseError what (Some e)) end.

Definition PKIHeader_unmarshal (s : bytes) : result PKIHeader :=
  let? (seq, _) := of_option (parse_error "invalid PKIHeader sequence") (ReadASN1 SEQUENCE s) in
  let? (pvno, seq) := of_option (parse_error "invalid pvno") (ReadASN1Int64 seq) in
  let? (sender, seq) := wrap_parse "sender" (GeneralName_unmarshal seq) in
  let? (recipient, seq) := wrap_parse "recipient" (GeneralName_unmarshal seq) in
  let? (time, present, seq) := read_messageTime seq in
  let? (alg, seq) := read_protectionAlg seq in
  let? (senderKID, seq) := readOptionalOctetString 2 "senderKID" seq in
  let? (recipKID, seq) := readOptionalOctetString 3 "recipKID" seq in
  let? (transactionID, seq) := readOptionalOctetString 4 "transactionID" seq in
  let? (senderNonce, seq) := readOptionalOctetString 5 "senderNonce" seq in
  let? (recipNonce, seq) := readOptionalOctetString 6 "recipNonce" seq in
  let? (freeText, seq) := read_freeText seq in
  let? generalInfo := unmarshalGeneralInfo seq in
  Ok (mkPKIHeader pvno sender recipient time alg senderKID recipKID transactionID
        senderNonce recipNonce freeText generalInfo present).

(** ** Encoding *)

Definition marshalTrailer (protection : bytes) (extraCerts : list CMPCertificate) : Builder :=
  b_if (nonempty protection)
    (AddASN1 (ctxc 0) (AddASN1 BIT_STRING (AddUint8 0 ⊕ AddBytes protection)))
  ⊕ b_if (nonempty extraCerts)
      (AddASN1 (ctxc 1) (AddASN1 SEQUENCE (b_list CMPCertificate_marshal extraCerts))).

(** [mctx.MinRequiredPVNO] after the body [b] was marshalled. *)
Definition initial_pvno (h : PKIHeader) : Z := if PVNO2 <? PVNO h then PVNO h else PVNO2.
Definition required_pvno (h : PKIHeader) (b : Builder) : Z :=
  match bpvno b with Some v => v | None => initial_pvno h end.

(** The steps of [MarshalBinary] once the body is known: the header with its new
    [PVNO] and the encoding. *)
Definition marshal_parts (h : PKIHeader) (b : Builder) (protection : bytes)
    (extraCerts : list CMPCertificate) : PKIHeader * result bytes :=
  match Bytes b with
  | Err e => (h, Err e)
  | Ok bodyBytes =>
      let h := set_PVNO (required_pvno h b) h in
      (h, Bytes (AddASN1 SEQUENCE
                   (PKIHeader_marshal h ⊕ AddBytes bodyBytes
                    ⊕ marshalTrailer protection extraCerts)))
  end.

(** A nil pointer whose fields the method reads. *)
Definition b_panic : Builder := SetError GoPanic.

(** The body and, for a nested body, the messages it carries. *)
Fixpoint PKIBody_marshal (b : PKIBody) : Builder :=
  let '(mkPKIBody t raw dirty _ c) := b in
  if nonempty raw && negb dirty then AddBytes raw
  else AddASN1 t
    (if t =? BodyTypeIR then match c with Some (C_ir m) => CertReqMessages_marshal m | _ => b_panic end
     else if t =? BodyTypeIP then match c with Some (C_ip m) => CertRepMessage_marshal m | _ => b_panic end
     else if t =? BodyTypeCR then match c with Some (C_cr m) => CertReqMessages_marshal m | _ => b_panic end
     else if t =? BodyTypeCP then match c with Some (C_cp m) => CertRepMessage_marshal m | _ => b_panic end
     else if t =? BodyTypeP10CR then match c with Some (C_p10cr csr) => AddBytes (csr_Raw csr) | _ => b_panic end
     else if t =? BodyTypeKUR then match c with Some (C_kur m) => CertReqMessages_marshal m | _ => b_panic end
     else if t =? BodyTypeKUP then match c with Some (C_kup m) => CertRepMessage_marshal m | _ => b_panic end
     else if t =? BodyTypeRR then match c with Some (C_rr m) => RevReqContent_marshal m | _ => b_panic end
     else if t =? BodyTypeRP then match c with Some (C_rp m) => RevRepContent_marshal m | _ => b_panic end
     else if t =? BodyTypeCertConf then match c with Some (C_certConf m) => CertConfirmContent_marshal m | _ => b_panic end
     else if t =? BodyTypePKIConf then PKIConfirmContent_marshal tt
     else if t =? BodyTypePollReq then match c with Some (C_pollReq m) => PollReqContent_marshal m | _ => b_panic end
     else if t =? BodyTypePollRep then match c with Some (C_pollRep m) => PollRepContent_marshal m | _ => b_panic end
     else if t =? BodyTypeError then match c with Some (C_error m) => ErrorMsgContent_marshal m | _ => b_panic end
     else if t =? BodyTypeNested then
       match c with
       | Some (C_nested (msg :: msgs)) =>
           AddASN1 SEQUENCE
             (b_list (fun om =>
                match om with
                | None => SetError (parse_error "nil message in nested body")
                | Some m =>
                    match marshalForNesting m with Ok der => AddBytes der | Err e => SetError e end
                end) (msg :: msgs))
       | _ => SetError (parse_error "nested body requires at least one message")
       end
     else AddBytes raw)
with marshalForNesting (m : PKIMessage) : result bytes :=
  let '(mkPKIMessage h body protection extraCerts rawH rawB) := m in
  if negb (nonempty protection) || negb (nonempty rawH) || negb (nonempty rawB) then
    match body with
    | None => Err (parse_error detailMissingMessageBody)
    | Some b => snd (marshal_parts h (PKIBody_marshal b) protection extraCerts)
    end
  else
    Bytes (AddASN1 SEQUENCE
             (AddBytes rawH ⊕ AddBytes rawB ⊕ marshalTrailer protection extraCerts)).

(** [MarshalBinary]: the message with its [PVNO] updated, and the encoding. *)
Definition MarshalBinary (m : PKIMessage) : PKIMessage * result bytes :=
  match Body m with
  | None => (m, Err (parse_error detailMissingMessageBody))
  | Some b =>
      let (h, r) := marshal_parts (Header m) (PKIBody_marshal b) (Protection m) (ExtraCerts m) in
      (set_Header h m, r)
  end.

(** ** Decoding *)

Definition PKIBody_unmarshal (s : bytes) : result PKIBody :=
  let? (_, tag, _) := of_option (parse_error "missing PKIBody tag") (ReadAnyASN1 s) in
  reject_if negb (ContextSpecific tag =? tag)
    with parse_error ("invalid PKIBody tag: " +:+ pretty tag) ;;
  Ok (mkPKIBody tag s false None None).

Definition read_protection (seq : bytes) : result (bytes * bytes) :=
  if PeekASN1Tag (ctxc 0) seq then
    let? (protectionSeq, seq) := of_option (parse_error "invalid protection tag")
                                   (ReadASN1 (ctxc 0) seq) in
    let? (bitString, _) := of_option (parse_error "invalid protection BIT STRING")
                             (ReadASN1 BIT_STRING protectionSeq) in
    let? (_, bitString) := of_option (parse_error "invalid protection unused bits")
                             (ReadUint8 bitString) in
    Ok (bitString, seq)
  else Ok ([], seq).

Definition read_extraCerts (seq : bytes) : result (list CMPCertificate * bytes) :=
  if PeekASN1Tag (ctxc 1) seq then
    let? (extraCertsSeq, seq) := of_option (parse_error "invalid extraCerts tag")
                                   (ReadASN1 (ctxc 1) seq) in
    let? (certsSeq, _) := of_option (parse_error "invalid extraCerts sequence")
                            (ReadASN1 SEQUENCE extraCertsSeq) in
    let? certs := read_list CMPCertificate_unmarshal certsSeq in
    Ok (certs, seq)
  else Ok ([], seq).

(** [UnmarshalBinary] into a new message, which is [ParsePKIMessage]. *)
Definition ParsePKIMessage (der : bytes) : result PKIMessage :=
  let? (seq, s) := of_option (parse_error "invalid PKIMessage sequence")
                     (ReadASN1 SEQUENCE der) in
  let? (rawH, _, seq) := of_option (parse_error "missing PKIHeader") (ReadAnyASN1Element seq) in
  let? h := PKIHeader_unmarshal rawH in
  let? (rawB, _, seq) := of_option (parse_error "missing PKIBody") (ReadAnyASN1Element seq) in
  let? body := PKIBody_unmarshal rawB in
  let? (protection, seq) := read_protection seq in
  let? (extraCerts, seq) := read_extraCerts seq in
  reject_if negb (Empty seq) with parse_error "trailing data inside PKIMessage sequence" ;;
  reject_if negb (Empty s) with parse_error "trailing data after PKIMessage" ;;
  Ok (mkPKIMessage h (Some body) protection extraCerts rawH rawB).

(** One pass of the loop of [parseNestedMessages]. *)
Definition nested_element : reader PKIMessage := fun seq =>
  let? (elem, seq) := of_option (parse_error "invalid message in nested body")
                        (ReadASN1Element SEQUENCE seq) in
  let? m := wrap_parse "nested message" (ParsePKIMessage elem) in
  Ok (m, seq).

Definition parseNestedMessages (raw : bytes) : result (list PKIMessage) :=
  let bad := parse_error "invalid nested body content" in
  let? (ct, _) := of_option bad (ReadASN1 BodyTypeNested raw) in
  let? (seq, ct) := of_option bad (ReadASN1 SEQUENCE ct) in
  reject_if negb (Empty ct) with bad ;;
  let? msgs := read_list nested_element seq in
  reject_if negb (nonempty msgs) with parse_error "nested body contains no messages" ;;
  Ok msgs.

(** ** Getters: the body with its cache filled, and the content *)

Definition unmarshalBodyContent {A} (marshal : A -> Builder) (unmarshal : reader A)
    (zero : A) (b : PKIBody) : PKIBody * result A :=
  let '(mkPKIBody t raw d e c) := b in
  let finish raw :=
    (mkPKIBody t raw d e c,
     let? (sub, _) := of_option (parse_error ("invalid body content for type " +:+ BodyType_String t))
                        (ReadASN1 t raw) in
     let? (v, _) := unmarshal sub in
     Ok v) in
  if nonempty raw then finish raw
  else match Bytes (marshal zero) with
       | Ok raw => finish raw
       | Err err => (b, Err err)
       end.

Definition not_this_body (name : string) (b : PKIBody) : error :=
  parse_error ("body is not " +:+ name +:+ " (type " +:+ BodyType_String (Type_ b) +:+ ")").

Definition getter {A} (want : BodyType) (name : string) (marshal : A -> Builder)
    (unmarshal : reader A) (zero : A) (inj : A -> BodyContent)
    (proj : BodyContent -> option A) (b : PKIBody) : PKIBody * result A :=
  if negb (Type_ b =? want) then (b, Err (not_this_body name b))
  else match body_err b, content b ≫= proj with
       | Some e, _ => (b, Err e)
       | None, Some v => (b, Ok v)
       | None, None =>
           let '(mkPKIBody t raw d e c, r) := unmarshalBodyContent marshal unmarshal zero b in
           match r with
           | Ok v => (mkPKIBody t raw d e (Some (inj v)), Ok v)
           | Err err => (mkPKIBody t raw d (Some err) c, Err err)
           end
       end.

Definition IR := getter BodyTypeIR "ir" CertReqMessages_marshal CertReqMessages_unmarshal []
  C_ir (fun c => match c with C_ir m => Some m | _ => None end).
Definition CR := getter BodyTypeCR "cr" CertReqMessages_marshal CertReqMessages_unmarshal []
  C_cr (fun c => match c with C_cr m => Some m | _ => None end).
Definition KUR := getter BodyTypeKUR "kur" CertReqMessages_marshal CertReqMessages_unmarshal []
  C_kur (fun c => match c with C_kur m => Some m | _ => None end).
Definition CertReqMessages_get (b : PKIBody) : PKIBody * result CertReqMessages :=
  if Type_ b =? BodyTypeIR then IR b
  else if Type_ b =? BodyTypeCR then CR b
  else if Type_ b =? BodyTypeKUR then KUR b
  else (b, Err (parse_error ("body type " +:+ BodyType_String (Type_ b)
                              +:+ " is not a cert request"))).
Definition emptyCertRep : CertRepMessage := mkCertRepMessage [] [].
Definition KUP := getter BodyTypeKUP "kup" CertRepMessage_marshal CertRepMessage_unmarshal
  emptyCertRep C_kup (fun c => match c with C_kup m => Some m | _ => None end).
Definition CP := getter BodyTypeCP "cp" CertRepMessage_marshal CertRepMessage_unmarshal
  emptyCertRep C_cp (fun c => match c with C_cp m => Some m | _ => None end).
Definition IP := getter BodyTypeIP "ip" CertRepMessage_marshal CertRepMessage_unmarshal
  emptyCertRep C_ip (fun c => match c with C_ip m => Some m | _ => None end).
Definition RR := getter BodyTypeRR "rr" RevReqContent_marshal RevReqContent_unmarshal []
  C_rr (fun c => match c with C_rr m => Some m | _ => None end).
Definition RP := getter BodyTypeRP "rp" RevRepContent_marshal RevRepContent_unmarshal
  (mkRevRepContent [] [] []) C_rp (fun c => match c with C_rp m => Some m | _ => None end).
Definition CertConf := getter BodyTypeCertConf "certConf" CertConfirmContent_marshal
  CertConfirmContent_unmarshal [] C_certConf
  (fun c => match c with C_certConf m => Some m | _ => None end).
Definition PKIConf := getter BodyTypePKIConf "pkiconf" PKIConfirmContent_marshal
  PKIConfirmContent_unmarshal tt (fun _ => C_pkiConf)
  (fun c => match c with C_pkiConf => Some tt | _ => None end).
Definition PollReq := getter BodyTypePollReq "pollReq" PollReqContent_marshal
  PollReqContent_unmarshal [] C_pollReq
  (fun c => match c with C_pollReq m => Some m | _ => None end).
Definition PollRep := getter BodyTypePollRep "pollRep" PollRepContent_marshal
  PollRepContent_unmarshal [] C_pollRep
  (fun c => match c with C_pollRep m => Some m | _ => None end).
Definition Error_get := getter BodyTypeError "error" ErrorMsgContent_marshal
  ErrorMsgContent_unmarshal (mkErrorMsgContent (mkPKIStatusInfo 0 [] 0) 0 []) C_error
  (fun c => match c with C_error m => Some m | _ => None end).

(** A nil [p10cr] is dereferenced when the body also has no [Raw]. *)
Definition P10CR (b : PKIBody) : PKIBody * result CertificateRequest :=
  if negb (Type_ b =? BodyTypeP10CR) then (b, Err (not_this_body "p10cr" b))
  else
    let '(mkPKIBody t raw d e c) := b in
    match e, c with
    | Some err, _ => (b, Err err)
    | None, Some (C_p10cr csr) => (b, Ok csr)
    | None, _ =>
        if negb (nonempty raw) then (b, Err GoPanic)
        else
          let r :=
            let? (sub, _) := of_option (parse_error "invalid p10cr body")
                               (ReadASN1 BodyTypeP10CR raw) in
            of_option x509_error (x509_ParseCertificateRequest sub) in
          match r with
          | Ok csr => (mkPKIBody t raw d e (Some (C_p10cr csr)), Ok csr)
          | Err err => (mkPKIBody t raw d (Some err) c, Err err)
          end
    end.

Definition Nested (b : PKIBody) : PKIBody * result (list (option PKIMessage)) :=
  if negb (Type_ b =? BodyTypeNested) then (b, Err (not_this_body "nested" b))
  else
    let '(mkPKIBody t raw d e c) := b in
    match e, c with
    | Some err, _ => (b, Err err)
    | None, Some (C_nested (m :: ms)) => (b, Ok (m :: ms))
    | None, _ =>
        match parseNestedMessages raw with
        | Ok msgs =>
            (mkPKIBody t raw d e (Some (C_nested (Some <$> msgs))), Ok (Some <$> msgs))
        | Err err => (mkPKIBody t raw d (Some err) c, Err err)
        end
    end.

(** ** Header accessors and the protected part *)

Definition oidCertProfile : ObjectIdentifier := [1; 3; 6; 1; 5; 5; 7; 4; 21].

Definition CertProfile {GA : GoASN1} (h : PKIHeader) : string :=
  let profile itv :=
    if OID_Equal (InfoType itv) oidCertProfile then
      match asn1_Unmarshal_Strings (InfoValue itv) with
      | Some (p :: _, _) => Some p
      | _ => None
      end
    else None in
  default "" (head (omap profile (GeneralInfo h))).

Definition protectedPart (m : PKIMessage) : result bytes :=
  match Body m with
  | None => Err (parse_error detailMissingMessageBody)
  | Some _ =>
      reject_if negb (nonempty (rawHeader m)) || negb (nonempty (rawBody m))
        with parse_error "raw header or body missing" ;;
      Bytes (AddASN1 SEQUENCE (AddBytes (rawHeader m) ⊕ AddBytes (rawBody m)))
  end.
Definition ProtectedData (m : PKIMessage) : result bytes := protectedPart m.

End Codecs.
