(* ===== verification/MessageFacts.v ===== *)
(** * Round trips of headers, bodies and messages *)
From S2P Require Import Prelude Failure Errors Asn1 Asn1Facts Types TypesFacts StatusInfo.
From S2P Require Import Enrollment EnrollmentFacts Crmf CrmfFacts X509 RevocationMsg.
From S2P Require Import RevocationMsgFacts Message.

(** ** Context tags *)

Lemma ctxc_value n : 0 <= n < 32 -> ctxc n = n + 160.
Proof.
  intros Hn. assert (H : forallb (fun k => ctxc (Z.of_nat k) =? Z.of_nat k + 160) (seq 0 32) = true)
    by reflexivity.
  rewrite forallb_forall in H. specialize (H (Z.to_nat n)).
  rewrite Z2Nat.id in H by lia. apply Z.eqb_eq, H, in_seq. lia.
Qed.

Lemma ctxc_eqb n m : 0 <= n < 32 -> 0 <= m < 32 -> (ctxc n =? ctxc m) = (n =? m).
Proof. intros. rewrite !ctxc_value by lia. destruct (Z.eqb_spec n m); lia. Qed.

Section Facts.
Context {CB : Cryptobyte} {L : CryptobyteLaws CB} {GN : GoNames} {GX : GoX509}.

(** ** Optional fields in increasing tag order *)

(** No field with a tag up to [n] is next. *)
Definition above (n : Z) (r : bytes) : Prop :=
  forall k, 0 <= k <= n -> PeekASN1Tag (ctxc k) r = false.

Lemma above_nil n : above n [].
Proof. done. Qed.

Lemma above_le n m r : m <= n -> above n r -> above m r.
Proof. intros Hle H k Hk. apply H. lia. Qed.

Lemma above_peek n r : 0 <= n -> above n r -> PeekASN1Tag (ctxc n) r = false.
Proof. intros Hn H. apply H. lia. Qed.

(** The next field has tag [n], or is not there. *)
Lemma above_field n m e r :
  0 <= n < 32 -> m < n -> (e = [] \/ starts (ctxc n) e) -> above n r -> above m (e ++ r).
Proof.
  intros Hn Hm [->|He] Hr k Hk; simpl; [apply Hr; lia|].
  rewrite (Peek_starts _ _ _ _ He), ctxc_eqb by lia. apply Z.eqb_neq. lia.
Qed.

Lemma octet_field_shape n v e : bout (octet_field n v) = Ok e -> e = [] \/ starts (ctxc n) e.
Proof.
  unfold octet_field. destruct v; simpl.
  - intros ->%bout_nil. by left.
  - intros H%AddASN1_starts. by right.
Qed.

Lemma octet_field_rt n name v e r :
  0 <= n -> bout (octet_field n v) = Ok e -> above n r ->
  readOptionalOctetString n name (e ++ r) = Ok (v, r).
Proof.
  intros Hn H Hr. unfold octet_field in H. unfold readOptionalOctetString. destruct v as [|b v].
  - simpl in H. rt_inv. simpl. by rewrite (above_peek n r Hn Hr).
  - simpl in H. rt_inv. rewrite (Peek_starts (ctxc n) (ctxc n) e r), Z.eqb_refl
      by (by eapply tlv_starts).
    cbn [negb]. rt_run. done.
Qed.

Lemma messageTime_shape h e :
  bout (b_if (HasMessageTime h) (AddASN1 (ctxc 0) (AddASN1GeneralizedTime (MessageTime h)))) = Ok e ->
  e = [] \/ starts (ctxc 0) e.
Proof.
  destruct (HasMessageTime h); [intros H%AddASN1_starts; by right | intros ->%bout_nil; by left].
Qed.

Lemma messageTime_rt h e r :
  bout (b_if (HasMessageTime h) (AddASN1 (ctxc 0) (AddASN1GeneralizedTime (MessageTime h)))) = Ok e ->
  above 0 r ->
  read_messageTime (e ++ r) =
  Ok (if HasMessageTime h then truncate_second (MessageTime h) else 0, HasMessageTime h, r).
Proof.
  intros H Hr. unfold read_messageTime. destruct (HasMessageTime h); simpl in *.
  - rt_inv. rt_starts. rt_run. done.
  - rt_inv. simpl. by rewrite (above_peek 0 r) by (done || lia).
Qed.

Lemma protectionAlg_shape (o : option AlgorithmIdentifier) e :
  bout (b_opt o (fun a => AddASN1 (ctxc 1) (AlgorithmIdentifier_marshal a))) = Ok e ->
  e = [] \/ starts (ctxc 1) e.
Proof. destruct o; [intros H%AddASN1_starts; by right | intros ->%bout_nil; by left]. Qed.

Lemma protectionAlg_rt o e r :
  opt_wf AlgorithmIdentifier_wf o ->
  bout (b_opt o (fun a => AddASN1 (ctxc 1) (AlgorithmIdentifier_marshal a))) = Ok e ->
  above 1 r -> read_protectionAlg (e ++ r) = Ok (o, r).
Proof.
  intros Hwf H Hr. unfold read_protectionAlg. destruct o as [a|]; simpl in *; rt_inv.
  - rt_run. done.
  - simpl. by rewrite (above_peek 1 r) by (done || lia).
Qed.

Lemma freeText_shape (ft : PKIFreeText) e :
  bout (b_if (nonempty ft) (AddASN1 (ctxc 7) (PKIFreeText_marshal ft))) = Ok e ->
  e = [] \/ starts (ctxc 7) e.
Proof. destruct ft; [intros ->%bout_nil; by left | intros H%AddASN1_starts; by right]. Qed.

Lemma freeText_rt (ft : PKIFreeText) e r :
  bout (b_if (nonempty ft) (AddASN1 (ctxc 7) (PKIFreeText_marshal ft))) = Ok e ->
  above 7 r -> read_freeText (e ++ r) = Ok (ft, r).
Proof.
  intros H Hr. unfold read_freeText. destruct ft as [|t ft]; simpl in *; rt_inv.
  - simpl. by rewrite (above_peek 7 r) by (done || lia).
  - rt_run. done.
Qed.

Definition info_wf (i : InfoTypeAndValue) : Prop := OID_ok (InfoType i) = true.

#[export] Instance InfoTypeAndValue_writes : Writes InfoTypeAndValue_marshal info_wf.
Proof. intros x e _ [e' ->]%AddASN1_starts. done. Qed.

Definition generalInfo_marshal (gi : list InfoTypeAndValue) : Builder :=
  b_if (nonempty gi) (AddASN1 (ctxc 8) (AddASN1 SEQUENCE (b_list InfoTypeAndValue_marshal gi))).

Lemma generalInfo_shape gi e : bout (generalInfo_marshal gi) = Ok e -> e = [] \/ starts (ctxc 8) e.
Proof. destruct gi; [intros ->%bout_nil; by left | intros H%AddASN1_starts; by right]. Qed.

Lemma generalInfo_rt gi e :
  Forall info_wf gi -> bout (generalInfo_marshal gi) = Ok e -> unmarshalGeneralInfo e = Ok gi.
Proof.
  intros Hwf H. unfold generalInfo_marshal in H.
  unfold unmarshalGeneralInfo. destruct gi as [|i gi]; simpl in H; rt_inv; [done|]. rt_run. done.
Qed.

(** ** The header *)

(** The header a peer reads, the names being read as [s] and [r]: the message time
    has whole seconds, and is present when it was written. *)
Definition received_header (s r : GeneralName) (h : PKIHeader) : PKIHeader :=
  mkPKIHeader (PVNO h) s r (if HasMessageTime h then truncate_second (MessageTime h) else 0)
    (ProtectionAlg h) (SenderKID h) (RecipKID h) (TransactionID h) (SenderNonce h)
    (RecipNonce h) (FreeText h) (GeneralInfo h) (HasMessageTime h).

(** The headers the wire can carry, and the names a peer reads in them. *)
Definition PKIHeader_wf (s r : GeneralName) (h : PKIHeader) : Prop :=
  int64_ok (PVNO h) = true /\ reads_as (Sender h) s /\ reads_as (Recipient h) r
  /\ opt_wf AlgorithmIdentifier_wf (ProtectionAlg h) /\ Forall info_wf (GeneralInfo h).

(** Chains [above] through the fields that follow. *)
Local Ltac fields :=
  match goal with
  | |- above _ [] => apply above_nil
  | H : ?e = [] \/ starts (ctxc ?n) ?e |- above _ (?e ++ ?r) =>
      apply (above_field n _ e r); [lia | lia | exact H | ]; fields
  | H : ?e = [] \/ starts (ctxc ?n) ?e |- above ?m ?e =>
      rewrite <- (app_nil_r e);
      apply (above_field n _ e []); [lia | lia | exact H | apply above_nil]
  end.

Lemma PKIHeader_rt s r h e :
  PKIHeader_wf s r h -> bout (PKIHeader_marshal h) = Ok e ->
  PKIHeader_unmarshal e = Ok (received_header s r h).
Proof.
  intros (Hv & Hs & Hr & Ha & Hi) H. unfold PKIHeader_marshal in H.
  apply bout_AddASN1 in H as (c & Hc & H).
  apply bout_seq in Hc as (e1 & c1 & H1 & (e2 & c2 & H2 & (e3 & c3 & H3 & (e4 & c4 & H4
    & (e5 & c5 & H5 & Hc & ->)%bout_seq & ->)%bout_seq & ->)%bout_seq & ->)%bout_seq & ->).
  apply bout_seq in Hc as (e6 & c6 & H6 & (e7 & c7 & H7 & (e8 & c8 & H8 & (e9 & c9 & H9
    & (e10 & c10 & H10 & (e11 & e12 & H11 & H12 & ->)%bout_seq & ->)%bout_seq & ->)%bout_seq
    & ->)%bout_seq & ->)%bout_seq & ->).
  change (bout (generalInfo_marshal (GeneralInfo h)) = Ok e12) in H12.
  pose proof (messageTime_shape h e4 H4). pose proof (protectionAlg_shape _ _ H5).
  pose proof (octet_field_shape _ _ _ H6). pose proof (octet_field_shape _ _ _ H7).
  pose proof (octet_field_shape _ _ _ H8). pose proof (octet_field_shape _ _ _ H9).
  pose proof (octet_field_shape _ _ _ H10). pose proof (freeText_shape _ _ H11).
  pose proof (generalInfo_shape _ _ H12).
  unfold PKIHeader_unmarshal. rewrite <- (app_nil_r e), (ReadASN1_tlv _ _ _ [] H).
  cbn [of_option res_bind]. rewrite (ReadASN1Int64_add _ _ _ Hv H1). cbn [of_option res_bind].
  rewrite (Hs _ _ H2). cbn [wrap_parse res_bind].
  rewrite (Hr _ _ H3). cbn [wrap_parse res_bind].
  rewrite (messageTime_rt h e4) by (done || fields). cbn [res_bind].
  rewrite (protectionAlg_rt _ e5 _ Ha H5) by fields. cbn [res_bind].
  rewrite (octet_field_rt 2 _ _ e6 _ ltac:(lia) H6) by fields. cbn [res_bind].
  rewrite (octet_field_rt 3 _ _ e7 _ ltac:(lia) H7) by fields. cbn [res_bind].
  rewrite (octet_field_rt 4 _ _ e8 _ ltac:(lia) H8) by fields. cbn [res_bind].
  rewrite (octet_field_rt 5 _ _ e9 _ ltac:(lia) H9) by fields. cbn [res_bind].
  rewrite (octet_field_rt 6 _ _ e10 _ ltac:(lia) H10) by fields. cbn [res_bind].
  rewrite (freeText_rt _ e11 e12 H11) by fields. cbn [res_bind].
  by rewrite (generalInfo_rt _ _ Hi H12).
Qed.

(** ** Messages *)

Lemma marshalTrailer_rt protection extraCerts e :
  Forall CMPCertificate_wf extraCerts ->
  bout (marshalTrailer protection extraCerts) = Ok e ->
  exists r, read_protection e = Ok (protection, r) /\ read_extraCerts r = Ok (extraCerts, []).
Proof.
  intros Hwf H. unfold marshalTrailer in H. apply bout_seq in H as (e1 & e2 & H1 & H2 & ->).
  exists e2. split; unfold read_protection, read_extraCerts.
  - destruct protection as [|b p]; [|rt_inv; simpl in H1; rt_inv; rt_run; done].
    simpl in H1. rt_inv. simpl app. destruct extraCerts; simpl in H2; rt_inv; [done|].
    rt_run. done.
  - destruct extraCerts as [|c cs]; simpl in H2; rt_inv; [done|]. rt_run. done.
Qed.

Lemma ParsePKIMessage_assembled rawH rawB h b protection extraCerts tr e :
  element rawH -> element rawB -> PKIHeader_unmarshal rawH = Ok h ->
  PKIBody_unmarshal rawB = Ok b -> Forall CMPCertificate_wf extraCerts ->
  bout (marshalTrailer protection extraCerts) = Ok tr ->
  tlv SEQUENCE (rawH ++ rawB ++ tr) = Some e ->
  ParsePKIMessage e = Ok (mkPKIMessage h (Some b) protection extraCerts rawH rawB).
Proof.
  intros HH HB Hh Hb Hc Htr He. unfold ParsePKIMessage.
  rewrite <- (app_nil_r e), (ReadASN1_tlv _ _ _ [] He). cbn [of_option res_bind].
  destruct (ReadAnyASN1Element_element rawH (rawB ++ tr) HH) as [t1 ->].
  cbn [of_option res_bind]. rewrite Hh. cbn [res_bind].
  destruct (ReadAnyASN1Element_element rawB tr HB) as [t2 ->].
  cbn [of_option res_bind]. rewrite Hb. cbn [res_bind].
  destruct (marshalTrailer_rt _ _ _ Hc Htr) as (r & -> & Hr). cbn [res_bind].
  by rewrite Hr.
Qed.

Lemma ReadAnyASN1Element_inv s e t r : ReadAnyASN1Element s = Some (e, t, r) -> element e.
Proof.
  unfold ReadAnyASN1Element. destruct (read_any s) as [[[[t' e'] c'] r']|] eqn:E; simpl; [|done].
  intros [= <- <- <-]. exists t', c'. by eapply read_any_tlv.
Qed.

Lemma CMPCertificate_unmarshal_wf s c r :
  CMPCertificate_unmarshal s = Ok (c, r) -> CMPCertificate_wf c.
Proof.
  intros H. unfold CMPCertificate_unmarshal in H. split_res. by eapply ReadAnyASN1Element_inv.
Qed.

(** What the parser guarantees of a message. *)
Lemma ParsePKIMessage_inv der m :
  ParsePKIMessage der = Ok m ->
  exists b, Body m = Some b /\ element (rawHeader m) /\ element (rawBody m)
    /\ PKIHeader_unmarshal (rawHeader m) = Ok (Header m)
    /\ PKIBody_unmarshal (rawBody m) = Ok b /\ Forall CMPCertificate_wf (ExtraCerts m).
Proof.
  intros H. unfold ParsePKIMessage in H. split_res.
  repeat (case_in H; [done|]). injection H as <-. simpl. eexists. split; [done|].
  split; [by eapply ReadAnyASN1Element_inv|]. split; [by eapply ReadAnyASN1Element_inv|].
  split; [done|]. split; [done|].
  unfold read_extraCerts in E5. case_in E5; [|injection E5 as <- <-; constructor].
  split_res. eapply read_list_Forall; [|done]. intros. by eapply CMPCertificate_unmarshal_wf.
Qed.

Lemma forwarded_bytes m e :
  nonempty (Protection m) = true -> nonempty (rawHeader m) = true -> nonempty (rawBody m) = true ->
  marshalForNesting m = Ok e ->
  exists tr, bout (marshalTrailer (Protection m) (ExtraCerts m)) = Ok tr
    /\ tlv SEQUENCE (rawHeader m ++ rawBody m ++ tr) = Some e.
Proof.
  destruct m as [h b p ex rh rb]. simpl. intros -> -> ->. simpl. intros H. split_res.
  rt_inv. eauto.
Qed.

(** A received message forwarded in a nested body is received as it was. *)
Lemma forwarding_exact der m e :
  ParsePKIMessage der = Ok m -> nonempty (Protection m) = true ->
  marshalForNesting m = Ok e -> ParsePKIMessage e = Ok m.
Proof.
  intros Hp Hprot He. destruct (ParsePKIMessage_inv _ _ Hp) as (b & Hb & H1 & H2 & H3 & H4 & H5).
  destruct (forwarded_bytes m e Hprot) as (tr & Htr & Ht);
    [by apply element_nonempty | by apply element_nonempty | done |].
  rewrite (ParsePKIMessage_assembled _ _ _ _ _ _ _ _ H1 H2 H3 H4 H5 Htr Ht).
  destruct m; simpl in *; congruence.
Qed.

Lemma nested_element_rt m e r :
  (exists der, ParsePKIMessage der = Ok m) -> nonempty (Protection m) = true ->
  marshalForNesting m = Ok e -> nested_element (e ++ r) = Ok (m, r) /\ e <> [].
Proof.
  intros [der Hp] Hprot He. pose proof (ParsePKIMessage_inv _ _ Hp) as (b & Hb & H1 & H2 & _).
  destruct (forwarded_bytes m e Hprot) as (tr & Htr & Ht);
    [by apply element_nonempty | by apply element_nonempty | done |].
  split; [|by destruct (tlv_starts _ _ _ Ht) as [e' ->]].
  unfold nested_element. rewrite (ReadASN1Element_tlv _ _ _ _ Ht). cbn [of_option res_bind].
  by rewrite (forwarding_exact _ _ _ Hp Hprot He).
Qed.

(** ** PVNO *)

(** A marshal method either leaves the required version alone or sets it to 3. *)
Definition version_ok (b : Builder) : Prop := bpvno b = None \/ bpvno b = Some PVNO3.

Lemma version_nil : version_ok b_nil. Proof. by left. Qed.
Lemma version_bytes l : version_ok (AddBytes l). Proof. by left. Qed.
Lemma version_error e : version_ok (SetError e). Proof. by left. Qed.
Lemma version_set : version_ok (set_pvno PVNO3). Proof. by right. Qed.
Lemma version_seq b1 b2 : version_ok b1 -> version_ok b2 -> version_ok (b1 ⊕ b2).
Proof. unfold version_ok, b_seq. simpl. intros [->| ->] [->| ->]; auto. Qed.
Lemma version_if c b : version_ok b -> version_ok (b_if c b).
Proof. destruct c; [done | by left]. Qed.
Lemma version_opt {A} (o : option A) f : (forall x, version_ok (f x)) -> version_ok (b_opt o f).
Proof. intros H. destruct o; simpl; [done | by left]. Qed.
Lemma version_list {A} (f : A -> Builder) l : (forall x, version_ok (f x)) -> version_ok (b_list f l).
Proof. intros H. induction l; [by left | by apply version_seq]. Qed.
Lemma version_asn1 t b : version_ok b -> version_ok (AddASN1 t b).
Proof. done. Qed.
Lemma version_integer n : version_ok (AddASN1Integer n). Proof. by left. Qed.
Lemma version_octets l : version_ok (AddASN1OctetString l). Proof. by left. Qed.
Lemma version_oid o : version_ok (AddASN1ObjectIdentifier o).
Proof. unfold AddASN1ObjectIdentifier. destruct (oid_content o); by left. Qed.

End Facts.
