(* ===== verification/BodyFacts.v ===== *)
(** * Bodies: protocol version, getters and message round trips *)
From S2P Require Import Prelude Failure Errors Asn1 Asn1Facts Types TypesFacts StatusInfo.
From S2P Require Import Enrollment EnrollmentFacts Crmf CrmfFacts X509 RevocationMsg.
From S2P Require Import RevocationMsgFacts Message MessageFacts.

Create HintDb version.

(** Follows the structure of a marshal method down to its elements. *)
Ltac version :=
  repeat first
    [ solve [auto with version] | apply version_nil | apply version_bytes | apply version_error | apply version_set
    | apply version_integer | apply version_octets | apply version_oid
    | apply version_seq | apply version_if | apply version_opt; intros
    | apply version_list; intros | apply version_asn1 | assumption
    | case_goal ].

Section Facts.
Context {CB : Cryptobyte} {L : CryptobyteLaws CB} {GN : GoNames} {GX : GoX509}.

(** ** The version a body asks for *)

Lemma version_algorithm a : version_ok (AlgorithmIdentifier_marshal a).
Proof. unfold AlgorithmIdentifier_marshal, AlgorithmIdentifier_marshalInner. version. Qed.
Lemma version_generalName gn : version_ok (GeneralName_marshal gn).
Proof. unfold GeneralName_marshal, marshalRDNSequence, ATV_marshal, UTF8String_marshal. version. Qed.
Lemma version_freeText ft : version_ok (PKIFreeText_marshal ft).
Proof. unfold PKIFreeText_marshal, UTF8String_marshal. version. Qed.
Lemma version_encryptedKey k : version_ok (encryptedKey_marshal k).
Proof.
  unfold encryptedKey_marshal, envelopedData_marshalInner, encryptedValue_marshal. version.
Qed.
Local Hint Resolve version_algorithm version_generalName version_freeText version_encryptedKey : version.
Lemma version_statusInfo si : version_ok (PKIStatusInfo_marshal si).
Proof. unfold PKIStatusInfo_marshal, failInfo_marshal, failInfo_content, AddUint8. version. Qed.
Lemma version_template t : version_ok (CertTemplate_marshal t).
Proof.
  unfold CertTemplate_marshal, serialNumber_marshal, strip_or_error, marshalRDNSequence,
    ATV_marshal, UTF8String_marshal. version.
Qed.
Local Hint Resolve version_statusInfo version_template : version.
Lemma version_privKey k : version_ok (popoPrivKey_marshal k).
Proof. unfold popoPrivKey_marshal, envelopedData_marshalInner. version. Qed.
Local Hint Resolve version_privKey : version.
Lemma version_pop p : version_ok (proofOfPossession_marshal p).
Proof.
  unfold proofOfPossession_marshal, popoSigningKey_marshalInner,
    popoSigningKeyInput_marshalInner, AddUint8. version.
Qed.
Local Hint Resolve version_pop : version.
Lemma version_certReqMessages m : version_ok (CertReqMessages_marshal m).
Proof.
  unfold CertReqMessages_marshal, CertReqMsg_marshal, CertRequest_marshal,
    AttributeTypeAndValue_marshal. version.
Qed.
Lemma version_certRepMessage m : version_ok (CertRepMessage_marshal m).
Proof.
  unfold CertRepMessage_marshal, CertResponse_marshal, CertifiedKeyPair_marshal,
    CertOrEncCert_marshal, CMPCertificate_marshal. version.
Qed.
Lemma version_revReq m : version_ok (RevReqContent_marshal m).
Proof. unfold RevReqContent_marshal, RevDetails_marshal. version. Qed.
Lemma version_revRep m : version_ok (RevRepContent_marshal m).
Proof. unfold RevRepContent_marshal, CertID_marshal, CRL_marshal. version. Qed.
Lemma version_certConf m : version_ok (CertConfirmContent_marshal m).
Proof. unfold CertConfirmContent_marshal, CertStatus_marshal. version. Qed.
Lemma version_pollReq m : version_ok (PollReqContent_marshal m).
Proof. unfold PollReqContent_marshal, pollReq_item_marshal. version. Qed.
Lemma version_pollRep m : version_ok (PollRepContent_marshal m).
Proof. unfold PollRepContent_marshal, PollRepItem_marshal. version. Qed.
Lemma version_errorMsg m : version_ok (ErrorMsgContent_marshal m).
Proof. unfold ErrorMsgContent_marshal. version. Qed.
Local Hint Resolve version_certReqMessages version_certRepMessage version_revReq version_revRep
  version_certConf version_pollReq version_pollRep version_errorMsg : version.

Lemma PKIBody_version b : version_ok (PKIBody_marshal b).
Proof.
  destruct b as [t raw d e c]. cbn [PKIBody_marshal]. unfold b_panic. case_goal; [version|].
  apply version_asn1. repeat match goal with |- version_ok (if ?c then _ else _) =>
    destruct c; [version|] end; version.
Qed.

(** The version of a marshalled message: 3 when the body has the 2021 syntax,
    otherwise that of the header, but at least 2. *)
Lemma required_pvno_cases h b :
  required_pvno h (PKIBody_marshal b) = PVNO3
  \/ (required_pvno h (PKIBody_marshal b) = Z.max (PVNO h) PVNO2
      /\ bpvno (PKIBody_marshal b) = None).
Proof.
  unfold required_pvno, initial_pvno. destruct (PKIBody_version b) as [-> | ->]; [right|by left].
  split; [|done]. destruct (Z.ltb_spec PVNO2 (PVNO h)); lia.
Qed.

Lemma required_pvno_int64 h b :
  int64_ok (PVNO h) = true -> int64_ok (required_pvno h (PKIBody_marshal b)) = true.
Proof.
  intros H. destruct (required_pvno_cases h b) as [-> | [-> _]]; [done|].
  unfold int64_ok, PVNO2 in *. lia.
Qed.

(** ** Message round trip *)

Lemma PKIBody_unmarshal_tlv t c e :
  tlv t c = Some e -> ContextSpecific t = t ->
  PKIBody_unmarshal e = Ok (mkPKIBody t e false None None).
Proof.
  intros H Ht. unfold PKIBody_unmarshal. rewrite <- (app_nil_r e) at 1.
  rewrite (ReadAnyASN1_tlv _ _ _ [] H). cbn [of_option res_bind]. by rewrite Ht, Z.eqb_refl.
Qed.

Lemma dirty_body_tlv b e :
  dirty b = true -> bout (PKIBody_marshal b) = Ok e -> exists c, tlv (Type_ b) c = Some e.
Proof.
  destruct b as [t raw d er c]. simpl. intros ->. rewrite andb_false_r.
  intros (ct & _ & H)%bout_AddASN1. eauto.
Qed.

(** The header a message is sent with. *)
Definition sent_header (h : PKIHeader) (b : PKIBody) : PKIHeader :=
  set_PVNO (required_pvno h (PKIBody_marshal b)) h.

Lemma sent_header_wf s r h b : PKIHeader_wf s r h -> PKIHeader_wf s r (sent_header h b).
Proof.
  intros (Hv & H). pose proof (required_pvno_int64 h b Hv). by destruct h.
Qed.

Lemma PKIHeader_element h e : bout (PKIHeader_marshal h) = Ok e -> element e.
Proof. intros (c & _ & H)%bout_AddASN1. by exists SEQUENCE, c. Qed.

Lemma MarshalBinary_rt s r m b m' e :
  Body m = Some b -> PKIHeader_wf s r (Header m) -> dirty b = true -> ContextSpecific (Type_ b) = Type_ b ->
  Forall CMPCertificate_wf (ExtraCerts m) -> MarshalBinary m = (m', Ok e) ->
  exists rawH rawB,
    bout (PKIBody_marshal b) = Ok rawB /\ bout (PKIHeader_marshal (Header m')) = Ok rawH
    /\ m' = set_Header (sent_header (Header m) b) m
    /\ ParsePKIMessage e =
       Ok (mkPKIMessage (received_header s r (Header m')) (Some (mkPKIBody (Type_ b) rawB false None None))
             (Protection m) (ExtraCerts m) rawH rawB).
Proof.
  intros Hb Hh Hd Ht Hc H. unfold MarshalBinary in H. rewrite Hb in H.
  unfold marshal_parts, Bytes in H. destruct (bout (PKIBody_marshal b)) as [rawB|] eqn:EB; [|done].
  change (set_PVNO (required_pvno (Header m) (PKIBody_marshal b)) (Header m))
    with (sent_header (Header m) b) in H.
  injection H as <- He. assert (Hm : Header (set_Header (sent_header (Header m) b) m)
    = sent_header (Header m) b) by by destruct m. rewrite Hm.
  rt_inv. exists e0, rawB. split; [done|]. split; [done|]. split; [done|].
  destruct (dirty_body_tlv b rawB Hd EB) as (ct & Hct).
  eapply ParsePKIMessage_assembled; [| | | | | |exact He]; try done.
  - by eapply PKIHeader_element.
  - by exists (Type_ b), ct.
  - apply PKIHeader_rt; [by apply sent_header_wf | done].
  - by eapply PKIBody_unmarshal_tlv.
Qed.

(** ** Getters *)

Section Getter.
Context {A : Type} (want : BodyType) (name : string) (m : A -> Builder) (u : reader A) (zero : A)
  (inj : A -> BodyContent) (proj : BodyContent -> option A).
Hypothesis proj_inj : forall x, proj (inj x) = Some x.

(** The cache of a getter changes no answer. *)
Lemma getter_again b :
  snd (getter want name m u zero inj proj (fst (getter want name m u zero inj proj b)))
  = snd (getter want name m u zero inj proj b).
Proof.
  unfold getter at 2 3. destruct (Type_ b =? want) eqn:Et; cbn [negb];
    [|unfold getter; cbn [fst]; by rewrite Et].
  destruct (body_err b) eqn:Ee; [unfold getter; cbn [fst]; by rewrite Et, Ee|].
  destruct (content b ≫= proj) eqn:Ec; [unfold getter; cbn [fst]; by rewrite Et, Ee, Ec|].
  destruct b as [t raw d e c]. simpl in Et, Ee. subst e. unfold unmarshalBodyContent.
  assert (Hfin : forall (raw' : bytes) (r : result A),
    snd (getter want name m u zero inj proj
      (fst (match r with
            | Ok v => (mkPKIBody t raw' d None (Some (inj v)), Ok v)
            | Err err => (mkPKIBody t raw' d (Some err) c, Err err) end))) = r).
  { intros raw' [v|err]; cbn [fst]; unfold getter; cbn [Type_ body_err content]; rewrite Et;
      cbn [negb]; [|done]. simpl. by rewrite proj_inj. }
  destruct (nonempty raw); [rewrite Hfin; by case_goal|].
  destruct (Bytes (m zero)); [rewrite Hfin; by case_goal|]. cbn [fst snd].
  unfold getter. cbn [Type_ body_err content]. by rewrite Et.
Qed.

(** A received body gives back the content it was built from. *)
Lemma getter_received t c e x :
  t = want -> tlv t c = Some e -> u c = Ok (x, []) ->
  snd (getter want name m u zero inj proj (mkPKIBody t e false None None)) = Ok x.
Proof.
  intros -> Ht Hu. unfold getter. simpl. rewrite Z.eqb_refl. cbn [negb].
  destruct (tlv_starts _ _ _ Ht) as [e' He]. rewrite He. simpl. rewrite <- He.
  rewrite <- (app_nil_r e), (ReadASN1_tlv _ _ _ [] Ht). simpl. by rewrite Hu.
Qed.
End Getter.

(** The constructor for a content, and the getter for a body of its type. *)
Definition body_of (c : BodyContent) : PKIBody :=
  match c with
  | C_ir m => NewIRBody m | C_ip m => NewIPBody m | C_cr m => NewCRBody m
  | C_cp m => NewCPBody m | C_p10cr csr => NewP10CRBody csr | C_kur m => NewKURBody m
  | C_kup m => NewKUPBody m | C_rr m => NewRRBody m | C_rp m => NewRPBody m
  | C_certConf m => NewCertConfBody m | C_pkiConf => NewPKIConfBody
  | C_pollReq m => NewPollReqBody m | C_pollRep m => NewPollRepBody m
  | C_error m => NewErrorBody m | C_nested msgs => NewNestedBody msgs
  end.

Definition get_body (b : PKIBody) : result BodyContent :=
  let t := Type_ b in
  if t =? BodyTypeIR then res_map C_ir (snd (IR b))
  else if t =? BodyTypeIP then res_map C_ip (snd (IP b))
  else if t =? BodyTypeCR then res_map C_cr (snd (CR b))
  else if t =? BodyTypeCP then res_map C_cp (snd (CP b))
  else if t =? BodyTypeP10CR then res_map C_p10cr (snd (P10CR b))
  else if t =? BodyTypeKUR then res_map C_kur (snd (KUR b))
  else if t =? BodyTypeKUP then res_map C_kup (snd (KUP b))
  else if t =? BodyTypeRR then res_map C_rr (snd (RR b))
  else if t =? BodyTypeRP then res_map C_rp (snd (RP b))
  else if t =? BodyTypeCertConf then res_map C_certConf (snd (CertConf b))
  else if t =? BodyTypePKIConf then res_map (fun _ => C_pkiConf) (snd (PKIConf b))
  else if t =? BodyTypePollReq then res_map C_pollReq (snd (PollReq b))
  else if t =? BodyTypePollRep then res_map C_pollRep (snd (PollRep b))
  else if t =? BodyTypeError then res_map C_error (snd (Error_get b))
  else if t =? BodyTypeNested then res_map C_nested (snd (Nested b))
  else Err (parse_error ("unsupported body type " +:+ BodyType_String t)).

(** The contents the wire can carry. A forwarded message is one the parser made,
    with a protection. *)
Definition content_wf (c : BodyContent) : Prop :=
  match c with
  | C_ir m | C_cr m | C_kur m => Forall CertReqMsg_wf m
  | C_ip m | C_cp m | C_kup m => CertRepMessage_wf m
  | C_p10cr csr => x509_ParseCertificateRequest (csr_Raw csr) = Some csr
  | C_rr m => Forall RevDetails_wf m
  | C_rp m => RevRepContent_wf m
  | C_certConf m => Forall CertStatus_wf m
  | C_pkiConf => True
  | C_pollReq m => PollReqContent_wf m
  | C_pollRep m => Forall PollRepItem_wf m
  | C_error m => ErrorMsgContent_wf m
  | C_nested msgs =>
      Forall (fun om => exists m der, om = Some m /\ ParsePKIMessage der = Ok m
                                      /\ nonempty (Protection m) = true) msgs
  end.

Lemma read_end {A} (m : A -> Builder) (u : reader A) wf x c (R : Roundtrips m u wf) :
  wf x -> bout (m x) = Ok c -> u c = Ok (x, []).
Proof. intros Hwf H. rewrite <- (app_nil_r c). by apply (rt_spec x c [] Hwf H). Qed.

Lemma read_nested_list msgs e :
  content_wf (C_nested msgs) ->
  bout (b_list (fun om => match om with
    | None => SetError (parse_error "nil message in nested body")
    | Some m => match marshalForNesting m with Ok der => AddBytes der | Err e => SetError e end
    end) msgs) = Ok e ->
  exists ms, msgs = Some <$> ms /\ read_list nested_element e = Ok ms.
Proof.
  intros Hwf He.
  assert (Hms : exists ms, msgs = Some <$> ms /\
    Forall (fun m => (exists der, ParsePKIMessage der = Ok m) /\ nonempty (Protection m) = true) ms).
  { clear He. induction Hwf as [|om msgs (m & der & -> & Hp & Hn) _ (ms & -> & Hms)].
    - by exists [].
    - exists (m :: ms). split; [done|]. constructor; [|done]. split; [by exists der | done]. }
  destruct Hms as (ms & -> & Hms). exists ms. split; [done|].
  set (enc := fun m => match marshalForNesting m with Ok der => AddBytes der | Err e => SetError e end).
  assert (He' : bout (b_list enc ms) = Ok e).
  { rewrite <- He. clear. f_equal. unfold b_list. induction ms; simpl; [done|]. by f_equal. }
  eapply (read_list_roundtrip enc nested_element); [| |exact Hms|exact He'].
  - intros m em r [Hp Hn] H. unfold enc in H. destruct (marshalForNesting m) eqn:E; [|done].
    apply bout_AddBytes in H as ->. by apply nested_element_rt.
  - intros m em [Hp Hn] H. unfold enc in H. destruct (marshalForNesting m) eqn:E; [|done].
    apply bout_AddBytes in H as ->. by apply (nested_element_rt m a []).
Qed.

Lemma NewNestedBody_rt msgs e :
  content_wf (C_nested msgs) -> bout (PKIBody_marshal (NewNestedBody msgs)) = Ok e ->
  snd (Nested (mkPKIBody BodyTypeNested e false None None)) = Ok msgs.
Proof.
  intros Hwf H. destruct msgs as [|om msgs].
  { apply bout_AddASN1 in H as (? & H & _). discriminate H. }
  unfold NewNestedBody, new_body in H. cbn [PKIBody_marshal nonempty andb] in H.
  tag_eqb. apply bout_AddASN1 in H as (c & Hc & H).
  repeat match type of Hc with context [?a =? ?b] =>
    let v := eval vm_compute in (a =? b) in change (a =? b) with v in Hc end.
  cbv iota in Hc. apply bout_AddASN1 in Hc as (s & Hs & Hc).
  destruct (read_nested_list (om :: msgs) s Hwf Hs) as (ms & Hms & Hr).
  unfold Nested. cbn [Type_]. rewrite Z.eqb_refl. cbn [negb].
  unfold parseNestedMessages. rewrite <- (app_nil_r e), (ReadASN1_tlv _ _ _ [] H).
  cbn [of_option res_bind]. rewrite <- (app_nil_r c), (ReadASN1_tlv _ _ _ [] Hc).
  cbn [of_option res_bind Empty nonempty negb]. rewrite Hr. cbn [res_bind].
  destruct ms as [|m ms]; [done|]. cbn [nonempty negb]. by rewrite Hms.
Qed.

(** Decides the comparisons of body types in [H]. *)
Local Ltac tags_in H :=
  repeat match type of H with context [?a =? ?b] =>
    let v := eval vm_compute in (a =? b) in change (a =? b) with v in H
  end; cbv iota in H.

(** Every body the package builds is received with the content it was built with. *)
Lemma body_rt c e :
  content_wf c -> bout (PKIBody_marshal (body_of c)) = Ok e ->
  get_body (mkPKIBody (Type_ (body_of c)) e false None None) = Ok c.
Proof.
  intros Hwf H. destruct (decide (Type_ (body_of c) = BodyTypeNested)) as [E|E].
  { destruct c; try discriminate E. unfold get_body. cbn [Type_ body_of]. tag_eqb. cbv iota.
    unfold body_of, NewNestedBody, new_body. cbn [Type_].
    by rewrite (NewNestedBody_rt msgs e Hwf H). }
  destruct c; [..|done]; clear E;
    try (unfold body_of, get_body;
         cbn [Type_ NewIRBody NewIPBody NewCRBody NewCPBody NewKURBody NewKUPBody NewRRBody
              NewRPBody NewCertConfBody NewPKIConfBody NewPollReqBody NewPollRepBody
              NewErrorBody NewP10CRBody NewNestedBody new_body]; tag_eqb; cbv iota;
         apply bout_AddASN1 in H as (ct & Hc & H); tags_in Hc;
         unfold IR, IP, CR, CP, KUR, KUP, RR, RP, CertConf, PKIConf, PollReq, PollRep, Error_get;
         first [ erewrite getter_received; [done | reflexivity | exact H | eapply read_end; [|done|done]; apply _ ]
               | idtac ]).
  - apply bout_AddBytes in Hc as ->. unfold P10CR. cbn [Type_]. rewrite Z.eqb_refl. cbn [negb].
    destruct (tlv_starts _ _ _ H) as [e' He]. rewrite He at 1. cbn [nonempty negb].
    rewrite <- (app_nil_r e), (ReadASN1_tlv _ _ _ [] H). simpl. simpl in Hwf. by rewrite Hwf.
  - erewrite getter_received;
      [done | reflexivity | exact H | apply (read_end _ _ _ tt ct PKIConfirmContent_rt I Hc)].
Qed.

End Facts.
