(* ===== verification/Totality.v ===== *)
(** * Decoding completes

    Every decoding loop of the source takes at least one octet per pass, so the
    fuel of the model, the length of the input, is never exhausted: no decoder
    gives [OutOfFuel], nor an error that wraps it, and none panics. *)
From S2P Require Import Prelude Failure Errors Asn1 Asn1Facts Types TypesFacts StatusInfo.
From S2P Require Import Enrollment Crmf CrmfFacts X509 RevocationMsg Message MessageFacts.

(** [Total u]: the decoder [u] never runs out of fuel nor panics, not even in a wrapped
    call. *)
Class Total {A} (u : bytes -> result A) : Prop := total_spec : forall s, completes (u s).

(** [Consumes u]: a successful read takes at least one octet. *)
Class Consumes {A} (u : reader A) : Prop := consumes_spec : consumes u.

Lemma bind_total_eq {A B} (r : result A) (k : A -> result B) :
  completes r -> (forall a, r = Ok a -> completes (k a)) -> completes (res_bind r k).
Proof. destruct r as [a|e]; simpl; auto. Qed.
Lemma bind_total {A B} (r : result A) (k : A -> result B) :
  completes r -> (forall a, completes (k a)) -> completes (res_bind r k).
Proof. intros Hr Hk. by apply bind_total_eq. Qed.

Lemma of_option_total {A} e (o : option A) : disorderly e = false -> completes (of_option e o).
Proof. by destruct o. Qed.

Lemma wrap_parse_total {A} what (r : result A) : completes r -> completes (wrap_parse what r).
Proof. by destruct r. Qed.

(** The panic of [wrapSequence] cannot happen on octets read from an element:
    what had a length under one tag has one under another. *)
Section Wrap.
Context {CB : Cryptobyte} {L : CryptobyteLaws CB}.

Lemma wrapSequence_of_element s t e c r : read_any s = Some (t, e, c, r) -> completes (wrapSequence c).
Proof.
  intros E%read_any_tlv. destruct (tlv_retag _ SEQUENCE _ _ E) as (d & Hd); [done|].
  by rewrite (wrapSequence_tlv _ _ Hd).
Qed.
Lemma wrapSequence_read (e : error) t s c r :
  of_option e (ReadASN1 t s) = Ok (c, r) -> completes (wrapSequence c).
Proof.
  unfold ReadASN1. destruct (read_any s) as [[[[t' e'] c'] r']|] eqn:E; simpl; [|done].
  destruct (t' =? t); [|done]. intros [= <- <-]. by eapply wrapSequence_of_element.
Qed.
Lemma wrapSequence_readAny (e : error) s c t r :
  of_option e (ReadAnyASN1 s) = Ok (c, t, r) -> completes (wrapSequence c).
Proof.
  unfold ReadAnyASN1. destruct (read_any s) as [[[[t' e'] c'] r']|] eqn:E; simpl; [|done].
  intros [= <- <- <-]. by eapply wrapSequence_of_element.
Qed.
End Wrap.

Ltac total :=
  repeat first
    [ progress intros | done
    | match goal with
      | |- completes (res_bind _ _) => apply bind_total_eq
      | |- completes (of_option _ _) => apply of_option_total
      | |- completes (wrap_parse _ _) => apply wrap_parse_total
      | |- completes (wrapSequence _) => first [ eapply wrapSequence_read; eassumption | eapply wrapSequence_readAny; eassumption ]
      | |- completes (?u ?s) => apply (total_spec (u := u))
      | p : (_ * _)%type |- _ => destruct p
      end
    | case_goal ].

(** Shows that a reader leaves less input than it got. *)
Ltac consumes_by u :=
  let s := fresh "s" in let x := fresh "x" in let r := fresh "r" in let H := fresh "H" in
  intros s x r H; unfold u in H;
  repeat (progress split_res || (case_in H; try discriminate H));
  first [ by eapply ReadASN1_shorter | by eapply ReadAnyASN1Element_shorter ].

Section Total.
Context {CB : Cryptobyte} {L : CryptobyteLaws CB} {GN : GoNames} {GX : GoX509}.

#[export] Instance total_read_list {A} (u : reader A) : Consumes u -> Total u -> Total (read_list u).
Proof. intros Hc Hu s. by apply read_list_total. Qed.

(** ** Shared structures *)

#[export] Instance total_utf8 : Total UTF8String_unmarshal.
Proof. unfold Total, UTF8String_unmarshal. total. Qed.
#[export] Instance consumes_utf8 : Consumes UTF8String_unmarshal.
Proof. consumes_by @UTF8String_unmarshal. Qed.
#[export] Instance total_freeText : Total PKIFreeText_unmarshal.
Proof.
  unfold Total, PKIFreeText_unmarshal. total.
Qed.
#[export] Instance total_itv : Total InfoTypeAndValue_unmarshal.
Proof. unfold Total, InfoTypeAndValue_unmarshal. total. Qed.
#[export] Instance consumes_itv : Consumes InfoTypeAndValue_unmarshal.
Proof. consumes_by @InfoTypeAndValue_unmarshal. Qed.
#[export] Instance total_algorithm_inner : Total AlgorithmIdentifier_unmarshalInner.
Proof. unfold Total, AlgorithmIdentifier_unmarshalInner. total. Qed.
#[export] Instance total_algorithm : Total AlgorithmIdentifier_unmarshal.
Proof. unfold Total, AlgorithmIdentifier_unmarshal. total. Qed.
#[export] Instance total_certificate : Total CMPCertificate_unmarshal.
Proof. unfold Total, CMPCertificate_unmarshal. total. Qed.
#[export] Instance consumes_certificate : Consumes CMPCertificate_unmarshal.
Proof. consumes_by @CMPCertificate_unmarshal. Qed.
#[export] Instance total_generalName : Total GeneralName_unmarshal.
Proof. unfold Total, GeneralName_unmarshal, parseRDNSequence. total. Qed.
#[export] Instance total_encryptedKey : Total encryptedKey_unmarshal.
Proof.
  unfold Total, encryptedKey_unmarshal, envelopedData_unmarshalInner, encryptedValue_unmarshal.
  total.
Qed.
#[export] Instance total_implicitInt64 : Total unmarshalImplicitInt64.
Proof. unfold Total, unmarshalImplicitInt64, Bytes, AddASN1. intros s. rewrite bout_mk. total. Qed.
#[export] Instance total_implicitBigInt : Total unmarshalImplicitBigInt.
Proof. unfold Total, unmarshalImplicitBigInt, Bytes, AddASN1. intros s. rewrite bout_mk. total. Qed.

(** ** Status, enrollment and confirmation *)

#[export] Instance total_statusInfo : Total PKIStatusInfo_unmarshal.
Proof. unfold Total, PKIStatusInfo_unmarshal, failInfo_unmarshal. total. Qed.
#[export] Instance consumes_statusInfo : Consumes PKIStatusInfo_unmarshal.
Proof.
  intros s x r H. unfold PKIStatusInfo_unmarshal in H. split_res. by eapply ReadASN1_shorter.
Qed.
#[export] Instance total_errorMsg : Total ErrorMsgContent_unmarshal.
Proof. unfold Total, ErrorMsgContent_unmarshal. total. Qed.
#[export] Instance total_certOrEncCert : Total CertOrEncCert_unmarshal.
Proof. unfold Total, CertOrEncCert_unmarshal. total. Qed.
#[export] Instance total_keyPair : Total CertifiedKeyPair_unmarshal.
Proof. unfold Total, CertifiedKeyPair_unmarshal. total. Qed.
#[export] Instance total_certResponse : Total CertResponse_unmarshal.
Proof.
  unfold Total, CertResponse_unmarshal. total.
Qed.
#[export] Instance consumes_certResponse : Consumes CertResponse_unmarshal.
Proof.
  intros s x r H. unfold CertResponse_unmarshal in H. split_res. by eapply ReadASN1_shorter.
Qed.
#[export] Instance total_certRepMessage : Total CertRepMessage_unmarshal.
Proof.
  unfold Total, CertRepMessage_unmarshal. total.
Qed.
#[export] Instance total_certStatus : Total CertStatus_unmarshal.
Proof. unfold Total, CertStatus_unmarshal. total. Qed.
#[export] Instance consumes_certStatus : Consumes CertStatus_unmarshal.
Proof.
  intros s x r H. unfold CertStatus_unmarshal in H. split_res.
  case_in H; [done|]. split_res. by eapply ReadASN1_shorter.
Qed.
#[export] Instance total_certConf : Total CertConfirmContent_unmarshal.
Proof.
  unfold Total, CertConfirmContent_unmarshal. total.
Qed.
#[export] Instance total_pkiConf : Total PKIConfirmContent_unmarshal.
Proof. unfold Total, PKIConfirmContent_unmarshal. total. Qed.
#[export] Instance total_pollReq_item : Total pollReq_item_unmarshal.
Proof. unfold Total, pollReq_item_unmarshal. total. Qed.
#[export] Instance consumes_pollReq_item : Consumes pollReq_item_unmarshal.
Proof. consumes_by @pollReq_item_unmarshal. Qed.
#[export] Instance total_pollReq : Total PollReqContent_unmarshal.
Proof.
  unfold Total, PollReqContent_unmarshal. total.
Qed.
#[export] Instance total_pollRep_item : Total PollRepItem_unmarshal.
Proof. unfold Total, PollRepItem_unmarshal. total. Qed.
#[export] Instance consumes_pollRep_item : Consumes PollRepItem_unmarshal.
Proof.
  intros s x r H. unfold PollRepItem_unmarshal in H. split_res.
  case_in H; split_res; by eapply ReadASN1_shorter.
Qed.
#[export] Instance total_pollRep : Total PollRepContent_unmarshal.
Proof.
  unfold Total, PollRepContent_unmarshal. total.
Qed.

(** ** Certificate requests *)

#[export] Instance total_control : Total AttributeTypeAndValue_unmarshal.
Proof. unfold Total, AttributeTypeAndValue_unmarshal. total. Qed.
#[export] Instance consumes_control : Consumes AttributeTypeAndValue_unmarshal.
Proof.
  intros s x r H. unfold AttributeTypeAndValue_unmarshal in H. split_res.
  case_in H; [done|]. split_res. by eapply ReadASN1_shorter.
Qed.
Lemma total_template_field t sub tag : completes (CertTemplate_field t sub tag).
Proof. destruct t. unfold CertTemplate_field, parseRDNSequence. total. Qed.
#[export] Instance total_template : Total CertTemplate_unmarshal.
Proof.
  unfold Total, CertTemplate_unmarshal. total. apply read_fold_total.
  - apply CertTemplate_step_consumes.
  - intros. unfold CertTemplate_step. total. apply total_template_field.
Qed.
#[export] Instance total_certRequest : Total CertRequest_unmarshal.
Proof.
  unfold Total, CertRequest_unmarshal. total.
Qed.
#[export] Instance total_privKey : Total popoPrivKey_unmarshal.
Proof. unfold Total, popoPrivKey_unmarshal, envelopedData_unmarshalInner. total. Qed.
#[export] Instance total_pop : Total proofOfPossession_unmarshal.
Proof.
  unfold Total, proofOfPossession_unmarshal, popoSigningKey_unmarshalInner,
    popoSigningKeyInput_unmarshalInner. total.
Qed.
#[export] Instance total_certReqMsg : Total CertReqMsg_unmarshal.
Proof.
  unfold Total, CertReqMsg_unmarshal. total.
Qed.
#[export] Instance consumes_certReqMsg : Consumes CertReqMsg_unmarshal.
Proof.
  intros s x r H. unfold CertReqMsg_unmarshal in H. split_res.
  case_in H; split_res; by eapply ReadASN1_shorter.
Qed.
#[export] Instance total_certReqMessages : Total CertReqMessages_unmarshal.
Proof.
  unfold Total, CertReqMessages_unmarshal. total.
Qed.

(** ** Revocation *)

#[export] Instance total_revDetails : Total RevDetails_unmarshal.
Proof. unfold Total, RevDetails_unmarshal. total. Qed.
#[export] Instance consumes_revDetails : Consumes RevDetails_unmarshal.
Proof.
  intros s x r H. unfold RevDetails_unmarshal in H. split_res.
  repeat (case_in H; try done); split_res; by eapply ReadASN1_shorter.
Qed.
#[export] Instance total_revReq : Total RevReqContent_unmarshal.
Proof.
  unfold Total, RevReqContent_unmarshal. total.
Qed.
#[export] Instance total_certID : Total CertID_unmarshal.
Proof. unfold Total, CertID_unmarshal. total. Qed.
#[export] Instance consumes_certID : Consumes CertID_unmarshal.
Proof.
  intros s x r H. unfold CertID_unmarshal in H. split_res.
  case_in H; [done|]. split_res. by eapply ReadASN1_shorter.
Qed.
Lemma ReadASN1Element_shorter t s e r :
  ReadASN1Element t s = Some (e, r) -> (length r < length s)%nat.
Proof.
  unfold ReadASN1Element. destruct (read_any s) as [[[[t' e'] c'] r']|] eqn:E; simpl; [|done].
  destruct (t' =? t); intros [= <- <-]. by eapply read_any_shorter.
Qed.
#[export] Instance consumes_crl : Consumes CRL_unmarshal.
Proof. intros s x r H. unfold CRL_unmarshal in H. split_res. by eapply ReadASN1Element_shorter. Qed.
#[export] Instance total_crl : Total CRL_unmarshal.
Proof. unfold Total, CRL_unmarshal. total. Qed.
#[export] Instance total_tagged {A} n what (u : reader A) :
  Consumes u -> Total u -> Total (read_tagged_sequence n what u).
Proof. intros Hc Hu. unfold Total, read_tagged_sequence. total. Qed.
#[export] Instance total_revRep : Total RevRepContent_unmarshal.
Proof.
  unfold Total, RevRepContent_unmarshal. total.
Qed.

(** ** Messages *)

#[export] Instance total_header : Total PKIHeader_unmarshal.
Proof.
  unfold Total, PKIHeader_unmarshal, read_messageTime, read_protectionAlg,
    readOptionalOctetString, read_freeText, unmarshalGeneralInfo.
  total.
Qed.
#[export] Instance total_message : Total ParsePKIMessage.
Proof.
  unfold Total, ParsePKIMessage, PKIBody_unmarshal, read_protection, read_extraCerts.
  total.
Qed.
#[export] Instance consumes_nested : Consumes nested_element.
Proof.
  intros s x r H. unfold nested_element in H. split_res. by eapply ReadASN1Element_shorter.
Qed.
#[export] Instance total_nested_element : Total nested_element.
Proof. unfold Total, nested_element. total. Qed.
#[export] Instance total_nested : Total parseNestedMessages.
Proof.
  unfold Total, parseNestedMessages. total.
Qed.

(** ** Getters *)

(** A body as the parser makes it: with its octets, and nothing decoded yet. *)
Record received (b : PKIBody) : Prop := {
  rcv_err : body_err b = None;
  rcv_raw : nonempty (body_Raw b) = true;
  rcv_content : content b = None
}.

Lemma parsed_received der m :
  ParsePKIMessage der = Ok m -> exists b, Body m = Some b /\ received b.
Proof.
  intros Hp. destruct (ParsePKIMessage_inv _ _ Hp) as (b & Hb & _ & Hrb & _ & Hu & _).
  exists b. split; [done|]. unfold PKIBody_unmarshal in Hu. split_res.
  case_in Hu; [done|]. injection Hu as <-. split; [done| |done]. by apply element_nonempty.
Qed.

Lemma total_getter {A} want name (m : A -> Builder) (u : reader A) zero inj proj b :
  Total u -> received b -> completes (snd (getter want name m u zero inj proj b)).
Proof.
  intros Hu [He Hr _]. unfold getter. case_goal; [done|]. rewrite He. case_goal; [done|].
  destruct b as [t raw d e c]. unfold unmarshalBodyContent. simpl in Hr. rewrite Hr.
  assert (Hf : completes (let? (sub, _) := of_option (parse_error
     ("invalid body content for type " +:+ BodyType_String t)) (ReadASN1 t raw) in
     let? (v, _) := u sub in Ok v)) by (intros; total).
  case_goal; [done|]. cbn [snd]. congruence.
Qed.

Lemma total_get_P10CR b : received b -> completes (snd (P10CR b)).
Proof.
  intros [He Hr _]. destruct b as [t raw d e c]. simpl in He, Hr. subst e. unfold P10CR. rewrite Hr.
  case_goal; [done|].
  assert (Hf : completes (let? (sub, _) := of_option (parse_error "invalid p10cr body")
                               (ReadASN1 BodyTypeP10CR raw) in
            of_option x509_error (x509_ParseCertificateRequest sub))) by total.
  repeat (case_goal; try done); cbn [snd]; congruence.
Qed.

Lemma total_get_Nested b : received b -> completes (snd (Nested b)).
Proof.
  intros [He _ _]. destruct b as [t raw d e c]. simpl in He. subst e. unfold Nested. case_goal; [done|].
  pose proof (total_nested raw). repeat (case_goal; try done); cbn [snd]; congruence.
Qed.

End Total.
