(* ===== verification/TypedBodies.v ===== *)
(** * What the decoder lets through

    The contents a getter gives of a received body are well formed: every integer is
    in its range, every choice has exactly one alternative, every element kept as
    octets is an element. *)
From S2P Require Import Prelude Failure Errors Asn1 Asn1Facts Types TypesFacts StatusInfo Enrollment.
From S2P Require Import EnrollmentFacts Crmf CrmfFacts X509 RevocationMsg RevocationMsgFacts Message.
From S2P Require Import MessageFacts BodyFacts Totality.

(** [Typed u P]: what [u] reads satisfies [P]. *)
Class Typed {A} (u : reader A) (P : A -> Prop) : Prop :=
  typed_spec : forall s x r, u s = Ok (x, r) -> P x.

(** Splits the run of a reader into the reads it made. *)
Ltac reads :=
  repeat first
    [ progress split_res
    | match goal with
      | H : (if ?c then _ else _) = Ok _ |- _ => destruct c; try discriminate H
      end ].

Create HintDb typed.
#[export] Hint Extern 1 => match goal with
  | H : ?u ?s = Ok (?x, ?r) |- ?P ?x => exact (typed_spec (u := u) (P := P) s x r H)
  end : typed.

Ltac typed := simpl; first [ solve [eauto with typed] | done | constructor; typed ].

Section Typed.
Context {CB : Cryptobyte} {L : CryptobyteLaws CB} {GN : GoNames} {GX : GoX509}.

Lemma ReadASN1Int64_ok s n r : ReadASN1Int64 s = Some (n, r) -> int64_ok n = true.
Proof.
  unfold ReadASN1Int64. destruct (ReadASN1BigInt s) as [[m r']|]; [|done]. cbn [mbind option_bind].
  destruct (int64_ok m) eqn:E; [|done]. by intros [= <- _].
Qed.
#[local] Hint Resolve ReadASN1Int64_ok : typed.

Lemma typed_list {A} (u : reader A) (P : A -> Prop) s l :
  Typed u P -> read_list u s = Ok l -> Forall P l.
Proof. intros Hu. apply read_list_Forall. intros. by eapply Hu. Qed.

Ltac typed_items := first [ constructor | eapply typed_list; [|eassumption]; apply _ ].

(** ** Bit strings of failures *)

Lemma lor_below a b n : 0 <= n -> 0 <= a < 2 ^ n -> 0 <= b < 2 ^ n -> 0 <= Z.lor a b < 2 ^ n.
Proof.
  intros Hn Ha Hb. split; [apply Z.lor_nonneg; lia|].
  replace (Z.lor a b) with (Z.lor a b mod 2 ^ n); [apply Z.mod_pos_bound; lia|].
  rewrite <- Z.land_ones by done. rewrite Z.land_lor_distr_l, !Z.land_ones by done.
  by rewrite !Z.mod_small by done.
Qed.

Lemma read_failInfo_range i bs val : 0 <= val < 2 ^ 32 -> 0 <= read_failInfo i bs val < 2 ^ 32.
Proof.
  revert i val. induction bs as [|b bs IH]; intros i val Hv; cbn [read_failInfo]; [done|].
  destruct (i <? 4)%nat; [|done]. apply IH. apply lor_below; [done..|]. apply Z.mod_pos_bound. lia.
Qed.

#[export] Instance typed_statusInfo : Typed PKIStatusInfo_unmarshal PKIStatusInfo_wf.
Proof.
  intros s x r H. unfold PKIStatusInfo_unmarshal, failInfo_unmarshal in H. reads;
    (split; [eauto with typed|]); simpl; try lia; by apply read_failInfo_range.
Qed.
#[export] Instance typed_errorMsg : Typed ErrorMsgContent_unmarshal ErrorMsgContent_wf.
Proof. intros s x r H. unfold ErrorMsgContent_unmarshal in H. reads; typed. Qed.

(** ** Shared structures *)

#[export] Instance typed_certificate : Typed CMPCertificate_unmarshal CMPCertificate_wf.
Proof. intros s x r H. by eapply CMPCertificate_unmarshal_wf. Qed.
#[export] Instance typed_algorithm : Typed AlgorithmIdentifier_unmarshal AlgorithmIdentifier_wf.
Proof. intros s x r H. by eapply AlgorithmIdentifier_unmarshal_wf. Qed.
#[export] Instance typed_algorithm_inner : Typed AlgorithmIdentifier_unmarshalInner AlgorithmIdentifier_wf.
Proof. intros s x r H. by eapply AlgorithmIdentifier_inner_wf. Qed.

Lemma single_tlv c e : tlv SEQUENCE c = Some e -> single_sequence e.
Proof.
  intros H. unfold single_sequence, isSingleElement, ReadASN1Element.
  rewrite <- (app_nil_r e), (tlv_read _ _ _ [] H). done.
Qed.

Lemma wrapSequence_single c der : wrapSequence c = Ok der -> single_sequence der.
Proof.
  unfold wrapSequence, Bytes, AddASN1. rewrite bout_mk. simpl.
  destruct (tlv SEQUENCE c) eqn:E; simpl; [|done]. intros [= <-]. by eapply single_tlv.
Qed.

Lemma envelopedData_inner_wf s ed : envelopedData_unmarshalInner s = Ok ed -> envelopedData_wf ed.
Proof.
  unfold envelopedData_unmarshalInner. intros H. reads. by eapply wrapSequence_single.
Qed.

#[export] Instance typed_encryptedKey : Typed encryptedKey_unmarshal encryptedKey_wf.
Proof.
  intros s x r H. unfold encryptedKey_unmarshal in H. case_in H; [done|].
  destruct (PeekASN1Tag (ctxc 0) s) eqn:Ep.
  - reads. by eapply envelopedData_inner_wf.
  - unfold encryptedValue_unmarshal, ReadAnyASN1Element in H.
    destruct (read_any s) as [[[[t e] c] r']|] eqn:Ea; [|done]. injection H as <- _.
    exists t, c. split; [|by eapply read_any_tlv]. intros ->.
    destruct (read_any_split _ _ _ _ _ Ea) as [-> (e' & ->)]. done.
Qed.

Lemma GeneralName_unmarshal_wf s gn r : GeneralName_unmarshal s = Ok (gn, r) -> GeneralName_wf gn.
Proof.
  intros H. destruct (GeneralName_unmarshal_inv _ _ _ H) as (t & c & Ha).
  pose proof (read_any_tlv _ _ _ _ _ Ha) as Ht. unfold GeneralName_wf, GeneralName_unmarshal in *.
  pose proof (ReadAnyASN1Element_tlv _ _ _ [] Ht) as H0. rewrite app_nil_r in H0. rewrite H0.
  unfold ReadAnyASN1Element in H. rewrite Ha in H. cbn [of_option res_bind mbind option_bind] in *.
  destruct (t =? ctxc tagDirectoryName); [|destruct (t =? ContextSpecific tagRFC822Name)].
  - reads. rewrite E. cbn [of_option res_bind]. rewrite E0. cbn [res_bind]. by rewrite H.
  - reads. rewrite E. cbn [of_option res_bind]. by rewrite H.
  - by injection H as <-.
Qed.
#[export] Instance typed_generalName : Typed GeneralName_unmarshal GeneralName_wf.
Proof. intros s x r H. by eapply GeneralName_unmarshal_wf. Qed.

(** ** Enrollment and confirmation *)

#[export] Instance typed_certOrEncCert : Typed CertOrEncCert_unmarshal CertOrEncCert_wf.
Proof. intros s x r H. unfold CertOrEncCert_unmarshal in H. reads; unfold CertOrEncCert_wf; typed. Qed.
#[export] Instance typed_keyPair : Typed CertifiedKeyPair_unmarshal CertifiedKeyPair_wf.
Proof. intros s x r H. unfold CertifiedKeyPair_unmarshal in H. reads; typed. Qed.
#[export] Instance typed_certResponse : Typed CertResponse_unmarshal CertResponse_wf.
Proof. intros s x r H. unfold CertResponse_unmarshal in H. reads; typed. Qed.
#[export] Instance typed_certRep : Typed CertRepMessage_unmarshal CertRepMessage_wf.
Proof.
  intros s x r H. unfold CertRepMessage_unmarshal in H. reads; split; simpl;
    typed_items.
Qed.
#[export] Instance typed_certStatus : Typed CertStatus_unmarshal CertStatus_wf.
Proof. intros s x r H. unfold CertStatus_unmarshal in H. reads; typed. Qed.
#[export] Instance typed_certConf : Typed CertConfirmContent_unmarshal (Forall CertStatus_wf).
Proof. intros s x r H. unfold CertConfirmContent_unmarshal in H. reads. typed_items. Qed.
#[export] Instance typed_pollReq_item : Typed pollReq_item_unmarshal (fun id => int64_ok id = true).
Proof. intros s x r H. unfold pollReq_item_unmarshal in H. reads; typed. Qed.
#[export] Instance typed_pollReq : Typed PollReqContent_unmarshal PollReqContent_wf.
Proof. intros s x r H. unfold PollReqContent_unmarshal in H. reads. typed_items. Qed.
#[export] Instance typed_pollRep_item : Typed PollRepItem_unmarshal PollRepItem_wf.
Proof. intros s x r H. unfold PollRepItem_unmarshal in H. reads; typed. Qed.
#[export] Instance typed_pollRep : Typed PollRepContent_unmarshal (Forall PollRepItem_wf).
Proof. intros s x r H. unfold PollRepContent_unmarshal in H. reads. typed_items. Qed.

(** ** Revocation *)

#[export] Instance typed_certID : Typed CertID_unmarshal CertID_wf.
Proof. intros s x r H. unfold CertID_unmarshal in H. reads; unfold CertID_wf; typed. Qed.
Lemma typed_tagged {A} n what (u : reader A) P s l r :
  Typed u P -> read_tagged_sequence n what u s = Ok (l, r) -> Forall P l.
Proof. intros Hu H. unfold read_tagged_sequence in H. reads; typed_items. Qed.
#[export] Instance typed_revRep : Typed RevRepContent_unmarshal RevRepContent_wf.
Proof.
  intros s x r H. unfold RevRepContent_unmarshal in H. reads. split; simpl; [typed_items|].
  eapply (typed_tagged 0 _ CertID_unmarshal); [apply _ | eassumption].
Qed.

(** ** Certificate requests *)

Lemma read_fold_inv {A} (P : A -> Prop) (step : A -> reader A) acc s a :
  (forall acc s' acc' r, P acc -> step acc s' = Ok (acc', r) -> P acc') -> P acc ->
  read_fold step acc s = Ok a -> P a.
Proof.
  intros Hs. unfold read_fold. generalize (length s) as fuel. intros fuel. revert acc s.
  induction fuel as [|fuel IH]; intros acc s Ha H; cbn [read_fold_fuel] in H; case_in H; try done;
    try (by injection H as <-).
  apply res_bind_ok in H as ([acc' r] & E1 & H). by eapply IH; [eapply Hs|].
Qed.

Lemma ReadASN1Element_single s e r : ReadASN1Element SEQUENCE s = Some (e, r) -> single_sequence e.
Proof.
  unfold ReadASN1Element. destruct (read_any s) as [[[[t e'] c] r']|] eqn:Ea; [|done].
  cbn [mbind option_bind]. destruct (Z.eqb_spec t SEQUENCE) as [->|]; [|done]. intros [= <- _].
  by eapply single_tlv, read_any_tlv.
Qed.


(** A template as it is read: its fields are SEQUENCEs where they are there at all. *)
Definition template_received (t : CertTemplate) : Prop :=
  tmpl_Subject t = mkGeneralName (DirectoryName (tmpl_Subject t)) "" [] /\
  Forall (fun der => der = [] \/ single_sequence der) [tmpl_Issuer t; tmpl_PublicKey t; tmpl_Extensions t].

Lemma CertTemplate_field_received t sub tag t' :
  template_received t -> CertTemplate_field t sub tag = Ok t' -> template_received t'.
Proof.
  destruct t as [serial issuer [rdn mail raw] pub exts]. unfold CertTemplate_field, template_received.
  intros [Hs Hall] H. simpl in Hs. injection Hs as -> ->. rewrite !Forall_cons in *.
  destruct Hall as (Hi & Hp & He & _). simpl in *. reads; simpl; (split; [done|]); split_and!; try done;
    try (right; first [by eapply wrapSequence_single | by eapply ReadASN1Element_single]); by constructor.
Qed.
#[export] Instance typed_template : Typed CertTemplate_unmarshal template_received.
Proof.
  intros s x r H. unfold CertTemplate_unmarshal in H. reads.
  eapply (read_fold_inv template_received CertTemplate_step); [| |eassumption].
  - intros acc s' acc' r' Ha Hst. unfold CertTemplate_step in Hst. reads.
    by eapply CertTemplate_field_received.
  - split; [done|]. by repeat constructor.
Qed.

#[export] Instance typed_control : Typed AttributeTypeAndValue_unmarshal control_wf.
Proof.
  intros s x r H. unfold AttributeTypeAndValue_unmarshal in H. reads. unfold control_wf. simpl.
  split; [by eapply ReadASN1ObjectIdentifier_range|]. by eapply ReadAnyASN1Element_inv.
Qed.

(** A request as it is read: what its proof of possession signs is kept whole. *)
Definition request_received (q : CertRequest) : Prop :=
  int64_ok (cr_req_CertReqID q) = true /\ template_received (cr_CertTemplate q) /\
  Forall control_wf (Controls q) /\ single_sequence (cr_Raw q).
#[export] Instance typed_request : Typed CertRequest_unmarshal request_received.
Proof.
  intros s x r H. unfold CertRequest_unmarshal in H. reads;
    (split; [simpl; eauto with typed|]); (split; [simpl; eauto with typed|]); simpl;
    (split; [typed_items|]); by eapply ReadASN1Element_single.
Qed.

#[export] Instance typed_privKey : Typed popoPrivKey_unmarshal popoPrivKey_wf.
Proof.
  intros s x r H. unfold popoPrivKey_unmarshal, unmarshalImplicitInt64 in H. reads; unfold popoPrivKey_wf; simpl.
  - eauto with typed.
  - by eapply envelopedData_inner_wf.
Qed.
#[export] Instance typed_signingInput : Typed popoSigningKeyInput_unmarshalInner (fun p =>
  opt_wf GeneralName_wf (ski_Sender p) /\ element (ski_PublicKey p)).
Proof.
  intros s x r H. unfold popoSigningKeyInput_unmarshalInner in H. reads; split; simpl; eauto with typed;
    by eapply ReadAnyASN1Element_inv.
Qed.

(** A proof of possession as it is read: one alternative of the CHOICE. *)
Definition pop_received (p : proofOfPossession) : Prop :=
  match p with
  | mkPOP true None None None => True
  | mkPOP false (Some sk) None None =>
      AlgorithmIdentifier_wf (psk_Algorithm sk) /\
      opt_wf (fun i => opt_wf GeneralName_wf (ski_Sender i) /\ element (ski_PublicKey i)) (PoposkInput sk)
  | mkPOP false None (Some k) None | mkPOP false None None (Some k) => popoPrivKey_wf k
  | _ => False
  end.
#[export] Instance typed_pop : Typed proofOfPossession_unmarshal pop_received.
Proof.
  intros s x r H. unfold proofOfPossession_unmarshal, popoSigningKey_unmarshalInner in H.
  reads; unfold pop_received; simpl; eauto with typed.
  all: split; [eauto with typed|]; try done.
  match goal with E : popoSigningKeyInput_unmarshalInner ?s = Ok (?i, ?r) |- _ =>
    exact (typed_signingInput s i r E) end.
Qed.

Definition certReqMsg_received (m : CertReqMsg) : Prop :=
  request_received (CertReq m) /\ opt_wf pop_received (Popo m).
#[export] Instance typed_certReqMsg : Typed CertReqMsg_unmarshal certReqMsg_received.
Proof. intros s x r H. unfold CertReqMsg_unmarshal in H. reads; (split; [eauto with typed|]); simpl; eauto with typed. Qed.
#[export] Instance typed_certReqMessages : Typed CertReqMessages_unmarshal (Forall certReqMsg_received).
Proof. intros s x r H. unfold CertReqMessages_unmarshal in H. reads. typed_items. Qed.

Definition revDetails_received (d : RevDetails) : Prop := template_received (CertDetails d).
#[export] Instance typed_revDetails : Typed RevDetails_unmarshal revDetails_received.
Proof. intros s x r H. unfold RevDetails_unmarshal in H. reads; unfold revDetails_received; simpl; eauto with typed. Qed.
#[export] Instance typed_revReq : Typed RevReqContent_unmarshal (Forall revDetails_received).
Proof. intros s x r H. unfold RevReqContent_unmarshal in H. reads. typed_items. Qed.

(** ** Bodies *)

(** What the getters give of a received body: the contents that are written as they
    were read are those [content_wf] allows; a CSR is one its parser gave. *)
Definition content_received (c : BodyContent) : Prop :=
  match c with
  | C_ir m | C_cr m | C_kur m => Forall certReqMsg_received m
  | C_rr m => Forall revDetails_received m
  | C_p10cr csr => exists der, x509_ParseCertificateRequest der = Some csr
  | C_nested msgs => msgs <> [] /\ Forall (fun o => exists m der, o = Some m /\ ParsePKIMessage der = Ok m) msgs
  | _ => content_wf c
  end.

Lemma typed_getter {A} want name (m : A -> Builder) (u : reader A) zero inj proj P b v :
  Typed u P -> received b -> snd (getter want name m u zero inj proj b) = Ok v -> P v.
Proof.
  intros Hu [He Hr Hc]. unfold getter. case_goal; [done|]. rewrite He, Hc. cbn [mbind option_bind].
  destruct b as [t raw d e c]. unfold unmarshalBodyContent. simpl in Hr. rewrite Hr. simpl.
  intros H. case_in H; [|done]. simpl in H. injection H as <-. reads. eauto with typed.
Qed.

Lemma typed_get_P10CR b csr :
  received b -> snd (P10CR b) = Ok csr -> exists der, x509_ParseCertificateRequest der = Some csr.
Proof.
  intros [He Hr Hc] H. destruct b as [t raw d e c]. simpl in He, Hr, Hc. subst e c. unfold P10CR in H.
  case_in H; [done|]. rewrite Hr in H. cbn [negb] in H. case_in H; [|done]. injection H as <-.
  reads. by eexists.
Qed.

Lemma nested_element_parsed s m s' : nested_element s = Ok (m, s') -> exists der, ParsePKIMessage der = Ok m.
Proof.
  unfold nested_element. intros H. split_res. exists l. unfold wrap_parse in E0. by destruct (ParsePKIMessage l).
Qed.

Lemma typed_get_Nested b msgs :
  received b -> snd (Nested b) = Ok msgs ->
  msgs <> [] /\ Forall (fun o => exists m der, o = Some m /\ ParsePKIMessage der = Ok m) msgs.
Proof.
  intros [He _ Hc] H. destruct b as [t raw d e c]. simpl in He, Hc. subst e c. unfold Nested in H.
  case_in H; [done|]. destruct (parseNestedMessages raw) as [l|] eqn:El; [|done]. injection H as <-.
  unfold parseNestedMessages in El. split_res. case_in El; [done|]. split_res.
  case_in El; [done|]. injection El as <-. apply negb_false_iff, nonempty_true in E4. split; [by destruct a|].
  eapply Forall_fmap, read_list_Forall; [|eassumption]. intros s x s' Hx.
  apply nested_element_parsed in Hx as [der Hx]. by exists x, der.
Qed.

Lemma get_body_typed b c : received b -> get_body b = Ok c -> content_received c.
Proof.
  intros Hr. unfold get_body.
  assert (Hmap : forall A (f : A -> BodyContent) (x : result A),
    (forall v, x = Ok v -> content_received (f v)) -> res_map f x = Ok c -> content_received c).
  { intros A f x Hx H. destruct x as [v|]; [|done]. injection H as <-. auto. }
  repeat case_goal; try done; apply Hmap; intros v Hv; cbn [content_received content_wf];
    first [ by eapply typed_get_P10CR | by apply typed_get_Nested in Hv
          | eapply typed_getter in Hv; [exact Hv | apply _ | exact Hr] | done ].
Qed.

End Typed.
