(* ===== verification/Monad.v ===== *)
(** * State and errors

    A method that updates a shared object and can fail: it gets the object, and
    gives the object as it leaves it, failure included, with its result. *)
From S2P Require Import Prelude Failure Errors.

Definition ST (S A : Type) : Type := S -> S * result A.

Definition st_ret {S A} (a : A) : ST S A := fun s => (s, Ok a).
Definition st_fail {S A} (e : error) : ST S A := fun s => (s, Err e).
Definition st_bind {S A B} (m : ST S A) (k : A -> ST S B) : ST S B := fun s =>
  match m s with
  | (s', Ok a) => k a s'
  | (s', Err e) => (s', Err e)
  end.
Definition st_get {S} : ST S S := fun s => (s, Ok s).
Definition st_modify {S} (f : S -> S) : ST S unit := fun s => (f s, Ok tt).
Definition st_lift {S A} (r : result A) : ST S A := fun s => (s, r).

Notation "'let!' x := m 'in' k" := (st_bind m (fun x => k))
  (at level 10, x pattern, m at level 100, k at level 200,
   format "'[v' 'let!'  x  :=  m  'in' '/' k ']'") : cmp_scope.

(** [if c { return e }; k]. *)
Notation "'fail_if' c 'with' e ';;' k" := (if c then st_fail e else k)
  (at level 10, c at level 99, e at level 99, k at level 200,
   format "'[v' 'fail_if'  c  'with'  e  ';;' '/' k ']'") : cmp_scope.

(** A call whose error the caller handles; a panic it does not. *)
Definition call {T A} (m : ST T A) : ST T (result A) := fun s =>
  match m s with
  | (s', Err GoPanic) => (s', Err GoPanic)
  | (s', r) => (s', Ok r)
  end.

(** [if err != nil { return f(err) }]; a panic stays a panic. *)
Definition map_err {S A} (f : error -> error) (m : ST S A) : ST S A := fun s =>
  match m s with
  | (s', Ok a) => (s', Ok a)
  | (s', Err GoPanic) => (s', Err GoPanic)
  | (s', Err e) => (s', Err (f e))
  end.

(** [crypto/rand]: the octets of the [i]-th read of [n] octets, and what a signer
    reads at the [i]-th draw. *)
Class GoRandom := {
  rand_Read : nat -> nat -> bytes;
  rand_Reader : nat -> bytes
}.

(** [preserves R m]: [m] only makes changes that [R] allows, on every path. *)
Definition preserves {S A} (R : S -> S -> Prop) (m : ST S A) : Prop := forall s, R s (fst (m s)).

Section Preserves.
Context {S : Type} (R : S -> S -> Prop) {Hrefl : Reflexive R} {Htrans : Transitive R}.

Lemma preserves_ret {A} (a : A) : preserves R (st_ret a).
Proof. intros s. reflexivity. Qed.
Lemma preserves_fail {A} e : preserves R (@st_fail S A e).
Proof. intros s. reflexivity. Qed.
Lemma preserves_get : preserves R st_get.
Proof. intros s. reflexivity. Qed.
Lemma preserves_lift {A} (r : result A) : preserves R (st_lift r).
Proof. intros s. reflexivity. Qed.
Lemma preserves_modify f : (forall s, R s (f s)) -> preserves R (st_modify f).
Proof. intros H s. apply H. Qed.
Lemma preserves_bind {A B} (m : ST S A) (k : A -> ST S B) :
  preserves R m -> (forall a, preserves R (k a)) -> preserves R (st_bind m k).
Proof.
  intros Hm Hk s. unfold st_bind. specialize (Hm s). destruct (m s) as [s' [a|e]]; simpl in *; [|done].
  etrans; [exact Hm | apply Hk].
Qed.
End Preserves.

Create HintDb preserves.
#[export] Hint Resolve preserves_ret preserves_fail preserves_get preserves_lift : preserves.

(** Walks through a method, leaving the updates and the unknown calls. *)
Ltac preserves :=
  repeat first
    [ progress intros
    | match goal with
      | |- preserves _ (st_bind _ _) => apply preserves_bind; [apply _ | | ]
      | |- preserves _ (st_ret _) => apply preserves_ret; apply _
      | |- preserves _ (st_fail _) => apply preserves_fail; apply _
      | |- preserves _ st_get => apply preserves_get; apply _
      | |- preserves _ (st_lift _) => apply preserves_lift; apply _
      | |- preserves _ (st_modify _) => apply preserves_modify
      | p : (_ * _)%type |- _ => destruct p
      end
    | case_goal ].


(** ** Successful runs *)

Lemma st_bind_ok {S A B} (m : ST S A) (k : A -> ST S B) s s' b :
  st_bind m k s = (s', Ok b) -> exists s1 a, m s = (s1, Ok a) /\ k a s1 = (s', Ok b).
Proof. unfold st_bind. destruct (m s) as [s1 [a|e]]; [eauto | discriminate]. Qed.

(** A run of either outcome stops at its first step or goes on after it. *)
Lemma st_bind_cases {S A B} (m : ST S A) (k : A -> ST S B) s s' r :
  st_bind m k s = (s', r) ->
  (exists s1 a, m s = (s1, Ok a) /\ k a s1 = (s', r)) \/
  (exists e, m s = (s', Err e) /\ r = Err e).
Proof. unfold st_bind. destruct (m s) as [s1 [a|e]]; [eauto 6 | intros [= <- <-]; eauto]. Qed.

Lemma st_modify_ok {S} (f : S -> S) s s' u : st_modify f s = (s', Ok u) -> s' = f s.
Proof. unfold st_modify. congruence. Qed.

Lemma st_ret_ok {S A} (a b : A) (s s' : S) : st_ret a s = (s', Ok b) -> s' = s /\ b = a.
Proof. unfold st_ret. split; congruence. Qed.

(** Splits the equation of a run that succeeds into those of its steps. *)
Ltac st_inv :=
  repeat match goal with
  | H : st_bind _ _ _ = (_, Ok _) |- _ =>
      let s := fresh "s" in let a := fresh "a" in let E := fresh "E" in
      apply st_bind_ok in H; destruct H as (s & a & E & H)
  | H : st_get _ = (_, Ok _) |- _ => injection H as <- <-
  | H : st_modify _ _ = (_, Ok _) |- _ => apply st_modify_ok in H; subst
  | H : st_ret _ _ = (_, Ok _) |- _ => apply st_ret_ok in H; destruct H as [H ?]; subst
  | H : st_lift _ _ = (_, Ok _) |- _ => injection H as <- H
  | H : st_fail _ _ = (_, Ok _) |- _ => discriminate H
  | H : (if ?c then st_fail _ else _) _ = (_, Ok _) |- _ =>
      let E := fresh "C" in destruct c eqn:E; [discriminate H|]
  | a : (_ * _)%type |- _ => destruct a
  | a : unit |- _ => destruct a
  end.
