(* ===== verification/Algorithms.v ===== *)
(** * Algorithms and confirmation hashes

    [src/pkicmp/algorithms.go]: the object identifiers, their mapping to hash and
    signature algorithms, the certHash rules and the header info values. The hash
    functions themselves are those of the [crypto] packages. *)
From S2P Require Import Prelude Failure Errors Asn1 Types Enrollment X509 Message.

(** The functions of [crypto], [crypto/hmac] and [golang.org/x/crypto/pbkdf2]. A
    [Signer] is named by a number; its signature may depend on a random draw. *)
Abbreviation Signer := Z.
Class GoCrypto := {
  hash_Sum : Hash -> bytes -> bytes;
  hmac_Sum : Hash -> bytes -> bytes -> bytes;
  pbkdf2_Key : bytes -> bytes -> Z -> Z -> Hash -> bytes;
  Hash_Available : Hash -> bool;
  Signer_Public : Signer -> PublicKey;
  Signer_Sign : Signer -> bytes -> bytes -> Hash -> result bytes
}.

(** [crypto.Hash] values are ordered as Go numbers them. *)
Definition Hash_code (h : Hash) : Z :=
  match h with
  | HashNone => 0 | SHA1 => 3 | SHA224 => 4 | SHA256 => 5 | SHA384 => 6 | SHA512 => 7
  | OtherHash n => n
  end.

(** [%v] of an object identifier. *)
Definition OID_text (o : ObjectIdentifier) : string := strings_join "." (pretty <$> o).

Definition oidSHA1 : ObjectIdentifier := [1; 3; 14; 3; 2; 26].
Definition oidSHA224 : ObjectIdentifier := [2; 16; 840; 1; 101; 3; 4; 2; 4].
Definition oidSHA256 : ObjectIdentifier := [2; 16; 840; 1; 101; 3; 4; 2; 1].
Definition oidSHA384 : ObjectIdentifier := [2; 16; 840; 1; 101; 3; 4; 2; 2].
Definition oidSHA512 : ObjectIdentifier := [2; 16; 840; 1; 101; 3; 4; 2; 3].
Definition oidSHA1WithRSAEncryption : ObjectIdentifier := [1; 2; 840; 113549; 1; 1; 5].
Definition oidECDSAWithSHA1 : ObjectIdentifier := [1; 2; 840; 10045; 4; 1].
Definition oidSHA256WithRSAEncryption : ObjectIdentifier := [1; 2; 840; 113549; 1; 1; 11].
Definition oidSHA384WithRSAEncryption : ObjectIdentifier := [1; 2; 840; 113549; 1; 1; 12].
Definition oidSHA512WithRSAEncryption : ObjectIdentifier := [1; 2; 840; 113549; 1; 1; 13].
Definition oidECDSAWithSHA256 : ObjectIdentifier := [1; 2; 840; 10045; 4; 3; 2].
Definition oidECDSAWithSHA384 : ObjectIdentifier := [1; 2; 840; 10045; 4; 3; 3].
Definition oidECDSAWithSHA512 : ObjectIdentifier := [1; 2; 840; 10045; 4; 3; 4].
Definition oidEd25519 : ObjectIdentifier := [1; 3; 101; 112].
Definition oidMLDSA44 : ObjectIdentifier := [2; 16; 840; 1; 101; 3; 4; 3; 17].
Definition oidMLDSA65 : ObjectIdentifier := [2; 16; 840; 1; 101; 3; 4; 3; 18].
Definition oidMLDSA87 : ObjectIdentifier := [2; 16; 840; 1; 101; 3; 4; 3; 19].
Definition oidPasswordBasedMac : ObjectIdentifier := [1; 2; 840; 113533; 7; 66; 13].
Definition oidPBMMac_HMACSHA1 : ObjectIdentifier := [1; 3; 6; 1; 5; 5; 8; 1; 2].
Definition oidPBMAC1 : ObjectIdentifier := [1; 2; 840; 113549; 1; 5; 14].
Definition oidPBKDF2 : ObjectIdentifier := [1; 2; 840; 113549; 1; 5; 12].
Definition oidHMACWithSHA1 : ObjectIdentifier := [1; 2; 840; 113549; 2; 7].
Definition oidHMACWithSHA224 : ObjectIdentifier := [1; 2; 840; 113549; 2; 8].
Definition oidHMACWithSHA256 : ObjectIdentifier := [1; 2; 840; 113549; 2; 9].
Definition oidHMACWithSHA384 : ObjectIdentifier := [1; 2; 840; 113549; 2; 10].
Definition oidHMACWithSHA512 : ObjectIdentifier := [1; 2; 840; 113549; 2; 11].
Definition oidExtensionKeyUsage : ObjectIdentifier := [2; 5; 29; 15].
Definition oidConfirmWaitTime : ObjectIdentifier := [1; 3; 6; 1; 5; 5; 7; 4; 14].
Definition oidImplicitConfirm : ObjectIdentifier := [1; 3; 6; 1; 5; 5; 7; 4; 13].

Definition hashFromOID (oid : ObjectIdentifier) : result Hash :=
  if OID_Equal oid oidSHA1 then Ok SHA1
  else if OID_Equal oid oidSHA224 then Ok SHA224
  else if OID_Equal oid oidSHA256 then Ok SHA256
  else if OID_Equal oid oidSHA384 then Ok SHA384
  else if OID_Equal oid oidSHA512 then Ok SHA512
  else Err (parse_error ("unsupported hash algorithm: " +:+ OID_text oid)).

Definition hmacHashFromOID (oid : ObjectIdentifier) : result Hash :=
  if OID_Equal oid oidHMACWithSHA1 || OID_Equal oid oidPBMMac_HMACSHA1 then Ok SHA1
  else if OID_Equal oid oidHMACWithSHA224 then Ok SHA224
  else if OID_Equal oid oidHMACWithSHA256 then Ok SHA256
  else if OID_Equal oid oidHMACWithSHA384 then Ok SHA384
  else if OID_Equal oid oidHMACWithSHA512 then Ok SHA512
  else Err (parse_error ("unsupported HMAC algorithm: " +:+ OID_text oid)).

Definition sigAlgFromOID (oid : ObjectIdentifier) : result SignatureAlgorithm :=
  if OID_Equal oid oidSHA256WithRSAEncryption then Ok SHA256WithRSA
  else if OID_Equal oid oidSHA384WithRSAEncryption then Ok SHA384WithRSA
  else if OID_Equal oid oidSHA512WithRSAEncryption then Ok SHA512WithRSA
  else if OID_Equal oid oidECDSAWithSHA256 then Ok ECDSAWithSHA256
  else if OID_Equal oid oidECDSAWithSHA384 then Ok ECDSAWithSHA384
  else if OID_Equal oid oidECDSAWithSHA512 then Ok ECDSAWithSHA512
  else if OID_Equal oid oidEd25519 then Ok PureEd25519
  else if OID_Equal oid oidMLDSA44 then Ok MLDSA44
  else if OID_Equal oid oidMLDSA65 then Ok MLDSA65
  else if OID_Equal oid oidMLDSA87 then Ok MLDSA87
  else Err (parse_error ("unsupported signature algorithm: " +:+ OID_text oid)).

Definition sha1SigAlgFromOID (oid : ObjectIdentifier) : option SignatureAlgorithm :=
  if OID_Equal oid oidSHA1WithRSAEncryption then Some SHA1WithRSA
  else if OID_Equal oid oidECDSAWithSHA1 then Some ECDSAWithSHA1
  else None.

Definition signatureAlgorithm (alg : AlgorithmIdentifier) (allowSHA1 : bool)
    : result SignatureAlgorithm :=
  let oid := Algorithm alg in
  let isMLDSA := OID_Equal oid oidMLDSA44 || OID_Equal oid oidMLDSA65 || OID_Equal oid oidMLDSA87 in
  reject_if isMLDSA && nonempty (Parameters_ alg)
    with parse_error "ML-DSA parameters must be absent" ;;
  match sha1SigAlgFromOID oid with
  | Some sigAlg =>
      reject_if negb allowSHA1
        with VerificationError ReasonUnsupportedAlgorithm
               (Some (errorString ("SHA-1 signature algorithm " +:+ OID_text oid
                                   +:+ " is deprecated and not enabled"))) ;;
      Ok sigAlg
  | None => sigAlgFromOID oid
  end.

Definition hashFromSigAlg (sigAlg : SignatureAlgorithm) : Hash :=
  match sigAlg with
  | SHA1WithRSA | DSAWithSHA1 | ECDSAWithSHA1 => SHA1
  | SHA256WithRSA | ECDSAWithSHA256 | SHA256WithRSAPSS => SHA256
  | SHA384WithRSA | ECDSAWithSHA384 | SHA384WithRSAPSS => SHA384
  | SHA512WithRSA | ECDSAWithSHA512 | SHA512WithRSAPSS => SHA512
  | PureEd25519 => SHA512
  | UnknownSignatureAlgorithm | MLDSA44 | MLDSA65 | MLDSA87 | OtherSignatureAlgorithm _ => HashNone
  end.

(** [hashOID] names the SHA-2 hashes of composite pre-hashing. *)
Definition hashOID (h : Hash) : ObjectIdentifier :=
  match h with SHA256 => oidSHA256 | SHA384 => oidSHA384 | _ => oidSHA512 end.

Section Algorithms.
Context {GX : GoX509} {GC : GoCrypto}.

(** The algorithm and [true], or no error and [false]. *)
Definition compositeSignatureAlgorithm (alg : AlgorithmIdentifier) : result (option Z) :=
  match composite_AlgorithmFromOID (Algorithm alg) with
  | None => Ok None
  | Some composite =>
      reject_if nonempty (Parameters_ alg)
        with parse_error "composite ML-DSA parameters must be absent" ;;
      Ok (Some composite)
  end.

Definition certHashFunc (cert : Certificate) : Hash :=
  let hash := hashFromSigAlg (cert_SignatureAlgorithm cert) in
  if negb (bool_decide (hash = HashNone)) then hash
  else match compositex509_SignatureAlgorithm (Raw cert) with
       | Some composite => composite_PreHash composite
       | None => HashNone
       end.

(** The error text leaves out the name crypto/x509 prints for the algorithm. *)
Definition CertHash_of (cert : Certificate) : result bytes :=
  let hash := certHashFunc cert in
  reject_if bool_decide (hash = HashNone) || negb (Hash_Available hash)
    with parse_error "no certHash algorithm for signature algorithm" ;;
  Ok (hash_Sum hash (Raw cert)).

(** [CertStatus.CertificateHash]. *)
Definition CertificateHash (s : CertStatus) (cert : Certificate) : result bytes :=
  match HashAlg s with
  | None => CertHash_of cert
  | Some alg =>
      let? hash := hashFromOID (Algorithm alg) in
      reject_if (Hash_code hash <? Hash_code SHA256) || negb (Hash_Available hash)
        with parse_error "unsupported confirmation hash" ;;
      reject_if nonempty (Parameters_ alg) && negb (bytes_eqb (Parameters_ alg) [5; 0])
        with parse_error "invalid confirmation hash parameters" ;;
      Ok (hash_Sum hash (Raw cert))
  end.

Definition NewCertStatus (cert : Certificate) (certReqID : Z) : result CertStatus :=
  match cert_SignatureAlgorithm cert with
  | MLDSA44 | MLDSA65 | MLDSA87 =>
      Ok (mkCertStatus (hash_Sum SHA512 (Raw cert)) certReqID None (Some (mkAlg oidSHA512 [])))
  | _ =>
      let? hash := CertHash_of cert in
      Ok (mkCertStatus hash certReqID None
            (match compositex509_SignatureAlgorithm (Raw cert) with
             | Some composite => Some (mkAlg (hashOID (composite_PreHash composite)) [])
             | None => None
             end))
  end.

Definition signatureAlgorithmFromKey (key : Signer) : result (ObjectIdentifier * Hash) :=
  match Signer_Public key with
  | RSAPublicKey bitLen _ =>
      if 4096 <=? bitLen then Ok (oidSHA512WithRSAEncryption, SHA512)
      else if 3072 <=? bitLen then Ok (oidSHA384WithRSAEncryption, SHA384)
      else Ok (oidSHA256WithRSAEncryption, SHA256)
  | ECDSAPublicKey bitSize _ =>
      if bitSize =? 256 then Ok (oidECDSAWithSHA256, SHA256)
      else if bitSize =? 384 then Ok (oidECDSAWithSHA384, SHA384)
      else if bitSize =? 521 then Ok (oidECDSAWithSHA512, SHA512)
      else Err (parse_error ("unsupported ECDSA curve size: " +:+ pretty bitSize))
  | Ed25519PublicKey _ => Ok (oidEd25519, HashNone)
  | MLDSAPublicKey parameters _ =>
      if parameters =? 44 then Ok (oidMLDSA44, HashNone)
      else if parameters =? 65 then Ok (oidMLDSA65, HashNone)
      else if parameters =? 87 then Ok (oidMLDSA87, HashNone)
      else Err (parse_error "unsupported ML-DSA parameters")
  | CompositePublicKey algorithm _ => Ok (composite_OID algorithm, HashNone)
  | OtherPublicKey _ => Err (parse_error "unsupported public key type")
  end.

End Algorithms.

(** ** Header info values *)

Definition ImplicitConfirmInfoValue : InfoTypeAndValue := mkInfo oidImplicitConfirm [].

(** [now] is the clock; a duration is a number of nanoseconds. *)
Definition ConfirmWaitTimeInfoValue {GA : GoASN1} (now : Time) (d : Z) : InfoTypeAndValue :=
  let d := if d <? 0 then 0 else d in
  let deadline := truncate_second (now + d) in
  mkInfo oidConfirmWaitTime (default [] (asn1_Marshal_GeneralizedTime deadline)).

Definition ParseConfirmWaitTime {GA : GoASN1} (itav : InfoTypeAndValue) : result Time :=
  reject_if negb (OID_Equal (InfoType itav) oidConfirmWaitTime)
    with parse_error "not a confirmWaitTime info value" ;;
  let? (deadline, rest) :=
    of_option (parse_error ("invalid confirmWaitTime: " +:+ Error_text asn1_error))
      (asn1_Unmarshal_GeneralizedTime (InfoValue itav)) in
  reject_if nonempty rest with parse_error "trailing data after confirmWaitTime" ;;
  Ok deadline.

(** ** Lemmas *)

Lemma OID_Equal_eq a b : OID_Equal a b = true <-> a = b.
Proof. apply bool_decide_eq_true. Qed.

Lemma OID_Equal_refl a : OID_Equal a a = true.
Proof. by apply OID_Equal_eq. Qed.

(** The algorithms of the package are in the range of the reader. *)
Lemma hashFromOID_OID_ok oid h : hashFromOID oid = Ok h -> OID_ok oid = true.
Proof.
  unfold hashFromOID. repeat (case_goal; [match goal with E : OID_Equal _ _ = true |- _ =>
    by apply OID_Equal_eq in E as -> end|]). done.
Qed.
Lemma hmacHashFromOID_OID_ok oid h : hmacHashFromOID oid = Ok h -> OID_ok oid = true.
Proof.
  unfold hmacHashFromOID. case_goal.
  { apply orb_prop in E as [E|E]; by apply OID_Equal_eq in E as ->. }
  repeat (case_goal; [match goal with E : OID_Equal _ _ = true |- _ =>
    by apply OID_Equal_eq in E as -> end|]). done.
Qed.

Section Facts.
Context {GX : GoX509} {GC : GoCrypto}.

(** The hashes a composite algorithm may use as its pre-hash. *)
Definition composite_prehash_sha2 : Prop :=
  forall a, composite_PreHash a = SHA256 \/ composite_PreHash a = SHA384 \/ composite_PreHash a = SHA512.

(** The SHA-2 hashes of confirmations are linked into the program. *)
Definition sha2_linked : Prop :=
  forall h, h = SHA256 \/ h = SHA384 \/ h = SHA512 -> Hash_Available h = true.

Lemma hashFromOID_hashOID h : h = SHA256 \/ h = SHA384 \/ h = SHA512 -> hashFromOID (hashOID h) = Ok h.
Proof. by intros [->|[->| ->]]. Qed.

(** The status a client computes is the one the server recomputes. *)
Lemma NewCertStatus_checks cert id cs :
  composite_prehash_sha2 -> sha2_linked ->
  (forall a, compositex509_SignatureAlgorithm (Raw cert) = Some a ->
             hashFromSigAlg (cert_SignatureAlgorithm cert) = HashNone) ->
  NewCertStatus cert id = Ok cs ->
  cs_CertReqID cs = id /\ StatusInfo cs = None /\ CertificateHash cs cert = Ok (CertHash cs).
Proof.
  intros Hpre Hav Hcomp H. unfold NewCertStatus in H.
  assert (Hgen : forall r, (let? hash := CertHash_of cert in
      Ok (mkCertStatus hash id None (match compositex509_SignatureAlgorithm (Raw cert) with
             | Some composite => Some (mkAlg (hashOID (composite_PreHash composite)) [])
             | None => None end))) = Ok r ->
    cs_CertReqID r = id /\ StatusInfo r = None /\ CertificateHash r cert = Ok (CertHash r)).
  { intros r Hr. split_res. split; [done|]. split; [done|]. unfold CertificateHash. simpl.
    destruct (compositex509_SignatureAlgorithm (Raw cert)) as [a0|] eqn:Ea; [|done]. simpl.
    rewrite hashFromOID_hashOID by apply Hpre. cbn [res_bind]. rewrite (Hav _ (Hpre a0)).
    unfold CertHash_of, certHashFunc in E. rewrite (Hcomp _ eq_refl), Ea in E. simpl in E.
    rewrite (Hav _ (Hpre a0)), orb_false_r in E. case_in E; [done|]. injection E as <-.
    by destruct (Hpre a0) as [->|[->| ->]]. }
  destruct (cert_SignatureAlgorithm cert) eqn:Es; try (by apply Hgen);
    injection H as <-; (split; [done|]); (split; [done|]); unfold CertificateHash; simpl;
    by rewrite Hav by auto.
Qed.

End Facts.
