(* ===== verification/Protect.v ===== *)
(** * Message protection

    [src/pkicmp/protect.go] and [src/pkicmp/credentials.go]: Password-Based MAC,
    PBMAC1 and signature protection, with the bounds on the parameters a peer
    chooses, and the credentials that select among them. The random draws of a
    call (salt, signature randomness) are arguments. *)
From S2P Require Import Prelude Failure Errors Monad Asn1 Types X509 Message Algorithms.

(** ** PBMAC1 parameters, encoded with [encoding/asn1]

    An [algorithmIdentifierASN1] is an identifier with the raw parameters; the
    zero value stands for an omitted one. *)
Record pbkdf2ParamsASN1 := mkPBKDF2 {
  kdf_Salt : bytes;
  kdf_IterationCount : Z;
  kdf_KeyLength : Z;
  PRF : AlgorithmIdentifier
}.
Record pbmac1Params := mkPBMAC1 {
  KeyDerivationFunc : AlgorithmIdentifier;
  MessageAuthScheme : AlgorithmIdentifier
}.
Class GoPBMAC1 := {
  asn1_Marshal_PBKDF2 : pbkdf2ParamsASN1 -> option bytes;
  asn1_Unmarshal_PBKDF2 : bytes -> option pbkdf2ParamsASN1;
  asn1_Marshal_PBMAC1 : pbmac1Params -> option bytes;
  asn1_Unmarshal_PBMAC1 : bytes -> option pbmac1Params
}.
(** An algorithm identifier that [encoding/asn1] reads back: the components of the
    identifier in the range of its reader, and as raw parameters none or one element. *)
Definition asn1_algorithm {CB : Cryptobyte} (a : AlgorithmIdentifier) : Prop :=
  OID_ok (Algorithm a) = true /\
  (Parameters_ a = [] \/ exists t c, tlv t c = Some (Parameters_ a)).

(** What [encoding/asn1] encodes is a SEQUENCE, and it decodes it. *)
Class GoPBMAC1Laws (CB : Cryptobyte) (GP : GoPBMAC1) : Prop := {
  PBMAC1_element p d : asn1_Marshal_PBMAC1 p = Some d -> exists t c, tlv t c = Some d;
  PBKDF2_element p d : asn1_Marshal_PBKDF2 p = Some d -> exists t c, tlv t c = Some d;
  PBKDF2_asn1 p d :
    asn1_algorithm (PRF p) -> asn1_Marshal_PBKDF2 p = Some d -> asn1_Unmarshal_PBKDF2 d = Some p;
  PBMAC1_asn1 p d :
    asn1_algorithm (KeyDerivationFunc p) -> asn1_algorithm (MessageAuthScheme p) ->
    asn1_Marshal_PBMAC1 p = Some d -> asn1_Unmarshal_PBMAC1 d = Some p
}.

(** ** Bounds *)

Definition defaultPBMSaltLength : Z := 16.
Definition defaultPBMIterationCount : Z := 10000.
Definition defaultPBMOWF : ObjectIdentifier := oidSHA256.
Definition defaultPBMMAC : ObjectIdentifier := oidHMACWithSHA256.
Definition defaultPBMMinIterationCount : Z := 1.
Definition defaultPBMMaxIterationCount : Z := 500000.
Definition defaultPBKDF2MinKeyLength : Z := 16.

Definition validatePBMIterationCount (iterationCount : Z) : result unit :=
  reject_if iterationCount <? defaultPBMMinIterationCount
    with parse_error ("PBM iterationCount too small: " +:+ pretty iterationCount) ;;
  reject_if defaultPBMMaxIterationCount <? iterationCount
    with parse_error ("PBM iterationCount too large: " +:+ pretty iterationCount) ;;
  Ok tt.

Definition validatePBKDF2KeyLength (keyLength : Z) (macHash : Hash) : result unit :=
  reject_if keyLength <? defaultPBKDF2MinKeyLength
    with parse_error ("PBKDF2 keyLength too small: " +:+ pretty keyLength +:+ " (minimum "
                      +:+ pretty defaultPBKDF2MinKeyLength +:+ ")") ;;
  let maxKeyLength := Hash_BlockSize macHash in
  reject_if maxKeyLength <? keyLength
    with parse_error ("PBKDF2 keyLength too large: " +:+ pretty keyLength +:+ " (maximum "
                      +:+ pretty maxKeyLength +:+ " for this MAC)") ;;
  Ok tt.

(** ** pbmParameter *)

Record pbmParameter := mkPBM {
  pbm_Salt : bytes;
  pbm_OWF : AlgorithmIdentifier;
  pbm_IterationCount : Z;
  pbm_MAC : AlgorithmIdentifier
}.

Section Protect.
Context {CB : Cryptobyte} {GN : GoNames} {GX : GoX509} {GC : GoCrypto} {GP : GoPBMAC1}.

Definition pbmParameter_marshal (p : pbmParameter) : Builder :=
  AddASN1 SEQUENCE
    (AddASN1OctetString (pbm_Salt p)
     ⊕ AlgorithmIdentifier_marshal (pbm_OWF p)
     ⊕ AddASN1Integer (pbm_IterationCount p)
     ⊕ AlgorithmIdentifier_marshal (pbm_MAC p)).
Definition pbmParameter_unmarshal (s : bytes) : result pbmParameter :=
  let? (seq, _) := of_option (parse_error "invalid PBMParameter sequence")
                     (ReadASN1 SEQUENCE s) in
  let? (salt, seq) := of_option (parse_error "invalid salt") (ReadASN1Bytes OCTET_STRING seq) in
  let? (owf, seq) := AlgorithmIdentifier_unmarshal seq in
  let? (count, seq) := of_option (parse_error "invalid iterationCount") (ReadASN1Int64 seq) in
  let? _ := validatePBMIterationCount count in
  let? (mac, _) := AlgorithmIdentifier_unmarshal seq in
  Ok (mkPBM salt owf count mac).

(** [for i := 1; i < iterationCount; i++]: one hash of the previous output each. *)
Definition derivePBMKey (secret salt : bytes) (iterationCount : Z) (hash macHash : Hash)
    : result bytes :=
  reject_if Hash_Size hash <? Hash_Size macHash
    with errorString ("MAC key size (" +:+ pretty (Hash_Size macHash)
           +:+ ") exceeds OWF output size (" +:+ pretty (Hash_Size hash)
           +:+ "): key expansion not supported") ;;
  Ok (Nat.iter (Z.to_nat (iterationCount - 1)) (hash_Sum hash) (hash_Sum hash (secret ++ salt))).

(** ** marshalForProtection *)

(** [m.field, err = b.Bytes()] and the return on an error, which leaves the field nil. *)
Definition st_store (set : bytes -> PKIMessage -> PKIMessage) (r : result bytes)
    : ST PKIMessage unit :=
  match r with
  | Ok raw => st_modify (set raw)
  | Err e => let! _ := st_modify (set []) in st_fail e
  end.

Definition marshalForProtection : ST PKIMessage unit :=
  let! m := st_get in
  match Body m with
  | None => st_fail GoPanic
  | Some body =>
      let b := PKIBody_marshal body in
      let! _ := st_store set_rawBody (Bytes b) in
      let h := set_PVNO (required_pvno (Header m) b) (Header m) in
      let! _ := st_modify (set_Header h) in
      st_store set_rawHeader (Bytes (PKIHeader_marshal h))
  end.

(** The last steps of both MACs: the header and body are encoded, and the MAC of
    the protected part under the key [k] is the protection. *)
Definition finish_MAC (macHash : Hash) (key : result bytes) : ST PKIMessage unit :=
  let! _ := marshalForProtection in
  let! m := st_get in
  let! data := st_lift (protectedPart m) in
  let! k := st_lift key in
  st_modify (set_Protection (hmac_Sum macHash k data)).

(** ** Password-Based MAC *)

Record macOptions := mkMacOptions {
  mo_Secret : bytes;
  mo_Algorithm : option ObjectIdentifier;
  mo_IterationCount : Z;
  mo_OWF : option ObjectIdentifier;
  mo_MAC : option ObjectIdentifier;
  mo_OWFParameters : bytes;
  mo_MACParameters : bytes
}.

(** [if n == 0 { n = d }]. *)
Definition or_default (n d : Z) : Z := if n =? 0 then d else n.

Definition missing_body (m : PKIMessage) : bool := is_nil (Body m).

Definition protectWithMACOptions (salt : bytes) (opts : macOptions) : ST PKIMessage unit :=
  let! m := st_get in
  fail_if missing_body m with parse_error detailMissingMessageBody ;;
  fail_if negb (nonempty (mo_Secret opts)) with ProtectionError ReasonMissingSharedSecret None ;;
  match mo_Algorithm opts with
  | None => st_fail (parse_error "macOptions.Algorithm is required")
  | Some alg =>
      let iterCount := or_default (mo_IterationCount opts) defaultPBMIterationCount in
      let owf := default defaultPBMOWF (mo_OWF opts) in
      let mac := default defaultPBMMAC (mo_MAC opts) in
      let! _ := st_lift (validatePBMIterationCount iterCount) in
      let! hash := st_lift (hashFromOID owf) in
      let! macHash := st_lift (hmacHashFromOID mac) in
      let p := mkPBM salt (mkAlg owf (mo_OWFParameters opts)) iterCount
                 (mkAlg mac (mo_MACParameters opts)) in
      let! params := st_lift (Bytes (pbmParameter_marshal p)) in
      let! _ := st_modify (fun m => set_Header (set_ProtectionAlg (Some (mkAlg alg params)) (Header m)) m) in
      finish_MAC macHash (derivePBMKey (mo_Secret opts) salt iterCount hash macHash)
  end.

Definition protectWithMAC (salt secret : bytes) : ST PKIMessage unit :=
  protectWithMACOptions salt (mkMacOptions secret (Some oidPasswordBasedMac) 0 None None [] []).

(** ** PBMAC1 *)

Record pbmac1Options := mkPbmac1Options {
  po_Secret : bytes;
  po_IterationCount : Z;
  po_KeyLength : Z;
  po_PRF : option ObjectIdentifier;
  po_MAC : option ObjectIdentifier
}.

Definition zeroAlg : AlgorithmIdentifier := mkAlg [] [].

Definition marshalPBMAC1Params (salt : bytes) (iterCount keyLen : Z) (prf mac : ObjectIdentifier)
    : result bytes :=
  let params := mkPBKDF2 salt iterCount keyLen
                  (if OID_Equal prf oidHMACWithSHA1 then zeroAlg else mkAlg prf []) in
  let? kdf := of_option asn1_error (asn1_Marshal_PBKDF2 params) in
  of_option asn1_error (asn1_Marshal_PBMAC1 (mkPBMAC1 (mkAlg oidPBKDF2 kdf) (mkAlg mac []))).

Definition parsePBKDF2Params (der : bytes) : result pbkdf2ParamsASN1 :=
  let? p := of_option (parse_error ("invalid PBKDF2-params: " +:+ Error_text asn1_error))
              (asn1_Unmarshal_PBKDF2 der) in
  if nonempty (Algorithm (PRF p)) then Ok p
  else Ok (mkPBKDF2 (kdf_Salt p) (kdf_IterationCount p) (kdf_KeyLength p)
             (mkAlg oidHMACWithSHA1 (Parameters_ (PRF p)))).

Definition protectWithPBMAC1Options (salt : bytes) (opts : pbmac1Options) : ST PKIMessage unit :=
  let! m := st_get in
  fail_if missing_body m with parse_error detailMissingMessageBody ;;
  fail_if negb (nonempty (po_Secret opts)) with ProtectionError ReasonMissingSharedSecret None ;;
  let iterCount := or_default (po_IterationCount opts) defaultPBMIterationCount in
  let prf := default oidHMACWithSHA256 (po_PRF opts) in
  let mac := default oidHMACWithSHA256 (po_MAC opts) in
  let! _ := st_lift (validatePBMIterationCount iterCount) in
  let! macHash := st_lift (hmacHashFromOID mac) in
  let! prfHash := st_lift (hmacHashFromOID prf) in
  let keyLen := or_default (po_KeyLength opts) (Hash_Size macHash) in
  let! _ := st_lift (validatePBKDF2KeyLength keyLen macHash) in
  let! params := st_lift (marshalPBMAC1Params salt iterCount keyLen prf mac) in
  let! _ := st_modify (fun m => set_Header (set_ProtectionAlg (Some (mkAlg oidPBMAC1 params)) (Header m)) m) in
  finish_MAC macHash (Ok (pbkdf2_Key (po_Secret opts) salt iterCount keyLen prfHash)).

(** ** Echoing the parameters of a received message *)

Definition protectWithMACAlgorithm (salt secret : bytes) (alg : AlgorithmIdentifier)
    : ST PKIMessage unit :=
  if OID_Equal (Algorithm alg) oidPBMAC1 then
    let! params := st_lift (of_option
                     (parse_error ("invalid PBMAC1-params: " +:+ Error_text asn1_error))
                     (asn1_Unmarshal_PBMAC1 (Parameters_ alg))) in
    fail_if negb (OID_Equal (Algorithm (KeyDerivationFunc params)) oidPBKDF2)
      with parse_error ("unsupported KDF: " +:+ OID_text (Algorithm (KeyDerivationFunc params))) ;;
    let! kdf := st_lift (parsePBKDF2Params (Parameters_ (KeyDerivationFunc params))) in
    protectWithPBMAC1Options salt
      (mkPbmac1Options secret (kdf_IterationCount kdf) (kdf_KeyLength kdf)
         (Some (Algorithm (PRF kdf))) (Some (Algorithm (MessageAuthScheme params))))
  else if OID_Equal (Algorithm alg) oidPasswordBasedMac then
    let! p := st_lift (pbmParameter_unmarshal (Parameters_ alg)) in
    protectWithMACOptions salt
      (mkMacOptions secret (Some (Algorithm alg)) (pbm_IterationCount p)
         (Some (Algorithm (pbm_OWF p))) (Some (Algorithm (pbm_MAC p)))
         (Parameters_ (pbm_OWF p)) (Parameters_ (pbm_MAC p)))
  else st_fail (parse_error ("unsupported MAC algorithm: " +:+ OID_text (Algorithm alg))).

(** ** Signatures *)

(** [seen] holds the certificates kept so far. *)
Fixpoint dedupe_from (seen : list bytes) (certs : list CMPCertificate) : list CMPCertificate :=
  match certs with
  | [] => []
  | c :: cs =>
      if bool_decide (cert_Raw c ∈ seen) then dedupe_from seen cs
      else c :: dedupe_from (cert_Raw c :: seen) cs
  end.
Definition dedupeCertificates (certs : list CMPCertificate) : list CMPCertificate :=
  dedupe_from [] certs.

Definition protectWithSignature (random : bytes) (key : Signer) (cert : Certificate)
    (chain : list Certificate) : ST PKIMessage unit :=
  let! m := st_get in
  fail_if missing_body m with parse_error detailMissingMessageBody ;;
  match signatureAlgorithmFromKey key with
  | Err err => st_fail (ProtectionError ReasonUnsupportedAlgorithm (Some err))
  | Ok (sigAlgOID, hash) =>
      let! _ := st_modify (fun m => set_Header (set_ProtectionAlg (Some (mkAlg sigAlgOID [])) (Header m)) m) in
      let! _ := st_modify (fun m => if nonempty (SubjectKeyId cert)
                                    then set_Header (set_SenderKID (SubjectKeyId cert) (Header m)) m
                                    else m) in
      let! _ := st_modify (fun m => set_ExtraCerts
                  (dedupeCertificates
                     (mkCMPCertificate (Raw cert) :: ((fun c => mkCMPCertificate (Raw c)) <$> chain)
                      ++ ExtraCerts m)) m) in
      let! _ := marshalForProtection in
      let! m := st_get in
      let! data := st_lift (protectedPart m) in
      let digest := if bool_decide (hash = HashNone) then data else hash_Sum hash data in
      let! sig := st_lift (Signer_Sign key random digest hash) in
      st_modify (set_Protection sig)
  end.

(** ** Credentials *)

Record macCredentialConfig := mkMacConfig {
  mc_algorithm : option ObjectIdentifier;
  mc_iterationCount : Z;
  mc_keyLength : Z;
  mc_owf : option ObjectIdentifier;
  mc_mac : option ObjectIdentifier;
  mc_owfParameters : bytes;
  mc_macParameters : bytes;
  mc_protectionAlg : option AlgorithmIdentifier;
  mc_err : option error
}.
Definition emptyMacConfig : macCredentialConfig :=
  mkMacConfig None 0 0 None None [] [] None None.

(** A [MACCredentialOption] sets some fields of the configuration. *)
Definition MACCredentialOption : Type := macCredentialConfig -> macCredentialConfig.

Definition WithPBM : MACCredentialOption := fun c =>
  let '(mkMacConfig _ i k o m op mp p e) := c in
  mkMacConfig (Some oidPasswordBasedMac) i k o m op mp p e.
Definition WithMACIterationCount (n : Z) : MACCredentialOption := fun c =>
  let '(mkMacConfig a _ k o m op mp p e) := c in mkMacConfig a n k o m op mp p e.
Definition WithProtectionAlgorithm (alg : option AlgorithmIdentifier) : MACCredentialOption := fun c =>
  match alg with
  | None => c
  | Some _ => let '(mkMacConfig a i k o m op mp _ e) := c in mkMacConfig a i k o m op mp alg e
  end.

(** The two maps of [pbmAlgorithmOIDs]. *)
Definition owfOIDs (h : Hash) : option ObjectIdentifier :=
  match h with
  | SHA1 => Some oidSHA1 | SHA224 => Some oidSHA224 | SHA256 => Some oidSHA256
  | SHA384 => Some oidSHA384 | SHA512 => Some oidSHA512 | _ => None
  end.
Definition macOIDs (h : Hash) : option ObjectIdentifier :=
  match h with
  | SHA1 => Some oidPBMMac_HMACSHA1 | SHA224 => Some oidHMACWithSHA224
  | SHA256 => Some oidHMACWithSHA256 | SHA384 => Some oidHMACWithSHA384
  | SHA512 => Some oidHMACWithSHA512 | _ => None
  end.
Definition pbmAlgorithmOIDs (owf mac : Hash) : result (ObjectIdentifier * ObjectIdentifier) :=
  let unsupported text := ProtectionError ReasonUnsupportedAlgorithm (Some (errorString text)) in
  let? owfOID := of_option (unsupported "unsupported PasswordBasedMac OWF") (owfOIDs owf) in
  let? macOID := of_option (unsupported "unsupported PasswordBasedMac HMAC hash") (macOIDs mac) in
  reject_if Hash_Size owf <? Hash_Size mac
    with unsupported "HMAC hash is longer than PasswordBasedMac OWF" ;;
  Ok (owfOID, macOID).
Definition WithPBMAlgorithms (owf mac : Hash) : MACCredentialOption := fun c =>
  let '(mkMacConfig _ i k o m op mp p e) := c in
  match pbmAlgorithmOIDs owf mac with
  | Err err => mkMacConfig (Some oidPasswordBasedMac) i k o m op mp p (Some err)
  | Ok (owfOID, macOID) =>
      mkMacConfig (Some oidPasswordBasedMac) i k (Some owfOID) (Some macOID) op mp p e
  end.

Record MACCredentials := mkMACCredentials { mac_secret : bytes; mac_cfg : macCredentialConfig }.

Definition NewMACCredentials (secret : bytes) (opts : list MACCredentialOption)
    : result MACCredentials :=
  reject_if negb (nonempty secret) with ProtectionError ReasonMissingSharedSecret None ;;
  let cfg := foldl (fun c opt => opt c) emptyMacConfig opts in
  match mc_err cfg with
  | Some err => Err err
  | None => Ok (mkMACCredentials secret cfg)
  end.

Definition MACCredentials_Protect (salt : bytes) (c : MACCredentials) : ST PKIMessage unit :=
  let cfg := mac_cfg c in
  match mc_protectionAlg cfg with
  | Some alg => protectWithMACAlgorithm salt (mac_secret c) alg
  | None =>
      let alg := default oidPBMAC1 (mc_algorithm cfg) in
      if OID_Equal alg oidPBMAC1 then
        protectWithPBMAC1Options salt
          (mkPbmac1Options (mac_secret c) (mc_iterationCount cfg) (mc_keyLength cfg)
             (mc_owf cfg) (mc_mac cfg))
      else
        protectWithMACOptions salt
          (mkMacOptions (mac_secret c) (Some alg) (mc_iterationCount cfg) (mc_owf cfg)
             (mc_mac cfg) (mc_owfParameters cfg) (mc_macParameters cfg))
  end.

Record SignatureCredentials := mkSigCredentials {
  sc_key : Signer;
  sc_cert : Certificate;
  sc_chain : list Certificate
}.

Definition NewSignatureCredentials (key : option Signer) (cert : option Certificate)
    (chain : list Certificate) : result SignatureCredentials :=
  match key, cert with
  | None, _ => Err (ProtectionError ReasonMissingSigner None)
  | Some _, None =>
      Err (ProtectionError ReasonMissingSigner (Some (errorString "certificate is nil")))
  | Some k, Some c =>
      let certPub := match cert_PublicKey c with
                     | Some pub => Some pub
                     | None => ParsePKIXPublicKey (RawSubjectPublicKeyInfo c)
                     end in
      match MarshalPKIXPublicKey (Some (Signer_Public k)), MarshalPKIXPublicKey certPub with
      | Some pubDER, Some certPubDER =>
          if bytes_eqb pubDER certPubDER then Ok (mkSigCredentials k c chain)
          else Err (ProtectionError ReasonMissingSigner
                     (Some (errorString "private key does not match certificate public key")))
      | _, _ => Err (ProtectionError ReasonMissingSigner
                      (Some (errorString "private key does not match certificate public key")))
      end
  end.

Definition SignatureCredentials_Protect (random : bytes) (c : SignatureCredentials)
    : ST PKIMessage unit :=
  protectWithSignature random (sc_key c) (sc_cert c) (sc_chain c).

(** The [Credentials] the library provides; the draw is the salt or the
    randomness of the signature. *)
Inductive Credentials :=
| CredMAC (c : MACCredentials)
| CredSignature (c : SignatureCredentials).

Definition Protect (random : bytes) (c : Credentials) : ST PKIMessage unit :=
  match c with
  | CredMAC c => MACCredentials_Protect random c
  | CredSignature c => SignatureCredentials_Protect random c
  end.

End Protect.
