(* ===== verification/Verify.v ===== *)
(** * Verification of message protection and proof of possession

    [src/pkicmp/verify.go] and [src/pkicmp/pop.go], with [GeneratePOP] and
    [NewOldCertIDControl] of [src/pkicmp/crmf.go]. The clock is an argument: one
    reading stands for those of a call. *)
From S2P Require Import Prelude Failure Errors Asn1 Types Crmf X509 CertPath Message.
From S2P Require Import Algorithms Protect.

Inductive ProtectionMechanism := ProtectionAny | ProtectionMAC | ProtectionSignature.
#[export] Instance ProtectionMechanism_eq_dec : EqDecision ProtectionMechanism.
Proof. solve_decision. Defined.

Record VerifyOptions := mkVerifyOptions {
  RequiredProtection : ProtectionMechanism;
  SharedSecret : bytes;
  TrustPool : option CertPool;
  TrustedCert : option Certificate;
  vo_ExtraCerts : list CMPCertificate;
  vo_SenderKID : bytes;
  RequireDigitalSignatureKeyUsage : bool;
  AllowSHA1Signatures : bool
}.

(** The options of a [VerifyResult]'s [ProtectionParams] as the configuration
    update they are. *)
Record VerifyResult := mkVerifyResult {
  MACVerified : bool;
  ProtectionParams : option MACCredentialOption;
  ProtectionCertificate : option Certificate
}.

Definition verification_error {A} (r : InvalidReason) : result A := Err (VerificationError r None).
(** [&VerificationError{Reason: r, Err: err}] on the error of a call. *)
Definition wrap_verification {A} (r : InvalidReason) (x : result A) : result A :=
  match x with Ok a => Ok a | Err e => Err (VerificationError r (Some e)) end.

Definition KeyUsageDigitalSignature : Z := 1.

Section Verify.
Context {CB : Cryptobyte} {GN : GoNames} {GX : GoX509} {GC : GoCrypto} {GP : GoPBMAC1}.

(** [if !hash.Available()]. *)
Definition check_available (h : Hash) (what : string) (oid : ObjectIdentifier) : result unit :=
  reject_if negb (Hash_Available h)
    with VerificationError ReasonUnsupportedAlgorithm
           (Some (errorString (what +:+ " " +:+ OID_text oid +:+ " not available"))) ;;
  Ok tt.

(** ** MAC protection *)

Definition PBM_params (p : pbmParameter) : MACCredentialOption := fun c =>
  mkMacConfig (Some oidPasswordBasedMac) (pbm_IterationCount p) (mc_keyLength c)
    (Some (Algorithm (pbm_OWF p))) (Some (Algorithm (pbm_MAC p)))
    (Parameters_ (pbm_OWF p)) (Parameters_ (pbm_MAC p)) (mc_protectionAlg c) (mc_err c).

Definition verifyPBM (m : PKIMessage) (alg : AlgorithmIdentifier) (opts : VerifyOptions)
    : result VerifyResult :=
  let secret := SharedSecret opts in
  reject_if negb (nonempty secret) with VerificationError ReasonMissingSharedSecret None ;;
  let? p := pbmParameter_unmarshal (Parameters_ alg) in
  let? _ := validatePBMIterationCount (pbm_IterationCount p) in
  let? hash := wrap_verification ReasonUnsupportedAlgorithm (hashFromOID (Algorithm (pbm_OWF p))) in
  let? _ := check_available hash "hash" (Algorithm (pbm_OWF p)) in
  let? macHash := wrap_verification ReasonUnsupportedAlgorithm
                    (hmacHashFromOID (Algorithm (pbm_MAC p))) in
  let? _ := check_available macHash "MAC hash" (Algorithm (pbm_MAC p)) in
  let? data := protectedPart m in
  let? k := wrap_verification ReasonUnsupportedAlgorithm
              (derivePBMKey secret (pbm_Salt p) (pbm_IterationCount p) hash macHash) in
  reject_if negb (bytes_eqb (hmac_Sum macHash k data) (Protection m))
    with VerificationError ReasonBadMAC None ;;
  Ok (mkVerifyResult true (Some (PBM_params p)) None).

Definition PBMAC1_params (iterationCount keyLength : Z) (prf mac : ObjectIdentifier)
    : MACCredentialOption := fun c =>
  mkMacConfig (Some oidPBMAC1) iterationCount keyLength (Some prf) (Some mac)
    (mc_owfParameters c) (mc_macParameters c) (mc_protectionAlg c) (mc_err c).

Definition verifyPBMAC1 (m : PKIMessage) (alg : AlgorithmIdentifier) (opts : VerifyOptions)
    : result VerifyResult :=
  let secret := SharedSecret opts in
  reject_if negb (nonempty secret) with VerificationError ReasonMissingSharedSecret None ;;
  let? params := of_option (parse_error ("invalid PBMAC1-params: " +:+ Error_text asn1_error))
                   (asn1_Unmarshal_PBMAC1 (Parameters_ alg)) in
  reject_if negb (OID_Equal (Algorithm (KeyDerivationFunc params)) oidPBKDF2)
    with VerificationError ReasonUnsupportedAlgorithm
           (Some (errorString ("KDF OID " +:+ OID_text (Algorithm (KeyDerivationFunc params))))) ;;
  let? kdf := parsePBKDF2Params (Parameters_ (KeyDerivationFunc params)) in
  let? _ := validatePBMIterationCount (kdf_IterationCount kdf) in
  let prf := Algorithm (PRF kdf) in
  let? prfHash := wrap_verification ReasonUnsupportedAlgorithm (hmacHashFromOID prf) in
  let? _ := check_available prfHash "PRF hash" prf in
  let mac := Algorithm (MessageAuthScheme params) in
  let? macHash := wrap_verification ReasonUnsupportedAlgorithm (hmacHashFromOID mac) in
  let? _ := check_available macHash "MAC hash" mac in
  let keyLength := or_default (kdf_KeyLength kdf) (Hash_Size macHash) in
  let? _ := validatePBKDF2KeyLength keyLength macHash in
  let? data := protectedPart m in
  let k := pbkdf2_Key secret (kdf_Salt kdf) (kdf_IterationCount kdf) keyLength prfHash in
  reject_if negb (bytes_eqb (hmac_Sum macHash k data) (Protection m))
    with VerificationError ReasonBadMAC None ;;
  Ok (mkVerifyResult true (Some (PBMAC1_params (kdf_IterationCount kdf) keyLength prf mac)) None).

(** ** Signatures *)

Definition permittedToSign (cert : Certificate) : bool :=
  if existsb (fun ext => OID_Equal (Id ext) oidExtensionKeyUsage) (Extensions cert)
  then negb (Z.land (KeyUsage cert) KeyUsageDigitalSignature =? 0)
  else true.

Definition senderMatchesCertificate (sender : GeneralName) (cert : Certificate) : bool :=
  if negb (nonempty (DirectoryName sender)) then true
  else match asn1_Unmarshal_RDN (RawSubject cert) with
       | None => false
       | Some (subject, _) =>
           bool_decide (RDN_String (DirectoryName sender) = RDN_String subject)
       end.

(** The check a certificate's key makes: [None] when the signature is good. *)
Definition composite_check (composite : Z) (cert : Certificate) (data signature : bytes)
    : option error :=
  match ParsePKIXPublicKey (RawSubjectPublicKeyInfo cert) with
  | None => Some x509_error
  | Some pub =>
      match pub with
      | CompositePublicKey algorithm _ =>
          if algorithm =? composite then compositemldsa_Verify pub data signature
          else Some (errorString "certificate key does not match the protection algorithm")
      | _ => Some (errorString "certificate key does not match the protection algorithm")
      end
  end.

Definition signatureChecker (alg : AlgorithmIdentifier) (allowSHA1 : bool)
    : result (Certificate -> bytes -> bytes -> option error) :=
  let? composite := compositeSignatureAlgorithm alg in
  match composite with
  | Some composite => Ok (composite_check composite)
  | None =>
      let? sigAlg := signatureAlgorithm alg allowSHA1 in
      Ok (fun cert data signature => x509_CheckSignature (cert_PublicKey cert) sigAlg data signature)
  end.

(** The state the loop over the candidates carries. *)
Record candidate_state := mkCandidates {
  senderMismatch : bool;
  keyUsageRejected : bool;
  candidates_ : Z
}.

Definition kid_skips (opts : VerifyOptions) (cert : Certificate) : bool :=
  nonempty (vo_SenderKID opts)
  && (negb (nonempty (SubjectKeyId cert)) || negb (bytes_eqb (SubjectKeyId cert) (vo_SenderKID opts))).

Definition parse_all (certs : list CMPCertificate) : list Certificate :=
  omap CMPCertificate_Parse certs.

(** [check] is the signature check, already applied to the protected part and the
    protection. *)
Fixpoint try_candidates (pool : CertPool) (intermediates : list Certificate) (now : Time)
    (sender : GeneralName) (opts : VerifyOptions) (check : Certificate -> option error)
    (certs : list CMPCertificate) (st : candidate_state) : result VerifyResult :=
  match certs with
  | [] =>
      if candidates_ st =? 0 then verification_error ReasonNoCandidateSigner
      else if senderMismatch st then verification_error ReasonSenderMismatch
      else if keyUsageRejected st then verification_error ReasonKeyUsageNotPermitted
      else verification_error ReasonSignatureFailed
  | cert :: certs =>
      let next := try_candidates pool intermediates now sender opts check certs in
      match CMPCertificate_Parse cert with
      | None => next st
      | Some x509Cert =>
          if kid_skips opts x509Cert then next st
          else
            let '(mkCandidates mismatch rejected n) := st in
            let n := n + 1 in
            match certpath_Verify intermediates pool now x509Cert with
            | Some _ => next (mkCandidates mismatch rejected n)
            | None =>
                if negb (senderMatchesCertificate sender x509Cert)
                then next (mkCandidates true rejected n)
                else if RequireDigitalSignatureKeyUsage opts && negb (permittedToSign x509Cert)
                then next (mkCandidates mismatch true n)
                else match check x509Cert with
                     | None => Ok (mkVerifyResult false None (Some x509Cert))
                     | Some _ => next (mkCandidates mismatch rejected n)
                     end
            end
      end
  end.

Definition verifySignature (now : Time) (m : PKIMessage) (alg : AlgorithmIdentifier)
    (opts : VerifyOptions) : result VerifyResult :=
  let? checkSignature := signatureChecker alg (AllowSHA1Signatures opts) in
  let? data := protectedPart m in
  match TrustedCert opts with
  | Some cert =>
      reject_if (now <? NotBefore cert) || (NotAfter cert <? now)
        with VerificationError ReasonCertificateExpired None ;;
      reject_if negb (senderMatchesCertificate (Sender (Header m)) cert)
        with VerificationError ReasonSenderMismatch None ;;
      reject_if RequireDigitalSignatureKeyUsage opts && negb (permittedToSign cert)
        with VerificationError ReasonKeyUsageNotPermitted None ;;
      match checkSignature cert data (Protection m) with
      | Some _ => verification_error ReasonSignatureFailed
      | None => Ok (mkVerifyResult false None (Some cert))
      end
  | None =>
      match TrustPool opts with
      | None => verification_error ReasonMissingTrustAnchors
      | Some pool =>
          try_candidates pool (parse_all (vo_ExtraCerts opts)) now (Sender (Header m)) opts
            (fun cert => checkSignature cert data (Protection m)) (vo_ExtraCerts opts)
            (mkCandidates false false 0)
      end
  end.

(** ** Verify *)

Definition is_signature_alg (alg : ObjectIdentifier) : bool :=
  is_ok (sigAlgFromOID alg) || negb (is_nil (sha1SigAlgFromOID alg))
  || negb (is_nil (composite_AlgorithmFromOID alg)).

Definition unexpected_protection (text : string) : error :=
  VerificationError ReasonUnexpectedProtection (Some (errorString text)).

Definition Verify (now : Time) (m : PKIMessage) (opts : VerifyOptions) : result VerifyResult :=
  match ProtectionAlg (Header m) with
  | None => Err (parse_error "message has no protection algorithm")
  | Some a =>
      reject_if negb (nonempty (Protection m)) with parse_error "message is not protected" ;;
      reject_if is_nil (Body m) with parse_error detailMissingMessageBody ;;
      let alg := Algorithm a in
      if OID_Equal alg oidPasswordBasedMac || OID_Equal alg oidPBMAC1 then
        reject_if bool_decide (RequiredProtection opts = ProtectionSignature)
          with unexpected_protection
                 "message is MAC-protected but signature-based protection is required" ;;
        if OID_Equal alg oidPasswordBasedMac then verifyPBM m a opts else verifyPBMAC1 m a opts
      else if is_signature_alg alg then
        reject_if bool_decide (RequiredProtection opts = ProtectionMAC)
          with unexpected_protection
                 "message is signature-protected but MAC-based protection is required" ;;
        verifySignature now m a opts
      else Err (VerificationError ReasonUnsupportedAlgorithm
                  (Some (errorString ("OID " +:+ OID_text alg))))
  end.

(** ** Proof of possession *)

Definition VerifyPOPWithOptions (reqMsg : CertReqMsg) (allowSHA1 : bool) : option error :=
  match Popo reqMsg with
  | None => None
  | Some popo =>
      if RAVerified popo then Some (parse_error "raVerified POP not supported")
      else match pop_Signature popo with
      | None => None
      | Some sk =>
          if negb (nonempty (tmpl_PublicKey (cr_CertTemplate (CertReq reqMsg))))
          then Some (parse_error "no public key in template for POP verification")
          else match ParsePKIXPublicKey (tmpl_PublicKey (cr_CertTemplate (CertReq reqMsg))) with
          | None => Some (Errorf_w "pkicmp: parse public key for POP" x509_error)
          | Some pub =>
              let certReqDER := cr_Raw (CertReq reqMsg) in
              if negb (nonempty certReqDER)
              then Some (parse_error "no raw CertRequest DER available for POP verification")
              else
                let mismatch :=
                  errorString "pkicmp: POP algorithm does not match the requested public key" in
                match compositeSignatureAlgorithm (psk_Algorithm sk), pub with
                | Err err, _ => Some err
                | Ok (Some composite), CompositePublicKey algorithm _ =>
                    if algorithm =? composite
                    then compositemldsa_Verify pub certReqDER (psk_Signature sk)
                    else Some mismatch
                | Ok (Some _), _ => Some mismatch
                | Ok None, CompositePublicKey _ _ => Some mismatch
                | Ok None, _ =>
                    match signatureAlgorithm (psk_Algorithm sk) allowSHA1 with
                    | Err err => Some err
                    | Ok sigAlg => x509_CheckSignature (Some pub) sigAlg certReqDER (psk_Signature sk)
                    end
                end
          end
      end
  end.
Definition VerifyPOP (reqMsg : CertReqMsg) : option error := VerifyPOPWithOptions reqMsg false.

(** The request with its proof; the Go method leaves it alone on an error. *)
Definition GeneratePOP (random : bytes) (key : Signer) (m : CertReqMsg) : result CertReqMsg :=
  match Bytes (CertRequest_marshal (CertReq m)) with
  | Err err => Err (ParseError "marshal CertRequest for POP" (Some err))
  | Ok certReqDER =>
      let? (sigAlgOID, hashFunc) := signatureAlgorithmFromKey key in
      let digest := if bool_decide (hashFunc = HashNone) then certReqDER
                    else hash_Sum hashFunc certReqDER in
      match Signer_Sign key random digest hashFunc with
      | Err err => Err (ParseError "sign POP" (Some err))
      | Ok sig =>
          Ok (mkCertReqMsg (CertReq m)
                (Some (mkPOP false (Some (mkPopoSigningKey None (mkAlg sigAlgOID []) sig)) None None)))
      end
  end.

(** ** oldCertID *)

Definition oidRegCtrlOldCertID : ObjectIdentifier := [1; 3; 6; 1; 5; 5; 7; 5; 1; 5].

Definition NewOldCertIDControl (certificate : option Certificate) : result AttributeTypeAndValue :=
  match certificate with
  | None => Err (errorString "pkicmp: oldCertID certificate is nil")
  | Some cert =>
      match SerialNumber cert with
      | None => Err (errorString "pkicmp: oldCertID certificate serial number is nil")
      | Some serial =>
          let issuer := if nonempty (RawIssuer cert)
                        then NewDirectoryNameFromRawDER (RawIssuer cert)
                        else NewDirectoryName (Issuer cert) in
          match Bytes (AddASN1 SEQUENCE (GeneralName_marshal issuer ⊕ AddASN1Integer serial)) with
          | Err err => Err (Errorf_w "pkicmp: encode oldCertID" err)
          | Ok value => Ok (mkControl oidRegCtrlOldCertID value)
          end
      end
  end.

End Verify.

(** ** What a request asks for *)

Section Accessors.
Context {GN : GoNames} {GX : GoX509} {GA : GoASN1}.

Definition CertReqMsg_Subject (m : CertReqMsg) : Name :=
  let rdns := DirectoryName (tmpl_Subject (cr_CertTemplate (CertReq m))) in
  if nonempty rdns then FillFromRDNSequence rdns else emptyName.

Definition CertReqMsg_PublicKey (m : CertReqMsg) : result (option PublicKey) :=
  let key := tmpl_PublicKey (cr_CertTemplate (CertReq m)) in
  if negb (nonempty key) then Ok None
  else let? pub := of_option x509_error (ParsePKIXPublicKey key) in Ok (Some pub).

(** Octets that follow the sequence are ignored. *)
Definition CertReqMsg_Extensions (m : CertReqMsg) : result (list Extension) :=
  let exts := tmpl_Extensions (cr_CertTemplate (CertReq m)) in
  if negb (nonempty exts) then Ok []
  else let? (l, _) := of_option asn1_error (asn1_Unmarshal_Extensions exts) in Ok l.

End Accessors.
