(* ===== verification/Keeps.v ===== *)
(** * What protection leaves alone

    The body and the header fields that protecting and encoding a message keep. *)
From S2P Require Import Prelude Failure Errors Asn1 Types X509 Message Monad Algorithms Protect.

(** ** Protection leaves a message alone, but for what it sets *)

(** A header without the fields that protection sets. *)
Definition header_core (h : PKIHeader) : PKIHeader :=
  set_PVNO 0 (set_ProtectionAlg None (set_SenderKID [] h)).

Definition keeps (m m' : PKIMessage) : Prop :=
  Body m' = Body m /\ header_core (Header m') = header_core (Header m).

#[export] Instance keeps_refl : Reflexive keeps.
Proof. done. Qed.
#[export] Instance keeps_trans : Transitive keeps.
Proof. intros x y z [? ?] [? ?]. split; congruence. Qed.

Lemma keeps_header_core m m' :
  keeps m m' ->
  TransactionID (Header m') = TransactionID (Header m) /\
  SenderNonce (Header m') = SenderNonce (Header m) /\
  RecipNonce (Header m') = RecipNonce (Header m) /\
  Recipient (Header m') = Recipient (Header m) /\
  GeneralInfo (Header m') = GeneralInfo (Header m) /\ Body m' = Body m.
Proof.
  intros [Hb Hh]. destruct m as [[] ? ? ? ? ?], m' as [[] ? ? ? ? ?]. simpl in *.
  injection Hh as -> -> -> -> -> -> -> -> -> ->. done.
Qed.

Section Protection.
Context {CB : Cryptobyte} {GN : GoNames} {GX : GoX509} {GC : GoCrypto} {GP : GoPBMAC1}.

Ltac kept :=
  repeat match goal with m : PKIMessage |- _ => destruct m as [[] ? ? ? ? ?] end; repeat case_goal; done.

Lemma marshalForProtection_keeps : preserves keeps marshalForProtection.
Proof.
  intros [h [b|] p e rh rb]; [|done].
  unfold marshalForProtection, st_store, st_bind, st_get, st_modify, st_fail. simpl.
  destruct (Bytes (PKIBody_marshal b)); simpl; [|done].
  case_goal; by destruct h.
Qed.

Lemma finish_MAC_keeps h k : preserves keeps (finish_MAC h k).
Proof. unfold finish_MAC. preserves; [apply marshalForProtection_keeps | kept]. Qed.

Lemma protectWithMACOptions_keeps salt o : preserves keeps (protectWithMACOptions salt o).
Proof. unfold protectWithMACOptions. preserves; [kept | apply finish_MAC_keeps]. Qed.

Lemma protectWithPBMAC1Options_keeps salt o : preserves keeps (protectWithPBMAC1Options salt o).
Proof. unfold protectWithPBMAC1Options. preserves; [kept | apply finish_MAC_keeps]. Qed.

Lemma MACCredentials_Protect_keeps salt c : preserves keeps (MACCredentials_Protect salt c).
Proof.
  unfold MACCredentials_Protect, protectWithMACAlgorithm. preserves;
    first [apply protectWithMACOptions_keeps | apply protectWithPBMAC1Options_keeps].
Qed.

Lemma SignatureCredentials_Protect_keeps r c : preserves keeps (SignatureCredentials_Protect r c).
Proof.
  unfold SignatureCredentials_Protect, protectWithSignature. preserves;
    first [apply marshalForProtection_keeps | kept].
Qed.

Lemma Protect_keeps r c : preserves keeps (Protect r c).
Proof. destruct c; [apply MACCredentials_Protect_keeps | apply SignatureCredentials_Protect_keeps]. Qed.

(** Encoding changes the version alone. *)
Lemma MarshalBinary_keeps m : keeps m (fst (MarshalBinary m)).
Proof.
  destruct m as [h [b|] p e rh rb]; [|done]. unfold MarshalBinary, marshal_parts. cbn.
  destruct (Bytes (PKIBody_marshal b)); cbn; [by destruct h | done].
Qed.
End Protection.
