(* ===== verification/Orderly.v ===== *)
(** * Encoding, protection and verification end in order

    The counterpart of [Totality] on the side that writes and checks: with a body of its
    type, encoding and protecting a message never panics, and no error of the package
    passes for the status of a peer. *)
From S2P Require Import Prelude Failure Errors Asn1 Asn1Facts Types StatusInfo Enrollment Crmf X509 CertPath.
From S2P Require Import RevocationMsg Totality Message Monad Algorithms Protect Verify Keeps.

(** ** Results

    [ends P r]: a value, an error in order, or a panic, for the reason [P]. *)
Definition ends (P : Prop) {A} (r : result A) : Prop := completes r \/ (P /\ r = Err GoPanic).

Lemma ends_of P {A} (r : result A) : completes r -> ends P r.
Proof. by left. Qed.
Lemma ends_seq P {A B} (r : result A) (k : A -> result B) :
  ends P r -> (forall a, ends P (k a)) -> ends P (res_bind r k).
Proof. intros [H|[H ->]] Hk; [destruct r; [apply Hk | by left] | by right]. Qed.
Lemma ends_False {A} (r : result A) : ends False r -> completes r.
Proof. by intros [H|[[] _]]. Qed.

(** ** Builders *)

Create HintDb orderly.

Section Builders.
Context {CB : Cryptobyte}.

Definition encodes (P : Prop) (b : Builder) : Prop := ends P (bout b).

Context {P : Prop}.

Lemma encodes_seq b1 b2 : encodes P b1 -> encodes P b2 -> encodes P (b1 ⊕ b2).
Proof. intros H1 H2. apply ends_seq; [done|]. intros o1. apply ends_seq; [done|]. intros o2. by apply ends_of. Qed.
Lemma encodes_if c b : encodes P b -> encodes P (b_if c b).
Proof. intros H. destruct c; [exact H | by left]. Qed.
Lemma encodes_list {A} (f : A -> Builder) l : (forall x, x ∈ l -> encodes P (f x)) -> encodes P (b_list f l).
Proof.
  induction l as [|x l IH]; intros H; [by left|]. apply encodes_seq; [apply H; left|].
  apply IH. intros y Hy. apply H. by right.
Qed.
Lemma encodes_opt {A} (p : option A) f : (forall x, p = Some x -> encodes P (f x)) -> encodes P (b_opt p f).
Proof. intros H. destruct p; [by apply H | by left]. Qed.
Lemma encodes_asn1 t b : encodes P b -> encodes P (AddASN1 t b).
Proof. intros H. apply ends_seq; [done|]. intros c. by apply ends_of, of_option_total. Qed.
Lemma encodes_bytes bs : encodes P (AddBytes bs).
Proof. by left. Qed.
Lemma encodes_error e : disorderly e = false -> encodes P (SetError e).
Proof. by left. Qed.
Lemma encodes_integer n : encodes P (AddASN1Integer n).
Proof. by apply encodes_asn1, encodes_bytes. Qed.
Lemma encodes_octets bs : encodes P (AddASN1OctetString bs).
Proof. by apply encodes_asn1, encodes_bytes. Qed.
Lemma encodes_oid o : encodes P (AddASN1ObjectIdentifier o).
Proof. unfold AddASN1ObjectIdentifier. destruct (oid_content o); [by apply encodes_asn1, encodes_bytes | by left]. Qed.
Lemma encodes_time t : encodes P (AddASN1GeneralizedTime t).
Proof. unfold AddASN1GeneralizedTime. destruct (gtime_content t); [by apply encodes_asn1, encodes_bytes | by left]. Qed.
End Builders.

#[export] Hint Resolve encodes_seq encodes_if encodes_list encodes_opt encodes_asn1 encodes_bytes
  encodes_integer encodes_octets encodes_oid encodes_time : orderly.
#[export] Hint Extern 1 (encodes _ (SetError _)) => by apply encodes_error : orderly.
#[export] Hint Extern 6 (encodes _ _) => left; exact I : orderly.

(** Walks through a builder. *)
Ltac encode :=
  repeat first
    [ progress intros | done
    | match goal with
      | |- encodes _ (b_list _ _) => apply encodes_list
      | |- encodes _ (b_opt _ _) => apply encodes_opt
      | |- encodes _ (_ ⊕ _) => apply encodes_seq
      | |- encodes _ _ => solve [auto with orderly]
      | |- encodes _ (b_if _ _) => apply encodes_if
      | |- encodes _ (AddASN1 _ _) => apply encodes_asn1
      end
    | case_goal ].

(** The encoding of an INTEGER is too long for its length octets: the panic of
    [marshalImplicitBigInt]. *)
Definition overlong {CB : Cryptobyte} (n : Z) : Prop := tlv INTEGER (int_content n) = None.
Definition template_overlong {CB : Cryptobyte} (t : CertTemplate) : Prop :=
  exists n, tmpl_SerialNumber t = Some n /\ overlong n.

Section Encoders.
Context {CB : Cryptobyte} {GN : GoNames} {P : Prop}.

Lemma encodes_algorithm a : encodes P (AlgorithmIdentifier_marshal a).
Proof. unfold AlgorithmIdentifier_marshal, AlgorithmIdentifier_marshalInner. encode. Qed.
Lemma encodes_info i : encodes P (InfoTypeAndValue_marshal i).
Proof. unfold InfoTypeAndValue_marshal. encode. Qed.
Lemma encodes_freeText t : encodes P (PKIFreeText_marshal t).
Proof. unfold PKIFreeText_marshal, UTF8String_marshal. encode. Qed.
Lemma encodes_rdn rdn : encodes P (marshalRDNSequence rdn).
Proof. unfold marshalRDNSequence, ATV_marshal, UTF8String_marshal. encode. Qed.
#[local] Hint Resolve encodes_algorithm encodes_info encodes_freeText encodes_rdn : orderly.
Lemma encodes_generalName gn : encodes P (GeneralName_marshal gn).
Proof. unfold GeneralName_marshal. encode. Qed.
Lemma encodes_statusInfo si : encodes P (PKIStatusInfo_marshal si).
Proof. unfold PKIStatusInfo_marshal, failInfo_marshal, failInfo_content. encode. Qed.
#[local] Hint Resolve encodes_generalName encodes_statusInfo : orderly.

Lemma encodes_control a : encodes P (AttributeTypeAndValue_marshal a).
Proof. unfold AttributeTypeAndValue_marshal. encode. Qed.
Lemma encodes_strip what der t : encodes P (strip_or_error what der t).
Proof.
  unfold strip_or_error, stripSequence. destruct (ReadASN1 SEQUENCE der) as [[content r]|]; cbn [of_option res_bind];
    [encode | by apply encodes_error].
Qed.
#[local] Hint Resolve encodes_control encodes_strip : orderly.
Lemma encodes_serial n : (overlong n -> P) -> encodes P (serialNumber_marshal n).
Proof.
  intros Hn. unfold serialNumber_marshal, marshalImplicitBigInt, Bytes, AddASN1Integer, AddASN1.
  rewrite bout_mk. simpl. destruct (tlv INTEGER (int_content n)) eqn:E; simpl.
  - by apply ends_of, of_option_total.
  - right. by split; [apply Hn|].
Qed.
Lemma encodes_template t : (template_overlong t -> P) -> encodes P (CertTemplate_marshal t).
Proof.
  intros H. unfold CertTemplate_marshal. encode. apply encodes_serial. intros Ho. apply H. by exists x.
Qed.
Lemma encodes_request r : (template_overlong (cr_CertTemplate r) -> P) -> encodes P (CertRequest_marshal r).
Proof. intros H. unfold CertRequest_marshal. encode. by apply encodes_template. Qed.
Lemma encodes_pop p : encodes P (proofOfPossession_marshal p).
Proof.
  unfold proofOfPossession_marshal, popoSigningKey_marshal, popoSigningKey_marshalInner, popoPrivKey_marshal,
    popoSigningKeyInput_marshal, popoSigningKeyInput_marshalInner, envelopedData_marshalInner. encode.
Qed.
#[local] Hint Resolve encodes_pop : orderly.
Lemma encodes_certReqMessages l :
  (forall m, m ∈ l -> template_overlong (cr_CertTemplate (CertReq m)) -> P) ->
  encodes P (CertReqMessages_marshal l).
Proof.
  intros H. unfold CertReqMessages_marshal, CertReqMsg_marshal. encode. apply encodes_request. by apply H.
Qed.
Lemma encodes_revReq l :
  (forall d, d ∈ l -> template_overlong (CertDetails d) -> P) -> encodes P (RevReqContent_marshal l).
Proof.
  intros H. unfold RevReqContent_marshal, RevDetails_marshal. encode. apply encodes_template. by apply H.
Qed.
Lemma encodes_certConf c : encodes P (CertConfirmContent_marshal c).
Proof. unfold CertConfirmContent_marshal, CertStatus_marshal. encode. Qed.
Lemma encodes_pollReq c : encodes P (PollReqContent_marshal c).
Proof. unfold PollReqContent_marshal, pollReq_item_marshal. encode. Qed.
Lemma encodes_header h : encodes P (PKIHeader_marshal h).
Proof. unfold PKIHeader_marshal, octet_field. encode. Qed.
Lemma encodes_trailer p certs : encodes P (marshalTrailer p certs).
Proof. unfold marshalTrailer, CMPCertificate_marshal. encode. Qed.
End Encoders.

#[export] Hint Resolve encodes_algorithm encodes_info encodes_freeText encodes_rdn encodes_generalName
  encodes_statusInfo encodes_control encodes_pop encodes_certConf encodes_pollReq encodes_header
  encodes_trailer : orderly.

(** ** Messages *)

Section Messages.
Context {CB : Cryptobyte} {GN : GoNames} {GX : GoX509}.

(** A body that can be written without a panic, but for the reason [P]. *)
Definition writable (P : Prop) (m : PKIMessage) : Prop :=
  exists b, Body m = Some b /\ encodes P (PKIBody_marshal b).

(** The templates of what a client sends. *)
Definition templates (c : BodyContent) : list CertTemplate :=
  match c with
  | C_ir l | C_cr l | C_kur l => (fun m => cr_CertTemplate (CertReq m)) <$> l
  | C_rr l => CertDetails <$> l
  | _ => []
  end.

Definition client_body (t : BodyType) (c : BodyContent) : Prop :=
  match c with
  | C_ir _ => t = BodyTypeIR | C_cr _ => t = BodyTypeCR | C_kur _ => t = BodyTypeKUR
  | C_p10cr _ => t = BodyTypeP10CR | C_rr _ => t = BodyTypeRR | C_certConf _ => t = BodyTypeCertConf
  | C_pollReq _ => t = BodyTypePollReq | _ => False
  end.

Lemma new_body_writable P t c :
  (forall x, x ∈ templates c -> template_overlong x -> P) -> client_body t c ->
  encodes P (PKIBody_marshal (new_body t c)).
Proof.
  intros Ht. destruct c; try done; intros ->; unfold new_body; cbn [PKIBody_marshal nonempty negb andb];
    repeat match goal with |- context [?a =? ?b] =>
      let v := eval vm_compute in (a =? b) in change (a =? b) with v end; cbv iota;
    encode; first [ apply encodes_certReqMessages | apply encodes_revReq ];
    intros x Hx; apply Ht; cbn [templates]; apply list_elem_of_fmap; by exists x.
Qed.

Lemma plain_body_writable P t c : templates c = [] -> client_body t c -> encodes P (PKIBody_marshal (new_body t c)).
Proof. intros H. apply new_body_writable. rewrite H. intros x Hx. by apply not_elem_of_nil in Hx. Qed.

Lemma MarshalBinary_ends P m : writable P m -> ends P (snd (MarshalBinary m)).
Proof.
  intros (b & Hb & He). unfold MarshalBinary. rewrite Hb. unfold marshal_parts, Bytes.
  unfold encodes in He. destruct (bout (PKIBody_marshal b)) as [raw|e]; cbn [snd].
  2: { destruct He as [He|[Hp [= ->]]]; [by left | by right]. }
  change (encodes P (AddASN1 SEQUENCE (PKIHeader_marshal (set_PVNO (required_pvno (Header m) (PKIBody_marshal b))
    (Header m)) ⊕ AddBytes raw ⊕ marshalTrailer (Protection m) (ExtraCerts m)))). encode.
Qed.

Lemma protectedPart_completes m : completes (protectedPart m).
Proof.
  apply ends_False. unfold protectedPart. case_goal; [|by left]. case_goal; [by left|].
  change (encodes False (AddASN1 SEQUENCE (AddBytes (rawHeader m) ⊕ AddBytes (rawBody m)))). encode.
Qed.
End Messages.

(** ** Protection *)

Section Protection.
Context {CB : Cryptobyte} {L : CryptobyteLaws CB} {GN : GoNames} {GX : GoX509} {GC : GoCrypto} {GP : GoPBMAC1}.

Lemma hashFromOID_completes oid : completes (hashFromOID oid).
Proof. unfold hashFromOID. total. Qed.
Lemma hmacHashFromOID_completes oid : completes (hmacHashFromOID oid).
Proof. unfold hmacHashFromOID. total. Qed.
Lemma wrap_verification_completes {A} r (x : result A) : completes x -> completes (wrap_verification r x).
Proof. by destruct x. Qed.
Lemma iterations_completes n : completes (validatePBMIterationCount n).
Proof. unfold validatePBMIterationCount. total. Qed.
Lemma keyLength_completes n h : completes (validatePBKDF2KeyLength n h).
Proof. unfold validatePBKDF2KeyLength. total. Qed.
Lemma derivePBMKey_completes secret salt n h mac : completes (derivePBMKey secret salt n h mac).
Proof. unfold derivePBMKey. total. Qed.
#[export] Instance total_pbmParameter : Total pbmParameter_unmarshal.
Proof. unfold Total, pbmParameter_unmarshal. total. apply iterations_completes. Qed.
Lemma parsePBKDF2_completes der : completes (parsePBKDF2Params der).
Proof. unfold parsePBKDF2Params. total. Qed.
Lemma marshalPBMAC1_completes salt n k prf mac : completes (marshalPBMAC1Params salt n k prf mac).
Proof. unfold marshalPBMAC1Params. total. Qed.
Lemma keyAlgorithm_completes key : completes (signatureAlgorithmFromKey key).
Proof. unfold signatureAlgorithmFromKey. total. Qed.

(** A step that keeps a writable body and ends in order, but for the reason [P]. *)
Context (P : Prop).
Definition orderly {A} (x : ST PKIMessage A) : Prop :=
  forall m, writable P m -> writable P (fst (x m)) /\ ends P (snd (x m)).

Lemma orderly_bind {A B} (x : ST PKIMessage A) (k : A -> ST PKIMessage B) :
  orderly x -> (forall a, orderly (k a)) -> orderly (st_bind x k).
Proof.
  intros Hx Hk m Hm. specialize (Hx m Hm). unfold st_bind. destruct (x m) as [m1 [a|e]]; destruct Hx as [Hx He].
  - by apply Hk.
  - split; [done|]. destruct He as [He|[Hp [= ->]]]; [by left | by right].
Qed.
Lemma orderly_get {B} (k : PKIMessage -> ST PKIMessage B) :
  (forall m, writable P m -> orderly (k m)) -> orderly (st_bind st_get k).
Proof. intros Hk m Hm. by apply Hk. Qed.
Lemma orderly_lift {A} (r : result A) : ends P r -> orderly (st_lift r).
Proof. by intros Hr m Hm. Qed.
Lemma orderly_fail {A} e : disorderly e = false -> orderly (@st_fail PKIMessage A e).
Proof. intros Hr m Hm. by split; [|left]. Qed.
Lemma orderly_modify f : (forall m, Body (f m) = Body m) -> orderly (st_modify f).
Proof. intros Hf m (b & Hb & He). split; [|by left]. exists b. simpl. by rewrite Hf. Qed.
Lemma orderly_store set r : (forall raw m, Body (set raw m) = Body m) -> ends P r -> orderly (st_store set r).
Proof.
  intros Hf Hr. destruct r as [a|e]; [by apply orderly_modify|].
  apply orderly_bind; [by apply orderly_modify|]. intros _. apply (orderly_lift (Err e)).
  destruct Hr as [Hr|[Hp [= ->]]]; [by left | by right].
Qed.

Lemma orderly_marshal : orderly marshalForProtection.
Proof.
  apply orderly_get. intros m (b & Hb & He). rewrite Hb.
  apply orderly_bind; [apply orderly_store; [by intros raw [] | exact He]|]. intros _.
  apply orderly_bind; [apply orderly_modify; by intros []|]. intros _.
  apply orderly_store; [by intros raw []|]. apply encodes_header.
Qed.
Lemma orderly_MAC h key : completes key -> orderly (finish_MAC h key).
Proof.
  intros Hk. apply orderly_bind; [apply orderly_marshal|]. intros _. apply orderly_get. intros m _.
  apply orderly_bind; [by apply orderly_lift, ends_of, protectedPart_completes|]. intros data.
  apply orderly_bind; [by apply orderly_lift, ends_of|]. intros k. apply orderly_modify. by intros [].
Qed.

Ltac orderly :=
  repeat first
    [ match goal with
      | |- forall _, _ => intros ?
      | |- orderly (st_bind st_get _) => apply orderly_get
      | |- orderly (st_bind _ _) => apply orderly_bind
      | |- orderly (st_lift _) => first [ apply orderly_lift, ends_of | apply orderly_lift ]
      | |- orderly (st_fail _) => by apply orderly_fail
      | |- orderly (st_modify _) => apply orderly_modify; by intros []
      end
    | case_goal ].

Lemma orderly_PBM salt o : orderly (protectWithMACOptions salt o).
Proof.
  unfold protectWithMACOptions. orderly.
  - apply iterations_completes.
  - apply hashFromOID_completes.
  - apply hmacHashFromOID_completes.
  - apply ends_False. change (encodes False (pbmParameter_marshal (mkPBM salt (mkAlg (default defaultPBMOWF (mo_OWF o)) (mo_OWFParameters o))
      (or_default (mo_IterationCount o) defaultPBMIterationCount)
      (mkAlg (default defaultPBMMAC (mo_MAC o)) (mo_MACParameters o))))). unfold pbmParameter_marshal. encode.
  - apply orderly_MAC, derivePBMKey_completes.
Qed.
Lemma orderly_PBMAC1 salt o : orderly (protectWithPBMAC1Options salt o).
Proof.
  unfold protectWithPBMAC1Options. orderly.
  - apply iterations_completes.
  - apply hmacHashFromOID_completes.
  - apply hmacHashFromOID_completes.
  - apply keyLength_completes.
  - apply marshalPBMAC1_completes.
  - by apply orderly_MAC.
Qed.
Lemma orderly_MACCredentials salt c : orderly (MACCredentials_Protect salt c).
Proof.
  unfold MACCredentials_Protect. case_goal.
  - unfold protectWithMACAlgorithm. orderly; first [apply orderly_PBM | apply orderly_PBMAC1 | idtac].
    + by apply of_option_total.
    + apply parsePBKDF2_completes.
    + apply total_spec.
  - case_goal; [apply orderly_PBMAC1 | apply orderly_PBM].
Qed.

Hypothesis Hsign : forall key random digest h, completes (Signer_Sign key random digest h).

Lemma orderly_signature random key crt chain : orderly (protectWithSignature random key crt chain).
Proof.
  unfold protectWithSignature. apply orderly_get. intros m0 _. case_goal; [orderly|].
  pose proof (keyAlgorithm_completes key) as Hk.
  destruct (signatureAlgorithmFromKey key) as [[oid h]|e]; [|by apply orderly_fail].
  orderly; first [apply orderly_marshal | apply protectedPart_completes | apply Hsign].
Qed.

Lemma Protect_ends random creds m : writable P m -> ends P (snd (Protect random creds m)).
Proof. intros H. destruct creds; [by apply orderly_MACCredentials | by apply orderly_signature]. Qed.

Lemma GeneratePOP_template random key m m' :
  GeneratePOP random key m = Ok m' -> cr_CertTemplate (CertReq m') = cr_CertTemplate (CertReq m).
Proof.
  unfold GeneratePOP. intros H. case_in H; [|done].
  apply res_bind_ok in H as ([oid h] & _ & H). case_in H; [|done]. by injection H as <-.
Qed.
Lemma GeneratePOP_completes random key m :
  tmpl_SerialNumber (cr_CertTemplate (CertReq m)) = None -> completes (GeneratePOP random key m).
Proof.
  intros Ht. unfold GeneratePOP.
  assert (He : completes (bout (CertRequest_marshal (CertReq m)))).
  { apply ends_False, encodes_request. intros (n & Hn & _). congruence. } 
  unfold Bytes. destruct (bout (CertRequest_marshal (CertReq m))); [|exact He].
  apply bind_total; [apply keyAlgorithm_completes|]. intros [oid h].
  pose proof (Hsign key random (if bool_decide (h = HashNone) then a else hash_Sum h a) h) as Hs.
  destruct (Signer_Sign _ _ _ _); [done | exact Hs].
Qed.
End Protection.

(** ** Verification *)

Section Verification.
Context {CB : Cryptobyte} {L : CryptobyteLaws CB} {GN : GoNames} {GX : GoX509} {GA : GoASN1} {GC : GoCrypto}
  {GP : GoPBMAC1}.

Lemma available_completes h what oid : completes (check_available h what oid).
Proof. unfold check_available. total. Qed.

Lemma verifyPBM_completes m alg o : completes (verifyPBM m alg o).
Proof.
  unfold verifyPBM.
  total; first [apply iterations_completes | apply available_completes | apply protectedPart_completes
    | apply wrap_verification_completes;
      first [apply hashFromOID_completes | apply hmacHashFromOID_completes | apply derivePBMKey_completes]].
Qed.
Lemma verifyPBMAC1_completes m alg o : completes (verifyPBMAC1 m alg o).
Proof.
  unfold verifyPBMAC1.
  total; first [apply iterations_completes | apply available_completes | apply protectedPart_completes
    | apply parsePBKDF2_completes | apply keyLength_completes
    | apply wrap_verification_completes, hmacHashFromOID_completes].
Qed.

Lemma try_candidates_completes pool inter t sender o check certs st :
  completes (try_candidates pool inter t sender o check certs st).
Proof. revert st. induction certs as [|crt certs IH]; intros st; cbn [try_candidates]; total; apply IH. Qed.

Lemma signatureChecker_completes alg sha1 : completes (signatureChecker alg sha1).
Proof.
  unfold signatureChecker. apply bind_total.
  - unfold compositeSignatureAlgorithm. total.
  - intros [composite|]; [done|]. apply bind_total; [|done]. unfold signatureAlgorithm.
    case_goal; [done|]. case_goal; [by case_goal|]. unfold sigAlgFromOID. total.
Qed.

Lemma verifySignature_completes t m alg o : completes (verifySignature t m alg o).
Proof.
  unfold verifySignature. apply bind_total; [apply signatureChecker_completes|]. intros check.
  apply bind_total; [apply protectedPart_completes|]. intros data.
  case_goal; [total|]. case_goal; [apply try_candidates_completes | done].
Qed.

Lemma Verify_completes t m o : completes (Verify t m o).
Proof.
  unfold Verify. repeat case_goal; try done;
    first [apply verifyPBM_completes | apply verifyPBMAC1_completes | apply verifySignature_completes].
Qed.

(** ** What a client builds *)

Lemma CertHash_completes crt : completes (CertHash_of crt).
Proof. unfold CertHash_of. total. Qed.
Lemma NewCertStatus_completes crt id : completes (NewCertStatus crt id).
Proof. unfold NewCertStatus. case_goal; first [done | apply bind_total; [apply CertHash_completes | done]]. Qed.
Lemma NewRevDetails_completes crt reason : completes (NewRevDetails crt reason).
Proof. unfold NewRevDetails. total. Qed.
Lemma NewOldCertIDControl_completes crt : completes (NewOldCertIDControl crt).
Proof.
  unfold NewOldCertIDControl. case_goal; [|done]. case_goal; [|done].
  match goal with |- context [Bytes ?b] => assert (H : encodes False b) by encode end.
  apply ends_False in H. unfold Bytes in *. by destruct (bout _).
Qed.

Lemma certpath_completes candidates roots t crt e :
  completes (x509_Verify crt roots candidates t) ->
  certpath_Verify candidates roots t crt = Some e -> disorderly e = false.
Proof.
  unfold certpath_Verify. destruct (x509_Verify crt roots candidates t) as [|e']; [done|].
  intros He. destruct (snd _); [done|]. by intros [= <-].
Qed.
End Verification.
