(* ===== verification/Http.v ===== *)
(** * HTTP

    What the client and the server use of [net/http], [mime] and [io]. A body is the
    octets it gives and the error that ends it, [None] being the end of the file. *)
From S2P Require Import Prelude Failure Errors X509.

(** An [http.Response], with its Content-Type header. *)
Record http_Response := mkHTTPResponse {
  StatusCode : Z;
  ContentType : string;
  resp_Body : bytes;
  resp_BodyErr : option error
}.

(** An [http.Request], with its Content-Type header. *)
Record http_Request := mkHTTPRequest {
  Method : string;
  req_ContentType : string;
  req_Body : bytes;
  req_BodyErr : option error
}.

Definition StatusOK : Z := 200.
Definition StatusBadRequest : Z := 400.
Definition StatusMethodNotAllowed : Z := 405.
Definition StatusUnsupportedMediaType : Z := 415.
Definition StatusInternalServerError : Z := 500.

(** [mime.ParseMediaType], the texts of [net/http], [time] and [fmt], what
    [http.NewRequestWithContext] says of the endpoint, and whether a key has a method
    [Equal]. *)
Class GoHTTP := {
  mime_ParseMediaType : string -> option string;
  http_StatusText : Z -> string;
  http_NewRequest : string -> option error;
  Duration_String : Z -> string;
  has_Equal : PublicKey -> bool;
  type_text : option PublicKey -> string
}.

(** [io.ReadAll] of a body, or of [io.LimitReader] on it: the limit ends the reading
    before the error that follows. *)
Definition io_ReadAll (limit : option Z) (body : bytes) (bodyErr : option error) : result bytes :=
  let all := match bodyErr with None => Ok body | Some err => Err err end in
  match limit with
  | None => all
  | Some n => if n <=? Z.of_nat (length body) then Ok (take (Z.to_nat n) body) else all
  end.

(** [isCMPMediaType] of both packages. *)
Definition isCMPMediaType {GH : GoHTTP} (value : string) : bool :=
  match mime_ParseMediaType value with
  | Some mediaType => bool_decide (mediaType = "application/pkixcmp")
  | None => false
  end.

Lemma io_ReadAll_bound n body bodyErr b :
  0 <= n -> io_ReadAll (Some n) body bodyErr = Ok b ->
  Z.of_nat (length b) <= n /\ b = take (Z.to_nat n) body.
Proof.
  intros Hn H. cbn in H. destruct (Z.leb_spec n (Z.of_nat (length body))).
  - apply Ok_inj in H as <-. rewrite length_take. split; [lia | done].
  - destruct bodyErr; [done|]. apply Ok_inj in H as <-.
    split; [lia|]. by rewrite take_ge by lia.
Qed.
