(* ===== verification/ProtectFacts.v ===== *)
(** * Protection and verification

    What [Protect] puts on a message, [Verify] accepts after the message went over
    the wire; what [Verify] accepts was made with the shared secret or signed by a
    certificate the options trust. *)
From S2P Require Import Prelude Failure Errors Monad Asn1 Asn1Facts Types TypesFacts.
From S2P Require Import EnrollmentFacts X509 CertPath Message MessageFacts BodyFacts.
From S2P Require Import Algorithms Protect Verify.

(** ** The parameters a peer may choose *)

Lemma validatePBMIterationCount_ok n :
  validatePBMIterationCount n = Ok tt <-> 1 <= n <= 500000.
Proof.
  unfold validatePBMIterationCount, defaultPBMMinIterationCount, defaultPBMMaxIterationCount.
  destruct (Z.ltb_spec n 1); [by split; [|lia]|]. destruct (Z.ltb_spec 500000 n); split; (done || lia).
Qed.

Lemma validatePBKDF2KeyLength_ok n h :
  validatePBKDF2KeyLength n h = Ok tt <-> 16 <= n <= Hash_BlockSize h.
Proof.
  unfold validatePBKDF2KeyLength, defaultPBKDF2MinKeyLength.
  destruct (Z.ltb_spec n 16); [by split; [|lia]|]. destruct (Z.ltb_spec (Hash_BlockSize h) n);
    split; (done || lia).
Qed.

Lemma hashFromOID_range oid h :
  hashFromOID oid = Ok h -> h = SHA1 \/ h = SHA224 \/ h = SHA256 \/ h = SHA384 \/ h = SHA512.
Proof. unfold hashFromOID. repeat case_goal; intros [= <-]; tauto. Qed.

Lemma hmacHashFromOID_range oid h :
  hmacHashFromOID oid = Ok h -> h = SHA1 \/ h = SHA224 \/ h = SHA256 \/ h = SHA384 \/ h = SHA512.
Proof. unfold hmacHashFromOID. repeat case_goal; intros [= <-]; tauto. Qed.

(** ** What the crypto packages promise *)

(** [digest_of h data]: what a signer is given. *)
Definition digest_of {GC : GoCrypto} (h : Hash) (data : bytes) : bytes :=
  if bool_decide (h = HashNone) then data else hash_Sum h data.

(** A signature is good for the key, under the algorithm [oid] names. *)
Definition key_accepts {GX : GoX509} (pub : PublicKey) (oid : ObjectIdentifier) (data sig : bytes)
    : Prop :=
  match pub with
  | CompositePublicKey a _ =>
      composite_AlgorithmFromOID oid = Some a /\ compositemldsa_Verify pub data sig = None
  | _ => composite_AlgorithmFromOID oid = None
         /\ forall alg, sigAlgFromOID oid = Ok alg -> x509_CheckSignature (Some pub) alg data sig = None
  end.

(** The hashes the package links are available, a MAC is as long as its hash, and a
    signature made with a key verifies with its public key. The object identifiers
    of composite ML-DSA are none of the MACs, and those of the keys have components in
    the range of the readers. *)
Class GoCryptoLaws (GX : GoX509) (GC : GoCrypto) : Prop := {
  Hash_linked h :
    h = SHA1 \/ h = SHA224 \/ h = SHA256 \/ h = SHA384 \/ h = SHA512 -> Hash_Available h = true;
  hmac_length h k d : 0 < Hash_Size h -> Z.of_nat (length (hmac_Sum h k d)) = Hash_Size h;
  Sign_verifies key random data oid h sig :
    signatureAlgorithmFromKey key = Ok (oid, h) ->
    Signer_Sign key random (digest_of h data) h = Ok sig ->
    sig <> [] /\ key_accepts (Signer_Public key) oid data sig;
  composite_not_mac oid :
    oid = oidPasswordBasedMac \/ oid = oidPBMAC1 -> composite_AlgorithmFromOID oid = None;
  composite_key_OID key a raw :
    Signer_Public key = CompositePublicKey a raw -> OID_ok (composite_OID a) = true
}.

(** The certificate carries [pub], as [crypto/x509] and the composite package read
    it. *)
Definition cert_key {GX : GoX509} (cert : Certificate) (pub : PublicKey) : Prop :=
  match pub with
  | CompositePublicKey _ _ => ParsePKIXPublicKey (RawSubjectPublicKeyInfo cert) = Some pub
  | _ => cert_PublicKey cert = Some pub
  end.

Section Wire.
Context {CB : Cryptobyte} {L : CryptobyteLaws CB} {GN : GoNames} {GX : GoX509}.

(** ** Encoding for protection and for the wire *)

(** A message a caller may protect and send; [s] and [r] are the names the peer
    reads. *)
Definition sendable (s r : GeneralName) (b : PKIBody) (m : PKIMessage) : Prop :=
  Body m = Some b /\ dirty b = true /\ ContextSpecific (Type_ b) = Type_ b
  /\ PKIHeader_wf s r (Header m) /\ Forall CMPCertificate_wf (ExtraCerts m).

(** The message as the peer has it. *)
Definition received (s r : GeneralName) (b : PKIBody) (m m' : PKIMessage) : Prop :=
  Header m' = received_header s r (Header m) /\ Protection m' = Protection m
  /\ ExtraCerts m' = ExtraCerts m /\ rawHeader m' = rawHeader m /\ rawBody m' = rawBody m
  /\ Body m' = Some (mkPKIBody (Type_ b) (rawBody m) false None None).

Lemma sent_header_idem h b : sent_header (sent_header h b) b = sent_header h b.
Proof.
  unfold sent_header. destruct h as [v s r t a sk rk ti sn rn ft gi p]. simpl. f_equal.
  unfold required_pvno. destruct (bpvno (PKIBody_marshal b)); [done|]. unfold initial_pvno. simpl.
  destruct (Z.ltb_spec PVNO2 v) as [Hv|]; [|done]. by rewrite (proj2 (Z.ltb_lt _ _) Hv).
Qed.

(** The message that [marshalForProtection] leaves. *)
Definition encoded (m : PKIMessage) (b : PKIBody) (rawH rawB : bytes) : PKIMessage :=
  set_rawHeader rawH (set_rawBody rawB (set_Header (sent_header (Header m) b) m)).

Lemma marshalForProtection_ok m m1 :
  marshalForProtection m = (m1, Ok tt) ->
  exists b rawH rawB, Body m = Some b /\ bout (PKIBody_marshal b) = Ok rawB
    /\ bout (PKIHeader_marshal (sent_header (Header m) b)) = Ok rawH
    /\ m1 = encoded m b rawH rawB.
Proof.
  unfold marshalForProtection, st_bind, st_get, st_modify, st_store, st_fail, Bytes.
  destruct m as [h [b|] p ec rh rb]; [|done]. simpl.
  destruct (bout (PKIBody_marshal b)) as [rawB|] eqn:EB; [|done]. simpl.
  change (set_PVNO (required_pvno h (PKIBody_marshal b)) h) with (sent_header h b).
  destruct (bout (PKIHeader_marshal (sent_header h b))) as [rawH|] eqn:EH; [|done]. simpl.
  intros [= <-]. by exists b, rawH, rawB.
Qed.

(** The bytes on the wire are those that were protected. *)
Lemma protected_wire s r b m rawH rawB protection m2 e :
  sendable s r b m -> bout (PKIBody_marshal b) = Ok rawB ->
  bout (PKIHeader_marshal (sent_header (Header m) b)) = Ok rawH ->
  MarshalBinary (set_Protection protection (encoded m b rawH rawB)) = (m2, Ok e) ->
  m2 = set_Protection protection (encoded m b rawH rawB)
  /\ exists m3, ParsePKIMessage e = Ok m3 /\ received s r b m2 m3.
Proof.
  intros (Hb & Hd & Ht & Hh & Hc) HB HH H. destruct m as [h b0 p ec rh rb]. simpl in *. subst b0.
  eapply (MarshalBinary_rt s r _ b) in H; [|done|by apply sent_header_wf|done..].
  destruct H as (rawH' & rawB' & HB' & HH' & -> & Hp). simpl in *. rewrite sent_header_idem in *.
  replace rawB' with rawB in * by congruence. replace rawH' with rawH in * by congruence.
  split; [done|]. eexists. split; [exact Hp | done].
Qed.

Lemma protectedPart_received s r b m m' : received s r b m m' -> Body m <> None ->
  protectedPart m' = protectedPart m.
Proof.
  intros (_ & _ & _ & Hrh & Hrb & Hb) Hm. unfold protectedPart. rewrite Hb, Hrh, Hrb.
  by destruct (Body m).
Qed.

(** A received body holds the content it was made of. *)
Lemma received_content s r c m m' :
  received s r (body_of c) m m' -> content_wf c ->
  bout (PKIBody_marshal (body_of c)) = Ok (rawBody m) ->
  exists b', Body m' = Some b' /\ get_body b' = Ok c.
Proof. intros (_ & _ & _ & _ & _ & Hb) Hc H. eexists. split; [done|]. by apply body_rt. Qed.

End Wire.

(** ** MAC protection *)
Section MAC.
Context {CB : Cryptobyte} {L : CryptobyteLaws CB} {GN : GoNames} {GX : GoX509} {GC : GoCrypto}
  {GL : GoCryptoLaws GX GC} {GP : GoPBMAC1} {PL : GoPBMAC1Laws CB GP}.

(** The header with the protection algorithm a call chose. *)
Definition with_alg (a : AlgorithmIdentifier) (m : PKIMessage) : PKIMessage :=
  set_Header (set_ProtectionAlg (Some a) (Header m)) m.

Lemma finish_MAC_ok macHash key m m1 :
  finish_MAC macHash key m = (m1, Ok tt) ->
  exists b rawH rawB data k, Body m = Some b /\ bout (PKIBody_marshal b) = Ok rawB
    /\ bout (PKIHeader_marshal (sent_header (Header m) b)) = Ok rawH
    /\ protectedPart (encoded m b rawH rawB) = Ok data /\ key = Ok k
    /\ m1 = set_Protection (hmac_Sum macHash k data) (encoded m b rawH rawB).
Proof.
  unfold finish_MAC. intros H. st_inv.
  destruct (marshalForProtection_ok _ _ E) as (b & rawH & rawB & Hb & HB & HH & ->).
  eexists b, rawH, rawB, _, _. eauto 10.
Qed.

(** What a successful [protectWithMACOptions] did. *)
Lemma protectWithMACOptions_ok salt opts m m1 :
  protectWithMACOptions salt opts m = (m1, Ok tt) ->
  exists alg hash macHash params,
    let n := or_default (mo_IterationCount opts) defaultPBMIterationCount in
    let owf := default defaultPBMOWF (mo_OWF opts) in
    let mac := default defaultPBMMAC (mo_MAC opts) in
    mo_Algorithm opts = Some alg /\ nonempty (mo_Secret opts) = true /\ 1 <= n <= 500000
    /\ hashFromOID owf = Ok hash /\ hmacHashFromOID mac = Ok macHash
    /\ bout (pbmParameter_marshal (mkPBM salt (mkAlg owf (mo_OWFParameters opts)) n
                                    (mkAlg mac (mo_MACParameters opts)))) = Ok params
    /\ finish_MAC macHash (derivePBMKey (mo_Secret opts) salt n hash macHash)
         (with_alg (mkAlg alg params) m) = (m1, Ok tt).
Proof.
  unfold protectWithMACOptions. intros H. st_inv.
  destruct (mo_Algorithm opts) as [alg|]; [|done]. st_inv.
  apply validatePBMIterationCount_ok in E. apply negb_false_iff in C0.
  eexists alg, _, _, _. eauto 10.
Qed.

(** What a successful [protectWithPBMAC1Options] did. *)
Lemma protectWithPBMAC1Options_ok salt opts m m1 :
  protectWithPBMAC1Options salt opts m = (m1, Ok tt) ->
  exists macHash prfHash params,
    let n := or_default (po_IterationCount opts) defaultPBMIterationCount in
    let prf := default oidHMACWithSHA256 (po_PRF opts) in
    let mac := default oidHMACWithSHA256 (po_MAC opts) in
    let keyLen := or_default (po_KeyLength opts) (Hash_Size macHash) in
    nonempty (po_Secret opts) = true /\ 1 <= n <= 500000
    /\ hmacHashFromOID mac = Ok macHash /\ hmacHashFromOID prf = Ok prfHash
    /\ 16 <= keyLen <= Hash_BlockSize macHash
    /\ marshalPBMAC1Params salt n keyLen prf mac = Ok params
    /\ finish_MAC macHash (Ok (pbkdf2_Key (po_Secret opts) salt n keyLen prfHash))
         (with_alg (mkAlg oidPBMAC1 params) m) = (m1, Ok tt).
Proof.
  unfold protectWithPBMAC1Options. intros H. st_inv.
  apply validatePBMIterationCount_ok in E. apply validatePBKDF2KeyLength_ok in E2.
  apply negb_false_iff in C0. eexists _, _, _. eauto 10.
Qed.

Lemma hmac_nonempty h k d oid : hmacHashFromOID oid = Ok h -> nonempty (hmac_Sum h k d) = true.
Proof.
  intros Hh. apply nonempty_true. intros E.
  pose proof (hmac_length h k d) as Hl. rewrite E in Hl.
  destruct (hmacHashFromOID_range _ _ Hh) as [->|[->|[->|[->| ->]]]]; by specialize (Hl eq_refl).
Qed.

Lemma check_available_linked h what oid :
  h = SHA1 \/ h = SHA224 \/ h = SHA256 \/ h = SHA384 \/ h = SHA512 ->
  check_available h what oid = Ok tt.
Proof. intros Hh. unfold check_available. by rewrite (Hash_linked h Hh). Qed.

Lemma pbmParameter_rt p e :
  bout (pbmParameter_marshal p) = Ok e -> 1 <= pbm_IterationCount p <= 500000 ->
  AlgorithmIdentifier_wf (pbm_OWF p) -> AlgorithmIdentifier_wf (pbm_MAC p) ->
  pbmParameter_unmarshal e = Ok p.
Proof.
  destruct p as [salt owf n mac]. simpl. intros H Hn Ho Hm.
  assert (int64_ok n = true) by (unfold int64_ok; lia).
  unfold pbmParameter_marshal in H. simpl in H. rt_inv. unfold pbmParameter_unmarshal.
  rt_starts. rt_step. unfold AddASN1OctetString in *. rt_inv. rt_run.
  by rewrite (proj2 (validatePBMIterationCount_ok n) Hn).
Qed.

(** The options of a verifier that shares [secret] and accepts MAC protection. *)
Definition accepts_mac (o : VerifyOptions) (secret : bytes) : Prop :=
  SharedSecret o = secret /\ RequiredProtection o <> ProtectionSignature.

Lemma sendable_with_alg s r b a m :
  sendable s r b m -> AlgorithmIdentifier_wf a -> sendable s r b (with_alg a m).
Proof.
  destruct m as [h b0 p ec rh rb]. intros (Hb & Hd & Ht & (Hv & Hs & Hr & _ & Hi) & Hc) Ha.
  simpl in *. do 3 (split; [done|]). split; [|done]. by destruct h.
Qed.

(** What the peer has of a message that [finish_MAC] protected. *)
Lemma mac_wire s r b m a macHash oid key m1 m2 e :
  sendable s r b m -> AlgorithmIdentifier_wf a -> hmacHashFromOID oid = Ok macHash ->
  finish_MAC macHash key (with_alg a m) = (m1, Ok tt) -> MarshalBinary m1 = (m2, Ok e) ->
  m2 = m1 /\ exists m3 data k,
    ParsePKIMessage e = Ok m3 /\ received s r b m1 m3 /\ key = Ok k
    /\ protectedPart m3 = Ok data /\ bytes_eqb (hmac_Sum macHash k data) (Protection m3) = true
    /\ nonempty (Protection m3) = true /\ ProtectionAlg (Header m3) = Some a.
Proof.
  intros Hs Ha Hm H Hw. apply sendable_with_alg with (a := a) in Hs; [|done].
  destruct (finish_MAC_ok _ _ _ _ H) as (b' & rawH & rawB & data & k & Hb & HB & HH & Hd & Hk & ->).
  destruct Hs as (Hb' & Hs). replace b' with b in * by congruence.
  eapply protected_wire in Hw; [|done..].
  destruct Hw as (-> & m3 & Hp & Hrec). split; [done|]. exists m3, data, k.
  pose proof Hrec as (Hh & Hprot & _).
  split; [done|]. split; [done|]. split; [done|].
  split; [rewrite (protectedPart_received _ _ _ _ _ Hrec)|].
  - by destruct m.
  - destruct m; simpl in *. congruence.
  - rewrite Hprot. destruct m as [h b0 p ec rh rb]; simpl.
    split; [apply bytes_eqb_refl|]. split; [by eapply hmac_nonempty|]. rewrite Hh. by destruct h.
Qed.

Lemma pbm_verified s r b salt opts m m1 m2 e now o :
  sendable s r b m -> protectWithMACOptions salt opts m = (m1, Ok tt) ->
  mo_Algorithm opts = Some oidPasswordBasedMac ->
  AlgorithmIdentifier_wf (mkAlg [] (mo_OWFParameters opts)) ->
  AlgorithmIdentifier_wf (mkAlg [] (mo_MACParameters opts)) ->
  MarshalBinary m1 = (m2, Ok e) -> accepts_mac o (mo_Secret opts) ->
  m2 = m1 /\ exists m3, ParsePKIMessage e = Ok m3 /\ received s r b m1 m3
    /\ Algorithm <$> ProtectionAlg (Header m3) = Some oidPasswordBasedMac
    /\ Verify now m3 o =
       Ok (mkVerifyResult true
             (Some (PBM_params
                (mkPBM salt (mkAlg (default defaultPBMOWF (mo_OWF opts)) (mo_OWFParameters opts))
                   (or_default (mo_IterationCount opts) defaultPBMIterationCount)
                   (mkAlg (default defaultPBMMAC (mo_MAC opts)) (mo_MACParameters opts))))) None).
Proof.
  intros Hs H Halg Hop Hmp Hw (Hsec & Hreq). apply protectWithMACOptions_ok in H.
  destruct H as (alg & hash & macHash & params & Ha & Hne & Hn & Ho & Hm & Hpar & H).
  rewrite Halg in Ha. injection Ha as <-.
  assert (Helem : AlgorithmIdentifier_wf (mkAlg oidPasswordBasedMac params)).
  { split; [done|]. right. left. apply bout_AddASN1 in Hpar as (c & _ & Hc). by exists SEQUENCE, c. }
  destruct (mac_wire _ _ _ _ _ _ _ _ _ _ _ Hs Helem Hm H Hw)
    as (-> & m3 & data & k & Hp & Hrec & Hk & Hd & Heq & Hprot & HA).
  split; [done|]. exists m3. split; [done|]. split; [done|]. split; [by rewrite HA|].
  unfold Verify. rewrite HA, Hprot. destruct (Body m3) eqn:Eb; [|by unfold protectedPart in Hd; rewrite Eb in Hd].
  cbn [is_nil negb Algorithm]. rewrite OID_Equal_refl. cbn [orb].
  rewrite bool_decide_eq_false_2 by done. unfold verifyPBM. rewrite Hsec, Hne. cbn [negb Parameters_].
  rewrite (pbmParameter_rt _ _ Hpar Hn (conj (hashFromOID_OID_ok _ _ Ho) (proj2 Hop))
             (conj (hmacHashFromOID_OID_ok _ _ Hm) (proj2 Hmp))). cbn [res_bind pbm_IterationCount pbm_OWF pbm_MAC Algorithm].
  rewrite (proj2 (validatePBMIterationCount_ok _) Hn), Ho, Hm. cbn [res_bind wrap_verification].
  rewrite (check_available_linked hash) by (by eapply hashFromOID_range).
  rewrite (check_available_linked macHash) by (by eapply hmacHashFromOID_range). cbn [res_bind].
  rewrite Hd. cbn [res_bind pbm_Salt]. rewrite Hk. cbn [res_bind wrap_verification].
  by rewrite Heq.
Qed.

Lemma PBMAC1_params_rt salt n keyLen prf mac params :
  marshalPBMAC1Params salt n keyLen prf mac = Ok params -> prf <> [] ->
  OID_ok prf = true -> OID_ok mac = true ->
  exists kdf, asn1_Unmarshal_PBMAC1 params = Some (mkPBMAC1 (mkAlg oidPBKDF2 kdf) (mkAlg mac []))
    /\ parsePBKDF2Params kdf = Ok (mkPBKDF2 salt n keyLen (mkAlg prf [])).
Proof.
  unfold marshalPBMAC1Params. intros H Hprf Ho Hm. split_res. exists a.
  split; [apply PBMAC1_asn1; [split; [done|right; by eapply PBKDF2_element] | by split; [|left] | done]|].
  unfold parsePBKDF2Params. rewrite (PBKDF2_asn1 _ _) with (2 := E); [|by case_match; split; try left].
  simpl.
  destruct (OID_Equal prf oidHMACWithSHA1) eqn:Ep; simpl.
  - by apply OID_Equal_eq in Ep as ->.
  - by rewrite (proj2 (nonempty_true prf) Hprf).
Qed.

Lemma pbmac1_verified s r b salt opts m m1 m2 e now o :
  sendable s r b m -> protectWithPBMAC1Options salt opts m = (m1, Ok tt) ->
  MarshalBinary m1 = (m2, Ok e) -> accepts_mac o (po_Secret opts) ->
  m2 = m1 /\ exists m3 macHash, ParsePKIMessage e = Ok m3 /\ received s r b m1 m3
    /\ Algorithm <$> ProtectionAlg (Header m3) = Some oidPBMAC1
    /\ let mac := default oidHMACWithSHA256 (po_MAC opts) in
       hmacHashFromOID mac = Ok macHash
    /\ Verify now m3 o =
       Ok (mkVerifyResult true
             (Some (PBMAC1_params (or_default (po_IterationCount opts) defaultPBMIterationCount)
                (or_default (po_KeyLength opts) (Hash_Size macHash))
                (default oidHMACWithSHA256 (po_PRF opts)) mac)) None).
Proof.
  intros Hs H Hw (Hsec & Hreq). apply protectWithPBMAC1Options_ok in H.
  destruct H as (macHash & prfHash & params & Hne & Hn & Hm & Hprf & Hk & Hpar & H).
  assert (Helem : AlgorithmIdentifier_wf (mkAlg oidPBMAC1 params)).
  { split; [done|]. right. left. unfold marshalPBMAC1Params in Hpar. split_res. by eapply PBMAC1_element. }
  destruct (mac_wire _ _ _ _ _ _ _ _ _ _ _ Hs Helem Hm H Hw)
    as (-> & m3 & data & k & Hp & Hrec & [= <-] & Hd & Heq & Hprot & HA).
  split; [done|]. exists m3, macHash. split; [done|]. split; [done|]. split; [by rewrite HA|]. split; [done|].
  destruct (PBMAC1_params_rt _ _ _ _ _ _ Hpar) as (kdf & Hu & Hkdf).
  { intros E. by rewrite E in Hprf. }
  { by eapply hmacHashFromOID_OID_ok. }
  { by eapply hmacHashFromOID_OID_ok. }
  unfold Verify. rewrite HA, Hprot. destruct (Body m3) eqn:Eb; [|by unfold protectedPart in Hd; rewrite Eb in Hd].
  cbn [is_nil negb Algorithm]. change (OID_Equal oidPBMAC1 oidPasswordBasedMac) with false.
  rewrite OID_Equal_refl. cbn [orb].
  rewrite bool_decide_eq_false_2 by done. unfold verifyPBMAC1. rewrite Hsec, Hne. cbn [negb Parameters_].
  rewrite Hu. cbn [of_option res_bind KeyDerivationFunc MessageAuthScheme Algorithm Parameters_].
  rewrite OID_Equal_refl, Hkdf. cbn [negb res_bind kdf_IterationCount kdf_KeyLength PRF kdf_Salt Algorithm].
  rewrite (proj2 (validatePBMIterationCount_ok _) Hn), Hprf, Hm. cbn [res_bind wrap_verification].
  rewrite (check_available_linked prfHash) by (by eapply hmacHashFromOID_range).
  rewrite (check_available_linked macHash) by (by eapply hmacHashFromOID_range). cbn [res_bind].
  assert (Ek : or_default (or_default (po_KeyLength opts) (Hash_Size macHash)) (Hash_Size macHash)
    = or_default (po_KeyLength opts) (Hash_Size macHash)).
  { unfold or_default at 1. destruct (Z.eqb_spec (or_default (po_KeyLength opts) (Hash_Size macHash)) 0);
      [lia|done]. }
  rewrite Ek, (proj2 (validatePBKDF2KeyLength_ok _ _) Hk), Hd. cbn [res_bind]. by rewrite Heq.
Qed.

(** ** Shared-secret credentials *)

(** The configurations the options of the package make, with parameters that can
    be written. *)
Definition mac_config_wf (cfg : macCredentialConfig) : Prop :=
  match mc_protectionAlg cfg with
  | None =>
      (mc_algorithm cfg = None \/ mc_algorithm cfg = Some oidPasswordBasedMac
       \/ mc_algorithm cfg = Some oidPBMAC1)
      /\ AlgorithmIdentifier_wf (mkAlg [] (mc_owfParameters cfg))
      /\ AlgorithmIdentifier_wf (mkAlg [] (mc_macParameters cfg))
  | Some _ => True
  end.

Lemma pbmParameter_unmarshal_wf s p :
  pbmParameter_unmarshal s = Ok p ->
  AlgorithmIdentifier_wf (mkAlg [] (Parameters_ (pbm_OWF p))) /\
  AlgorithmIdentifier_wf (mkAlg [] (Parameters_ (pbm_MAC p))).
Proof.
  unfold pbmParameter_unmarshal. intros H. split_res.
  repeat match goal with E : AlgorithmIdentifier_unmarshal _ = _ |- _ =>
    apply AlgorithmIdentifier_unmarshal_wf in E as [_ ?] end.
  by split; split.
Qed.

(** The algorithm a configuration protects with. *)
Definition configured_alg (cfg : macCredentialConfig) : ObjectIdentifier :=
  match mc_protectionAlg cfg with
  | Some alg => Algorithm alg
  | None => default oidPBMAC1 (mc_algorithm cfg)
  end.

Lemma mac_credentials_verified s r b salt c m m1 m2 e now o :
  sendable s r b m -> mac_config_wf (mac_cfg c) -> MACCredentials_Protect salt c m = (m1, Ok tt) ->
  MarshalBinary m1 = (m2, Ok e) -> accepts_mac o (mac_secret c) ->
  m2 = m1 /\ exists m3 params, ParsePKIMessage e = Ok m3 /\ received s r b m1 m3
    /\ Algorithm <$> ProtectionAlg (Header m3) = Some (configured_alg (mac_cfg c))
    /\ Verify now m3 o = Ok (mkVerifyResult true (Some params) None).
Proof.
  destruct c as [secret cfg]. unfold MACCredentials_Protect, mac_config_wf, configured_alg. simpl.
  intros Hs Hcfg H Hw Ho. destruct (mc_protectionAlg cfg) as [alg|].
  - unfold protectWithMACAlgorithm in H. case_in H.
    + apply OID_Equal_eq in E. rewrite E. st_inv. destruct (pbmac1_verified _ _ _ _ _ _ _ _ _ now o Hs H Hw Ho)
        as (-> & m3 & mh & Hp & Hrec & Halg3 & _ & Hv). eauto 10.
    + case_in H; [|done]. apply OID_Equal_eq in E0. rewrite E0. st_inv.
      apply pbmParameter_unmarshal_wf in E1 as [Howf Hmac].
      destruct (pbm_verified _ _ _ _ _ _ _ _ _ now o Hs H (f_equal Some E0) Howf Hmac Hw Ho)
        as (-> & m3 & Hp & Hrec & Halg3 & Hv). eauto 10.
  - destruct Hcfg as (Halg & Howf & Hmac). case_in H.
    + apply OID_Equal_eq in E. rewrite E. destruct (pbmac1_verified _ _ _ _ _ _ _ _ _ now o Hs H Hw Ho)
        as (-> & m3 & mh & Hp & Hrec & Halg3 & _ & Hv). eauto 10.
    + destruct Halg as [Ha|[Ha|Ha]]; rewrite Ha in *; try done.
      destruct (pbm_verified _ _ _ _ _ _ _ _ _ now o Hs H eq_refl Howf Hmac Hw Ho)
        as (-> & m3 & Hp & Hrec & Halg3 & Hv). eauto 10.
Qed.

(** What a protection with a shared secret makes of a message. *)
Lemma MACCredentials_Protect_ok salt c m m1 :
  MACCredentials_Protect salt c m = (m1, Ok tt) ->
  exists a b rawH rawB mac, Body m = Some b /\ bout (PKIBody_marshal b) = Ok rawB
    /\ m1 = set_Protection mac (encoded (with_alg a m) b rawH rawB).
Proof.
  intros H. assert (Hf : exists h k a, finish_MAC h k (with_alg a m) = (m1, Ok tt)).
  { assert (Hpbm : forall o, protectWithMACOptions salt o m = (m1, Ok tt) ->
              exists h k a, finish_MAC h k (with_alg a m) = (m1, Ok tt))
      by (intros o (? & ? & ? & ? & _ & _ & _ & _ & _ & _ & Hf)%protectWithMACOptions_ok; eauto).
    assert (Hpbmac1 : forall o, protectWithPBMAC1Options salt o m = (m1, Ok tt) ->
              exists h k a, finish_MAC h k (with_alg a m) = (m1, Ok tt))
      by (intros o (? & ? & ? & _ & _ & _ & _ & _ & _ & Hf)%protectWithPBMAC1Options_ok; eauto).
    unfold MACCredentials_Protect, protectWithMACAlgorithm in H.
    destruct (mc_protectionAlg (mac_cfg c)); repeat (case_in H; try done); st_inv; eauto. }
  destruct Hf as (h & k & a & Hf). apply finish_MAC_ok in Hf as (b & rawH & rawB & data & key & Hb & HB & _ & _ & _ & ->).
  eexists a, b, rawH, rawB, _. split; [by destruct m | done].
Qed.

(** ** What an accepted MAC proves *)

(** The key a verifier derives for [alg], and the hash of its MAC. *)
Inductive mac_key (secret : bytes) (alg : AlgorithmIdentifier) : Hash -> bytes -> Prop :=
| key_PBM p hash macHash k :
    Algorithm alg = oidPasswordBasedMac -> pbmParameter_unmarshal (Parameters_ alg) = Ok p ->
    1 <= pbm_IterationCount p <= 500000 -> hashFromOID (Algorithm (pbm_OWF p)) = Ok hash ->
    hmacHashFromOID (Algorithm (pbm_MAC p)) = Ok macHash ->
    derivePBMKey secret (pbm_Salt p) (pbm_IterationCount p) hash macHash = Ok k ->
    mac_key secret alg macHash k
| key_PBMAC1 kdf mac prfHash macHash keyLength :
    Algorithm alg = oidPBMAC1 ->
    (exists params, asn1_Unmarshal_PBMAC1 (Parameters_ alg) = Some params
       /\ Algorithm (KeyDerivationFunc params) = oidPBKDF2
       /\ parsePBKDF2Params (Parameters_ (KeyDerivationFunc params)) = Ok kdf
       /\ Algorithm (MessageAuthScheme params) = mac) ->
    1 <= kdf_IterationCount kdf <= 500000 -> hmacHashFromOID (Algorithm (PRF kdf)) = Ok prfHash ->
    hmacHashFromOID mac = Ok macHash ->
    keyLength = or_default (kdf_KeyLength kdf) (Hash_Size macHash) ->
    16 <= keyLength <= Hash_BlockSize macHash ->
    mac_key secret alg macHash
      (pbkdf2_Key secret (kdf_Salt kdf) (kdf_IterationCount kdf) keyLength prfHash).

Lemma wrap_verification_ok {A} r (x : result A) a : wrap_verification r x = Ok a -> x = Ok a.
Proof. destruct x; simpl; congruence. Qed.

Local Ltac verify_inv :=
  repeat match goal with
  | H : (if ?c then Err _ else _) = Ok _ |- _ =>
      let E := fresh "C" in destruct c eqn:E; [discriminate H|]
  | H : negb _ = false |- _ => apply negb_false_iff in H
  | H : bytes_eqb _ _ = true |- _ => apply bytes_eqb_eq in H
  | H : OID_Equal _ _ = true |- _ => apply OID_Equal_eq in H
  | H : wrap_verification _ _ = Ok _ |- _ => apply wrap_verification_ok in H
  | H : validatePBMIterationCount _ = Ok ?u |- _ => destruct u; apply validatePBMIterationCount_ok in H
  | H : validatePBKDF2KeyLength _ _ = Ok ?u |- _ => destruct u; apply validatePBKDF2KeyLength_ok in H
  | _ => progress split_res
  end.

(** A signature check gives the certificate, and nothing of a MAC. *)
Lemma Verify_is_signature now m a o res :
  verifySignature now m a o = Ok res -> exists cert, res = mkVerifyResult false None (Some cert).
Proof.
  unfold verifySignature. intros H. verify_inv. destruct (TrustedCert o) as [c|].
  - verify_inv. case_in H; [done|]. injection H as <-. by eexists.
  - destruct (TrustPool o) as [pool|]; [|done]. revert H.
    generalize (mkCandidates false false 0) as st. generalize (vo_ExtraCerts o) at 2 as certs.
    induction certs as [|c certs IH]; intros st; simpl; [repeat case_goal; done|].
    repeat (case_goal || apply IH). intros [= <-]. by eexists.
Qed.

(** What [Verify] accepts as a MAC is the MAC of the received bytes, under the key of
    the shared secret and of parameters within the bounds. *)
Lemma Verify_mac_sound now m o res :
  Verify now m o = Ok res -> MACVerified res = true ->
  RequiredProtection o <> ProtectionSignature /\ nonempty (SharedSecret o) = true
  /\ exists alg h k data, ProtectionAlg (Header m) = Some alg
     /\ mac_key (SharedSecret o) alg h k /\ protectedPart m = Ok data
     /\ Protection m = hmac_Sum h k data.
Proof.
  unfold Verify. intros H Hmac. destruct (ProtectionAlg (Header m)) as [a|]; [|done].
  verify_inv. case_in H.
  - verify_inv. split; [by apply bool_decide_eq_false in C1|]. case_in H.
    + unfold verifyPBM in H. verify_inv. split; [done|]. eexists _, _, _, _.
      split; [done|]. split; [by eapply key_PBM|]. done.
    + rewrite orb_false_l in E. apply OID_Equal_eq in E.
      unfold verifyPBMAC1 in H. verify_inv. split; [done|]. eexists _, _, _, _.
      split; [done|]. split; [|done]. eapply key_PBMAC1; try done. by eexists.
  - case_in H; [|done]. verify_inv. exfalso.
    by destruct (Verify_is_signature now m a o res H) as (cert & ->).
Qed.

(** The parameters an accepted message is answered with: the configuration they make
    is one of the package, for the algorithm of the message. *)
Lemma echo_config now m o res params :
  Verify now m o = Ok res -> ProtectionParams res = Some params ->
  exists alg, ProtectionAlg (Header m) = Some alg /\ SharedSecret o <> []
    /\ RequiredProtection o <> ProtectionSignature
    /\ let cfg := params emptyMacConfig in
       mac_config_wf cfg /\ configured_alg cfg = Algorithm alg /\ mc_err cfg = None
       /\ 1 <= mc_iterationCount cfg <= 500000.
Proof.
  unfold Verify. intros H Hpar. destruct (ProtectionAlg (Header m)) as [a|]; [|done].
  exists a. split; [done|]. verify_inv. case_in H.
  - verify_inv. apply bool_decide_eq_false in C1. case_in H.
    + apply OID_Equal_eq in E0. unfold verifyPBM in H. verify_inv. simpl in Hpar.
      injection Hpar as <-. split; [by apply nonempty_true|]. split; [done|].
      split; [|done]. split; [by right; left|]. by eapply pbmParameter_unmarshal_wf.
    + rewrite orb_false_l in E. apply OID_Equal_eq in E. unfold verifyPBMAC1 in H. verify_inv.
      simpl in Hpar. injection Hpar as <-. split; [by apply nonempty_true|]. split; [done|].
      split; [|done]. split; [by right; right|]. split; by split; [|left].
  - case_in H; [|done]. verify_inv. exfalso.
    destruct (Verify_is_signature now m a o res H) as (cert & ->). done.
Qed.

End MAC.
