(* ===== verification/SignatureFacts.v ===== *)
(** * Signature protection

    The certificates [protectWithSignature] attaches, the acceptance of its
    signatures by [Verify], and what [Verify] established of a certificate whose
    signature it accepted. Proofs of possession likewise. *)
From S2P Require Import Prelude Failure Errors Monad Asn1 Asn1Facts Types TypesFacts.
From S2P Require Import EnrollmentFacts Crmf CrmfFacts X509 CertPath Message MessageFacts.
From S2P Require Import BodyFacts Algorithms Protect Verify ProtectFacts.

(** ** dedupeCertificates *)

Lemma dedupe_from_spec seen certs :
  (forall c, c ∈ dedupe_from seen certs <-> c ∈ certs /\ cert_Raw c ∉ seen)
  /\ NoDup (cert_Raw <$> dedupe_from seen certs) /\ dedupe_from seen certs `sublist_of` certs.
Proof.
  revert seen. induction certs as [|c certs IH]; intros seen; simpl.
  - split; [set_solver|]. split; constructor.
  - destruct (bool_decide_reflect (cert_Raw c ∈ seen)) as [Hin|Hin].
    + destruct (IH seen) as (Hm & Hn & Hs). split; [|split; [done|by constructor]].
      intros x. rewrite Hm, elem_of_cons. naive_solver.
    + destruct (IH (cert_Raw c :: seen)) as (Hm & Hn & Hs). split; [|split; [|by constructor]].
      * intros x. rewrite !elem_of_cons, Hm, not_elem_of_cons. split; [naive_solver|].
        intros [[->|Hx] Hns]; [by left|]. destruct (decide (cert_Raw x = cert_Raw c)) as [E|E].
        -- left. destruct x, c. simpl in E. by subst.
        -- by right.
      * rewrite fmap_cons. constructor; [|done]. rewrite list_elem_of_fmap.
        intros (x & E & Hx%Hm). set_solver.
Qed.

Lemma dedupe_head c certs : exists rest, dedupeCertificates (c :: certs) = c :: rest.
Proof. by eexists. Qed.

Lemma dedupe_Forall P certs : Forall P certs -> Forall P (dedupeCertificates certs).
Proof.
  rewrite !Forall_forall. intros H c Hc. apply H.
  by apply (proj1 (dedupe_from_spec [] certs)) in Hc as [Hc _].
Qed.

Section Signature.
Context {CB : Cryptobyte} {L : CryptobyteLaws CB} {GN : GoNames} {GX : GoX509} {GC : GoCrypto}
  {GL : GoCryptoLaws GX GC} {GP : GoPBMAC1}.

(** ** The algorithm of a key *)

Lemma signatureAlgorithmFromKey_cases key oid h :
  signatureAlgorithmFromKey key = Ok (oid, h) ->
  (exists a mat, Signer_Public key = CompositePublicKey a mat /\ oid = composite_OID a)
  \/ (match Signer_Public key with CompositePublicKey _ _ => False | _ => True end
      /\ exists alg, sigAlgFromOID oid = Ok alg /\ sha1SigAlgFromOID oid = None).
Proof.
  unfold signatureAlgorithmFromKey. destruct (Signer_Public key); intros H.
  5: { injection H as <- <-. left. by eexists _, _. }
  all: right; split; [done|]; repeat case_in H; try done; injection H as <- <-; by eexists.
Qed.

(** The checker a peer builds for a signature of [key] accepts it. *)
Lemma signatureChecker_accepts key random data oid h sig cert allow :
  signatureAlgorithmFromKey key = Ok (oid, h) ->
  Signer_Sign key random (digest_of h data) h = Ok sig -> cert_key cert (Signer_Public key) ->
  sig <> [] /\ is_signature_alg oid = true
  /\ (OID_Equal oid oidPasswordBasedMac || OID_Equal oid oidPBMAC1) = false
  /\ exists check, signatureChecker (mkAlg oid []) allow = Ok check /\ check cert data sig = None.
Proof.
  intros Hk Hs Hc. destruct (Sign_verifies key random data oid h sig Hk Hs) as [Hne Hacc].
  split; [done|]. unfold signatureChecker, compositeSignatureAlgorithm, is_signature_alg.
  cbn [Algorithm Parameters_ nonempty].
  destruct (signatureAlgorithmFromKey_cases _ _ _ Hk) as [(a & mat & Hp & Ho) | (Hp & alg & Ha & Hsha)].
  - rewrite Hp in *. destruct Hacc as [Hoid Hv]. rewrite Hoid. cbn [res_bind is_nil negb].
    split; [by rewrite orb_true_r|]. split.
    + apply orb_false_iff. split; apply not_true_iff_false; intros E%OID_Equal_eq;
        rewrite composite_not_mac in Hoid; auto; done.
    + eexists. split; [done|]. unfold composite_check. rewrite Hc, Z.eqb_refl. done.
  - assert (Hacc' : composite_AlgorithmFromOID oid = None
      /\ x509_CheckSignature (Some (Signer_Public key)) alg data sig = None).
    { unfold key_accepts in Hacc. destruct (Signer_Public key); try done; naive_solver. }
    destruct Hacc' as [Hoid Hv].
    assert (Hcert : cert_PublicKey cert = Some (Signer_Public key)).
    { unfold cert_key in Hc. by destruct (Signer_Public key). }
    rewrite Hoid, Ha, Hsha. cbn [res_bind is_nil negb is_ok orb].
    split; [done|]. split.
    + apply orb_false_iff. split; apply not_true_iff_false; intros E%OID_Equal_eq; by rewrite E in Ha.
    + exists (fun cert data sig => x509_CheckSignature (cert_PublicKey cert) alg data sig).
      unfold signatureAlgorithm. cbn [Algorithm Parameters_ nonempty].
      rewrite andb_false_r, Hsha, Ha. split; [done|]. by rewrite Hcert.
Qed.

(** ** protectWithSignature *)

Definition attached (cert : Certificate) (chain : list Certificate) (m : PKIMessage)
    : list CMPCertificate :=
  dedupeCertificates
    (mkCMPCertificate (Raw cert) :: ((fun c => mkCMPCertificate (Raw c)) <$> chain) ++ ExtraCerts m).

(** The message before it is encoded: algorithm, key identifier and certificates. *)
Definition prepared (oid : ObjectIdentifier) (cert : Certificate) (chain : list Certificate)
    (m : PKIMessage) : PKIMessage :=
  let h := set_ProtectionAlg (Some (mkAlg oid [])) (Header m) in
  set_ExtraCerts (attached cert chain m)
    (set_Header (if nonempty (SubjectKeyId cert) then set_SenderKID (SubjectKeyId cert) h else h) m).

Lemma protectWithSignature_ok random key cert chain m m1 :
  protectWithSignature random key cert chain m = (m1, Ok tt) ->
  exists oid h b rawH rawB data sig,
    let m0 := prepared oid cert chain m in
    signatureAlgorithmFromKey key = Ok (oid, h) /\ Body m = Some b
    /\ bout (PKIBody_marshal b) = Ok rawB
    /\ bout (PKIHeader_marshal (sent_header (Header m0) b)) = Ok rawH
    /\ protectedPart (encoded m0 b rawH rawB) = Ok data
    /\ Signer_Sign key random (digest_of h data) h = Ok sig
    /\ m1 = set_Protection sig (encoded m0 b rawH rawB).
Proof.
  unfold protectWithSignature. intros H. st_inv.
  destruct (signatureAlgorithmFromKey key) as [[oid h]|]; [|done]. st_inv.
  match goal with H : marshalForProtection _ = _ |- _ =>
    destruct (marshalForProtection_ok _ _ H) as (b & rawH & rawB & Hb & HB & HH & Hm) end.
  destruct m as [hd b0 p ec rh rb]. unfold prepared, attached. simpl in *.
  exists oid, h, b, rawH, rawB. destruct (nonempty (SubjectKeyId cert)); simpl in *; subst;
    eexists _, _; eauto 10.
Qed.

Lemma keyAlgorithm_OID_ok key oid h : signatureAlgorithmFromKey key = Ok (oid, h) -> OID_ok oid = true.
Proof.
  unfold signatureAlgorithmFromKey. destruct (Signer_Public key) eqn:Ep;
    repeat (case_goal; [by intros [= <- _]|]); try done; intros [= <- _]; try done.
  by eapply composite_key_OID.
Qed.

Lemma sendable_prepared s r b oid cert chain m :
  OID_ok oid = true -> sendable s r b m -> element (Raw cert) -> Forall (fun c => element (Raw c)) chain ->
  sendable s r b (prepared oid cert chain m).
Proof.
  intros Ho (Hb & Hd & Ht & (Hv & Hs & Hr & _ & Hi) & Hec) Hc Hch. destruct m as [h b0 p ec rh rb].
  simpl in *. split; [done|]. split; [done|]. split; [done|]. split.
  - destruct h; simpl in *. destruct (nonempty _); simpl; (split; [done|]); (split; [done|]);
      (split; [done|]); (split; [|done]); (split; [done|]); by left.
  - apply dedupe_Forall. constructor; [done|]. apply Forall_app. split; [|done].
    apply Forall_fmap. eapply Forall_impl; [exact Hch|]. done.
Qed.

(** The verifier trusts [cert] for [sender]: it holds it, or it gets it with the
    message and finds a path to an anchor. *)
Definition trusts (now : Time) (o : VerifyOptions) (cert : Certificate) (sender : GeneralName)
    (extraCerts : list CMPCertificate) : Prop :=
  RequiredProtection o <> ProtectionMAC /\ senderMatchesCertificate sender cert = true
  /\ (RequireDigitalSignatureKeyUsage o = true -> permittedToSign cert = true)
  /\ match TrustedCert o with
     | Some c => c = cert /\ NotBefore cert <= now <= NotAfter cert
     | None =>
         vo_ExtraCerts o = extraCerts /\ kid_skips o cert = false
         /\ x509_ParseCertificate (Raw cert) = Some cert
         /\ exists pool, TrustPool o = Some pool
              /\ certpath_Verify (parse_all extraCerts) pool now cert = None
     end.

Lemma signature_verified s r b random key cert chain m m1 m2 e now o :
  sendable s r b m -> element (Raw cert) -> Forall (fun c => element (Raw c)) chain ->
  cert_key cert (Signer_Public key) -> protectWithSignature random key cert chain m = (m1, Ok tt) ->
  MarshalBinary m1 = (m2, Ok e) -> trusts now o cert s (ExtraCerts m1) ->
  m2 = m1 /\ exists m3, ParsePKIMessage e = Ok m3 /\ received s r b m1 m3
    /\ Verify now m3 o = Ok (mkVerifyResult false None (Some cert)).
Proof.
  intros Hs Hc Hch Hkey H Hw (Hreq & Hsender & Hku & Htrust).
  apply protectWithSignature_ok in H.
  destruct H as (oid & h & b' & rawH & rawB & data & sig & Hk & Hb & HB & HH & Hd & Hsig & ->).
  replace b' with b in * by (destruct Hs; congruence).
  apply sendable_prepared with (oid := oid) (cert := cert) (chain := chain) in Hs; [|by eapply keyAlgorithm_OID_ok|done..].
  eapply protected_wire in Hw; [|done..]. destruct Hw as (-> & m3 & Hp & Hrec).
  split; [done|]. exists m3. split; [done|]. split; [done|].
  assert (Hbody : Body m3 <> None) by (by destruct Hrec as (_ & _ & _ & _ & _ & ->)).
  assert (HA : ProtectionAlg (Header m3) = Some (mkAlg oid []) /\ Sender (Header m3) = s
    /\ Protection m3 = sig /\ protectedPart m3 = Ok data).
  { rewrite (protectedPart_received _ _ _ _ _ Hrec).
    - destruct Hrec as (-> & -> & _). destruct m as [hd b0 p ec rh rb], hd. unfold prepared. simpl.
      destruct (nonempty _); done.
    - by destruct m; simpl in *; subst. }
  destruct HA as (HA & HS & HP & HD).
  destruct (signatureChecker_accepts _ _ _ _ _ _ _ (AllowSHA1Signatures o) Hk Hsig Hkey)
    as (Hne & Hissig & Hnotmac & check & Hcheck & Hok).
  unfold Verify. rewrite HA, HP, (proj2 (nonempty_true sig) Hne).
  destruct (Body m3); [|done]. cbn [negb is_nil Algorithm].
  rewrite Hnotmac, Hissig, bool_decide_eq_false_2 by done.
  unfold verifySignature. rewrite Hcheck, HD, HS, HP. cbn [res_bind].
  assert (Hperm : RequireDigitalSignatureKeyUsage o && negb (permittedToSign cert) = false).
  { destruct (RequireDigitalSignatureKeyUsage o); [|done]. by rewrite Hku. }
  destruct (TrustedCert o) as [c|].
  - destruct Htrust as (-> & Hv). rewrite (proj2 (Z.ltb_ge _ _)), (proj2 (Z.ltb_ge _ _)) by lia.
    cbn [orb]. by rewrite Hsender, Hperm, Hok.
  - destruct Htrust as (Hex & Hkid & Hparse & pool & Hpool & Hpath). rewrite Hpool.
    assert (Hhead : exists rest, vo_ExtraCerts o = mkCMPCertificate (Raw cert) :: rest).
    { rewrite Hex. unfold prepared, encoded, attached. destruct m; simpl. by eexists. }
    rewrite <- Hex in Hpath. destruct Hhead as (rest & Hhead).
    remember (parse_all (vo_ExtraCerts o)) as inter. rewrite Hhead. cbn [try_candidates].
    unfold CMPCertificate_Parse. cbn [cert_Raw]. by rewrite Hparse, Hkid, Hpath, Hsender, Hperm, Hok.
Qed.

(** ** What an accepted signature proves *)

(** Every check of the candidate whose signature was accepted. *)
Definition candidate_accepted (pool : CertPool) (inter : list Certificate) (now : Time)
    (sender : GeneralName) (o : VerifyOptions) (check : Certificate -> option error)
    (certs : list CMPCertificate) (cert : Certificate) : Prop :=
  (exists c, c ∈ certs /\ CMPCertificate_Parse c = Some cert) /\ kid_skips o cert = false
  /\ certpath_Verify inter pool now cert = None /\ senderMatchesCertificate sender cert = true
  /\ (RequireDigitalSignatureKeyUsage o = true -> permittedToSign cert = true)
  /\ check cert = None.

Lemma try_candidates_sound pool inter now sender o check certs st res :
  try_candidates pool inter now sender o check certs st = Ok res ->
  exists cert, res = mkVerifyResult false None (Some cert)
    /\ candidate_accepted pool inter now sender o check certs cert.
Proof.
  revert st. induction certs as [|c certs IH]; intros st H; simpl in H; [repeat case_in H; done|].
  assert (Hrec : forall st, try_candidates pool inter now sender o check certs st = Ok res ->
    exists cert, res = mkVerifyResult false None (Some cert)
      /\ candidate_accepted pool inter now sender o check (c :: certs) cert).
  { intros st' (cert & Hr & (c' & Hc' & Hp) & Hrest)%IH. exists cert. split; [done|].
    split; [|done]. exists c'. split; [by right|done]. }
  destruct (CMPCertificate_Parse c) as [cert|] eqn:Ep; [|by eapply Hrec].
  destruct (kid_skips o cert) eqn:Ekid; [by eapply Hrec|]. destruct st as [mm rj n].
  destruct (certpath_Verify inter pool now cert) eqn:Ev; [by eapply Hrec|].
  destruct (senderMatchesCertificate sender cert) eqn:Es; cbn [negb] in H; [|by eapply Hrec].
  destruct (RequireDigitalSignatureKeyUsage o && _) eqn:Eku; [by eapply Hrec|].
  destruct (check cert) eqn:Ec; [by eapply Hrec|]. injection H as <-. exists cert.
  split; [done|]. split; [exists c; split; [by left|done]|]. repeat (split; [done|]).
  split; [|done]. intros Hds. rewrite Hds in Eku. by apply negb_false_iff in Eku.
Qed.

(** The certificate [Verify] returns signed the received bytes, is the subject the
    header names, may sign, and is trusted: held by the verifier and valid now, or
    received and chaining to the pool. *)
Lemma Verify_signature_sound now m o res :
  Verify now m o = Ok res -> MACVerified res = false ->
  RequiredProtection o <> ProtectionMAC
  /\ exists alg cert check data, ProtectionAlg (Header m) = Some alg
     /\ ProtectionCertificate res = Some cert
     /\ signatureChecker alg (AllowSHA1Signatures o) = Ok check
     /\ protectedPart m = Ok data /\ check cert data (Protection m) = None
     /\ senderMatchesCertificate (Sender (Header m)) cert = true
     /\ (RequireDigitalSignatureKeyUsage o = true -> permittedToSign cert = true)
     /\ match TrustedCert o with
        | Some c => cert = c /\ NotBefore c <= now <= NotAfter c
        | None => exists pool, TrustPool o = Some pool
            /\ (exists c, c ∈ vo_ExtraCerts o /\ CMPCertificate_Parse c = Some cert)
            /\ kid_skips o cert = false
            /\ certpath_Verify (parse_all (vo_ExtraCerts o)) pool now cert = None
        end.
Proof.
  unfold Verify. intros H Hmac. destruct (ProtectionAlg (Header m)) as [a|]; [|done].
  case_in H; [done|]. case_in H; [done|]. case_in H.
  { case_in H; [done|]. exfalso. case_in H.
    - unfold verifyPBM in H. case_in H; [done|]. split_res. case_in H; [done|]. by injection H as <-.
    - unfold verifyPBMAC1 in H. case_in H; [done|]. split_res. case_in H; [done|]. split_res.
      case_in H; [done|]. by injection H as <-. }
  case_in H; [|done]. case_in H; [done|]. apply bool_decide_eq_false in E3. split; [done|].
  unfold verifySignature in H. split_res. exists a.
  destruct (TrustedCert o) as [c|].
  - case_in H; [done|]. apply orb_false_iff in E6 as [Ht1%Z.ltb_ge Ht2%Z.ltb_ge].
    case_in H; [done|]. apply negb_false_iff in E6. case_in H; [done|]. case_in H; [done|].
    injection H as <-. eexists c, _, _. split; [done|]. split; [done|]. split; [done|].
    split; [done|]. split; [done|]. split; [done|]. split; [|done].
    intros Hds. rewrite Hds in E7. by apply negb_false_iff in E7.
  - destruct (TrustPool o) as [pool|]; [|done].
    apply try_candidates_sound in H as (cert & -> & Hex & Hkid & Hpath & Hs & Hku & Hc).
    eexists cert, _, _. repeat (split; [done|]). by exists pool.
Qed.

(** ** Proof of possession *)

(** A generated proof verifies, once the request it proves is the encoded one. *)
Lemma GeneratePOP_verifies random key req m' pub :
  Signer_Public key = pub ->
  ParsePKIXPublicKey (tmpl_PublicKey (cr_CertTemplate req)) = Some pub ->
  tmpl_PublicKey (cr_CertTemplate req) <> [] -> bout (CertRequest_marshal req) = Ok (cr_Raw req) ->
  GeneratePOP random key (mkCertReqMsg req None) = Ok m' ->
  CertReq m' = req /\ forall allowSHA1, VerifyPOPWithOptions m' allowSHA1 = None.
Proof.
  intros Hpub Hparse Hne Hraw H. unfold GeneratePOP in H. cbn [CertReq] in H.
  unfold Bytes in H. rewrite Hraw in H. split_res.
  destruct (Signer_Sign _ _ _ _) as [sig|] eqn:E0 in H; [|done]. injection H as <-. split; [done|]. cbn [CertReq].
  destruct (Sign_verifies key random (cr_Raw req) _ _ sig E E0) as [Hsig Hacc].
  intros allowSHA1. unfold VerifyPOPWithOptions. cbn [Popo RAVerified pop_Signature CertReq psk_Algorithm psk_Signature].
  rewrite (proj2 (nonempty_true _) Hne), Hparse. cbn [negb].
  assert (Hr : nonempty (cr_Raw req) = true).
  { by destruct (CertRequest_starts _ _ I Hraw) as (e' & ->). }
  rewrite Hr. cbn [negb]. unfold compositeSignatureAlgorithm. cbn [Algorithm Parameters_ nonempty].
  destruct (signatureAlgorithmFromKey_cases _ _ _ E) as [(c & mat & Hp & Ho) | (Hp & alg & Ha & Hsha)].
  - unfold key_accepts in Hacc. rewrite <- Hpub, Hp in *. destruct Hacc as [-> Hv]. by rewrite Z.eqb_refl.
  - rewrite Hpub in *. unfold key_accepts in Hacc.
    assert (Hacc' : composite_AlgorithmFromOID l = None
      /\ x509_CheckSignature (Some pub) alg (cr_Raw req) sig = None) by (destruct pub; naive_solver).
    destruct Hacc' as [-> Hv]. unfold signatureAlgorithm. cbn [Algorithm Parameters_ nonempty].
    rewrite andb_false_r, Hsha, Ha. by destruct pub.
Qed.

End Signature.
