(* ===== verification/Instances.v ===== *)
(** * Concrete parameters

    Executable instances of the code outside [src/], on which the laws that the
    theorems assume are proved and the witnesses run. The DER layer is that of
    [Der]; certificates, keys, hashes and MACs are small functions of the same
    shape as the real ones: a parser and an encoder that agree, a MAC as long as its
    hash, a signature that the public key of the signer verifies. *)
From S2P Require Import Prelude Failure Errors Asn1 Asn1Facts Der Types TypesFacts X509.
From S2P Require Import Message Algorithms Protect ProtectFacts.

(** ** Names *)

Definition read_atv : reader AttributeTypeAndValue_pkix := fun s =>
  let? (c, s) := of_option asn1_error (ReadASN1 SEQUENCE s) in
  let? (oid, c) := of_option asn1_error (ReadASN1ObjectIdentifier c) in
  let? (v, _) := UTF8String_unmarshal c in
  Ok (mkATV oid (AVString v), s).
Definition read_rset : reader (list AttributeTypeAndValue_pkix) := fun s =>
  let? (c, s) := of_option asn1_error (ReadASN1 SET s) in
  let? l := read_list read_atv c in
  Ok (l, s).
Definition names_unmarshal (s : bytes) : option (RDNSequence * bytes) :=
  match ReadASN1 SEQUENCE s with
  | None => None
  | Some (c, s) => match read_list read_rset c with Ok rdn => Some (rdn, s) | Err _ => None end
  end.

Definition oidCommonName : ObjectIdentifier := [2; 5; 4; 3].
Definition atv_text (a : AttributeTypeAndValue_pkix) : string :=
  match atv_Value a with AVString s => s | AVOther v => pretty v end.
Definition rdn_text (rdn : RDNSequence) : string := strings_join "," (atv_text <$> concat rdn).
Definition name_of_rdn (rdn : RDNSequence) : Name :=
  mkName (default "" (head (atv_text <$> concat rdn))) "" [] [] [] [] [] [] [] (concat rdn) None.
Definition rdn_of_name (n : Name) : RDNSequence :=
  if bool_decide (CommonName n = "") then [] else [[mkATV oidCommonName (AVString (CommonName n))]].

#[export] Instance ExNames : GoNames := {|
  asn1_Unmarshal_RDN := names_unmarshal;
  asn1_Marshal_value := fun _ => None;
  FillFromRDNSequence := name_of_rdn;
  ToRDNSequence := rdn_of_name;
  Name_String := CommonName;
  RDN_String := rdn_text
|}.

(** ** Keys and signatures *)

Definition key_bytes (p : PublicKey) : bytes :=
  match p with
  | RSAPublicKey n m => 1 :: n :: m | ECDSAPublicKey n m => 2 :: n :: m
  | Ed25519PublicKey m => 3 :: m | MLDSAPublicKey n m => 4 :: n :: m
  | CompositePublicKey n m => 5 :: n :: m | OtherPublicKey m => 6 :: m
  end.
Definition key_of_bytes (b : bytes) : option PublicKey :=
  match b with
  | 1 :: n :: m => Some (RSAPublicKey n m) | 2 :: n :: m => Some (ECDSAPublicKey n m)
  | 3 :: m => Some (Ed25519PublicKey m) | 4 :: n :: m => Some (MLDSAPublicKey n m)
  | 5 :: n :: m => Some (CompositePublicKey n m) | 6 :: m => Some (OtherPublicKey m)
  | _ => None
  end.

(** The SubjectPublicKeyInfo of a key. *)
Definition ex_spki (p : PublicKey) : bytes :=
  match bout (AddASN1 SEQUENCE (AddBytes (key_bytes p))) with Ok e => e | Err _ => [] end.
Definition ex_parse_spki (d : bytes) : option PublicKey :=
  match ReadASN1 SEQUENCE d with Some (c, []) => key_of_bytes c | _ => None end.

(** The hash a signature algorithm signs. *)
Definition signed_hash (alg : SignatureAlgorithm) : Hash :=
  match alg with PureEd25519 => HashNone | _ => hashFromSigAlg alg end.

Definition mix (seed : Z) (b : bytes) : Z := fold_left (fun a x => (a * 31 + x + 7) mod 256) b seed.
Definition ex_hash (h : Hash) (d : bytes) : bytes := [Hash_code h; mix 1 d; mix 2 d; mix 3 d].
Definition ex_mac (h : Hash) (k d : bytes) : bytes :=
  (fun i => mix (Z.of_nat i) (k ++ d)) <$> seq 0 (Z.to_nat (Hash_Size h)).
Definition ex_sign (p : PublicKey) (digest : bytes) : bytes := 9 :: key_bytes p ++ digest.
Definition ex_digest (h : Hash) (data : bytes) : bytes :=
  if bool_decide (h = HashNone) then data else ex_hash h data.

(** The keys of the examples. *)
Definition ex_public (k : Signer) : PublicKey :=
  match k with
  | 1 => ECDSAPublicKey 256 [17]
  | 2 => RSAPublicKey 2048 [18]
  | 3 => CompositePublicKey 1 [19]
  | _ => Ed25519PublicKey [20; k]
  end.

Definition ex_composite_oid (a : Z) : ObjectIdentifier := [2; 16; 840; 1; 114027; 80; 8; a].
Definition ex_composite (oid : ObjectIdentifier) : option Z :=
  match oid with
  | [2; 16; 840; 1; 114027; 80; 8; a] => Some a
  | _ => None
  end.

(** ** Certificates: serial number, subject, issuer, key and algorithm *)

Definition alg_of_code (n : Z) : SignatureAlgorithm :=
  match n with
  | 1 => SHA256WithRSA | 2 => ECDSAWithSHA256 | 3 => ECDSAWithSHA384 | 4 => PureEd25519
  | _ => UnknownSignatureAlgorithm
  end.
Definition ex_parse_cert (d : bytes) : option Certificate :=
  match ReadASN1 SEQUENCE d with
  | Some (c, []) =>
      match ReadASN1Int64 c with
      | None => None
      | Some (serial, c) =>
          match ReadASN1Element SEQUENCE c with
          | None => None
          | Some (subject, c) =>
              match ReadASN1Element SEQUENCE c with
              | None => None
              | Some (issuer, c) =>
                  match ReadASN1Element SEQUENCE c with
                  | None => None
                  | Some (key, c) =>
                      match ReadASN1Int64 c with
                      | Some (alg, []) =>
                          let name raw := match names_unmarshal raw with
                                          | Some (rdn, _) => name_of_rdn rdn
                                          | None => emptyName end in
                          Some (mkCertificate d subject issuer key (Some serial) (name subject)
                                  (name issuer) (match ex_parse_spki key with
                                                 | Some (CompositePublicKey _ _) => None
                                                 | p => p end)
                                  [serial] (alg_of_code alg) 0 (10 ^ 18) 0 [] [] [] false 0 false false)
                      | _ => None
                      end
                  end
              end
          end
      end
  | _ => None
  end.

Definition ex_name (cn : string) : bytes :=
  match bout (marshalRDNSequence [[mkATV oidCommonName (AVString cn)]]) with Ok e => e | Err _ => [] end.
Definition ex_cert_der (serial : Z) (subject issuer : string) (key : PublicKey) (alg : Z) : bytes :=
  match bout (AddASN1 SEQUENCE
                (AddASN1Integer serial ⊕ AddBytes (ex_name subject) ⊕ AddBytes (ex_name issuer)
                 ⊕ AddBytes (ex_spki key) ⊕ AddASN1Integer alg)) with
  | Ok e => e | Err _ => []
  end.
Definition ex_cert (serial : Z) (subject issuer : string) (key : PublicKey) (alg : Z) : Certificate :=
  default emptyCertificate (ex_parse_cert (ex_cert_der serial subject issuer key alg)).

(** The signature algorithm of a composite certificate, by its last field. *)
Definition ex_composite_cert (d : bytes) : option Z :=
  match ex_parse_cert d with
  | Some c => match cert_SignatureAlgorithm c with UnknownSignatureAlgorithm => Some 1 | _ => None end
  | None => None
  end.

(** [crypto/x509] knows a certificate issued, with an algorithm it has, by an anchor. *)
Definition ex_verify (cert : Certificate) (roots inter : CertPool) (now : Time)
    : result (list (list Certificate)) :=
  match filter (fun r => RawSubject r = RawIssuer cert) roots with
  | r :: _ => if bool_decide (cert_SignatureAlgorithm cert = UnknownSignatureAlgorithm)
              then Err x509_error else Ok [[cert; r]]
  | [] => Err x509_error
  end.

Definition ex_parse_csr (d : bytes) : option CertificateRequest :=
  match ReadASN1 SEQUENCE d with
  | Some (c, []) =>
      match ReadASN1Element SEQUENCE c with
      | Some (subject, c) =>
          match ReadASN1Element SEQUENCE c with
          | Some (key, []) =>
              Some (mkCSR d key (match names_unmarshal subject with
                                 | Some (rdn, _) => name_of_rdn rdn | None => emptyName end) [])
          | _ => None
          end
      | None => None
      end
  | _ => None
  end.

#[export] Instance ExX509 : GoX509 := {|
  x509_ParseCertificate := ex_parse_cert;
  x509_ParseCertificateRequest := ex_parse_csr;
  ParsePKIXPublicKey := ex_parse_spki;
  MarshalPKIXPublicKey := fun p => ex_spki <$> p;
  PublicKey_Equal := fun k p => bool_decide (Some k = p);
  x509_CheckSignature := fun p alg data sig =>
    match p with
    | Some p => if bool_decide (sig = ex_sign p (ex_digest (signed_hash alg) data))
                then None else Some x509_error
    | None => Some x509_error
    end;
  compositemldsa_Verify := fun p data sig =>
    if bool_decide (sig = ex_sign p data) then None else Some x509_error;
  composite_AlgorithmFromOID := ex_composite;
  composite_OID := ex_composite_oid;
  composite_PreHash := fun _ => SHA512;
  compositex509_SignatureAlgorithm := ex_composite_cert;
  CheckSignatureFrom := fun c p =>
    if bool_decide (RawSubject p = RawIssuer c) then None else Some x509_error;
  x509_Verify := ex_verify;
  CheckCertificateRequestSignature := fun _ => None
|}.

#[export] Instance ExCrypto : GoCrypto := {|
  hash_Sum := ex_hash;
  hmac_Sum := ex_mac;
  pbkdf2_Key := fun secret salt n len h => ex_mac h secret (salt ++ [n; len]);
  Hash_Available := fun h => match h with HashNone | OtherHash _ => false | _ => true end;
  Signer_Public := ex_public;
  Signer_Sign := fun k _ digest _ => Ok (ex_sign (ex_public k) digest)
|}.

#[export] Instance ExCryptoLaws : GoCryptoLaws ExX509 ExCrypto.
Proof.
  constructor.
  - by intros h [->|[->|[->|[->| ->]]]].
  - intros h k d Hh. simpl. unfold ex_mac. rewrite length_fmap, length_seq. lia.
  - intros key random data oid h sig Hk Hs. injection Hs as <-. split; [done|].
    change (Signer_Public key) with (ex_public key). unfold signatureAlgorithmFromKey in Hk.
    change (Signer_Public key) with (ex_public key) in Hk.
    destruct (ex_public key) eqn:Ep; unfold key_accepts; simpl in *.
    all: repeat case_in Hk; try done; injection Hk as <- <-.
    all: split; [done|].
    all: try (intros alg Ha; vm_compute in Ha; injection Ha as <-).
    all: cbn -[ex_sign ex_digest ex_hash]; unfold digest_of, ex_digest; simpl;
         by rewrite ?bool_decide_eq_true_2.
  - intros oid [->| ->]; done.
  - intros key a raw H. change (Signer_Public key) with (ex_public key) in H. unfold ex_public in H.
    by repeat case_in H; try discriminate H; injection H as <- _.
Qed.

(** ** encoding/asn1 *)

Definition ex_kdf_alg (a : AlgorithmIdentifier) : Builder :=
  b_if (nonempty (Algorithm a)) (AlgorithmIdentifier_marshal a).
Definition ex_marshal_kdf (p : pbkdf2ParamsASN1) : Builder :=
  AddASN1 SEQUENCE (AddASN1OctetString (kdf_Salt p) ⊕ AddASN1Integer (kdf_IterationCount p)
                    ⊕ AddASN1Integer (kdf_KeyLength p) ⊕ ex_kdf_alg (PRF p)).
Definition ex_unmarshal_kdf (s : bytes) : result pbkdf2ParamsASN1 :=
  let? (c, _) := of_option asn1_error (ReadASN1 SEQUENCE s) in
  let? (salt, c) := of_option asn1_error (ReadASN1Bytes OCTET_STRING c) in
  let? (n, c) := of_option asn1_error (ReadASN1BigInt c) in
  let? (len, c) := of_option asn1_error (ReadASN1BigInt c) in
  if Empty c then Ok (mkPBKDF2 salt n len zeroAlg)
  else let? (a, _) := AlgorithmIdentifier_unmarshal c in Ok (mkPBKDF2 salt n len a).
Definition ex_marshal_pbmac1 (p : pbmac1Params) : Builder :=
  AddASN1 SEQUENCE (AlgorithmIdentifier_marshal (KeyDerivationFunc p)
                    ⊕ AlgorithmIdentifier_marshal (MessageAuthScheme p)).
Definition ex_unmarshal_pbmac1 (s : bytes) : result pbmac1Params :=
  let? (c, _) := of_option asn1_error (ReadASN1 SEQUENCE s) in
  let? (k, c) := AlgorithmIdentifier_unmarshal c in
  let? (m, _) := AlgorithmIdentifier_unmarshal c in
  Ok (mkPBMAC1 k m).

Definition ok_some {A} (r : result A) : option A := match r with Ok a => Some a | Err _ => None end.
(** Only parameters that are DER are encoded. *)
Definition der_params (a : AlgorithmIdentifier) : bool :=
  OID_ok (Algorithm a) &&
  (negb (nonempty (Parameters_ a)) ||
  match ReadAnyASN1Element (Parameters_ a) with Some (_, _, []) => true | _ => false end).

#[export] Instance ExPBMAC1 : GoPBMAC1 := {|
  asn1_Marshal_PBKDF2 := fun p =>
    if der_params (PRF p) && (nonempty (Algorithm (PRF p)) || negb (nonempty (Parameters_ (PRF p))))
    then ok_some (bout (ex_marshal_kdf p)) else None;
  asn1_Unmarshal_PBKDF2 := fun d => ok_some (ex_unmarshal_kdf d);
  asn1_Marshal_PBMAC1 := fun p =>
    if der_params (KeyDerivationFunc p) && der_params (MessageAuthScheme p)
    then ok_some (bout (ex_marshal_pbmac1 p)) else None;
  asn1_Unmarshal_PBMAC1 := fun d => ok_some (ex_unmarshal_pbmac1 d)
|}.

Lemma ok_some_ok {A} (r : result A) a : ok_some r = Some a -> r = Ok a.
Proof. destruct r; simpl; congruence. Qed.

Lemma der_params_wf a : der_params a = true -> AlgorithmIdentifier_wf a.
Proof.
  unfold der_params, AlgorithmIdentifier_wf. intros [Ho H]%andb_prop. split; [done|]. revert H.
  destruct (Parameters_ a) as [|x l] eqn:E; [by left|].
  cbn [nonempty negb orb]. rewrite <- E. intros H. right. left.
  destruct (ReadAnyASN1Element (Parameters_ a)) as [[[e t] r]|] eqn:Er; [|done].
  destruct r; [|done]. unfold ReadAnyASN1Element in Er.
  destruct (read_any (Parameters_ a)) as [[[[t' e'] c] r]|] eqn:Ea; [|done].
  injection Er as <- <- ->. exists t', c. rewrite (proj1 (read_any_split _ _ _ _ _ Ea)), app_nil_r.
  by eapply read_any_tlv.
Qed.

#[export] Instance ExPBMAC1Laws : GoPBMAC1Laws Der ExPBMAC1.
Proof.
  constructor.
  - intros p d H. cbn [asn1_Marshal_PBMAC1 ExPBMAC1] in H. case_in H; [|done].
    apply ok_some_ok, bout_AddASN1 in H as (c & _ & H). by exists SEQUENCE, c.
  - intros p d H. cbn [asn1_Marshal_PBKDF2 ExPBMAC1] in H. case_in H; [|done].
    apply ok_some_ok in H. unfold ex_marshal_kdf in H. apply bout_AddASN1 in H as (c & _ & H). by exists SEQUENCE, c.
  - intros [salt n len prf] d _ H. cbn [asn1_Marshal_PBKDF2 ExPBMAC1 PRF] in H. case_in H; [|done].
    apply andb_true_iff in E as [Hp Hne]. apply der_params_wf in Hp. apply ok_some_ok in H.
    unfold ex_marshal_kdf, AddASN1OctetString in H. simpl in H. rt_inv.
    cbn [asn1_Unmarshal_PBKDF2 ExPBMAC1]. unfold ex_unmarshal_kdf. do 2 rt_step. do 2 rt_step.
    destruct prf as [oid ps]. unfold ex_kdf_alg in *. destruct oid as [|x oid]; simpl in *.
    + rt_inv. simpl. by destruct ps.
    + rt_run. done.
  - intros [k m] d _ _ H. cbn [asn1_Marshal_PBMAC1 ExPBMAC1 KeyDerivationFunc MessageAuthScheme] in H.
    case_in H; [|done]. apply andb_true_iff in E as [Hk Hm]. apply der_params_wf in Hk, Hm.
    apply ok_some_ok in H. unfold ex_marshal_pbmac1 in H. simpl in H. rt_inv.
    cbn [asn1_Unmarshal_PBMAC1 ExPBMAC1]. unfold ex_unmarshal_pbmac1. by rt_run.
Qed.

Definition ENUMERATED : Tag := 10.
Definition ext_marshal (e : Extension) : Builder :=
  AddASN1 SEQUENCE (AddASN1ObjectIdentifier (Id e)
                    ⊕ b_if (Critical e) (AddASN1 BOOLEAN (AddUint8 255))
                    ⊕ AddASN1OctetString (ext_Value e)).
Definition ext_unmarshal : reader Extension := fun s =>
  let? (c, s) := of_option asn1_error (ReadASN1 SEQUENCE s) in
  let? (oid, c) := of_option asn1_error (ReadASN1ObjectIdentifier c) in
  let? (critical, c) := (if PeekASN1Tag BOOLEAN c
                         then let? (b, c) := of_option asn1_error (ReadASN1 BOOLEAN c) in
                              Ok (bytes_eqb b [255], c)
                         else Ok (false, c)) in
  let? (v, _) := of_option asn1_error (ReadASN1Bytes OCTET_STRING c) in
  Ok (mkExtension oid critical v, s).
Definition seq_of {A} (u : reader A) (s : bytes) : option (list A * bytes) :=
  match ReadASN1 SEQUENCE s with
  | Some (c, s) => match read_list u c with Ok l => Some (l, s) | Err _ => None end
  | None => None
  end.

#[export] Instance ExASN1 : GoASN1 := {|
  asn1_Unmarshal_Extensions := seq_of ext_unmarshal;
  asn1_Marshal_Extensions := fun l => ok_some (bout (AddASN1 SEQUENCE (b_list ext_marshal l)));
  asn1_Unmarshal_Enumerated := fun s =>
    match ReadASN1 ENUMERATED s with
    | Some (c, s) => match int_value c with Some n => Some (n, s) | None => None end
    | None => None
    end;
  asn1_Marshal_Enumerated := fun n => ok_some (bout (AddASN1 ENUMERATED (AddBytes (int_content n))));
  asn1_Marshal_RDN := fun rdn => ok_some (bout (marshalRDNSequence rdn));
  asn1_Unmarshal_Strings := seq_of UTF8String_unmarshal;
  asn1_Unmarshal_BasicConstraints := fun s =>
    match ReadASN1 SEQUENCE s with
    | Some (c, s) =>
        match ReadASN1 BOOLEAN c with
        | Some (b, c) => match ReadASN1Int64 c with
                         | Some (n, _) => Some ((bytes_eqb b [255], n), s)
                         | None => Some ((bytes_eqb b [255], 0), s)
                         end
        | None => Some ((false, 0), s)
        end
    | None => None
    end;
  asn1_Marshal_GeneralizedTime := fun t => ok_some (bout (AddASN1GeneralizedTime t));
  asn1_Unmarshal_GeneralizedTime := ReadASN1GeneralizedTime
|}.

(** ** The certificates of the examples *)

Definition ex_root : Certificate := Eval vm_compute in ex_cert 1 "root" "root" (ex_public 1) 2.
Definition ex_ca : Certificate := Eval vm_compute in ex_cert 2 "ca" "root" (ex_public 3) 2.
Definition ex_leaf : Certificate := Eval vm_compute in ex_cert 3 "leaf" "ca" (ex_public 2) 9.
