(* ===== verification/CodecProps.v ===== *)
(** * Properties of the codecs

    The round trips of whole messages, the exactness of forwarding, the termination
    of decoding and the version rules, each with a run on a concrete message. *)
From S2P Require Import Prelude Failure Errors Asn1 Asn1Facts Der Types TypesFacts.
From S2P Require Import StatusInfo Enrollment EnrollmentFacts Crmf CrmfFacts X509.
From S2P Require Import RevocationMsg RevocationMsgFacts Message MessageFacts BodyFacts.
From S2P Require Import Totality TypedBodies Algorithms Instances.

(** ** Example messages *)

Definition ok_or {A} (d : A) (r : result A) : A := match r with Ok a => a | Err _ => d end.

Definition ex_template (cn : string) (key : PublicKey) : CertTemplate :=
  mkCertTemplate None [] (mkGeneralName [[mkATV oidCommonName (AVString cn)]] "" [])
    (ex_spki key) [].
Definition ex_request (id : Z) (t : CertTemplate) : CertRequest :=
  let r := mkCertRequest id t [mkControl [1; 3; 6; 1; 5; 5; 7; 5; 1; 1] [4; 1; 7]] [] in
  mkCertRequest id t (Controls r) (ok_or [] (bout (CertRequest_marshal r))).
Definition ex_certReqMsg : CertReqMsg :=
  mkCertReqMsg (ex_request 0 (ex_template "device" (ex_public 1)))
    (Some (mkPOP false (Some (mkPopoSigningKey None (mkAlg oidECDSAWithSHA256 []) [1; 2; 3])) None None)).
Definition ex_sender : GeneralName := NewDirectoryNameFromRawDER (ex_name "leaf").
Definition ex_sender_read : GeneralName := Eval vm_compute in
  match GeneralName_unmarshal (gn_Raw ex_sender) with Ok (gn, _) => gn | Err _ => emptyGeneralName end.
Definition ex_options : MessageOptions :=
  mkMessageOptions ex_sender ex_sender None None [7; 7].
Definition ex_message (c : BodyContent) : PKIMessage :=
  NewPKIMessage [1; 2; 3; 4] [5; 6] (1700000000 * 10 ^ 9 + 5) (body_of c) ex_options.
Definition ex_encoding (m : PKIMessage) : bytes := ok_or [] (snd (MarshalBinary m)).

Lemma ex_sender_reads : reads_as ex_sender ex_sender_read.
Proof.
  refine (proj2 (reads_as_raw (ex_name "leaf") (DirectoryName ex_sender_read) [] (gn_Raw ex_sender)
                   _ _ _)); [|vm_compute; reflexivity..].
  destruct (single_element_inv SEQUENCE (ex_name "leaf")) as [c Hc]; [by vm_compute|].
  by exists SEQUENCE, c.
Qed.

Lemma ex_message_wf c : PKIHeader_wf ex_sender_read ex_sender_read (Header (ex_message c)).
Proof. split; [done|]. split; [apply ex_sender_reads|]. split; [apply ex_sender_reads|]. by split. Qed.

Lemma RDN_wf_by rdn e :
  bout (marshalRDNSequence rdn) = Ok e -> asn1_Unmarshal_RDN e = Some (rdn, []) -> RDN_wf rdn.
Proof. intros He Hu e' He'. congruence. Qed.

Lemma ex_request_wf id cn key :
  int64_ok id = true -> is_ok (bout (CertRequest_marshal (mkCertRequest id (ex_template cn key)
    [mkControl [1; 3; 6; 1; 5; 5; 7; 5; 1; 1] [4; 1; 7]] []))) = true ->
  RDN_wf [[mkATV oidCommonName (AVString cn)]] -> single_sequence (tmpl_PublicKey (ex_template cn key)) ->
  CertRequest_wf (ex_request id (ex_template cn key)).
Proof.
  intros Hid Hok Hrdn Hpk. split; [done|]. split.
  - split; [done|]. split; [done|]. split; [by right | by left].
  - split.
    + constructor; [|done]. split; [done|]. exists OCTET_STRING, [7]. reflexivity.
    + change (bout (CertRequest_marshal (ex_request id (ex_template cn key)))) with
        (bout (CertRequest_marshal (mkCertRequest id (ex_template cn key)
           [mkControl [1; 3; 6; 1; 5; 5; 7; 5; 1; 1] [4; 1; 7]] []))).
      unfold ex_request, ok_or. cbn [cr_Raw]. by destruct (bout _).
Qed.

Lemma ex_certReqMsg_wf : CertReqMsg_wf ex_certReqMsg.
Proof.
  split.
  - apply ex_request_wf; [done|by vm_compute| |by vm_compute].
    apply (RDN_wf_by _ (ex_name "device")); by vm_compute.
  - split; [done|]. split; [done | by left].
Qed.

Section Codec.
Context {CB : Cryptobyte} {L : CryptobyteLaws CB} {GN : GoNames} {GX : GoX509}.

(** C1: a message built with any body of the package and encoded is decoded to a
    message with the same header, as the peer reads its names and its time in whole
    seconds, the same protection and certificates, and a body from which the getter
    of its type reads the content it was built with. *)
Theorem message_roundtrip (s r : GeneralName) (m : PKIMessage) (c : BodyContent)
    (m' : PKIMessage) (e : bytes) :
  Body m = Some (body_of c) -> content_wf c -> PKIHeader_wf s r (Header m) ->
  Forall CMPCertificate_wf (ExtraCerts m) -> MarshalBinary m = (m', Ok e) ->
  exists m2 b, ParsePKIMessage e = Ok m2
    /\ Header m2 = received_header s r (Header m') /\ Header m' = sent_header (Header m) (body_of c)
    /\ Protection m2 = Protection m /\ ExtraCerts m2 = ExtraCerts m
    /\ Body m2 = Some b /\ Type_ b = Type_ (body_of c) /\ get_body b = Ok c.
Proof.
  intros Hb Hc Hh He H.
  destruct (MarshalBinary_rt s r m (body_of c) m' e) as (rawH & rawB & HB & _ & -> & Hp);
    [done|done|by destruct c|by destruct c|done|done|].
  eexists _, _. split; [exact Hp|]. split; [done|]. split; [by destruct m|]. do 3 (split; [done|]).
  split; [done|]. by apply body_rt.
Qed.

(** C2: a protected message that was received and is carried in a nested body is
    re-encoded with its header and body octets untouched: the element decodes to
    exactly the message that was received, so its protection still covers it. *)
Theorem forwarded_message_exact (der : bytes) (m : PKIMessage) (e : bytes) :
  ParsePKIMessage der = Ok m -> nonempty (Protection m) = true -> marshalForNesting m = Ok e ->
  ParsePKIMessage e = Ok m /\ protectedPart m = Bytes (AddASN1 SEQUENCE (AddBytes (rawHeader m) ⊕ AddBytes (rawBody m))).
Proof.
  intros Hp Hn He. split; [by eapply forwarding_exact|].
  destruct (ParsePKIMessage_inv _ _ Hp) as (b & Hb & Hrh & Hrb & _).
  unfold protectedPart. by rewrite Hb, (element_nonempty _ Hrh), (element_nonempty _ Hrb).
Qed.

(** The getter of every body type on a received body. *)
Lemma get_body_total b : received b -> completes (get_body b).
Proof.
  intros Hr. unfold get_body.
  assert (Hmap : forall A B (f : A -> B) (x : result A), completes x -> completes (res_map f x))
    by (intros A B f [?|?]; done).
  repeat case_goal; try done; apply Hmap;
    first [ apply total_getter; [apply _|done] | by apply total_get_P10CR | by apply total_get_Nested ].
Qed.

(** C3: decoding terminates within the length of its input and does not panic. No
    decoder of a message, nor the getter of its body on the message it gave, exhausts
    the bound of a loop, follows a nil pointer or reaches the explicit panic of
    [wrapSequence] ([BytesOrPanic], the one on this path), on any octets a peer may send,
    and its errors are not those that report the status of a peer. *)
Theorem decoding_terminates (der : bytes) :
  completes (ParsePKIMessage der)
  /\ forall m b, ParsePKIMessage der = Ok m -> Body m = Some b -> completes (get_body b).
Proof.
  split; [apply total_spec|]. intros m b Hp Hb.
  destruct (parsed_received _ _ Hp) as (b' & Hb' & Hr). replace b' with b in * by congruence.
  by apply get_body_total.
Qed.

Definition has_hashAlg (cs : CertStatus) : bool := negb (is_nil (HashAlg cs)).

Lemma bpvno_seq b1 b2 :
  bpvno (b1 ⊕ b2) = match bpvno b2 with Some v => Some v | None => bpvno b1 end.
Proof. reflexivity. Qed.
Lemma bpvno_asn1 t b : bpvno (AddASN1 t b) = bpvno b.
Proof. reflexivity. Qed.
Lemma bpvno_integer n : bpvno (AddASN1Integer n) = None.
Proof. reflexivity. Qed.
Create Rewrite HintDb bpvno.
#[local] Hint Rewrite bpvno_seq bpvno_asn1 bpvno_integer : bpvno.

Lemma bpvno_list_cons {A} (f : A -> Builder) x l :
  bpvno (b_list f (x :: l)) =
  match bpvno (b_list f l) with Some v => Some v | None => bpvno (f x) end.
Proof. reflexivity. Qed.

Lemma statusInfo_no_version i : bpvno (PKIStatusInfo_marshal i) = None.
Proof.
  assert (Hl : forall ft, bpvno (b_list UTF8String_marshal ft) = None).
  { induction ft as [|t ft IH]; [done|]. by rewrite bpvno_list_cons, IH. }
  unfold PKIStatusInfo_marshal, PKIFreeText_marshal, b_if.
  destruct (negb _), (nonempty _); autorewrite with bpvno; by rewrite ?Hl.
Qed.

Lemma certStatus_version cs :
  bpvno (CertStatus_marshal cs) = if has_hashAlg cs then Some PVNO3 else None.
Proof.
  destruct cs as [hash id si [a|]]; unfold CertStatus_marshal, has_hashAlg; simpl b_opt;
    simpl is_nil; cbn [negb]; autorewrite with bpvno.
  - by destruct (version_algorithm a) as [->| ->].
  - destruct si as [i|]; simpl b_opt; [|done]. by rewrite statusInfo_no_version.
Qed.

Lemma certStatuses_version l :
  bpvno (b_list CertStatus_marshal l) = if existsb has_hashAlg l then Some PVNO3 else None.
Proof.
  induction l as [|cs l IH]; [done|]. rewrite bpvno_list_cons, IH, certStatus_version. simpl.
  by destruct (existsb has_hashAlg l), (has_hashAlg cs).
Qed.

(** C4: what a getter gives of a received message is well typed, whatever octets the
    message was parsed from. Every integer is in the range of its Go type and every
    failure field in 32 bits; a CHOICE has exactly one alternative; what is kept as
    octets to be checked or copied later (names, keys, extensions, the request a proof
    of possession signs) is one complete element; a certificate or an algorithm is what
    its own encoding is read as; the messages of a nested body were each parsed. *)
Theorem received_content_typed (der : bytes) (m : PKIMessage) (b : PKIBody) (c : BodyContent) :
  ParsePKIMessage der = Ok m -> Body m = Some b -> get_body b = Ok c -> content_received c.
Proof.
  intros Hp Hb. destruct (parsed_received _ _ Hp) as (b' & Hb' & Hr).
  replace b' with b in * by congruence. by apply get_body_typed.
Qed.

(** The version of the header is set by the body: an encoded message has version 3, or
    the version it had and at least 2, and a certConf whose statuses name a hash
    algorithm has version 3. *)
Lemma message_version (m : PKIMessage) (b : PKIBody) (m' : PKIMessage) (e : bytes) :
  Body m = Some b -> MarshalBinary m = (m', Ok e) ->
  2 <= PVNO (Header m')
  /\ (PVNO (Header m') = 3 \/ PVNO (Header m') = Z.max (PVNO (Header m)) 2)
  /\ forall statuses, b = NewCertConfBody statuses ->
       PVNO (Header m') = if existsb has_hashAlg statuses then 3 else Z.max (PVNO (Header m)) 2.
Proof.
  intros Hb H. unfold MarshalBinary in H. rewrite Hb in H. unfold marshal_parts in H.
  destruct (Bytes (PKIBody_marshal b)); [|done]. injection H as <- _.
  assert (Hpv : PVNO (Header (set_Header (set_PVNO (required_pvno (Header m) (PKIBody_marshal b))
    (Header m)) m)) = required_pvno (Header m) (PKIBody_marshal b)) by (destruct m as [h ? ? ? ? ?]; by destruct h).
  rewrite Hpv. destruct (required_pvno_cases (Header m) b) as [E | [E En]]; rewrite E; unfold PVNO3, PVNO2.
  - split; [lia|]. split; [by left|]. intros st ->. unfold required_pvno in E.
    change (bpvno (PKIBody_marshal (NewCertConfBody st))) with (bpvno (b_list CertStatus_marshal st)) in E.
    rewrite certStatuses_version in E. case_goal; [done|]. unfold initial_pvno, PVNO3, PVNO2 in *.
    destruct (Z.ltb_spec 2 (PVNO (Header m))); lia.
  - split; [lia|]. split; [by right|]. intros st ->.
    change (bpvno (PKIBody_marshal (NewCertConfBody st))) with (bpvno (b_list CertStatus_marshal st)) in En.
    rewrite certStatuses_version in En. by case_goal.
Qed.

(** A second call of a getter gives what the first gave, a cached content or the
    cached error, whatever the first call left in the body. *)
Lemma getters_idempotent (b : PKIBody) :
  snd (IR (fst (IR b))) = snd (IR b) /\ snd (CR (fst (CR b))) = snd (CR b)
  /\ snd (KUR (fst (KUR b))) = snd (KUR b) /\ snd (CP (fst (CP b))) = snd (CP b)
  /\ snd (IP (fst (IP b))) = snd (IP b) /\ snd (KUP (fst (KUP b))) = snd (KUP b)
  /\ snd (RR (fst (RR b))) = snd (RR b) /\ snd (RP (fst (RP b))) = snd (RP b)
  /\ snd (CertConf (fst (CertConf b))) = snd (CertConf b)
  /\ snd (PollReq (fst (PollReq b))) = snd (PollReq b)
  /\ snd (PollRep (fst (PollRep b))) = snd (PollRep b)
  /\ snd (Error_get (fst (Error_get b))) = snd (Error_get b).
Proof. repeat split; by apply getter_again. Qed.

End Codec.

Lemma message_roundtrip_witness :
  exists m2 b, ParsePKIMessage (ex_encoding (ex_message (C_ir [ex_certReqMsg]))) = Ok m2
    /\ MessageTime (Header m2) = 1700000000 * 10 ^ 9 /\ Sender (Header m2) = ex_sender_read
    /\ Body m2 = Some b /\ get_body b = Ok (C_ir [ex_certReqMsg]).
Proof.
  destruct (message_roundtrip ex_sender_read ex_sender_read (ex_message (C_ir [ex_certReqMsg]))
              (C_ir [ex_certReqMsg]) (fst (MarshalBinary (ex_message (C_ir [ex_certReqMsg]))))
              (ex_encoding (ex_message (C_ir [ex_certReqMsg])))
              eq_refl (Forall_cons_2 _ _ _ ex_certReqMsg_wf (Forall_nil_2 _)) (ex_message_wf _) (Forall_nil_2 _))
    as (m2 & b & Hp & Hh & Hh' & _ & _ & Hb & _ & Hc); [vm_compute; reflexivity|].
  exists m2, b. split; [exact Hp|]. rewrite Hh, Hh'. split; [reflexivity|]. split; [reflexivity|].
  split; [exact Hb | exact Hc].
Defined.

(** A protected message, as it is received. *)
Definition ex_protected : PKIMessage := Eval vm_compute in
  ok_or (ex_message C_pkiConf)
    (ParsePKIMessage (ex_encoding (set_Protection [1; 2; 3] (ex_message C_pkiConf)))).
Definition ex_forwarded : bytes := Eval vm_compute in ok_or [] (marshalForNesting ex_protected).

Lemma forwarded_message_exact_witness :
  ParsePKIMessage ex_forwarded = Ok ex_protected /\ is_ok (protectedPart ex_protected) = true.
Proof.
  destruct (forwarded_message_exact (ex_encoding (set_Protection [1; 2; 3] (ex_message C_pkiConf)))
              ex_protected ex_forwarded) as [H1 H2]; [vm_compute; reflexivity..|].
  split; [exact H1|]. rewrite H2. vm_compute. reflexivity.
Defined.

Lemma decoding_terminates_witness :
  completes (ParsePKIMessage [48; 3; 2; 1]) /\ is_ok (ParsePKIMessage [48; 3; 2; 1]) = false.
Proof. split; [apply (decoding_terminates [48; 3; 2; 1]) | reflexivity]. Defined.

#[local] Abbreviation ex_request_der := (ex_encoding (ex_message (C_ir [ex_certReqMsg]))).
#[local] Abbreviation ex_request_read := (ok_or (ex_message C_pkiConf) (ParsePKIMessage ex_request_der)).
#[local] Abbreviation ex_request_body := (default (NewPollReqBody []) (Body ex_request_read)).

Lemma received_content_typed_witness :
  get_body ex_request_body = Ok (C_ir [ex_certReqMsg]) /\ Forall certReqMsg_received [ex_certReqMsg].
Proof.
  assert (H : get_body ex_request_body = Ok (C_ir [ex_certReqMsg])) by (vm_compute; reflexivity).
  split; [exact H|].
  change (content_received (C_ir [ex_certReqMsg])).
  refine (received_content_typed ex_request_der ex_request_read ex_request_body (C_ir [ex_certReqMsg]) _ _ H);
    vm_compute; reflexivity.
Defined.

Lemma message_version_witness :
  PVNO (Header (fst (MarshalBinary (ex_message (C_certConf
    [mkCertStatus [1; 2] 0 None (Some (mkAlg oidSHA512 []))]))))) = 3.
Proof.
  set (st := [mkCertStatus [1; 2] 0 None (Some (mkAlg oidSHA512 []))]).
  destruct (message_version (ex_message (C_certConf st)) (NewCertConfBody st)
              (fst (MarshalBinary (ex_message (C_certConf st))))
              (ex_encoding (ex_message (C_certConf st)))) as (_ & _ & H);
    [reflexivity | vm_compute; reflexivity | exact (H st eq_refl)].
Defined.

Lemma getters_idempotent_witness :
  snd (PollReq (fst (PollReq (NewPollReqBody [4])))) = Ok [4].
Proof. destruct (getters_idempotent (NewPollReqBody [4])) as (_ & _ & _ & _ & _ & _ & _ & _ & _ & H & _).
  rewrite H. reflexivity. Defined.
