(* ===== verification/ProtectionProps.v ===== *)
(** * Properties of message protection

    Protection and verification over the wire, what an accepted message proves, the
    bounds on the parameters of a peer, the certificates attached to a signature and
    the certification path search. *)
From S2P Require Import Prelude Failure Errors Monad Asn1 Asn1Facts Der Types TypesFacts.
From S2P Require Import StatusInfo Enrollment EnrollmentFacts Crmf CrmfFacts X509 CertPath.
From S2P Require Import CertPathFacts Message MessageFacts BodyFacts Algorithms Protect.
From S2P Require Import Verify ProtectFacts SignatureFacts Instances CodecProps.

Section Protection.
Context {CB : Cryptobyte} {L : CryptobyteLaws CB} {GN : GoNames} {GX : GoX509} {GC : GoCrypto}
  {GL : GoCryptoLaws GX GC} {GP : GoPBMAC1} {PL : GoPBMAC1Laws CB GP}.

(** C6: a message protected with shared-secret credentials (Password-Based MAC or
    PBMAC1, with any options), encoded and decoded, is verified by every holder of
    the secret that accepts MACs; the decoded message has the header and the body
    that were protected. *)
Theorem mac_protection_verified (s r : GeneralName) (b : PKIBody) (salt : bytes) (c : MACCredentials)
    (m m1 m2 : PKIMessage) (e : bytes) (now : Time) (o : VerifyOptions) :
  sendable s r b m -> mac_config_wf (mac_cfg c) -> MACCredentials_Protect salt c m = (m1, Ok tt) ->
  MarshalBinary m1 = (m2, Ok e) -> accepts_mac o (mac_secret c) ->
  exists m3 params, ParsePKIMessage e = Ok m3 /\ received s r b m1 m3
    /\ Algorithm <$> ProtectionAlg (Header m3) = Some (configured_alg (mac_cfg c))
    /\ Verify now m3 o = Ok (mkVerifyResult true (Some params) None).
Proof.
  intros Hs Hc H Hw Ho.
  by destruct (mac_credentials_verified s r b salt c m m1 m2 e now o Hs Hc H Hw Ho) as [_ Hres].
Qed.

(** C7: a message signed with credentials, encoded and decoded, is verified by every
    verifier that trusts the certificate, held or received with the message, and
    the result names that certificate. *)
Theorem signature_protection_verified (s r : GeneralName) (b : PKIBody) (random : bytes)
    (c : SignatureCredentials) (m m1 m2 : PKIMessage) (e : bytes) (now : Time) (o : VerifyOptions) :
  sendable s r b m -> element (Raw (sc_cert c)) -> Forall (fun x => element (Raw x)) (sc_chain c) ->
  cert_key (sc_cert c) (Signer_Public (sc_key c)) ->
  SignatureCredentials_Protect random c m = (m1, Ok tt) -> MarshalBinary m1 = (m2, Ok e) ->
  trusts now o (sc_cert c) s (ExtraCerts m1) ->
  exists m3, ParsePKIMessage e = Ok m3 /\ received s r b m1 m3
    /\ Verify now m3 o = Ok (mkVerifyResult false None (Some (sc_cert c))).
Proof.
  intros Hs Hc Hch Hk H Hw Ht.
  by destruct (signature_verified s r b random _ _ _ m m1 m2 e now o Hs Hc Hch Hk H Hw Ht) as [_ Hres].
Qed.

(** C8: a MAC that [Verify] accepts is the MAC of the very octets of header and body
    that were received, under a key derived from the verifier's own secret with
    parameters inside the bounds; a verifier that requires signatures accepts none. *)
Theorem accepted_mac_sound (now : Time) (m : PKIMessage) (o : VerifyOptions) (res : VerifyResult) :
  Verify now m o = Ok res -> MACVerified res = true ->
  RequiredProtection o <> ProtectionSignature /\ SharedSecret o <> []
  /\ exists alg h k data, ProtectionAlg (Header m) = Some alg
     /\ mac_key (SharedSecret o) alg h k /\ protectedPart m = Ok data
     /\ Protection m = hmac_Sum h k data.
Proof.
  intros H Hm. destruct (Verify_mac_sound now m o res H Hm) as (Hr & Hs & Hres).
  split; [done|]. split; [by apply nonempty_true | done].
Qed.

(** C9: a signature that [Verify] accepts was made over the received octets by the key
    of the certificate it returns, which is the subject the header names, is permitted
    to sign where that is required, matches the senderKID, and is trusted: the one the
    verifier holds, valid now, or one received that chains to the pool. *)
Theorem accepted_signature_sound (now : Time) (m : PKIMessage) (o : VerifyOptions) (res : VerifyResult) :
  Verify now m o = Ok res -> MACVerified res = false ->
  RequiredProtection o <> ProtectionMAC
  /\ exists alg cert check data, ProtectionAlg (Header m) = Some alg
     /\ ProtectionCertificate res = Some cert
     /\ signatureChecker alg (AllowSHA1Signatures o) = Ok check
     /\ protectedPart m = Ok data /\ check cert data (Protection m) = None
     /\ senderMatchesCertificate (Sender (Header m)) cert = true
     /\ (RequireDigitalSignatureKeyUsage o = true -> permittedToSign cert = true)
     /\ match TrustedCert o with
        | Some c => cert = c /\ NotBefore c <= now <= NotAfter c
        | None => exists pool, TrustPool o = Some pool
            /\ (exists c, c ∈ vo_ExtraCerts o /\ CMPCertificate_Parse c = Some cert)
            /\ kid_skips o cert = false
            /\ certpath_Verify (parse_all (vo_ExtraCerts o)) pool now cert = None
        end.
Proof. apply Verify_signature_sound. Qed.

(** An answer protected with the parameters that a verified MAC message gave is
    protected with the algorithm of that message, and the same verifier accepts it. *)
Lemma echoed_protection_accepted (s r : GeneralName) (b : PKIBody) (salt : bytes)
    (m answer m1 m2 : PKIMessage) (o : VerifyOptions) (res : VerifyResult)
    (params : MACCredentialOption) (c : MACCredentials) (e : bytes) (now now' : Time) :
  Verify now m o = Ok res -> ProtectionParams res = Some params ->
  NewMACCredentials (SharedSecret o) [params] = Ok c -> sendable s r b answer ->
  MACCredentials_Protect salt c answer = (m1, Ok tt) -> MarshalBinary m1 = (m2, Ok e) ->
  exists m3 params', ParsePKIMessage e = Ok m3
    /\ Algorithm <$> ProtectionAlg (Header m3) = Algorithm <$> ProtectionAlg (Header m)
    /\ Verify now' m3 o = Ok (mkVerifyResult true (Some params') None).
Proof.
  intros Hv Hpar Hc Hs H Hw.
  destruct (echo_config now m o res params Hv Hpar) as (alg & Halg & Hsec & Hreq & Hwf & Hcfg & _ & _).
  unfold NewMACCredentials in Hc. case_in Hc; [done|]. cbn [foldl] in Hc.
  case_in Hc; [done|]. injection Hc as <-.
  destruct (mac_credentials_verified s r b salt
    (mkMACCredentials (SharedSecret o) (params emptyMacConfig)) answer m1 m2 e now' o Hs Hwf H Hw)
    as (_ & m3 & p & Hp & _ & Ha & Hok); [done|].
  exists m3, p. split; [done|]. split; [|done]. rewrite Ha, Halg. simpl. by rewrite Hcfg.
Qed.

(** A proof of possession made with a key verifies for a request that carries its
    public key and was encoded as its [Raw] says; the request is not changed. *)
Lemma generated_pop_verifies (random : bytes) (key : Signer) (req : CertRequest) (m : CertReqMsg) :
  ParsePKIXPublicKey (tmpl_PublicKey (cr_CertTemplate req)) = Some (Signer_Public key) ->
  tmpl_PublicKey (cr_CertTemplate req) <> [] -> bout (CertRequest_marshal req) = Ok (cr_Raw req) ->
  GeneratePOP random key (mkCertReqMsg req None) = Ok m ->
  CertReq m = req /\ VerifyPOP m = None.
Proof.
  intros Hp Hn Hr H. destruct (GeneratePOP_verifies _ _ _ _ _ eq_refl Hp Hn Hr H) as [Hm Hv].
  split; [done | apply Hv].
Qed.

(** The certificates of a signed message: the protection certificate comes first,
    no certificate comes twice, and the chain and what the caller had attached are
    all there, in their order. *)
Lemma attached_certificates (random : bytes) (c : SignatureCredentials) (m m1 : PKIMessage) :
  SignatureCredentials_Protect random c m = (m1, Ok tt) ->
  let own := mkCMPCertificate (Raw (sc_cert c)) in
  let all := own :: ((fun x => mkCMPCertificate (Raw x)) <$> sc_chain c) ++ ExtraCerts m in
  head (ExtraCerts m1) = Some own /\ NoDup (ExtraCerts m1)
  /\ (forall x, x ∈ ExtraCerts m1 <-> x ∈ all) /\ ExtraCerts m1 `sublist_of` all.
Proof.
  intros H own all. apply protectWithSignature_ok in H.
  destruct H as (oid & h & b & rawH & rawB & data & sig & _ & _ & _ & _ & _ & _ & ->).
  assert (E : ExtraCerts (set_Protection sig (encoded (prepared oid (sc_cert c) (sc_chain c) m) b rawH rawB))
    = dedupeCertificates all) by (by destruct m).
  rewrite E. destruct (dedupe_from_spec [] all) as (Hm & Hn & Hs).
  split; [done|]. split; [by apply NoDup_fmap_1 in Hn|]. split; [|done].
  intros x. unfold dedupeCertificates. rewrite Hm. set_solver.
Qed.

End Protection.

Section Paths.
Context {GX : GoX509}.

(** C13: a certificate the path check accepts is anchored by [crypto/x509], or heads a
    path of at most eight links, no certificate twice, each link signed, named, valid,
    free of name constraints and within the path length its issuer allows, up to a
    certificate that [crypto/x509] anchors with a chain that permits the path below. *)
Theorem certpath_sound (candidates : list Certificate) (roots : CertPool) (now : Time) (cert : Certificate) :
  Forall parsed candidates -> parsed cert -> certpath_Verify candidates roots now cert = None ->
  (exists chains, x509_Verify cert roots candidates now = Ok chains)
  \/ exists rest, path candidates roots now maxDepth cert rest /\ NoDup (Raw <$> (cert :: rest))
                  /\ (0 < length rest <= maxDepth)%nat.
Proof. apply certpath_Verify_sound. Qed.

(** C14: a certificate that heads such a path is accepted, unless the search used up
    its hundred signature checks: the depth limit, the cache of upper chains and the
    early exits lose no path. *)
Theorem certpath_complete (candidates : list Certificate) (roots : CertPool) (now : Time)
    (cert : Certificate) (rest : list Certificate) :
  Forall parsed candidates -> parsed cert ->
  path candidates roots now maxDepth cert rest -> NoDup (Raw <$> (cert :: rest)) ->
  (0 < checksLeft (fst (trusted candidates roots now maxDepth cert initial_search)))%nat ->
  certpath_Verify candidates roots now cert = None.
Proof. apply certpath_Verify_complete. Qed.

End Paths.

(** ** Runs *)

Definition ex_secret : bytes := [115; 51; 99].
Definition ex_body : BodyContent := C_ir [ex_certReqMsg].
Definition ex_pbm : MACCredentials :=
  mkMACCredentials ex_secret (WithMACIterationCount 3 (WithPBM emptyMacConfig)).
Definition ex_mac_message : PKIMessage := Eval vm_compute in
  fst (MACCredentials_Protect [8; 8; 8; 8] ex_pbm (ex_message ex_body)).
Definition ex_mac_options : VerifyOptions :=
  mkVerifyOptions ProtectionAny ex_secret None None [] [] false false.

Lemma ex_sendable c : sendable ex_sender_read ex_sender_read (body_of c) (ex_message c).
Proof. split; [done|]. split; [by destruct c|]. split; [by destruct c|]. split; [apply ex_message_wf | done]. Qed.

Lemma mac_protection_verified_witness :
  exists m3 params, ParsePKIMessage (ex_encoding ex_mac_message) = Ok m3
    /\ Verify 0 m3 ex_mac_options = Ok (mkVerifyResult true (Some params) None).
Proof.
  destruct (mac_protection_verified ex_sender_read ex_sender_read (body_of ex_body) [8; 8; 8; 8] ex_pbm
    (ex_message ex_body) ex_mac_message (fst (MarshalBinary ex_mac_message)) (ex_encoding ex_mac_message) 0
    ex_mac_options (ex_sendable _)) as (m3 & params & Hp & _ & _ & Hv).
  - split; [by right; left|]. split; (split; [reflexivity | by left]).
  - vm_compute. reflexivity.
  - vm_compute. reflexivity.
  - split; [reflexivity | discriminate].
  - exists m3, params. split; [exact Hp | exact Hv].
Defined.

Definition ex_credentials : SignatureCredentials := mkSigCredentials 2 ex_leaf [ex_ca].
Definition ex_signed_message : PKIMessage := Eval vm_compute in
  fst (SignatureCredentials_Protect [4] ex_credentials (ex_message ex_body)).
Definition ex_pool_options : VerifyOptions :=
  mkVerifyOptions ProtectionSignature [] (Some [ex_root]) None (ExtraCerts ex_signed_message)
    (SubjectKeyId ex_leaf) true false.

Lemma ex_element d : isSingleElement d SEQUENCE = true -> element d.
Proof. intros [c H]%single_element_inv. by exists SEQUENCE, c. Qed.

Lemma signature_protection_verified_witness :
  exists m3, ParsePKIMessage (ex_encoding ex_signed_message) = Ok m3
    /\ Verify 5 m3 ex_pool_options = Ok (mkVerifyResult false None (Some ex_leaf)).
Proof.
  destruct (signature_protection_verified ex_sender_read ex_sender_read (body_of ex_body) [4] ex_credentials
    (ex_message ex_body) ex_signed_message (fst (MarshalBinary ex_signed_message))
    (ex_encoding ex_signed_message) 5 ex_pool_options (ex_sendable _)) as (m3 & Hp & _ & Hv).
  - apply ex_element. vm_compute. reflexivity.
  - constructor; [|constructor]. apply ex_element. vm_compute. reflexivity.
  - vm_compute. reflexivity.
  - vm_compute. reflexivity.
  - vm_compute. reflexivity.
  - split; [discriminate|]. split; [vm_compute; reflexivity|]. split; [reflexivity|].
    split; [reflexivity|]. split; [vm_compute; reflexivity|]. split; [vm_compute; reflexivity|].
    exists [ex_root]. split; [reflexivity|]. vm_compute. reflexivity.
  - exists m3. split; [exact Hp | exact Hv].
Defined.

(** The message of the MAC example, as received, and the result of its verification. *)
Definition ex_mac_received : PKIMessage := Eval vm_compute in
  ok_or ex_mac_message (ParsePKIMessage (ex_encoding ex_mac_message)).
Definition ex_mac_result : VerifyResult :=
  ok_or (mkVerifyResult false None None) (Verify 0 ex_mac_received ex_mac_options).

Lemma accepted_mac_sound_witness :
  exists alg h k data, ProtectionAlg (Header ex_mac_received) = Some alg
    /\ mac_key ex_secret alg h k /\ Protection ex_mac_received = hmac_Sum h k data.
Proof.
  destruct (accepted_mac_sound 0 ex_mac_received ex_mac_options ex_mac_result)
    as (_ & _ & alg & h & k & data & Ha & Hk & _ & Hp); [vm_compute; reflexivity..|].
  exists alg, h, k, data. split; [exact Ha|]. split; [exact Hk | exact Hp].
Defined.

Definition ex_signed_received : PKIMessage := Eval vm_compute in
  ok_or ex_signed_message (ParsePKIMessage (ex_encoding ex_signed_message)).

Lemma accepted_signature_sound_witness :
  certpath_Verify (parse_all (ExtraCerts ex_signed_message)) [ex_root] 5 ex_leaf = None
  /\ permittedToSign ex_leaf = true.
Proof.
  destruct (accepted_signature_sound 5 ex_signed_received ex_pool_options
              (mkVerifyResult false None (Some ex_leaf)))
    as (_ & alg & cert & check & data & _ & Hcert & _ & _ & _ & _ & Hku & pool & Hpool & _ & _ & Hpath);
    [vm_compute; reflexivity|reflexivity|].
  injection Hcert as <-. injection Hpool as <-. split; [exact Hpath | exact (Hku eq_refl)].
Defined.

Definition ex_echo : MACCredentialOption := default (fun c => c) (ProtectionParams ex_mac_result).
Definition ex_echo_credentials : MACCredentials :=
  ok_or ex_pbm (NewMACCredentials ex_secret [ex_echo]).
Definition ex_answer : PKIMessage := Eval vm_compute in
  fst (MACCredentials_Protect [1] ex_echo_credentials (ex_message C_pkiConf)).

Lemma echoed_protection_accepted_witness :
  exists m3 params', ParsePKIMessage (ex_encoding ex_answer) = Ok m3
    /\ Verify 0 m3 ex_mac_options = Ok (mkVerifyResult true (Some params') None).
Proof.
  destruct (echoed_protection_accepted ex_sender_read ex_sender_read (body_of C_pkiConf) [1] ex_mac_received
    (ex_message C_pkiConf) ex_answer (fst (MarshalBinary ex_answer)) ex_mac_options ex_mac_result
    ex_echo ex_echo_credentials (ex_encoding ex_answer) 0 0) as (m3 & p & Hp & _ & Hv).
  - vm_compute. reflexivity.
  - vm_compute. reflexivity.
  - vm_compute. reflexivity.
  - apply ex_sendable.
  - vm_compute. reflexivity.
  - vm_compute. reflexivity.
  - exists m3, p. split; [exact Hp | exact Hv].
Defined.

Definition ex_pop : CertReqMsg := Eval vm_compute in
  ok_or ex_certReqMsg (GeneratePOP [3] 3 (mkCertReqMsg (ex_request 0 (ex_template "device" (ex_public 3))) None)).

Lemma generated_pop_verifies_witness :
  CertReq ex_pop = ex_request 0 (ex_template "device" (ex_public 3)) /\ VerifyPOP ex_pop = None.
Proof.
  apply (generated_pop_verifies [3] 3 (ex_request 0 (ex_template "device" (ex_public 3))) ex_pop).
  - vm_compute. reflexivity.
  - vm_compute. discriminate.
  - vm_compute. reflexivity.
  - vm_compute. reflexivity.
Defined.

Lemma attached_certificates_witness :
  ExtraCerts ex_signed_message = [mkCMPCertificate (Raw ex_leaf); mkCMPCertificate (Raw ex_ca)]
  /\ NoDup (ExtraCerts ex_signed_message).
Proof.
  destruct (attached_certificates [4] ex_credentials (ex_message ex_body) ex_signed_message)
    as (_ & Hn & _ & _); [vm_compute; reflexivity|].
  split; [vm_compute; reflexivity | exact Hn].
Defined.

Lemma certpath_sound_witness :
  exists rest, path [ex_ca] [ex_root] 5 maxDepth ex_leaf rest /\ (0 < length rest <= 8)%nat.
Proof.
  destruct (certpath_sound [ex_ca] [ex_root] 5 ex_leaf) as [(ch & H)|(rest & Hp & _ & Hl)].
  - constructor; [vm_compute; reflexivity | constructor].
  - vm_compute. reflexivity.
  - vm_compute. reflexivity.
  - vm_compute in H. discriminate H.
  - exists rest. split; [exact Hp | exact Hl].
Defined.

Lemma certpath_complete_witness :
  certpath_Verify [ex_ca] [ex_root] 5 ex_leaf = None.
Proof.
  apply (certpath_complete [ex_ca] [ex_root] 5 ex_leaf [ex_ca]).
  - constructor; [vm_compute; reflexivity | constructor].
  - vm_compute. reflexivity.
  - split; [vm_compute; reflexivity|]. split.
    + split; [constructor|]. repeat (split; [vm_compute; reflexivity|]). vm_compute. reflexivity.
    + split; vm_compute; reflexivity.
  - apply NoDup_cons. split; [|apply NoDup_singleton]. vm_compute.
    intros H. apply list_elem_of_singleton in H. discriminate H.
  - vm_compute. lia.
Defined.
