(* ===== verification/Transactions.v ===== *)
(** * Transactions of the server

    [src/server/transaction.go]: the keys that bind a transaction to the
    credentials of its client, and the tracker with its counters. A method of the
    tracker is written as the sequence of its atomic operations on the two maps
    and the counters; [TransactionRace] interleaves those of many requests. *)
From S2P Require Import Prelude Failure Errors Asn1 Types X509 Monad Algorithms Protect.

(** [any] values the server keeps for the CA, by their identity; [nil] is [None]. *)
Abbreviation any := Z (only parsing).

(** [RequestType] of [src/server/handler.go]. *)
Abbreviation RequestType := Z (only parsing).
Definition RequestIR : RequestType := 0.
Definition RequestCR : RequestType := 2.
Definition RequestP10CR : RequestType := 4.
Definition RequestKUR : RequestType := 7.
Definition RequestType_String (r : RequestType) : string :=
  if r =? RequestIR then "IR" else if r =? RequestCR then "CR"
  else if r =? RequestP10CR then "P10CR" else if r =? RequestKUR then "KUR"
  else "RequestType(" +:+ pretty r +:+ ")".

(** [txnState]. *)
Inductive txnState := stateActive | statePending | stateIssued | stateCompleted.
#[export] Instance txnState_eq_dec : EqDecision txnState.
Proof. solve_decision. Defined.

Abbreviation transactionKey := bytes (only parsing).
Abbreviation credentialKey := bytes (only parsing).

Record transactionEntry := mkEntry {
  state : txnState;
  lastActivity : Time;
  te_credentialKey : credentialKey;
  reqType : RequestType;
  pollRef : string;
  te_senderNonce : bytes;
  lastPollTime : Time;
  checkAfter : Z;
  te_certReqID : option Z;
  cert : option Certificate;
  te_issueRef : option any;
  issuedSenderNonce : bytes;
  clientSenderNonce : bytes;
  te_protectionAlgorithm : option AlgorithmIdentifier;
  te_protectionParams : option MACCredentialOption
}.

(** [transactionTracker]; an absent counter is one no request has created. *)
Record transactionTracker := mkTracker {
  transactions : gmap transactionKey transactionEntry;
  count : Z;
  maxTransactions : Z;
  credentialCounts : gmap credentialKey Z;
  maxTransactionsPerCredential : Z
}.

Definition newTransactionTracker (maxTxn maxPerCred : Z) : transactionTracker :=
  mkTracker ∅ 0 maxTxn ∅ maxPerCred.

(** ** The atomic operations *)

(** [t.count.Add(d)]: the new value. *)
Definition count_Add (d : Z) : ST transactionTracker Z := fun t =>
  let '(mkTracker m n mx cc mc) := t in (mkTracker m (n + d) mx cc mc, Ok (n + d)).

(** [credCount.Add(d)] on the counter that [getOrCreateCredCount] gives. *)
Definition credCount_Add (ck : credentialKey) (d : Z) : ST transactionTracker Z := fun t =>
  let '(mkTracker m n mx cc mc) := t in
  let v := default 0 (cc !! ck) + d in (mkTracker m n mx (<[ck := v]> cc) mc, Ok v).

(** [t.transactions.Load(key)]. *)
Definition Load (key : transactionKey) : ST transactionTracker (option transactionEntry) := fun t =>
  (t, Ok (transactions t !! key)).

Definition set_transactions (m : gmap transactionKey transactionEntry) (t : transactionTracker)
    : transactionTracker :=
  let '(mkTracker _ n mx cc mc) := t in mkTracker m n mx cc mc.

(** [LoadOrStore]: whether the key was there. *)
Definition LoadOrStore (key : transactionKey) (entry : transactionEntry)
    : ST transactionTracker bool := fun t =>
  match transactions t !! key with
  | Some _ => (t, Ok true)
  | None => (set_transactions (<[key := entry]> (transactions t)) t, Ok false)
  end.

Definition LoadAndDelete (key : transactionKey) : ST transactionTracker (option transactionEntry) :=
  fun t => (set_transactions (delete key (transactions t)) t, Ok (transactions t !! key)).

(** [CompareAndSwap(key, old, new)] for the [old] loaded from [key] since when no
    other request ran. *)
Definition Swap (key : transactionKey) (entry : transactionEntry) : ST transactionTracker bool :=
  fun t => (set_transactions (<[key := entry]> (transactions t)) t, Ok true).

Section Tracker.
Context {GC : GoCrypto}.

(** ** Keys *)

(** What [makeKey] hashes: both identifiers with their lengths. *)
Definition key_input (credentialID transactionID : bytes) : bytes :=
  put_uint32 (Z.of_nat (length credentialID)) ++ credentialID
  ++ put_uint32 (Z.of_nat (length transactionID)) ++ transactionID.
Definition makeKey (credentialID transactionID : bytes) : transactionKey :=
  hash_Sum SHA256 (key_input credentialID transactionID).
Definition makeCredentialKey (credentialID : bytes) : credentialKey :=
  hash_Sum SHA256 credentialID.

(** ** The methods *)

(** Both decrements of a reservation. *)
Definition release (ck : credentialKey) : ST transactionTracker unit :=
  let! _ := credCount_Add ck (-1) in
  let! _ := count_Add (-1) in
  st_ret tt.

Definition active_entry (now : Time) (ck : credentialKey) : transactionEntry :=
  mkEntry stateActive now ck 0 "" [] 0 0 None None None [] [] None None.

Definition startIfAbsent (now : Time) (credentialID transactionID : bytes)
    : ST transactionTracker bool :=
  let key := makeKey credentialID transactionID in
  let ck := makeCredentialKey credentialID in
  let! t := st_get in
  let! newCount := count_Add 1 in
  if maxTransactions t <? newCount then
    let! _ := count_Add (-1) in
    st_fail (errorString "maximum transaction limit reached")
  else
  let! newCredCount := credCount_Add ck 1 in
  if maxTransactionsPerCredential t <? newCredCount then
    let! _ := release ck in
    st_fail (errorString "per-credential transaction limit reached")
  else
  let! loaded := LoadOrStore key (active_entry now ck) in
  if loaded then
    let! _ := release ck in
    st_ret true
  else st_ret false.

(** The guard of [setPending] and [setIssued]. *)
Definition may_advance (e : transactionEntry) : bool :=
  bool_decide (state e = stateActive) || bool_decide (state e = statePending).

(** Load the entry, check its state, and swap in the new one. *)
Definition advance (key : transactionKey) (newEntry : transactionEntry)
    : ST transactionTracker bool :=
  let! old := Load key in
  match old with
  | None => st_ret false
  | Some oldEntry => if negb (may_advance oldEntry) then st_ret false else Swap key newEntry
  end.

Definition pending_entry (now : Time) (ck : credentialKey) (rt : RequestType) (ref : string)
    (senderNonce : bytes) (after : Z) (lastPoll : Time) : transactionEntry :=
  mkEntry statePending now ck rt ref senderNonce lastPoll after None None None [] [] None None.

Definition setPending (now : Time) (credentialID transactionID : bytes) (rt : RequestType)
    (ref : string) (senderNonce : bytes) (after : Z) (lastPoll : Time)
    : ST transactionTracker bool :=
  advance (makeKey credentialID transactionID)
    (pending_entry now (makeCredentialKey credentialID) rt ref senderNonce after lastPoll).

(** [getPending] and [getIssued] read one entry in one state. *)
Definition get_in_state (s : txnState) (credentialID transactionID : bytes)
    (t : transactionTracker) : option transactionEntry :=
  match transactions t !! makeKey credentialID transactionID with
  | Some e => if bool_decide (state e = s) then Some e else None
  | None => None
  end.
Definition getPending := get_in_state statePending.
Definition getIssued := get_in_state stateIssued.

Definition issued_entry (now : Time) (ck : credentialKey) (rt : RequestType) (certReqID : Z)
    (c : Certificate) (ref : option any) (senderNonce clientNonce : bytes)
    (params : option MACCredentialOption) (algorithm : option AlgorithmIdentifier)
    : transactionEntry :=
  mkEntry stateIssued now ck rt "" [] 0 0 (Some certReqID) (Some c) ref senderNonce clientNonce
    algorithm params.

Definition setIssued (now : Time) (credentialID transactionID : bytes) (rt : RequestType)
    (certReqID : Z) (c : Certificate) (ref : option any) (senderNonce clientNonce : bytes)
    (params : option MACCredentialOption) (algorithm : option AlgorithmIdentifier)
    : ST transactionTracker bool :=
  advance (makeKey credentialID transactionID)
    (issued_entry now (makeCredentialKey credentialID) rt certReqID c ref senderNonce clientNonce
       params algorithm).

(** The copy that [setCompleted] publishes. *)
Definition completed_entry (now : Time) (e : transactionEntry) : transactionEntry :=
  let '(mkEntry _ _ ck rt ref sn lp ca rid c ir isn csn alg params) := e in
  mkEntry stateCompleted now ck rt ref sn lp ca rid c ir isn csn alg params.

Definition setCompleted (now : Time) (credentialID transactionID : bytes)
    : ST transactionTracker unit :=
  let key := makeKey credentialID transactionID in
  let! old := Load key in
  match old with
  | None => st_ret tt
  | Some oldEntry => let! _ := Swap key (completed_entry now oldEntry) in st_ret tt
  end.

(** The decrements after an entry was removed. *)
Definition forget (entry : transactionEntry) : ST transactionTracker unit :=
  let! _ := count_Add (-1) in
  let! _ := credCount_Add (te_credentialKey entry) (-1) in
  st_ret tt.

Definition delete_txn (credentialID transactionID : bytes) : ST transactionTracker unit :=
  let! v := LoadAndDelete (makeKey credentialID transactionID) in
  match v with
  | Some entry => forget entry
  | None => st_ret tt
  end.

(** ** Expiry *)

Record expiredIssued := mkExpired { ex_cert : Certificate; ex_issueRef : option any }.

(** One call of the function [Range] iterates. *)
Definition cleanup_entry (cutoff : Time) (kv : transactionKey * transactionEntry)
    : ST transactionTracker (list expiredIssued) :=
  let '(key, entry) := kv in
  if lastActivity entry <? cutoff then
    let! loaded := LoadAndDelete key in
    match loaded with
    | None => st_ret []
    | Some _ =>
        let! _ := forget entry in
        st_ret (match state entry, cert entry with
                | stateIssued, Some c => [mkExpired c (te_issueRef entry)]
                | _, _ => []
                end)
    end
  else st_ret [].

Fixpoint cleanup_entries (cutoff : Time) (kvs : list (transactionKey * transactionEntry))
    : ST transactionTracker (list expiredIssued) :=
  match kvs with
  | [] => st_ret []
  | kv :: kvs =>
      let! e := cleanup_entry cutoff kv in
      let! es := cleanup_entries cutoff kvs in
      st_ret (e ++ es)
  end.

Definition cleanupExpired (now : Time) (maxAge : Z) : ST transactionTracker (list expiredIssued) :=
  if maxAge <=? 0 then st_ret []
  else
    let! t := st_get in
    cleanup_entries (now - maxAge) (map_to_list (transactions t)).

End Tracker.
