(* ===== verification/TransactionsFacts.v ===== *)
(** * The tracker keeps its counters and its limits

    The inputs of the keys determine the identifiers; every method keeps
    [tracker_ok]: the counters are the numbers of transactions they stand for, and
    the limits hold. *)
From S2P Require Import Prelude Failure Errors Asn1 Types X509 Monad Algorithms Protect.
From S2P Require Import Transactions.

(** ** Length-prefixed fields *)

Lemma prefixed_inj (a a' r r' : bytes) :
  Z.of_nat (length a) < 2 ^ 32 -> Z.of_nat (length a') < 2 ^ 32 ->
  put_uint32 (Z.of_nat (length a)) ++ a ++ r = put_uint32 (Z.of_nat (length a')) ++ a' ++ r' ->
  a = a' /\ r = r'.
Proof.
  intros Ha Ha' H. apply app_inj_same_length in H as [Hl H]; [|done].
  apply put_uint32_inj in Hl; [|lia..]. apply app_inj_same_length in H; [done|lia].
Qed.

(** A field short enough for its length to be written. *)
Definition short (b : bytes) : Prop := Z.of_nat (length b) < 2 ^ 32.

Lemma key_input_inj c t c' t' :
  short c -> short c' -> short t -> short t' ->
  key_input c t = key_input c' t' -> c = c' /\ t = t'.
Proof.
  unfold short, key_input. intros Hc Hc' Ht Ht' H.
  apply prefixed_inj in H as [-> H]; [|done..].
  split; [done|]. apply (prefixed_inj t t' [] []); by rewrite ?app_nil_r.
Qed.

(** ** Counting the transactions of a credential *)

Definition held (ck : credentialKey) (m : gmap transactionKey transactionEntry) : Z :=
  Z.of_nat (size (filter (fun kv => te_credentialKey (snd kv) = ck) m)).
Definition one_if (P : Prop) {D : Decision P} : Z := if decide P then 1 else 0.

Lemma held_nonneg (ck : credentialKey) m : 0 <= held ck m.
Proof. unfold held. lia. Qed.

Lemma held_insert (ck : credentialKey) (k : transactionKey) (e : transactionEntry) (m : gmap transactionKey transactionEntry) :
  m !! k = None -> held ck (<[k := e]> m) = held ck m + one_if (te_credentialKey e = ck).
Proof.
  intros Hk. unfold held, one_if. case_decide as Hc.
  - rewrite map_filter_insert_True by done. rewrite map_size_insert_None; [lia|].
    apply map_lookup_filter_None. by left.
  - rewrite map_filter_insert_False by done. rewrite delete_id by done. lia.
Qed.

Lemma held_delete (ck : credentialKey) (k : transactionKey) (e : transactionEntry) (m : gmap transactionKey transactionEntry) :
  m !! k = Some e -> held ck (delete k m) = held ck m - one_if (te_credentialKey e = ck).
Proof.
  intros Hk. rewrite <- (insert_delete_id m k e Hk) at 2.
  rewrite held_insert by apply lookup_delete_eq. lia.
Qed.

Lemma held_update (ck : credentialKey) (k : transactionKey) (e e' : transactionEntry) (m : gmap transactionKey transactionEntry) :
  m !! k = Some e -> te_credentialKey e' = te_credentialKey e -> held ck (<[k := e']> m) = held ck m.
Proof.
  intros Hk Hc. rewrite <- insert_delete_eq, held_insert by apply lookup_delete_eq.
  rewrite (held_delete _ _ _ _ Hk), Hc. lia.
Qed.

Lemma size_insert_Z {A} (m : gmap bytes A) (k : bytes) (v : A) :
  m !! k = None -> Z.of_nat (size (<[k := v]> m)) = Z.of_nat (size m) + 1.
Proof. intros. rewrite map_size_insert_None by done. lia. Qed.

Lemma size_delete_Z {A} (m : gmap bytes A) (k : bytes) (v : A) :
  m !! k = Some v -> Z.of_nat (size (delete k m)) = Z.of_nat (size m) - 1.
Proof.
  intros H. rewrite map_size_delete_Some by eauto.
  assert (size m <> 0%nat); [|lia]. apply (map_size_ne_0_lookup_2 m k). eauto.
Qed.

Lemma size_update_Z {A} (m : gmap bytes A) (k : bytes) (v v' : A) :
  m !! k = Some v -> Z.of_nat (size (<[k := v']> m)) = Z.of_nat (size m).
Proof. intros. by rewrite map_size_insert_Some by eauto. Qed.

Section Tracker.
Context {GC : GoCrypto}.

(** ** Inputs without collisions

    [known] holds of the inputs hashed into keys so far. *)
Definition collision_free (known : bytes -> Prop) : Prop :=
  forall x y, known x -> known y -> hash_Sum SHA256 x = hash_Sum SHA256 y -> x = y.

Definition known_pair (known : bytes -> Prop) (c t : bytes) : Prop :=
  known (key_input c t) /\ short c /\ short t.

Lemma makeKey_inj known c t c' t' :
  collision_free known -> known_pair known c t -> known_pair known c' t' ->
  makeKey c t = makeKey c' t' -> c = c' /\ t = t'.
Proof.
  intros Hf (Hk & Hc & Ht) (Hk' & Hc' & Ht') Heq. apply key_input_inj; try done. by apply Hf.
Qed.

(** Every entry is stored under the key of its credential. *)
Definition bound_entries (known : bytes -> Prop) (m : gmap transactionKey transactionEntry) : Prop :=
  forall k e, m !! k = Some e ->
    exists c t, known_pair known c t /\ k = makeKey c t /\ te_credentialKey e = makeCredentialKey c.

Lemma bound_credential known m c t e :
  collision_free known -> bound_entries known m -> known_pair known c t ->
  m !! makeKey c t = Some e -> te_credentialKey e = makeCredentialKey c.
Proof.
  intros Hf Hb Hk He. destruct (Hb _ _ He) as (c' & t' & Hk' & Heq & ->).
  by destruct (makeKey_inj _ _ _ _ _ Hf Hk Hk' Heq) as [-> _].
Qed.

Lemma bound_insert known m c t e :
  bound_entries known m -> known_pair known c t -> te_credentialKey e = makeCredentialKey c ->
  bound_entries known (<[makeKey c t := e]> m).
Proof.
  intros Hb Hk He k e' H. apply lookup_insert_Some in H as [[<- <-]|[_ H]]; [eauto 6 | by apply Hb].
Qed.

Lemma bound_delete known m k : bound_entries known m -> bound_entries known (delete k m).
Proof. intros Hb k' e H. apply lookup_delete_Some in H as [_ H]. by apply Hb. Qed.

(** ** The invariant *)

Record tracker_ok (known : bytes -> Prop) (t : transactionTracker) : Prop := {
  ok_count : count t = Z.of_nat (size (transactions t));
  ok_credentials : forall ck, default 0 (credentialCounts t !! ck) = held ck (transactions t);
  ok_limit : Z.of_nat (size (transactions t)) <= Z.max 0 (maxTransactions t);
  ok_credential_limit : forall ck,
    held ck (transactions t) <= Z.max 0 (maxTransactionsPerCredential t);
  ok_bound : bound_entries known (transactions t)
}.

Lemma new_tracker_ok known mx mc : tracker_ok known (newTransactionTracker mx mc).
Proof.
  constructor; simpl; try done.
  - unfold size, map_size. rewrite map_fold_empty. lia.
  - intros ck. unfold held. rewrite map_filter_empty, map_size_empty. lia.
Qed.

(** A counter after [Add]. *)
Lemma counter_insert (cc : gmap credentialKey Z) (ck ck' : credentialKey) v :
  default 0 (<[ck := v]> cc !! ck') = if decide (ck = ck') then v else default 0 (cc !! ck').
Proof. case_decide as H; simplify_map_eq; done. Qed.

(** The counters once a reservation was given back. *)
Lemma reserve_release (ck ck' : credentialKey) (cc : gmap credentialKey Z) :
  default 0 (<[ck := default 0 (<[ck := default 0 (cc !! ck) + 1]> cc !! ck) + -1]>
               (<[ck := default 0 (cc !! ck) + 1]> cc) !! ck') = default 0 (cc !! ck').
Proof. rewrite !counter_insert. repeat case_decide; subst; lia || done. Qed.

(** Two trackers with the same counters and the same transactions. *)
Definition same_counts (t t' : transactionTracker) : Prop :=
  transactions t' = transactions t /\ count t' = count t /\
  maxTransactions t' = maxTransactions t /\
  maxTransactionsPerCredential t' = maxTransactionsPerCredential t /\
  forall ck, default 0 (credentialCounts t' !! ck) = default 0 (credentialCounts t !! ck).

Lemma same_counts_ok known t t' : same_counts t t' -> tracker_ok known t -> tracker_ok known t'.
Proof.
  intros (Hm & Hc & Hx & Hp & Hcc) [H1 H2 H3 H4 H5]. constructor; rewrite ?Hm, ?Hc, ?Hx, ?Hp; try done.
  intros ck. by rewrite Hcc.
Qed.

(** The tracker with one more transaction. *)
Definition add_txn (k : transactionKey) (e : transactionEntry) (t : transactionTracker)
    : transactionTracker :=
  let ck := te_credentialKey e in
  mkTracker (<[k := e]> (transactions t)) (count t + 1) (maxTransactions t)
    (<[ck := default 0 (credentialCounts t !! ck) + 1]> (credentialCounts t))
    (maxTransactionsPerCredential t).

Lemma add_txn_ok known c tx e t :
  tracker_ok known t -> known_pair known c tx -> te_credentialKey e = makeCredentialKey c ->
  transactions t !! makeKey c tx = None ->
  count t + 1 <= maxTransactions t ->
  default 0 (credentialCounts t !! te_credentialKey e) + 1 <= maxTransactionsPerCredential t ->
  tracker_ok known (add_txn (makeKey c tx) e t).
Proof.
  intros [H1 H2 H3 H4 H5] Hk He Hn Hmax Hcred. constructor; simpl.
  - rewrite size_insert_Z by done. lia.
  - intros ck. rewrite counter_insert, held_insert by done. unfold one_if.
    case_decide; subst; rewrite H2; lia.
  - rewrite size_insert_Z by done. lia.
  - intros ck. rewrite held_insert by done. unfold one_if. case_decide; subst.
    + rewrite H2 in Hcred. lia.
    + specialize (H4 ck). lia.
  - by apply bound_insert.
Qed.

(** ** [startIfAbsent] *)

(** The three outcomes: a limit is reached, the transaction exists, or it is new;
    only the last changes more than the counters' presence. *)
Inductive start_outcome (now : Time) (c tx : bytes) (t : transactionTracker)
    : transactionTracker * result bool -> Prop :=
| start_limit t' :
    maxTransactions t <= count t -> same_counts t t' ->
    start_outcome now c tx t (t', Err (errorString "maximum transaction limit reached"))
| start_credential_limit t' :
    count t < maxTransactions t ->
    maxTransactionsPerCredential t <= default 0 (credentialCounts t !! makeCredentialKey c) ->
    same_counts t t' ->
    start_outcome now c tx t (t', Err (errorString "per-credential transaction limit reached"))
| start_exists t' e :
    count t < maxTransactions t ->
    default 0 (credentialCounts t !! makeCredentialKey c) < maxTransactionsPerCredential t ->
    transactions t !! makeKey c tx = Some e -> same_counts t t' ->
    start_outcome now c tx t (t', Ok true)
| start_new :
    count t < maxTransactions t ->
    default 0 (credentialCounts t !! makeCredentialKey c) < maxTransactionsPerCredential t ->
    transactions t !! makeKey c tx = None ->
    start_outcome now c tx t
      (add_txn (makeKey c tx) (active_entry now (makeCredentialKey c)) t, Ok false).

Lemma startIfAbsent_outcome now c tx t : start_outcome now c tx t (startIfAbsent now c tx t).
Proof.
  destruct t as [m n mx cc mc]. unfold startIfAbsent, st_bind, count_Add. simpl.
  destruct (Z.ltb_spec mx (n + 1)); simpl.
  { apply start_limit; simpl; [lia|]. repeat split; simpl; lia. }
  destruct (Z.ltb_spec mc (default 0 (cc !! makeCredentialKey c) + 1)); simpl.
  { apply start_credential_limit; simpl; [lia..|]. repeat split; simpl; try lia.
    intros ck. apply reserve_release. }
  unfold LoadOrStore. simpl. destruct (m !! makeKey c tx) as [e|] eqn:E; simpl.
  - eapply start_exists; simpl; [lia..| exact E |]. repeat split; simpl; try lia.
    intros ck. apply reserve_release.
  - apply start_new; simpl; [lia..| exact E].
Qed.

Lemma startIfAbsent_ok known now c tx t :
  tracker_ok known t -> known_pair known c tx ->
  tracker_ok known (fst (startIfAbsent now c tx t)).
Proof.
  intros Hok Hk. destruct (startIfAbsent_outcome now c tx t) as [| | |]; simpl;
    try by eapply same_counts_ok.
  apply add_txn_ok; simpl; try done; lia.
Qed.

(** ** Transitions *)

Lemma update_ok known t c tx e e' :
  collision_free known -> tracker_ok known t -> known_pair known c tx ->
  transactions t !! makeKey c tx = Some e -> te_credentialKey e' = makeCredentialKey c ->
  tracker_ok known (set_transactions (<[makeKey c tx := e']> (transactions t)) t).
Proof.
  intros Hf Hok Hk He He'. pose proof Hok as [H1 H2 H3 H4 H5].
  pose proof (bound_credential _ _ _ _ _ Hf H5 Hk He) as Hc. rewrite <- He' in Hc.
  destruct t as [m n mx cc mc]; simpl in *. constructor; simpl.
  - by rewrite (size_update_Z _ _ _ _ He).
  - intros ck. by rewrite (held_update _ _ _ _ _ He).
  - by rewrite (size_update_Z _ _ _ _ He).
  - intros ck. by rewrite (held_update _ _ _ _ _ He).
  - by apply bound_insert.
Qed.

Lemma advance_spec key new t :
  advance key new t =
  match transactions t !! key with
  | Some e => if may_advance e then (set_transactions (<[key := new]> (transactions t)) t, Ok true)
              else (t, Ok false)
  | None => (t, Ok false)
  end.
Proof.
  unfold advance, st_bind, Load. destruct (transactions t !! key) as [e|]; [|done].
  by destruct (may_advance e).
Qed.

Lemma advance_ok known t c tx e :
  collision_free known -> tracker_ok known t -> known_pair known c tx ->
  te_credentialKey e = makeCredentialKey c -> tracker_ok known (fst (advance (makeKey c tx) e t)).
Proof.
  intros Hf Hok Hk He. rewrite advance_spec.
  destruct (transactions t !! makeKey c tx) as [old|] eqn:E; [|done].
  destruct (may_advance old); [|done]. by eapply update_ok.
Qed.

Lemma setCompleted_spec now c tx t :
  setCompleted now c tx t =
  match transactions t !! makeKey c tx with
  | Some e =>
      (set_transactions (<[makeKey c tx := completed_entry now e]> (transactions t)) t, Ok tt)
  | None => (t, Ok tt)
  end.
Proof. unfold setCompleted, st_bind, Load. by destruct (transactions t !! makeKey c tx). Qed.

Lemma completed_credential now e : te_credentialKey (completed_entry now e) = te_credentialKey e.
Proof. by destruct e. Qed.

Lemma setCompleted_ok known now c tx t :
  collision_free known -> tracker_ok known t -> known_pair known c tx ->
  tracker_ok known (fst (setCompleted now c tx t)).
Proof.
  intros Hf Hok Hk. rewrite setCompleted_spec.
  destruct (transactions t !! makeKey c tx) as [e|] eqn:E; [|done].
  eapply update_ok; try done. rewrite completed_credential.
  eapply bound_credential; try done. apply Hok.
Qed.

(** ** Removal *)

(** The tracker with one transaction less. *)
Definition remove_txn (k : transactionKey) (e : transactionEntry) (t : transactionTracker)
    : transactionTracker :=
  let ck := te_credentialKey e in
  mkTracker (delete k (transactions t)) (count t - 1) (maxTransactions t)
    (<[ck := default 0 (credentialCounts t !! ck) - 1]> (credentialCounts t))
    (maxTransactionsPerCredential t).

Lemma remove_txn_ok known k e t :
  tracker_ok known t -> transactions t !! k = Some e -> tracker_ok known (remove_txn k e t).
Proof.
  intros [H1 H2 H3 H4 H5] Hk. constructor; simpl.
  - rewrite (size_delete_Z _ _ _ Hk). lia.
  - intros ck. rewrite counter_insert, (held_delete _ _ _ _ Hk). unfold one_if.
    case_decide; subst; rewrite H2; lia.
  - rewrite (size_delete_Z _ _ _ Hk). lia.
  - intros ck. rewrite (held_delete _ _ _ _ Hk). unfold one_if. specialize (H4 ck).
    case_decide; lia.
  - by apply bound_delete.
Qed.

Lemma delete_txn_spec c tx t :
  delete_txn c tx t =
  match transactions t !! makeKey c tx with
  | Some e => (remove_txn (makeKey c tx) e t, Ok tt)
  | None => (set_transactions (delete (makeKey c tx) (transactions t)) t, Ok tt)
  end.
Proof.
  destruct t as [m n mx cc mc]. unfold delete_txn, st_bind, LoadAndDelete. simpl.
  destruct (m !! makeKey c tx) as [e|]; done.
Qed.

Lemma delete_absent k t : transactions t !! k = None -> set_transactions (delete k (transactions t)) t = t.
Proof. destruct t; simpl. intros H. by rewrite delete_id. Qed.

Lemma delete_txn_ok known c tx t : tracker_ok known t -> tracker_ok known (fst (delete_txn c tx t)).
Proof.
  intros Hok. rewrite delete_txn_spec. destruct (transactions t !! makeKey c tx) as [e|] eqn:E; simpl.
  - by apply remove_txn_ok.
  - by rewrite delete_absent.
Qed.

(** ** Expiry *)

Definition is_old (cutoff : Time) (e : transactionEntry) : Prop := lastActivity e < cutoff.

(** What the CA is told of an expired entry. *)
Definition unconfirmed (e : transactionEntry) : list expiredIssued :=
  match state e, cert e with
  | stateIssued, Some c => [mkExpired c (te_issueRef e)]
  | _, _ => []
  end.

Lemma cleanup_entry_spec cutoff k e t :
  transactions t !! k = Some e ->
  cleanup_entry cutoff (k, e) t =
  if lastActivity e <? cutoff then (remove_txn k e t, Ok (unconfirmed e)) else (t, Ok []).
Proof.
  destruct t as [m n mx cc mc]. simpl. intros Hk. case_match; [|done].
  unfold st_bind, LoadAndDelete. simpl. by rewrite Hk.
Qed.

Definition is_listed (kvs : list (transactionKey * transactionEntry)) (t : transactionTracker) : Prop :=
  NoDup (fst <$> kvs) /\ forall k e, (k, e) ∈ kvs -> transactions t !! k = Some e.

Lemma is_listed_remove k e kvs t :
  is_listed ((k, e) :: kvs) t -> is_listed kvs (remove_txn k e t) /\ is_listed kvs t.
Proof.
  intros [Hn Hin]. apply NoDup_cons in Hn as [Hk Hn]. split; split; try done; intros k' e' H.
  - simpl. rewrite lookup_delete_ne; [by apply Hin; right|]. intros <-.
    apply Hk. apply list_elem_of_fmap. by exists (k, e').
  - apply Hin. by right.
Qed.

Definition expired_report (cutoff : Time) (kvs : list (transactionKey * transactionEntry))
    : list expiredIssued :=
  kvs ≫= fun kv => if lastActivity (snd kv) <? cutoff then unconfirmed (snd kv) else [].

Lemma cleanup_entries_spec known cutoff kvs t :
  is_listed kvs t ->
  exists t', cleanup_entries cutoff kvs t = (t', Ok (expired_report cutoff kvs)) /\
    (tracker_ok known t -> tracker_ok known t') /\
    forall k e, transactions t' !! k = Some e <->
      transactions t !! k = Some e /\ ~ ((k, e) ∈ kvs /\ is_old cutoff e).
Proof.
  revert t. induction kvs as [|[k e] kvs IH]; intros t Hl.
  { exists t. split; [done|]. split; [done|]. intros k e. split; [|by intros [? _]].
    intros H. split; [done|]. intros [Hin _]. by apply elem_of_nil in Hin. }
  pose proof (proj2 Hl k e (list_elem_of_here _ _)) as Hk.
  destruct (is_listed_remove _ _ _ _ Hl) as [Hr Hs]. cbn [cleanup_entries]. unfold st_bind.
  rewrite cleanup_entry_spec by done. unfold is_old in *.
  change (expired_report cutoff ((k, e) :: kvs)) with
    ((if lastActivity e <? cutoff then unconfirmed e else []) ++ expired_report cutoff kvs).
  destruct (Z.ltb_spec (lastActivity e) cutoff) as [Hold|Hold].
  - destruct (IH _ Hr) as (t' & -> & Hok & Hm). exists t'. split; [done|].
    split; [intros; by apply Hok, remove_txn_ok|]. intros k' e'. rewrite Hm. simpl.
    rewrite lookup_delete_Some, elem_of_cons. destruct Hl as [Hn Hin].
    split; [intros [[Hne H] Hnot]; split; [done|] | intros [H Hnot]; split; [split; [|done]|]].
    + intros [[[= <- <-]|H'] ?]; [done | by apply Hnot].
    + intros ->. rewrite Hk in H. injection H as ->. apply Hnot. auto.
    + intros [H' ?]. apply Hnot. auto.
  - destruct (IH _ Hs) as (t' & -> & Hok & Hm). exists t'. split; [done|]. split; [done|].
    intros k' e'. rewrite Hm, elem_of_cons. split; intros [H Hnot]; (split; [done|]); intros [H' ?];
      apply Hnot; [|by auto]. destruct H' as [[= -> ->]|H']; [lia | done].
Qed.

Lemma is_listed_all t : is_listed (map_to_list (transactions t)) t.
Proof. split; [apply NoDup_fst_map_to_list|]. intros k e. apply elem_of_map_to_list. Qed.

(** A sweep removes the old entries and no other, and reports the certificates
    among them. *)
Lemma cleanupExpired_spec known now maxAge t :
  0 < maxAge ->
  exists t', cleanupExpired now maxAge t
      = (t', Ok (expired_report (now - maxAge) (map_to_list (transactions t)))) /\
    (tracker_ok known t -> tracker_ok known t') /\
    forall k e, transactions t' !! k = Some e <->
      transactions t !! k = Some e /\ ~ is_old (now - maxAge) e.
Proof.
  intros Hage. unfold cleanupExpired. destruct (Z.leb_spec maxAge 0); [lia|].
  unfold st_bind, st_get.
  destruct (cleanup_entries_spec known (now - maxAge) _ _ (is_listed_all t)) as (t' & H1 & H2 & H3).
  exists t'. split; [exact H1|]. split; [done|]. intros k e. rewrite H3, elem_of_map_to_list.
  split; intros [? Hnot]; (split; [done|]); [intros ?; by apply Hnot | by intros [_ ?]].
Qed.

Lemma expired_report_spec cutoff t x :
  x ∈ expired_report cutoff (map_to_list (transactions t)) <->
  exists k e c, transactions t !! k = Some e /\ is_old cutoff e /\ state e = stateIssued /\
    cert e = Some c /\ x = mkExpired c (te_issueRef e).
Proof.
  unfold expired_report. rewrite list_elem_of_bind. split.
  - intros ([k e] & Hx & Hin). apply elem_of_map_to_list in Hin. simpl in Hx.
    destruct (Z.ltb_spec (lastActivity e) cutoff) as [Ho|]; [|by apply elem_of_nil in Hx].
    unfold unconfirmed in Hx. destruct (state e) eqn:Es; try by apply elem_of_nil in Hx.
    destruct (cert e) as [c|] eqn:Ec; [|by apply elem_of_nil in Hx].
    apply list_elem_of_singleton in Hx as ->. by exists k, e, c.
  - intros (k & e & c & Hk & Ho & Hs & Hc & ->). exists (k, e). rewrite elem_of_map_to_list.
    split; [|done]. simpl. unfold is_old in Ho. destruct (Z.ltb_spec (lastActivity e) cutoff); [|lia].
    unfold unconfirmed. rewrite Hs, Hc. by apply list_elem_of_singleton.
Qed.

End Tracker.
