(* ===== verification/TransactionRace.v ===== *)
(** * Concurrent requests on the tracker

    Requests run at the same time and meet only in the atomic operations of the
    tracker. A thread is one call of a method at the point it reached; a step
    lets one thread perform its next atomic operation. The limits hold in every
    reachable state and the counters are exact once every call has returned. *)
From S2P Require Import Prelude Failure Errors Asn1 Types X509 Monad Algorithms Protect.
From S2P Require Import Transactions TransactionsFacts.

(** ** Threads *)

(** The calls, each at its next atomic operation. [T_counted] holds [newCount],
    [T_reserved] holds [newCredCount]; [T_release] and [T_giveback] are the two
    decrements of a failed start; [T_forget] and [T_forget2] those after a
    removal; [T_clean] holds the entry the sweep read. *)
Inductive thread :=
| T_start (now : Time) (c tx : bytes)
| T_counted (now : Time) (c tx : bytes) (newCount : Z)
| T_reserved (now : Time) (c tx : bytes) (newCredCount : Z)
| T_release (ck : credentialKey) (r : result bool)
| T_giveback (r : result bool)
| T_advance (c tx : bytes) (new : transactionEntry)
| T_swap (c tx : bytes) (old new : transactionEntry)
| T_complete (now : Time) (c tx : bytes)
| T_complete_swap (now : Time) (c tx : bytes) (old : transactionEntry)
| T_delete (c tx : bytes)
| T_clean (cutoff : Time) (key : transactionKey) (stale : transactionEntry)
| T_forget (ck : credentialKey)
| T_forget2 (ck : credentialKey)
| T_done (r : result bool).

Section Race.
Context {GC : GoCrypto}.

Definition limit_reached : result bool := Err (errorString "maximum transaction limit reached").
Definition credential_limit_reached : result bool :=
  Err (errorString "per-credential transaction limit reached").

(** [CompareAndSwap] with an entry loaded earlier: it may fail when another entry
    took its place. An entry is never changed in place, so that comparing what the
    pointers hold allows every swap that comparing the pointers does. *)
Inductive compare_and_swap (key : transactionKey) (old new : transactionEntry)
    (t : transactionTracker) : transactionTracker -> bool -> Prop :=
| cas_done : transactions t !! key = Some old ->
    compare_and_swap key old new t (set_transactions (<[key := new]> (transactions t)) t) true
| cas_lost : compare_and_swap key old new t t false.

(** The next atomic operation of a thread. *)
Inductive thread_step : transactionTracker -> thread -> transactionTracker -> thread -> Prop :=
| S_start t now c tx t' n :
    count_Add 1 t = (t', Ok n) -> thread_step t (T_start now c tx) t' (T_counted now c tx n)
| S_over_limit t now c tx n t' n' :
    maxTransactions t < n -> count_Add (-1) t = (t', Ok n') ->
    thread_step t (T_counted now c tx n) t' (T_done limit_reached)
| S_counted t now c tx n t' nc :
    n <= maxTransactions t -> credCount_Add (makeCredentialKey c) 1 t = (t', Ok nc) ->
    thread_step t (T_counted now c tx n) t' (T_reserved now c tx nc)
| S_over_credential t now c tx nc t' n' :
    maxTransactionsPerCredential t < nc -> credCount_Add (makeCredentialKey c) (-1) t = (t', Ok n') ->
    thread_step t (T_reserved now c tx nc) t' (T_giveback credential_limit_reached)
| S_store t now c tx nc t' loaded :
    nc <= maxTransactionsPerCredential t ->
    LoadOrStore (makeKey c tx) (active_entry now (makeCredentialKey c)) t = (t', Ok loaded) ->
    thread_step t (T_reserved now c tx nc) t'
      (if loaded then T_release (makeCredentialKey c) (Ok true) else T_done (Ok false))
| S_release t ck r t' n :
    credCount_Add ck (-1) t = (t', Ok n) -> thread_step t (T_release ck r) t' (T_giveback r)
| S_giveback t r t' n :
    count_Add (-1) t = (t', Ok n) -> thread_step t (T_giveback r) t' (T_done r)
| S_advance t c tx new old :
    transactions t !! makeKey c tx = Some old -> may_advance old = true ->
    thread_step t (T_advance c tx new) t (T_swap c tx old new)
| S_advance_fails t c tx new :
    (forall old, transactions t !! makeKey c tx = Some old -> may_advance old = false) ->
    thread_step t (T_advance c tx new) t (T_done (Ok false))
| S_swap t c tx old new t' b :
    compare_and_swap (makeKey c tx) old new t t' b ->
    thread_step t (T_swap c tx old new) t' (T_done (Ok b))
| S_complete t now c tx old :
    transactions t !! makeKey c tx = Some old ->
    thread_step t (T_complete now c tx) t (T_complete_swap now c tx old)
| S_complete_absent t now c tx :
    transactions t !! makeKey c tx = None ->
    thread_step t (T_complete now c tx) t (T_done (Ok true))
| S_complete_swap t now c tx old t' b :
    compare_and_swap (makeKey c tx) old (completed_entry now old) t t' b ->
    thread_step t (T_complete_swap now c tx old) t'
      (if b then T_done (Ok true) else T_complete now c tx)
| S_delete t c tx e t' :
    LoadAndDelete (makeKey c tx) t = (t', Ok (Some e)) ->
    thread_step t (T_delete c tx) t' (T_forget (te_credentialKey e))
| S_delete_absent t c tx t' :
    LoadAndDelete (makeKey c tx) t = (t', Ok None) ->
    thread_step t (T_delete c tx) t' (T_done (Ok false))
| S_clean t cutoff key stale e t' :
    LoadAndDelete key t = (t', Ok (Some e)) ->
    thread_step t (T_clean cutoff key stale) t' (T_forget (te_credentialKey stale))
| S_clean_absent t cutoff key stale t' :
    LoadAndDelete key t = (t', Ok None) ->
    thread_step t (T_clean cutoff key stale) t' (T_done (Ok false))
| S_forget t ck t' n :
    count_Add (-1) t = (t', Ok n) -> thread_step t (T_forget ck) t' (T_forget2 ck)
| S_forget2 t ck t' n :
    credCount_Add ck (-1) t = (t', Ok n) -> thread_step t (T_forget2 ck) t' (T_done (Ok true)).

(** A call: its credential and transactionID are among those of the requests, and
    the entry it publishes is one of its credential. The sweep reads an old entry
    of the table. *)
Definition may_call (known : bytes -> Prop) (t : transactionTracker) (p : thread) : Prop :=
  match p with
  | T_start _ c tx | T_complete _ c tx | T_delete c tx => known_pair known c tx
  | T_advance c tx new =>
      known_pair known c tx /\ te_credentialKey new = makeCredentialKey c
  | T_clean cutoff key stale => transactions t !! key = Some stale /\ is_old cutoff stale
  | _ => False
  end.

Definition config : Type := transactionTracker * list thread.

Inductive race (known : bytes -> Prop) : config -> config -> Prop :=
| race_call t ps p : may_call known t p -> race known (t, ps) (t, p :: ps)
| race_step t p t' p' ps qs :
    thread_step t p t' p' -> race known (t, ps ++ p :: qs) (t', ps ++ p' :: qs).

Definition reachable (known : bytes -> Prop) (mx mc : Z) (c : config) : Prop :=
  rtc (race known) (newTransactionTracker mx mc, []) c.

(** ** What a thread holds *)

(** The part of the count a thread has taken and not given back or stored. *)
Definition holds_count (p : thread) : Z :=
  match p with
  | T_counted _ _ _ _ | T_reserved _ _ _ _ | T_release _ _ | T_giveback _ | T_forget _ => 1
  | _ => 0
  end.
Definition holds_credential (ck : credentialKey) (p : thread) : Z :=
  match p with
  | T_reserved _ c _ _ => one_if (makeCredentialKey c = ck)
  | T_release ck' _ | T_forget ck' | T_forget2 ck' => one_if (ck' = ck)
  | _ => 0
  end.
(** The reservations that passed the checks. *)
Definition accepted_count (mx : Z) (p : thread) : Z :=
  match p with
  | T_counted _ _ _ n => one_if (n <= mx)
  | T_reserved _ _ _ _ => 1
  | _ => 0
  end.
Definition accepted_credential (mc : Z) (ck : credentialKey) (p : thread) : Z :=
  match p with
  | T_reserved _ c _ nc => if decide (makeCredentialKey c = ck) then one_if (nc <= mc) else 0
  | _ => 0
  end.

(** What a thread knows of the tables. *)
Definition thread_ok (known : bytes -> Prop) (p : thread) : Prop :=
  match p with
  | T_start _ c tx | T_counted _ c tx _ | T_reserved _ c tx _ | T_complete _ c tx
  | T_delete c tx => known_pair known c tx
  | T_advance c tx new => known_pair known c tx /\ te_credentialKey new = makeCredentialKey c
  | T_swap c tx old new =>
      known_pair known c tx /\ te_credentialKey new = makeCredentialKey c /\
      te_credentialKey old = makeCredentialKey c
  | T_complete_swap _ c tx old =>
      known_pair known c tx /\ te_credentialKey old = makeCredentialKey c
  | T_clean _ key stale =>
      exists c tx, known_pair known c tx /\ key = makeKey c tx /\
        te_credentialKey stale = makeCredentialKey c
  | _ => True
  end.

Definition total (f : thread -> Z) (ps : list thread) : Z := foldr (fun p n => f p + n) 0 ps.

Lemma total_app f ps qs : total f (ps ++ qs) = total f ps + total f qs.
Proof. induction ps; simpl; lia. Qed.

Lemma total_step f ps p qs : total f (ps ++ p :: qs) = total f (ps ++ qs) + f p.
Proof. rewrite !total_app. simpl. lia. Qed.

Lemma total_nonneg f ps : (forall p, 0 <= f p) -> 0 <= total f ps.
Proof. intros H. induction ps as [|p ps IH]; simpl; [lia|]. specialize (H p). lia. Qed.

Lemma total_le f g ps : (forall p, f p <= g p) -> total f ps <= total g ps.
Proof. intros H. induction ps as [|p ps IH]; simpl; [lia|]. specialize (H p). lia. Qed.

Lemma one_if_range P `{Decision P} : 0 <= one_if P <= 1.
Proof. unfold one_if. case_decide; lia. Qed.

(** ** The invariant of the races *)

Record race_ok (known : bytes -> Prop) (mx mc : Z) (c : config) : Prop := {
  ro_mx : maxTransactions (fst c) = mx;
  ro_mc : maxTransactionsPerCredential (fst c) = mc;
  ro_count : count (fst c) = Z.of_nat (size (transactions (fst c))) + total holds_count (snd c);
  ro_credentials : forall ck,
    default 0 (credentialCounts (fst c) !! ck)
    = held ck (transactions (fst c)) + total (holds_credential ck) (snd c);
  ro_limit : Z.of_nat (size (transactions (fst c))) + total (accepted_count mx) (snd c) <= Z.max 0 mx;
  ro_credential_limit : forall ck,
    held ck (transactions (fst c)) + total (accepted_credential mc ck) (snd c) <= Z.max 0 mc;
  ro_bound : bound_entries known (transactions (fst c));
  ro_threads : Forall (thread_ok known) (snd c)
}.

Lemma accepted_le_count mx ps : total (accepted_count mx) ps <= total holds_count ps.
Proof.
  apply total_le. intros []; simpl; try lia.
  match goal with |- one_if ?P <= _ => pose proof (one_if_range P); lia end.
Qed.

Lemma accepted_le_credential mc ck ps :
  total (accepted_credential mc ck) ps <= total (holds_credential ck) ps.
Proof.
  apply total_le. intros []; simpl; try lia; unfold one_if; repeat case_decide; lia.
Qed.

(** The step of one thread: the others are in [rest]. *)
Lemma race_ok_step known mx mc t ps p qs t' p' :
  race_ok known mx mc (t, ps ++ p :: qs) ->
  maxTransactions t' = maxTransactions t ->
  maxTransactionsPerCredential t' = maxTransactionsPerCredential t ->
  count t' - count t = (Z.of_nat (size (transactions t')) - Z.of_nat (size (transactions t)))
    + (holds_count p' - holds_count p) ->
  (forall ck, default 0 (credentialCounts t' !! ck) - default 0 (credentialCounts t !! ck)
    = (held ck (transactions t') - held ck (transactions t))
      + (holds_credential ck p' - holds_credential ck p)) ->
  Z.of_nat (size (transactions t')) + accepted_count mx p'
    <= Z.of_nat (size (transactions t)) + accepted_count mx p
  \/ (accepted_count mx p = 0 /\ accepted_count mx p' = one_if (count t' <= mx) /\
      holds_count p = 0 /\ transactions t' = transactions t /\ count t' = count t + 1) ->
  (forall ck, held ck (transactions t') + accepted_credential mc ck p'
    <= held ck (transactions t) + accepted_credential mc ck p
  \/ (accepted_credential mc ck p = 0 /\
      accepted_credential mc ck p' = one_if (default 0 (credentialCounts t' !! ck) <= mc) /\
      holds_credential ck p = 0 /\ transactions t' = transactions t /\
      default 0 (credentialCounts t' !! ck) = default 0 (credentialCounts t !! ck) + 1)) ->
  bound_entries known (transactions t') -> (thread_ok known p -> thread_ok known p') ->
  race_ok known mx mc (t', ps ++ p' :: qs).
Proof.
  intros [H1 H2 H3 H4 H5 H6 H7 H8] E1 E2 E3 E4 E5 E6 E7 E8. simpl in *.
  pose proof (accepted_le_count mx (ps ++ qs)) as Ha.
  rewrite total_step in H3, H5. constructor; simpl; try congruence.
  - rewrite total_step. lia.
  - intros ck. specialize (H4 ck). specialize (E4 ck). rewrite total_step in H4 |- *. lia.
  - rewrite total_step. destruct E5 as [E5|(Hz & -> & Hh & E5 & Ec)]; [lia|].
    rewrite E5 in *. unfold one_if in *. case_decide; lia.
  - intros ck. specialize (H4 ck). specialize (H6 ck). specialize (E6 ck). clear E5.
    pose proof (accepted_le_credential mc ck (ps ++ qs)) as Hc.
    rewrite total_step in H4, H6 |- *.
    destruct E6 as [E6|(Hz & -> & Hh & E6 & Ec)]; [lia|].
    rewrite E6 in *. unfold one_if in *. case_decide; lia.
  - exact E7.
  - apply Forall_app in H8 as [Hp Hq]. apply Forall_cons in Hq as [Hq Hqs].
    apply Forall_app. split; [done|]. apply Forall_cons. split; [by apply E8 | done].
Qed.

(** ** What each operation changes *)

Lemma count_Add_ok d t t' n :
  count_Add d t = (t', Ok n) ->
  t' = mkTracker (transactions t) (count t + d) (maxTransactions t) (credentialCounts t)
         (maxTransactionsPerCredential t) /\ n = count t + d.
Proof. destruct t. intros [= <- <-]. done. Qed.

Lemma credCount_Add_ok ck d t t' n :
  credCount_Add ck d t = (t', Ok n) ->
  t' = mkTracker (transactions t) (count t) (maxTransactions t)
         (<[ck := default 0 (credentialCounts t !! ck) + d]> (credentialCounts t))
         (maxTransactionsPerCredential t) /\ n = default 0 (credentialCounts t !! ck) + d.
Proof. destruct t. intros [= <- <-]. done. Qed.

Lemma set_transactions_eq m t :
  set_transactions m t = mkTracker m (count t) (maxTransactions t) (credentialCounts t)
                           (maxTransactionsPerCredential t).
Proof. by destruct t. Qed.

Lemma LoadAndDelete_ok key t t' v :
  LoadAndDelete key t = (t', Ok v) ->
  t' = set_transactions (delete key (transactions t)) t /\ v = transactions t !! key.
Proof. intros [= <- <-]. done. Qed.

(** Rewrites with what the operations change, and decides the counters. *)
Ltac operations :=
  repeat match goal with
  | H : count_Add _ _ = _ |- _ => apply count_Add_ok in H as [-> ->]
  | H : credCount_Add _ _ _ = _ |- _ => apply credCount_Add_ok in H as [-> ->]
  | H : LoadAndDelete _ _ = _ |- _ =>
      let E := fresh "E" in apply LoadAndDelete_ok in H as [-> E]; symmetry in E
  end.
Ltac counters :=
  simpl; intros; rewrite ?counter_insert; unfold one_if in *; repeat case_decide; subst;
  first [done | lia | by left; lia | by right; repeat split; lia | idtac].

(** A step that neither takes nor gives anything back. *)
Lemma race_ok_quiet known mx mc t ps p qs p' m :
  race_ok known mx mc (t, ps ++ p :: qs) ->
  Z.of_nat (size m) = Z.of_nat (size (transactions t)) ->
  (forall ck, held ck m = held ck (transactions t)) ->
  (holds_count p = holds_count p' /\ accepted_count mx p = accepted_count mx p') ->
  (forall ck, holds_credential ck p = holds_credential ck p' /\
              accepted_credential mc ck p = accepted_credential mc ck p') ->
  bound_entries known m -> (thread_ok known p -> thread_ok known p') ->
  race_ok known mx mc (set_transactions m t, ps ++ p' :: qs).
Proof.
  intros Hok Hs Hh [Hc Ha] Hk Hb Ht. rewrite set_transactions_eq.
  eapply race_ok_step; [exact Hok|..]; simpl; try done; try lia.
  - intros ck. specialize (Hh ck). specialize (Hk ck). lia.
  - intros ck. specialize (Hh ck). specialize (Hk ck). lia.
Qed.

Lemma set_transactions_same t : set_transactions (transactions t) t = t.
Proof. by destruct t. Qed.

(** The same, when the tables do not change. *)
Lemma race_ok_idle known mx mc t ps p qs p' :
  race_ok known mx mc (t, ps ++ p :: qs) ->
  (holds_count p = holds_count p' /\ accepted_count mx p = accepted_count mx p') ->
  (forall ck, holds_credential ck p = holds_credential ck p' /\
              accepted_credential mc ck p = accepted_credential mc ck p') ->
  (thread_ok known p -> thread_ok known p') ->
  race_ok known mx mc (t, ps ++ p' :: qs).
Proof.
  intros Hok Hc Hk Ht. rewrite <- (set_transactions_same t).
  apply (race_ok_quiet known mx mc t ps p); try done. apply Hok.
Qed.

Lemma compare_and_swap_ok known mx mc t ps p qs c tx old new t' b p' :
  race_ok known mx mc (t, ps ++ p :: qs) ->
  compare_and_swap (makeKey c tx) old new t t' b ->
  known_pair known c tx -> te_credentialKey new = makeCredentialKey c ->
  te_credentialKey old = makeCredentialKey c ->
  (holds_count p = holds_count p' /\ accepted_count mx p = accepted_count mx p') ->
  (forall ck, holds_credential ck p = holds_credential ck p' /\
              accepted_credential mc ck p = accepted_credential mc ck p') ->
  (thread_ok known p -> thread_ok known p') ->
  race_ok known mx mc (t', ps ++ p' :: qs).
Proof.
  intros Hok Hcas Hk Hn Ho Hc Hcr Ht. destruct Hcas as [Hl|].
  - apply (race_ok_quiet known mx mc t ps p); try done.
    + by eapply size_update_Z.
    + intros ck. eapply held_update; [done|]. congruence.
    + apply bound_insert; [apply Hok | done..].
  - by apply (race_ok_idle known mx mc t ps p).
Qed.

(** The removal of an entry, which its counters follow later. *)
Lemma removal_ok known mx mc t ps p qs key e :
  race_ok known mx mc (t, ps ++ p :: qs) -> transactions t !! key = Some e ->
  holds_count p = 0 -> accepted_count mx p = 0 ->
  (forall ck, holds_credential ck p = 0 /\ accepted_credential mc ck p = 0) ->
  race_ok known mx mc
    (set_transactions (delete key (transactions t)) t, ps ++ T_forget (te_credentialKey e) :: qs).
Proof.
  intros Hok He Hc Ha Hk. rewrite set_transactions_eq.
  eapply race_ok_step; [exact Hok|..]; simpl; try done; rewrite ?(size_delete_Z _ _ _ He); try lia.
  - intros ck. rewrite (held_delete _ _ _ _ He). specialize (Hk ck). lia.
  - intros ck. rewrite (held_delete _ _ _ _ He). specialize (Hk ck).
    pose proof (one_if_range (te_credentialKey e = ck)). lia.
  - apply bound_delete, Hok.
Qed.

(** Storing a new entry under a reservation. *)
Lemma store_ok known mx mc t ps now c tx nc qs t' loaded :
  race_ok known mx mc (t, ps ++ T_reserved now c tx nc :: qs) ->
  nc <= maxTransactionsPerCredential t -> known_pair known c tx ->
  LoadOrStore (makeKey c tx) (active_entry now (makeCredentialKey c)) t = (t', Ok loaded) ->
  race_ok known mx mc (t', ps ++ (if loaded then T_release (makeCredentialKey c) (Ok true)
                                  else T_done (Ok false)) :: qs).
Proof.
  intros Hok Hnc Hk. pose proof (ro_mc _ _ _ _ Hok) as Hmc. simpl in Hmc. unfold LoadOrStore.
  destruct (transactions t !! makeKey c tx) as [e|] eqn:E; intros [= <- <-].
  - eapply race_ok_step; [exact Hok|..]; try by counters. apply Hok.
  - rewrite set_transactions_eq. eapply race_ok_step; [exact Hok|..]; simpl; try done;
      rewrite ?(size_insert_Z _ _ _ E); try lia.
    + intros ck. rewrite held_insert by done. simpl. lia.
    + intros ck. rewrite held_insert by done. left. simpl. unfold one_if. repeat case_decide; lia.
    + apply bound_insert; [apply Hok | done..].
Qed.

Lemma thread_step_ok known mx mc t p t' p' ps qs :
  collision_free known -> thread_step t p t' p' ->
  race_ok known mx mc (t, ps ++ p :: qs) -> race_ok known mx mc (t', ps ++ p' :: qs).
Proof.
  intros Hf Hstep Hok. pose proof Hok as [H1 H2 _ _ _ _ H7 H8]. simpl in *.
  apply Forall_app in H8 as [_ H8]. apply Forall_cons in H8 as [Hp _].
  destruct Hstep; operations.
  all: try by (eapply race_ok_step; [exact Hok|..]; counters).
  all: try by (eapply race_ok_idle; [exact Hok|..]).
  - by eapply store_ok.
  - eapply race_ok_idle; [exact Hok|done..|]. intros [Hk Hn]. split; [done|]. split; [done|].
    by eapply bound_credential.
  - destruct Hp as (Hk & Hn & Ho). by eapply compare_and_swap_ok.
  - eapply race_ok_idle; [exact Hok|done..|]. intros Hk. split; [done|].
    by eapply bound_credential.
  - destruct Hp as (Hk & Ho). eapply compare_and_swap_ok; try done;
      first [by rewrite completed_credential | by destruct b | by intros _; destruct b].
  - by eapply removal_ok.
  - rewrite delete_absent by done. by eapply race_ok_idle.
  - destruct Hp as (c & tx & Hk & -> & Hs).
    assert (te_credentialKey stale = te_credentialKey e) as ->.
    { rewrite Hs. symmetry. by eapply bound_credential. }
    by eapply removal_ok.
  - rewrite delete_absent by done. by eapply race_ok_idle.
Qed.

Lemma begin_call_ok known mx mc t ps p :
  may_call known t p -> race_ok known mx mc (t, ps) -> race_ok known mx mc (t, p :: ps).
Proof.
  intros Hp Hok. pose proof Hok as [H1 H2 H3 H4 H5 H6 H7 H8]. simpl in *.
  assert (Ht : thread_ok known p).
  { destruct p; simpl in *; try done. destruct Hp as [Hl _]. destruct (H7 _ _ Hl) as (c & tx & ? & ? & ?).
    by exists c, tx. }
  constructor; simpl; try done; destruct p; simpl in *; try done; by constructor.
Qed.

Lemma race_ok_reachable known mx mc c :
  collision_free known -> reachable known mx mc c -> race_ok known mx mc c.
Proof.
  intros Hf Hr. unfold reachable in Hr.
  assert (H0 : race_ok known mx mc (newTransactionTracker mx mc, [])).
  { destruct (new_tracker_ok known mx mc). constructor; simpl in *; try done; try lia. }
  induction Hr as [|c1 c2 c3 Hs _ IH]; [done|]. apply IH.
  destruct Hs; [by apply begin_call_ok | by eapply thread_step_ok].
Qed.

(** ** What holds at any time, and when every call has returned *)

Lemma reachable_limits known mx mc t ps :
  collision_free known -> reachable known mx mc (t, ps) ->
  Z.of_nat (size (transactions t)) <= Z.max 0 mx /\
  forall ck, held ck (transactions t) <= Z.max 0 mc.
Proof.
  intros Hf Hr. destruct (race_ok_reachable _ _ _ _ Hf Hr) as [_ _ _ _ H5 H6 _ _]. simpl in *.
  split; [|intros ck; specialize (H6 ck)].
  - assert (0 <= total (accepted_count mx) ps); [|lia]. apply total_nonneg.
    intros []; simpl; try lia. apply one_if_range.
  - assert (0 <= total (accepted_credential mc ck) ps); [|lia]. apply total_nonneg.
    intros []; simpl; try lia. case_decide; [|lia]. apply one_if_range.
Qed.

Definition returned (p : thread) : Prop := match p with T_done _ => True | _ => False end.

Lemma total_returned f ps :
  (forall r, f (T_done r) = 0) -> Forall returned ps -> total f ps = 0.
Proof.
  intros Hf. induction 1 as [|p ps Hp _ IH]; simpl; [done|]. rewrite IH. destruct p; try done.
  rewrite Hf. lia.
Qed.

Lemma quiescent_exact known mx mc t ps :
  collision_free known -> reachable known mx mc (t, ps) -> Forall returned ps ->
  tracker_ok known t.
Proof.
  intros Hf Hr Hd. pose proof (reachable_limits _ _ _ _ _ Hf Hr) as [Hl Hlc].
  destruct (race_ok_reachable _ _ _ _ Hf Hr) as [H1 H2 H3 H4 _ _ H7 _]. simpl in *.
  constructor; rewrite ?H1, ?H2; try done.
  - rewrite H3, total_returned by done. lia.
  - intros ck. rewrite H4, total_returned by done. lia.
Qed.

(** ** One request on its own

    The method [startIfAbsent] is the run of its thread with no other in
    between. *)
Inductive alone : transactionTracker * thread -> transactionTracker * thread -> Prop :=
| alone_step t p t' p' : thread_step t p t' p' -> alone (t, p) (t', p').

Lemma alone_l t p t' p' z : thread_step t p t' p' -> rtc alone (t', p') z -> rtc alone (t, p) z.
Proof. intros H. by apply rtc_l, alone_step. Qed.

Lemma startIfAbsent_alone now c tx t :
  let (t', r) := startIfAbsent now c tx t in
  rtc alone (t, T_start now c tx) (t', T_done r).
Proof.
  destruct t as [m n mx cc mc]. unfold startIfAbsent, st_bind, count_Add. simpl.
  destruct (Z.ltb_spec mx (n + 1)); simpl.
  { eapply alone_l; [by apply S_start|]. eapply alone_l; [|reflexivity].
    eapply S_over_limit; [simpl; lia | reflexivity]. }
  destruct (Z.ltb_spec mc (default 0 (cc !! makeCredentialKey c) + 1)); simpl.
  { eapply alone_l; [by apply S_start|].
    eapply alone_l; [eapply S_counted; [simpl; lia | reflexivity]|].
    eapply alone_l; [eapply S_over_credential; [simpl; lia | reflexivity]|].
    eapply alone_l; [|reflexivity]. eapply S_giveback. reflexivity. }
  destruct (LoadOrStore _ _ _) as [t' [[|]|e]] eqn:E; simpl.
  3: { exfalso. revert E. unfold LoadOrStore. simpl. by destruct (m !! makeKey c tx). }
  1: destruct t' as [m' n' mx' cc' mc'].
  all: eapply alone_l; [by apply S_start|].
  all: eapply alone_l; [eapply S_counted; [simpl; lia | reflexivity]|].
  all: eapply alone_l; [eapply S_store; [simpl; lia | exact E]|]; simpl.
  - eapply alone_l; [eapply S_release; reflexivity|].
    eapply alone_l; [|reflexivity]. eapply S_giveback. reflexivity.
  - reflexivity.
Qed.

(** ** A sweep and a transition

    The sweep of [cleanupExpired] decides with the entry it read, and removes what
    the key holds by then. *)
Lemma reach_call known mx mc t ps p :
  reachable known mx mc (t, ps) -> may_call known t p -> reachable known mx mc (t, p :: ps).
Proof. intros Hr Hp. eapply rtc_r; [exact Hr|]. by apply race_call. Qed.

Lemma reach_head known mx mc t p ps t' p' :
  reachable known mx mc (t, p :: ps) -> thread_step t p t' p' ->
  reachable known mx mc (t', p' :: ps).
Proof. intros Hr Hp. eapply rtc_r; [exact Hr|]. by apply (race_step _ _ _ _ _ []). Qed.

Lemma reach_start known mx mc now c tx :
  known_pair known c tx -> 1 <= mx -> 1 <= mc ->
  exists t, reachable known mx mc (t, [T_done (Ok false)]) /\
    transactions t !! makeKey c tx = Some (active_entry now (makeCredentialKey c)).
Proof.
  intros Hk Hmx Hmc. set (ck := makeCredentialKey c).
  set (t1 := mkTracker ∅ 1 mx ∅ mc). set (t2 := mkTracker ∅ 1 mx (<[ck := 1]> ∅) mc).
  set (e := active_entry now ck).
  assert (H1 : reachable known mx mc (t1, [T_counted now c tx 1])).
  { apply (reach_head _ _ _ (newTransactionTracker mx mc) (T_start now c tx)); [|by apply S_start].
    apply reach_call; [apply rtc_refl | exact Hk]. }
  assert (H2 : reachable known mx mc (t2, [T_reserved now c tx 1])).
  { eapply reach_head; [exact H1|]. apply S_counted; [exact Hmx|].
    unfold credCount_Add, t1. by rewrite lookup_empty. }
  exists (set_transactions (<[makeKey c tx := e]> ∅) t2). split; [|apply lookup_insert_eq].
  eapply reach_head; [exact H2|]. apply (S_store _ now c tx 1 _ false); [exact Hmc|].
  unfold LoadOrStore, t2. simpl. by rewrite lookup_empty.
Qed.

(** A transition of a thread on its own. *)
Lemma reach_advance known mx mc t ps c tx old new :
  reachable known mx mc (t, ps) -> known_pair known c tx ->
  te_credentialKey new = makeCredentialKey c ->
  transactions t !! makeKey c tx = Some old -> may_advance old = true ->
  reachable known mx mc
    (set_transactions (<[makeKey c tx := new]> (transactions t)) t, T_done (Ok true) :: ps).
Proof.
  intros Hr Hk Hn Ho Ha.
  eapply reach_head; [|by eapply S_swap, cas_done].
  eapply reach_head; [|by eapply S_advance]. by apply reach_call.
Qed.

(** A certificate issued while a sweep runs can be dropped by it: its entry is
    not old, and the CA is not told. *)
Theorem sweep_drops_fresh_entry known mx mc c tx x cutoff :
  known_pair known c tx -> 1 <= mx -> 1 <= mc ->
  exists t ps qs stale e t' p',
    reachable known mx mc (t, ps ++ T_clean cutoff (makeKey c tx) stale :: qs) /\
    transactions t !! makeKey c tx = Some e /\ state e = stateIssued /\ cert e = Some x /\
    ~ is_old cutoff e /\
    thread_step t (T_clean cutoff (makeKey c tx) stale) t' p' /\
    transactions t' !! makeKey c tx = None /\ unconfirmed stale = [].
Proof.
  intros Hk Hmx Hmc.
  destruct (reach_start known mx mc (cutoff - 1) c tx Hk Hmx Hmc) as (t & Hr & Ht).
  set (ck := makeCredentialKey c) in *.
  set (e := issued_entry cutoff ck 0 0 x None [] [] None None).
  assert (Hc : may_call known t (T_clean cutoff (makeKey c tx) (active_entry (cutoff - 1) ck))).
  { split; [done|]. unfold is_old. simpl. lia. }
  pose proof (reach_call _ _ _ _ _ _ Hr Hc) as Hr'.
  pose proof (reach_advance _ _ _ _ _ c tx _ e Hr' Hk eq_refl Ht eq_refl) as Hr2.
  rewrite set_transactions_eq in Hr2.
  eexists _, [T_done (Ok true)], [T_done (Ok false)], _, e, _, _.
  split; [exact Hr2|]. simpl. rewrite lookup_insert_eq.
  split; [done|]. split; [done|]. split; [done|]. split; [unfold is_old; simpl; lia|].
  split; [|split].
  - eapply (S_clean _ cutoff _ _ e). unfold LoadAndDelete. simpl. by rewrite lookup_insert_eq.
  - simpl. apply lookup_delete_eq.
  - done.
Qed.

End Race.
