(* ===== verification/Handler.v ===== *)
(** * Handlers, identities and the CA interface

    [src/server/handler.go], [src/server/errors.go], the interfaces of
    [src/server/ca.go] and [src/server/revocation.go], and the values that travel
    in a context. A handler and a CA act on a state of their own, [S], which the
    server never looks into. *)
From S2P Require Import Prelude Failure Errors Asn1 Types StatusInfo X509 Message RevocationMsg.
From S2P Require Import Monad Algorithms Protect Transactions.

(** ** Sender identities *)

Inductive SenderIdentity := mkSenderIdentity {
  si_Certificate : option Certificate;
  si_Sender : Name;
  si_SenderKID : bytes;
  si_MACVerified : bool;
  RA : option SenderIdentity;
  secret : bytes;
  si_protectionParams : option MACCredentialOption;
  headerSender : GeneralName
}.

(** [sender.RA = ra]. *)
Definition set_RA (ra : option SenderIdentity) (s : SenderIdentity) : SenderIdentity :=
  let '(mkSenderIdentity c n k m _ sec p h) := s in mkSenderIdentity c n k m ra sec p h.

Section Identity.
Context {GN : GoNames} {GC : GoCrypto}.

(** What [writeLengthPrefixed] writes. *)
Definition writeLengthPrefixed (b : bytes) : bytes := put_uint32 (Z.of_nat (length b)) ++ b.

Definition senderNameKey (name : GeneralName) : bytes :=
  if nonempty (DirectoryName name)
  then string_bytes ("dn:" +:+ RDN_String (DirectoryName name))
  else gn_Raw name.

(** What [credentialID] hashes. *)
Definition credential_input (s : SenderIdentity) : result bytes :=
  if si_MACVerified s then
    Ok (string_bytes "cmp-mac" ++ writeLengthPrefixed (si_SenderKID s)
        ++ writeLengthPrefixed (senderNameKey (headerSender s)))
  else match si_Certificate s with
       | Some c => Ok (Raw c)
       | None => Err (errorString "no credentials in SenderIdentity")
       end.
Definition credentialID (s : SenderIdentity) : result bytes :=
  let? input := credential_input s in Ok (hash_Sum SHA256 input).

End Identity.

(** ** Responses *)

Record WaitingResponse := mkWaiting { wr_CheckAfter : Z; wr_Reason : string; PollRef : string }.
Record Response := mkResponse {
  resp_Certificate : option Certificate;
  CACerts : list Certificate;
  Waiting : option WaitingResponse;
  IssueRef : option any
}.

(** ** Contexts *)

Record issuedInfo := mkIssuedInfo { ii_cert : option Certificate; ii_issueRef : option any }.
Record context := mkContext {
  ctx_pollRef : option string;
  ctx_issued : option issuedInfo;
  ctx_sha1Signatures : bool
}.
Definition context_Background : context := mkContext None None false.
Definition contextWithPollRef (ctx : context) (ref : string) : context :=
  let '(mkContext _ i s) := ctx in mkContext (Some ref) i s.
Definition contextWithSHA1Signatures (ctx : context) : context :=
  let '(mkContext p i _) := ctx in mkContext p i true.
Definition contextWithIssued (ctx : context) (info : issuedInfo) : context :=
  let '(mkContext p _ s) := ctx in mkContext p (Some info) s.
Definition PollRefFromContext (ctx : context) : option string := ctx_pollRef ctx.
Definition sha1SignaturesAllowed (ctx : context) : bool := ctx_sha1Signatures ctx.
Definition IssuedCertFromContext (ctx : context) : option Certificate := ctx_issued ctx ≫= ii_cert.
Definition IssueRefFromContext (ctx : context) : option any := ctx_issued ctx ≫= ii_issueRef.

(** ** Handlers *)

(** A handler gives a response, possibly nil, or an error. *)
Definition Handler (S : Type) : Type :=
  context -> PKIMessage -> SenderIdentity -> ST S (option Response).

(** [for _, wrap := range slices.Backward(mw) { h = wrap(h) }]. *)
Definition MiddlewareChain {S} (mw : list (Handler S -> Handler S)) : Handler S -> Handler S :=
  fun h => foldl (fun h wrap => wrap h) h (rev mw).

(** [errorToStatusInfo]; [None] is a nil error. *)
Definition errorToStatusInfo (err : option error) : PKIStatusInfo :=
  match err with
  | None => mkPKIStatusInfo StatusAccepted [] 0
  | Some err =>
      match errors_As as_ServerError err with
      | Some (st, fi, text) =>
          mkPKIStatusInfo st (if bool_decide (text = "") then [] else [text]) fi
      | None => mkPKIStatusInfo StatusRejection [] FailSystemFailure
      end
  end.

(** ** The CA *)

Inductive ConfirmStatus := ConfirmAccepted | ConfirmRejected | ConfirmImplicit | ConfirmExpired.
#[export] Instance ConfirmStatus_eq_dec : EqDecision ConfirmStatus.
Proof. solve_decision. Defined.
Definition ConfirmStatus_String (s : ConfirmStatus) : string :=
  match s with
  | ConfirmAccepted => "accepted" | ConfirmRejected => "rejected"
  | ConfirmImplicit => "implicit" | ConfirmExpired => "expired"
  end.

Record RevocationRequest := mkRevocationRequest {
  rr_Issuer : Name;
  rr_RawIssuer : bytes;
  rr_SerialNumber : Z;
  rr_Reason : CRLReason;
  rr_Extensions : list Extension;
  rr_subject : RDNSequence;
  rr_publicKey : bytes;
  hasReason : bool
}.

(** [CA] with the optional interfaces it may implement: [PendingChecker],
    [CertificateConfirmer], [Revoker] and [RevocationAuthorizer]. *)
Record CA (S : Type) := mkCA {
  IssueCertificate : context -> RequestType -> Certificate -> SenderIdentity -> ST S (option Response);
  CheckPending : option (context -> string -> SenderIdentity -> ST S (option Response));
  ConfirmCertificate : option (context -> Certificate -> ConfirmStatus -> option any -> ST S unit);
  RevokeCertificate : option (context -> RevocationRequest -> SenderIdentity -> ST S unit);
  AuthorizeRevocation : option (context -> RevocationRequest -> SenderIdentity -> ST S unit)
}.
Arguments mkCA {S}.
Arguments IssueCertificate {S}.
Arguments CheckPending {S}.
Arguments ConfirmCertificate {S}.
Arguments RevokeCertificate {S}.
Arguments AuthorizeRevocation {S}.
