(* ===== verification/ServerRequest.v ===== *)
(** * Certificate requests at the server

    [src/server/certrequest.go]: the fields of a request, its proof of possession
    and its BasicConstraints. The getters of a body give the same content at every
    call, so a message is passed on unchanged. *)
From S2P Require Import Prelude Failure Errors Asn1 Types Crmf X509 CertPath Message.
From S2P Require Import Algorithms Protect Verify Transactions Handler.

Record parsedCRMF := mkParsedCRMF {
  crmf_certReqID : Z;
  crmf_subject : Name;
  crmf_publicKey : option PublicKey;
  crmf_extensions : list Extension;
  signaturePOP : bool
}.

Section Requests.
Context {CB : Cryptobyte} {GN : GoNames} {GX : GoX509} {GA : GoASN1} {GC : GoCrypto}.

(** The switch on the body type that reads a CRMF body; a nil body is
    dereferenced. *)
Definition crmf_body (msg : PKIMessage) (other : result CertReqMessages) : result CertReqMessages :=
  match Body msg with
  | None => Err GoPanic
  | Some b =>
      if Type_ b =? BodyTypeIR then snd (IR b)
      else if Type_ b =? BodyTypeCR then snd (CR b)
      else if Type_ b =? BodyTypeKUR then snd (KUR b)
      else other
  end.

Definition template_subject (t : CertTemplate) : Name :=
  if nonempty (DirectoryName (tmpl_Subject t))
  then FillFromRDNSequence (DirectoryName (tmpl_Subject t)) else emptyName.

Definition template_publicKey (t : CertTemplate) : result (option PublicKey) :=
  if nonempty (tmpl_PublicKey t) then
    match ParsePKIXPublicKey (tmpl_PublicKey t) with
    | Some pub => Ok (Some pub)
    | None => Err (rejection FailBadAlg (Error_text x509_error))
    end
  else Ok None.

Definition template_extensions (t : CertTemplate) : result (list Extension) :=
  if nonempty (tmpl_Extensions t) then
    let? (exts, _) := of_option asn1_error (asn1_Unmarshal_Extensions (tmpl_Extensions t)) in
    Ok exts
  else Ok [].

Definition parseCRMFMsg (msg : PKIMessage) : result parsedCRMF :=
  let? msgs := crmf_body msg (Err (rejection FailBadRequest "")) in
  match msgs with
  | [] => Err (rejection FailBadDataFormat "empty CertReqMessages")
  | _ :: _ :: _ => Err (rejection FailBadRequest "multiple CertReqMsg not supported")
  | [reqMsg] =>
      let t := cr_CertTemplate (CertReq reqMsg) in
      let? publicKey := template_publicKey t in
      let signaturePOP := match Popo reqMsg with
                          | Some popo => negb (is_nil (pop_Signature popo))
                          | None => false
                          end in
      let? extensions := template_extensions t in
      Ok (mkParsedCRMF (cr_req_CertReqID (CertReq reqMsg)) (template_subject t) publicKey
            extensions signaturePOP)
  end.

(** [None] when the proof is accepted. *)
Definition verifyPOPMsg (msg : PKIMessage) (allowSHA1 : bool) : option error :=
  match crmf_body msg (Ok []) with
  | Err err => Some err
  | Ok [] => None
  | Ok (reqMsg :: _) => VerifyPOPWithOptions reqMsg allowSHA1
  end.

(** [errors.Is(err, x509.ErrUnsupportedAlgorithm)]. *)
Definition is_ErrUnsupportedAlgorithm (err : error) : bool :=
  negb (is_nil (errors_As (fun e => match e with externalError 3 => Some tt | _ => None end) err)).

Definition pop_failure (err : error) : error :=
  let failInfo :=
    if bool_decide (errors_As as_VerificationError err = Some ReasonUnsupportedAlgorithm)
    then FailBadAlg else FailBadPOP in
  let failInfo :=
    if bool_decide (errors_As as_ParseError err = Some "raVerified POP not supported")
    then FailNotAuthorized else failInfo in
  rejection failInfo (Error_text err).

Definition enforceProofOfPossession (ctx : context) (msg : PKIMessage) : result unit :=
  match Body msg with
  | None => Err GoPanic
  | Some b =>
      if Type_ b =? BodyTypeP10CR then
        match snd (P10CR b) with
        | Err _ => Err (rejection FailBadDataFormat "")
        | Ok csr =>
            match CheckCertificateRequestSignature csr with
            | Some err =>
                if is_ErrUnsupportedAlgorithm err
                then Err (rejection FailBadAlg "unsupported signature algorithm")
                else Err (rejection FailBadPOP (Error_text err))
            | None => Ok tt
            end
        end
      else if (Type_ b =? BodyTypeIR) || (Type_ b =? BodyTypeCR) || (Type_ b =? BodyTypeKUR) then
        let? crmf := parseCRMFMsg msg in
        match verifyPOPMsg msg (sha1SignaturesAllowed ctx) with
        | Some err => Err (pop_failure err)
        | None =>
            reject_if is_nil (crmf_publicKey crmf)
              with rejection FailBadCertTemplate "public key required" ;;
            reject_if negb (signaturePOP crmf)
              with rejection FailBadPOP "proof of possession by signature required" ;;
            Ok tt
        end
      else Ok tt
  end.

(** ** BasicConstraints *)

Definition oidBasicConstraints : ObjectIdentifier := [2; 5; 29; 19].

Record basicConstraints := mkBasicConstraints { IsCA : bool; bc_MaxPathLen : Z }.

Fixpoint decodeBasicConstraints (extensions : list Extension) : result (list basicConstraints) :=
  match extensions with
  | [] => Ok []
  | ext :: exts =>
      if negb (OID_Equal (Id ext) oidBasicConstraints) then decodeBasicConstraints exts
      else match asn1_Unmarshal_BasicConstraints (ext_Value ext) with
           | Some ((isCA, maxPathLen), []) =>
               let? out := decodeBasicConstraints exts in
               Ok (mkBasicConstraints isCA maxPathLen :: out)
           | _ => Err (rejection FailBadCertTemplate "malformed BasicConstraints")
           end
  end.

Definition bad_path_length (bc : basicConstraints) : bool :=
  (bc_MaxPathLen bc <? 0) || (negb (IsCA bc) && negb (bc_MaxPathLen bc =? 0)).

Definition checkBasicConstraints (extensions : list Extension) : result unit :=
  let? all := decodeBasicConstraints extensions in
  reject_if existsb bad_path_length all
    with rejection FailBadCertTemplate "invalid path-length in BasicConstraints" ;;
  reject_if existsb IsCA all with rejection FailNotAuthorized "CA certificates not allowed" ;;
  Ok tt.

End Requests.
