(* ===== verification/CAHandler.v ===== *)
(** * The handler that drives a CA

    [src/server/ca.go] and the request side of [src/server/revocation.go]. *)
From S2P Require Import Prelude Failure Errors Asn1 Types StatusInfo Enrollment Crmf X509 Message.
From S2P Require Import RevocationMsg Monad Algorithms Protect Verify Transactions Handler.
From S2P Require Import ServerRequest.

(** [certificatePublicKey] of [src/server/confirm_poll.go]. *)
Definition certificatePublicKey {GX : GoX509} (c : Certificate) : option PublicKey :=
  match cert_PublicKey c with
  | Some pub => Some pub
  | None => ParsePKIXPublicKey (RawSubjectPublicKeyInfo c)
  end.

(** [certStatusRejects] of [src/server/confirm_poll.go]. *)
Definition certStatusRejects (cs : CertStatus) : bool :=
  match StatusInfo cs with Some si => Status si =? StatusRejection | None => false end.

Section Names.
Context {CB : Cryptobyte} {GN : GoNames} {GX : GoX509} {GA : GoASN1} {GC : GoCrypto}.

(** ** Comparison of names *)

(** [asn1.Unmarshal] into an [RDNSequence], trailing data excluded. *)
Definition decode_name (der : bytes) : option RDNSequence :=
  match asn1_Unmarshal_RDN der with Some (rdn, []) => Some rdn | _ => None end.

Definition equalATV (x y : AttributeTypeAndValue_pkix) : bool :=
  OID_Equal (atv_Type x) (atv_Type y) && bool_decide (atv_Value x = atv_Value y).
(** Both loops over indices, after the comparison of the lengths. *)
Definition equal_lists {A} (eq : A -> A -> bool) (a b : list A) : bool :=
  (length a =? length b)%nat && forallb (fun xy => eq (fst xy) (snd xy)) (zip a b).
Definition equalRDNSequences (a b : RDNSequence) : bool := equal_lists (equal_lists equalATV) a b.

Definition equalNames (a b : bytes) : bool :=
  if bytes_eqb a b then true
  else match decode_name a, decode_name b with
       | Some an, Some bn => equalRDNSequences an bn
       | _, _ => false
       end.

Definition samePublicKey (spki : bytes) (pub : option PublicKey) : bool :=
  match ParsePKIXPublicKey spki with
  | None => false
  | Some parsed => PublicKey_Equal parsed pub
  end.

(** ** Revocation requests *)

Definition identifies (r : RevocationRequest) (c : Certificate) : bool :=
  match SerialNumber c with
  | Some serial => (rr_SerialNumber r =? serial) && equalNames (rr_RawIssuer r) (RawIssuer c)
  | None => false
  end.

(** [None] when the certificate is the one requested. *)
Definition Match (r : RevocationRequest) (c : option Certificate) : option error :=
  match c with
  | None => Some (rejection FailBadCertId "certificate not found")
  | Some c =>
      if negb (identifies r c) then Some (rejection FailBadCertId "certificate not found")
      else if nonempty (rr_subject r)
              && negb (match decode_name (RawSubject c) with
                       | Some subject => equalRDNSequences (rr_subject r) subject
                       | None => false
                       end)
      then Some (rejection FailBadCertId "subject does not match the certificate")
      else if nonempty (rr_publicKey r)
              && negb (bytes_eqb (rr_publicKey r) (RawSubjectPublicKeyInfo c))
              && negb (samePublicKey (rr_publicKey r) (certificatePublicKey c))
      then Some (rejection FailBadCertId "public key does not match the certificate")
      else None
  end.

(** The loop over the extensions; the accumulator is [req.Reason] and
    [req.hasReason]. *)
Fixpoint revocation_reason (exts : list Extension) (reason : CRLReason) (has : bool)
    : result (CRLReason * bool) :=
  match exts with
  | [] => Ok (reason, has)
  | ext :: exts =>
      if negb (OID_Equal (Id ext) oidCRLReason) then revocation_reason exts reason has
      else
        reject_if has with rejection FailBadRequest "more than one reasonCode" ;;
        match asn1_Unmarshal_Enumerated (ext_Value ext) with
        | Some (code, []) =>
            if CRLReason_Valid code then revocation_reason exts code true
            else Err (rejection FailBadDataFormat "invalid reasonCode")
        | _ => Err (rejection FailBadDataFormat "invalid reasonCode")
        end
  end.

Definition parseRevocationRequest (msg : PKIMessage) : result RevocationRequest :=
  match Body msg with
  | None => Err GoPanic
  | Some b =>
      match snd (RR b) with
      | Err _ => Err (rejection FailBadDataFormat "malformed revocation request")
      | Ok [] => Err (rejection FailBadDataFormat "empty RevReqContent")
      | Ok (_ :: _ :: _) => Err (rejection FailBadRequest "multiple RevDetails not supported")
      | Ok [details] =>
          let tmpl := CertDetails details in
          let? serial := of_option (rejection FailAddInfoNotAvailable "serialNumber required")
                           (tmpl_SerialNumber tmpl) in
          let? issuer :=
            (if nonempty (tmpl_Issuer tmpl)
             then of_option (rejection FailBadDataFormat "malformed issuer")
                    (decode_name (tmpl_Issuer tmpl))
             else Ok []) in
          reject_if negb (nonempty issuer) with rejection FailAddInfoNotAvailable "issuer required" ;;
          match CRLEntryExtensions details with
          | Err _ => Err (rejection FailBadDataFormat "malformed crlEntryDetails")
          | Ok exts =>
              let? (reason, has) := revocation_reason exts CRLReasonUnspecified false in
              Ok (mkRevocationRequest (FillFromRDNSequence issuer) (tmpl_Issuer tmpl) serial reason
                    exts (DirectoryName (tmpl_Subject tmpl)) (tmpl_PublicKey tmpl) has)
          end
      end
  end.

(** ** caHandler *)

Section Handle.
Context {S : Type} (ca : CA S).

(** A nil response with an error or without one. *)
Definition no_response (m : ST S unit) : ST S (option Response) := let! _ := m in st_ret None.

Definition caHandler_authorize (ctx : context) (req : RevocationRequest) (sender : SenderIdentity)
    : ST S unit :=
  let unsigned :=
    match AuthorizeRevocation ca with
    | None => st_fail (rejection FailNotAuthorized
                         "revocation request must be signed with the certificate being revoked")
    | Some authorize => authorize ctx req sender
    end in
  match si_Certificate sender with
  | Some c =>
      if identifies req c then
        match Match req (Some c) with Some err => st_fail err | None => st_ret tt end
      else unsigned
  | None => unsigned
  end.

Definition caHandler_handleRevocation (ctx : context) (msg : PKIMessage) (sender : SenderIdentity)
    : ST S unit :=
  match RevokeCertificate ca with
  | None => st_fail (rejection FailBadRequest "revocation not supported")
  | Some revoke =>
      let! req := st_lift (parseRevocationRequest msg) in
      let! _ := caHandler_authorize ctx req sender in
      revoke ctx req sender
  end.

Definition bodyTypeToRequestType (t : BodyType) : RequestType :=
  if t =? BodyTypeIR then RequestIR
  else if t =? BodyTypeCR then RequestCR
  else if t =? BodyTypeKUR then RequestKUR
  else if t =? BodyTypeP10CR then RequestP10CR
  else RequestIR.

(** The switch that reads subject, key and extensions. *)
Definition request_fields (msg : PKIMessage) : result (Name * option PublicKey * list Extension) :=
  match Body msg with
  | None => Err GoPanic
  | Some b =>
      if Type_ b =? BodyTypeP10CR then
        match snd (P10CR b) with
        | Err _ => Err (rejection FailBadDataFormat "")
        | Ok csr =>
            let? pub := of_option (rejection FailBadAlg (Error_text x509_error))
                          (ParsePKIXPublicKey (csr_RawSubjectPublicKeyInfo csr)) in
            Ok (csr_Subject csr, Some pub, csr_Extensions csr)
        end
      else
        let? crmf := parseCRMFMsg msg in
        Ok (crmf_subject crmf, crmf_publicKey crmf, crmf_extensions crmf)
  end.

(** The [x509.Certificate] literal of the template. *)
Definition request_template (subject : Name) (pub : option PublicKey) (ski : bytes)
    (exts : list Extension) : Certificate :=
  mkCertificate [] [] [] [] None subject emptyName pub ski UnknownSignatureAlgorithm
    0 0 0 [] exts [] false 0 false false.

Definition issuance_template (ctx : context) (msg : PKIMessage) : result Certificate :=
  let? _ := enforceProofOfPossession ctx msg in
  let? (subject, pub, exts) := request_fields msg in
  let? _ := decodeBasicConstraints exts in
  let? pubDER := of_option (rejection FailBadAlg (Error_text x509_error)) (MarshalPKIXPublicKey pub) in
  Ok (request_template subject pub (hash_Sum SHA1 pubDER) exts).

Definition body_type (msg : PKIMessage) : result BodyType :=
  match Body msg with Some b => Ok (Type_ b) | None => Err GoPanic end.

Definition caHandler_handleCertRequest (ctx : context) (msg : PKIMessage) (sender : SenderIdentity)
    : ST S (option Response) :=
  let! template := st_lift (issuance_template ctx msg) in
  let! t := st_lift (body_type msg) in
  IssueCertificate ca ctx (bodyTypeToRequestType t) template sender.

Definition caHandler_handleCertConf (ctx : context) (msg : PKIMessage) : ST S (option Response) :=
  match ConfirmCertificate ca with
  | None => st_ret None
  | Some confirm =>
      match Body msg with
      | None => st_fail GoPanic
      | Some b =>
          match snd (CertConf b) with
          | Err _ => st_fail (rejection FailBadDataFormat "")
          | Ok conf =>
              match IssuedCertFromContext ctx with
              | None => st_fail (rejection FailBadRequest "no issued certificate")
              | Some c =>
                  let status :=
                    match conf with
                    | cs :: _ => if certStatusRejects cs then ConfirmRejected else ConfirmAccepted
                    | [] => ConfirmRejected
                    end in
                  no_response (confirm ctx c status (IssueRefFromContext ctx))
              end
          end
      end
  end.

Definition caHandler_handlePollReq (ctx : context) (sender : SenderIdentity)
    : ST S (option Response) :=
  match CheckPending ca with
  | None => st_fail (rejection FailBadRequest "polling not supported")
  | Some check =>
      match PollRefFromContext ctx with
      | None => st_fail (rejection FailBadRequest "no pending certificate")
      | Some ref => check ctx ref sender
      end
  end.

(** [isCertRequest] of [src/server/lwpolicy.go]. *)
Definition isCertRequest (t : BodyType) : bool :=
  (t =? BodyTypeIR) || (t =? BodyTypeCR) || (t =? BodyTypeKUR) || (t =? BodyTypeP10CR).

(** [NewCAHandler]: the [HandleCMP] of a CA. *)
Definition NewCAHandler : Handler S := fun ctx msg sender =>
  match Body msg with
  | None => st_fail GoPanic
  | Some b =>
      let t := Type_ b in
      if isCertRequest t then caHandler_handleCertRequest ctx msg sender
      else if t =? BodyTypeCertConf then caHandler_handleCertConf ctx msg
      else if t =? BodyTypePollReq then caHandler_handlePollReq ctx sender
      else if t =? BodyTypeRR then no_response (caHandler_handleRevocation ctx msg sender)
      else st_fail (rejection FailBadRequest "")
  end.

End Handle.
End Names.
