(* ===== verification/Policy.v ===== *)
(** * The Lightweight CMP Profile policy

    [src/server/lwpolicy.go]: the wrapper that checks a request before the handler
    it wraps sees it. *)
From S2P Require Import Prelude Failure Errors Asn1 Types StatusInfo Enrollment Crmf X509 Message.
From S2P Require Import RevocationMsg Monad Algorithms Protect Verify Transactions Handler.
From S2P Require Import ServerRequest CAHandler.

Section Policy.
Context {CB : Cryptobyte} {GN : GoNames} {GX : GoX509} {GA : GoASN1} {GC : GoCrypto}.

Definition validateP10CR (ctx : context) (msg : PKIMessage) : result unit :=
  match Body msg with
  | None => Err GoPanic
  | Some b =>
      match snd (P10CR b) with
      | Err _ => Err (rejection FailBadDataFormat "")
      | Ok csr =>
          let? _ := enforceProofOfPossession ctx msg in
          reject_if bool_decide (Name_String (csr_Subject csr) = "")
            with rejection FailBadCertTemplate "subject required" ;;
          checkBasicConstraints (csr_Extensions csr)
      end
  end.

Definition validateRR (msg : PKIMessage) (sender : SenderIdentity) : result unit :=
  reject_if si_MACVerified sender
    with rejection FailWrongIntegrity "revocation requires signature protection" ;;
  let? req := parseRevocationRequest msg in
  reject_if negb (hasReason req) with rejection FailBadRequest "reasonCode required" ;;
  Ok tt.

Definition validateCRMF (ctx : context) (msg : PKIMessage) : result unit :=
  let? crmf := parseCRMFMsg msg in
  reject_if negb (crmf_certReqID crmf =? 0) with rejection FailBadRequest "certReqId must be 0" ;;
  let? _ := enforceProofOfPossession ctx msg in
  reject_if bool_decide (Name_String (crmf_subject crmf) = "")
    with rejection FailBadCertTemplate "subject required" ;;
  checkBasicConstraints (crmf_extensions crmf).

(** The checks of the policy on a message of body type [t]. *)
Definition policy_check (ctx : context) (msg : PKIMessage) (t : BodyType) (sender : SenderIdentity)
    : result unit :=
  reject_if si_MACVerified sender && negb (nonempty (DirectoryName (Sender (Header msg))))
            && negb (nonempty (SenderKID (Header msg)))
    with rejection FailBadMessageCheck "MAC protection requires a sender name or senderKID" ;;
  if t =? BodyTypeRR then validateRR msg sender
  else if negb (isCertRequest t) then Ok tt
  else
    reject_if (t =? BodyTypeKUR) && si_MACVerified sender
      with rejection FailWrongIntegrity "KUR requires signature protection" ;;
    if t =? BodyTypeP10CR then validateP10CR ctx msg else validateCRMF ctx msg.

Definition LightweightPolicy {S} : Handler S -> Handler S := fun next ctx msg sender =>
  match Body msg with
  | None => st_fail GoPanic
  | Some b =>
      let! _ := st_lift (policy_check ctx msg (Type_ b) sender) in
      next ctx msg sender
  end.

End Policy.
