(* ===== verification/Server.v ===== *)
(** * The CMP server

    [src/server/server.go], [src/server/response.go], [src/server/protection.go],
    [src/server/confirm_poll.go], [src/server/nested.go], [src/server/options.go]
    and the server side of [src/server/revocation.go]: the processing of one
    message, from its verification to the protected response. The state is the
    tracker, the random numbers drawn so far and the state of the CA; [now] is the
    clock while the message is processed. A run fails only where the Go code
    panics. *)
From S2P Require Import Prelude Failure Errors Asn1 Types StatusInfo Enrollment Crmf X509 Message.
From S2P Require Import RevocationMsg Monad Algorithms Protect Verify Transactions Handler.
From S2P Require Import ServerRequest CAHandler.

(** ** The world of a server *)

Record World (S : Type) := mkWorld {
  tracker : transactionTracker;
  draws : nat;
  ca_state : S
}.
Arguments mkWorld {S}.
Arguments tracker {S}.
Arguments draws {S}.
Arguments ca_state {S}.

(** ** Configuration *)

(** The lookups read the state; they are documented not to change it. *)
Record serverConfig (S : Type) := mkServerConfig {
  signerKey : option Signer;
  signerCert : option Certificate;
  signerChain : list Certificate;
  secretLookup : option (S -> Name -> bytes -> result bytes);
  certificateLookup : option (S -> Name -> Name -> bytes -> result (option Certificate));
  cfg_extraCerts : list Certificate;
  cfg_sender : Name;
  confirmWait : Z;
  implicitConfirm : bool;
  cfg_maxTransactions : Z;
  cfg_maxTransactionsPerCredential : Z;
  strictProfile : bool;
  allowSHA1Signatures : bool;
  messageTimeTolerance : Z;
  raAuthorizer : option (context -> SenderIdentity -> PKIMessage -> SenderIdentity -> ST S unit);
  confirmer : option (context -> Certificate -> ConfirmStatus -> option any -> ST S unit);
  signerCreds : option SignatureCredentials;
  signerErr : option error
}.
Arguments mkServerConfig {S}.
Arguments signerKey {S}.
Arguments signerCert {S}.
Arguments signerChain {S}.
Arguments secretLookup {S}.
Arguments certificateLookup {S}.
Arguments cfg_extraCerts {S}.
Arguments cfg_sender {S}.
Arguments confirmWait {S}.
Arguments implicitConfirm {S}.
Arguments cfg_maxTransactions {S}.
Arguments cfg_maxTransactionsPerCredential {S}.
Arguments strictProfile {S}.
Arguments allowSHA1Signatures {S}.
Arguments messageTimeTolerance {S}.
Arguments raAuthorizer {S}.
Arguments confirmer {S}.
Arguments signerCreds {S}.
Arguments signerErr {S}.

Record Server (S : Type) := mkServer { handler : Handler S; cfg : serverConfig S }.
Arguments mkServer {S}.
Arguments handler {S}.
Arguments cfg {S}.

(** An [Option] sets fields of the configuration. *)
Definition Option (S : Type) : Type := serverConfig S -> serverConfig S.

Definition zero_config {S} : serverConfig S :=
  mkServerConfig None None [] None None [] emptyName 0 false 0 0 false false 0 None None None None.

Section Options.
Context {S : Type}.

Definition WithSigner (key : option Signer) (c : option Certificate) (chain : list Certificate)
    : Option S := fun g =>
  let '(mkServerConfig _ _ _ sl cl ec sn cw ic mt mc sp sh ti ra co cr er) := g in
  mkServerConfig key c chain sl cl ec sn cw ic mt mc sp sh ti ra co cr er.
Definition WithSecretLookup lookup : Option S := fun g =>
  let '(mkServerConfig k c ch _ cl ec sn cw ic mt mc sp sh ti ra co cr er) := g in
  mkServerConfig k c ch (Some lookup) cl ec sn cw ic mt mc sp sh ti ra co cr er.
Definition WithCertificateLookup lookup : Option S := fun g =>
  let '(mkServerConfig k c ch sl _ ec sn cw ic mt mc sp sh ti ra co cr er) := g in
  mkServerConfig k c ch sl (Some lookup) ec sn cw ic mt mc sp sh ti ra co cr er.
Definition WithExtraCerts (certs : list Certificate) : Option S := fun g =>
  let '(mkServerConfig k c ch sl cl _ sn cw ic mt mc sp sh ti ra co cr er) := g in
  mkServerConfig k c ch sl cl certs sn cw ic mt mc sp sh ti ra co cr er.
Definition WithSender (name : Name) : Option S := fun g =>
  let '(mkServerConfig k c ch sl cl ec _ cw ic mt mc sp sh ti ra co cr er) := g in
  mkServerConfig k c ch sl cl ec name cw ic mt mc sp sh ti ra co cr er.
Definition WithConfirmWaitTime (d : Z) : Option S := fun g =>
  let '(mkServerConfig k c ch sl cl ec sn _ ic mt mc sp sh ti ra co cr er) := g in
  mkServerConfig k c ch sl cl ec sn d ic mt mc sp sh ti ra co cr er.
Definition WithImplicitConfirm : Option S := fun g =>
  let '(mkServerConfig k c ch sl cl ec sn cw _ mt mc sp sh ti ra co cr er) := g in
  mkServerConfig k c ch sl cl ec sn cw true mt mc sp sh ti ra co cr er.
Definition WithMaxTransactions (n : Z) : Option S := fun g =>
  let '(mkServerConfig k c ch sl cl ec sn cw ic _ mc sp sh ti ra co cr er) := g in
  mkServerConfig k c ch sl cl ec sn cw ic n mc sp sh ti ra co cr er.
Definition WithMaxTransactionsPerCredential (n : Z) : Option S := fun g =>
  let '(mkServerConfig k c ch sl cl ec sn cw ic mt _ sp sh ti ra co cr er) := g in
  mkServerConfig k c ch sl cl ec sn cw ic mt n sp sh ti ra co cr er.
Definition WithStrictProfileValidation : Option S := fun g =>
  let '(mkServerConfig k c ch sl cl ec sn cw ic mt mc _ sh ti ra co cr er) := g in
  mkServerConfig k c ch sl cl ec sn cw ic mt mc true sh ti ra co cr er.
Definition WithSHA1Signatures : Option S := fun g =>
  let '(mkServerConfig k c ch sl cl ec sn cw ic mt mc sp _ ti ra co cr er) := g in
  mkServerConfig k c ch sl cl ec sn cw ic mt mc sp true ti ra co cr er.
Definition WithMessageTimeTolerance (d : Z) : Option S := fun g =>
  let '(mkServerConfig k c ch sl cl ec sn cw ic mt mc sp sh _ ra co cr er) := g in
  mkServerConfig k c ch sl cl ec sn cw ic mt mc sp sh d ra co cr er.
Definition WithRAAuthorizer authorizer : Option S := fun g =>
  let '(mkServerConfig k c ch sl cl ec sn cw ic mt mc sp sh ti _ co cr er) := g in
  mkServerConfig k c ch sl cl ec sn cw ic mt mc sp sh ti (Some authorizer) co cr er.
(** The option [NewCAServer] adds. *)
Definition WithConfirmer f : Option S := fun g =>
  let '(mkServerConfig k c ch sl cl ec sn cw ic mt mc sp sh ti ra _ cr er) := g in
  mkServerConfig k c ch sl cl ec sn cw ic mt mc sp sh ti ra (Some f) cr er.
(** The assignment of [s.cfg.signerCreds] and [s.cfg.signerErr]. *)
Definition set_signer (creds : option SignatureCredentials) (err : option error) : Option S :=
  fun g =>
  let '(mkServerConfig k c ch sl cl ec sn cw ic mt mc sp sh ti ra co _ _) := g in
  mkServerConfig k c ch sl cl ec sn cw ic mt mc sp sh ti ra co creds err.
End Options.

Section Server.
Context {CB : Cryptobyte} {GN : GoNames} {GX : GoX509} {GA : GoASN1} {GC : GoCrypto}
  {GP : GoPBMAC1} {GR : GoRandom}.

(** The server with its empty tracker. *)
Definition New {S} (h : Handler S) (opts : list (Option S)) : Server S * transactionTracker :=
  let c := foldl (fun c o => o c) zero_config opts in
  let c := if confirmWait c =? 0 then WithConfirmWaitTime (10 * 10 ^ 9) c else c in
  let maxTxn := or_default (cfg_maxTransactions c) 10000 in
  let maxPerCred := or_default (cfg_maxTransactionsPerCredential c) 100 in
  let c :=
    if negb (is_nil (signerKey c)) || negb (is_nil (signerCert c)) then
      match NewSignatureCredentials (signerKey c) (signerCert c) (signerChain c) with
      | Ok creds => set_signer (Some creds) None c
      | Err err => set_signer None (Some err) c
      end
    else c in
  (mkServer h c, newTransactionTracker maxTxn maxPerCred).

Definition NewCAServer {S} (ca : CA S) (policy : option (Handler S -> Handler S))
    (opts : list (Option S)) : Server S * transactionTracker :=
  let opts := match ConfirmCertificate ca with
              | Some f => WithConfirmer f :: opts
              | None => opts
              end in
  let h := NewCAHandler ca in
  New (match policy with Some policy => policy h | None => h end) opts.

(** ** Access to the world *)

Section Process.
Context {S : Type} (srv : Server S) (now : Time).
Local Notation c := (cfg srv).

Definition on_tracker {A} (m : ST transactionTracker A) : ST (World S) A := fun w =>
  let '(mkWorld t n s) := w in let (t', r) := m t in (mkWorld t' n s, r).
Definition on_ca {A} (m : ST S A) : ST (World S) A := fun w =>
  let '(mkWorld t n s) := w in let (s', r) := m s in (mkWorld t n s', r).
Definition draw {A} (f : nat -> A) : ST (World S) A := fun w =>
  let '(mkWorld t n s) := w in (mkWorld t (Datatypes.S n) s, Ok (f n)).

Definition make16 : ST (World S) bytes := draw (fun i => rand_Read i 16).

(** A rejection in a [PKIStatusInfo]. *)
Definition reject_info (failInfo : PKIFailureInfo) (text : list string) : PKIStatusInfo :=
  mkPKIStatusInfo StatusRejection text failInfo.

(** ** Responses *)

Definition protectResponseWithOptions (random : bytes) (sender : option SenderIdentity)
    (protectionParams : option MACCredentialOption) : ST PKIMessage unit :=
  let signed :=
    match signerErr c with
    | Some err => st_fail err
    | None =>
        match signerCreds c with
        | Some creds => SignatureCredentials_Protect random creds
        | None => st_ret tt
        end
    end in
  match sender with
  | Some sender =>
      if si_MACVerified sender && nonempty (secret sender) then
        match NewMACCredentials (secret sender) (option_list protectionParams) with
        | Err err => st_fail err
        | Ok creds => MACCredentials_Protect random creds
        end
      else signed
  | None => signed
  end.

(** Whether the response is protected with the shared secret. *)
Definition uses_mac (sender : option SenderIdentity) : bool :=
  match sender with Some s => si_MACVerified s && nonempty (secret s) | None => false end.

(** [len(s.cfg.sender.CommonName) > 0 || len(s.cfg.sender.Organization) > 0]. *)
Definition has_sender_name : bool :=
  negb (bool_decide (CommonName (cfg_sender c) = "")) || nonempty (Organization (cfg_sender c)).

Definition response_sender : GeneralName :=
  if has_sender_name then NewDirectoryName (cfg_sender c)
  else match signerCert c with
       | Some crt => NewDirectoryNameFromRawDER (RawSubject crt)
       | None => emptyGeneralName
       end.

Definition response_senderKID (sender : option SenderIdentity) : bytes :=
  match signerCert c, sender with
  | Some crt, _ => SubjectKeyId crt
  | None, Some s => if si_MACVerified s then si_SenderKID s else []
  | None, None => []
  end.

(** The response before it is protected. *)
Definition response_message (req : PKIMessage) (body : PKIBody) (sender : option SenderIdentity)
    (generalInfo : list InfoTypeAndValue) (senderNonce : bytes) : PKIMessage :=
  let h := Header req in
  mkPKIMessage
    (mkPKIHeader (PVNO h) response_sender (Sender h) now None (response_senderKID sender) []
       (TransactionID h) senderNonce (SenderNonce h) [] generalInfo false)
    (Some body) [] ((fun crt => mkCMPCertificate (Raw crt)) <$> cfg_extraCerts c) [] [].

Definition error_body (si : PKIStatusInfo) : PKIBody := NewErrorBody (mkErrorMsgContent si 0 []).

Definition protection_unavailable : PKIBody :=
  error_body (reject_info FailSystemFailure ["response protection unavailable"]).

(** What a failed protection leaves of the response. *)
Definition unprotected_failure (resp : PKIMessage) : PKIMessage :=
  set_Protection []
    (set_Header (set_ProtectionAlg None (Header resp)) (set_Body (Some protection_unavailable) resp)).

Definition buildResponseInternal (req : PKIMessage) (body : PKIBody)
    (sender : option SenderIdentity) (generalInfo : list InfoTypeAndValue)
    (protectionParams : option MACCredentialOption) : ST (World S) PKIMessage :=
  let! senderNonce := make16 in
  let resp := response_message req body sender generalInfo senderNonce in
  let protectionParams :=
    match protectionParams with
    | Some p => Some p
    | None => sender ≫= si_protectionParams
    end in
  let! random := draw (fun i => if uses_mac sender then rand_Read i 16 else rand_Reader i) in
  st_ret (match protectResponseWithOptions random sender protectionParams resp with
          | (resp, Ok _) => resp
          | (resp, Err _) => unprotected_failure resp
          end).

Definition buildResponse req body sender := buildResponseInternal req body sender [] None.
Definition buildResponseWithEchoProtection req body sender protectionParams :=
  buildResponseInternal req body sender [] protectionParams.
Definition buildErrorResponse (req : PKIMessage) (sender : option SenderIdentity)
    (si : PKIStatusInfo) : ST (World S) PKIMessage :=
  buildResponse req (error_body si) sender.
Definition buildRevRepResponse (req : PKIMessage) (si : PKIStatusInfo)
    (sender : option SenderIdentity) : ST (World S) PKIMessage :=
  buildResponse req (NewRPBody (mkRevRepContent [si] [] [])) sender.

Definition requestHasImplicitConfirm (msg : PKIMessage) : bool :=
  existsb (fun info => OID_Equal (InfoType info) (InfoType ImplicitConfirmInfoValue))
    (GeneralInfo (Header msg)).

(** [s.cfg.implicitConfirm && requestHasImplicitConfirm(msg)]. *)
Definition grants_implicit (msg : PKIMessage) : bool :=
  implicitConfirm c && requestHasImplicitConfirm msg.

Definition certRep_body (certReqID : Z) (si : PKIStatusInfo) (crt : option Certificate)
    (caCerts : list Certificate) (rt : RequestType) : PKIBody :=
  let keyPair :=
    match crt with
    | Some crt =>
        if Status si =? StatusAccepted
        then Some (mkCertifiedKeyPair (mkCertOrEncCert (Some (mkCMPCertificate (Raw crt))) None) None)
        else None
    | None => None
    end in
  let rep := mkCertRepMessage ((fun ca => mkCMPCertificate (Raw ca)) <$> caCerts)
               [mkCertResponse certReqID si keyPair []] in
  if rt =? RequestIR then NewIPBody rep
  else if rt =? RequestKUR then NewKUPBody rep
  else NewCPBody rep.

Definition buildCertRepResponseForType (req : PKIMessage) (certReqID : Z) (si : PKIStatusInfo)
    (crt : option Certificate) (caCerts : list Certificate) (sender : option SenderIdentity)
    (rt : RequestType) (protectionParams : option MACCredentialOption) : ST (World S) PKIMessage :=
  let generalInfo :=
    if grants_implicit req then [ImplicitConfirmInfoValue]
    else if (0 <? confirmWait c) && (Status si =? StatusAccepted)
    then [ConfirmWaitTimeInfoValue now (confirmWait c)]
    else [] in
  buildResponseInternal req (certRep_body certReqID si crt caCerts rt) sender generalInfo
    protectionParams.

Definition certReqIDFromRequest (msg : PKIMessage) : result Z :=
  let? t := body_type msg in
  if t =? BodyTypeP10CR then Ok (-1)
  else match parseCRMFMsg msg with
       | Ok crmf => Ok (crmf_certReqID crmf)
       | Err _ => Ok 0
       end.

Definition requestTypeFromBody (t : BodyType) : RequestType :=
  if t =? BodyTypeIR then RequestIR
  else if t =? BodyTypeCR then RequestCR
  else if t =? BodyTypeKUR then RequestKUR
  else if t =? BodyTypeP10CR then RequestP10CR
  else Z.land t 31.

Definition senderCredential (sender : SenderIdentity) : result bytes := credentialID sender.

(** ** Certificate requests *)

(** The end of both issuance paths: the response, once the transaction is recorded. *)
Definition record_issuance (ctx : context) (msg : PKIMessage) (credID : bytes) (rt : RequestType)
    (certReqID : Z) (resp : Response) (sender : SenderIdentity) (respMsg : PKIMessage)
    : ST (World S) PKIMessage :=
  let txnID := TransactionID (Header msg) in
  match resp_Certificate resp with
  | None => st_ret respMsg
  | Some crt =>
      if grants_implicit msg then
        let! _ := on_tracker (setCompleted now credID txnID) in
        match confirmer c with
        | None => st_ret respMsg
        | Some confirm =>
            let! _ := on_ca (call (confirm ctx crt ConfirmImplicit (IssueRef resp))) in
            st_ret respMsg
        end
      else
        let! recorded := on_tracker
          (setIssued now credID txnID rt certReqID crt (IssueRef resp)
             (SenderNonce (Header respMsg)) (SenderNonce (Header msg))
             (si_protectionParams sender) (ProtectionAlg (Header msg))) in
        if recorded then st_ret respMsg
        else buildErrorResponse msg (Some sender) (reject_info FailTransactionIdInUse [])
  end.

(** The answer to a request the handler refused. *)
Definition refuse_request (msg : PKIMessage) (t : BodyType) (certReqID : Z) (rt : RequestType)
    (sender : SenderIdentity) (err : error) : ST (World S) PKIMessage :=
  let si := errorToStatusInfo (Some err) in
  if (negb (Z.land (FailInfo si) FailBadAlg =? 0) && (t =? BodyTypeP10CR))
     || negb (Z.land (FailInfo si) FailBadMessageCheck =? 0)
  then buildErrorResponse msg (Some sender) si
  else buildCertRepResponseForType msg certReqID si None [] (Some sender) rt None.

Definition handleCertRequest (ctx : context) (msg : PKIMessage) (sender : SenderIdentity)
    : ST (World S) PKIMessage :=
  match senderCredential sender with
  | Err _ => buildErrorResponse msg (Some sender) (reject_info FailBadMessageCheck [])
  | Ok credID =>
      let txnID := TransactionID (Header msg) in
      let! w := st_get in
      match getPending credID txnID (tracker w) with
      | Some _ => buildErrorResponse msg (Some sender) (reject_info FailTransactionIdInUse [])
      | None =>
          let! certReqID := st_lift (certReqIDFromRequest msg) in
          let! t := st_lift (body_type msg) in
          let rt := requestTypeFromBody t in
          let! r := on_ca (call (handler srv ctx msg sender)) in
          match r with
          | Ok None => st_fail GoPanic
          | Err err => refuse_request msg t certReqID rt sender err
          | Ok (Some resp) =>
              match Waiting resp with
              | Some waiting =>
                  let! respMsg := buildCertRepResponseForType msg certReqID
                    (mkPKIStatusInfo StatusWaiting [] 0) None [] (Some sender) rt None in
                  let! recorded := on_tracker
                    (setPending now credID txnID rt (PollRef waiting)
                       (SenderNonce (Header respMsg)) (wr_CheckAfter waiting) 0) in
                  if recorded then st_ret respMsg
                  else buildErrorResponse msg (Some sender) (reject_info FailSystemFailure [])
              | None =>
                  let! respMsg := buildCertRepResponseForType msg certReqID
                    (mkPKIStatusInfo StatusAccepted [] 0) (resp_Certificate resp) (CACerts resp)
                    (Some sender) rt (si_protectionParams sender) in
                  record_issuance ctx msg credID rt certReqID resp sender respMsg
              end
          end
      end
  end.

(** ** Polling *)

(** Durations are in nanoseconds. *)
Definition Second : Z := 10 ^ 9.

Definition handlePollReq (ctx : context) (msg : PKIMessage) (sender : SenderIdentity)
    : ST (World S) PKIMessage :=
  let refuse failInfo text := buildErrorResponse msg (Some sender) (reject_info failInfo text) in
  match Body msg with
  | None => st_fail GoPanic
  | Some b =>
  match snd (PollReq b) with
  | Err _ => refuse FailBadDataFormat []
  | Ok pollReq =>
  let certReqID := default 0 (head pollReq) in
  match senderCredential sender with
  | Err _ => refuse FailBadMessageCheck []
  | Ok credID =>
  let txnID := TransactionID (Header msg) in
  let! w := st_get in
  match getPending credID txnID (tracker w) with
  | None => refuse FailBadRequest ["no pending certificate"]
  | Some pending =>
  if negb (nonempty (RecipNonce (Header msg)))
  then refuse FailBadRecipientNonce ["missing recipNonce"]
  else if negb (bytes_eqb (RecipNonce (Header msg)) (te_senderNonce pending))
  then refuse FailBadRecipientNonce ["recipNonce mismatch"]
  else if negb (lastPollTime pending =? 0) && (now - lastPollTime pending <? checkAfter pending)
  then refuse FailBadRequest ["polling too frequently"]
  else
  let ctx := contextWithPollRef ctx (pollRef pending) in
  let! r := on_ca (call (handler srv ctx msg sender)) in
  match r with
  | Ok None => st_fail GoPanic
  | Err err => buildErrorResponse msg (Some sender) (errorToStatusInfo (Some err))
  | Ok (Some resp) =>
      match Waiting resp with
      | Some waiting =>
          let item := mkPollRepItem certReqID (Z.max (Z.quot (wr_CheckAfter waiting) Second) 1)
                        (if bool_decide (wr_Reason waiting = "") then [] else [wr_Reason waiting]) in
          let! respMsg := buildResponse msg (NewPollRepBody [item]) (Some sender) in
          let! recorded := on_tracker
            (setPending now credID txnID (reqType pending) (PollRef waiting)
               (SenderNonce (Header respMsg)) (wr_CheckAfter waiting) now) in
          if recorded then st_ret respMsg else refuse FailSystemFailure []
      | None =>
          let! respMsg := buildCertRepResponseForType msg certReqID
            (mkPKIStatusInfo StatusAccepted [] 0) (resp_Certificate resp) (CACerts resp)
            (Some sender) (reqType pending) None in
          record_issuance ctx msg credID (reqType pending) certReqID resp sender respMsg
      end
  end
  end
  end
  end
  end.

(** ** Confirmation *)

Definition publicKeysEqual (a b : option PublicKey) : bool :=
  match MarshalPKIXPublicKey a, MarshalPKIXPublicKey b with
  | Some aDER, Some bDER => bytes_eqb aDER bDER
  | _, _ => false
  end.

Definition certReqIDMatches (entry : transactionEntry) (certReqID : Z) : bool :=
  match te_certReqID entry with
  | None => true
  | Some id =>
      (certReqID =? id)
      || ((reqType entry =? RequestP10CR) && ((certReqID =? 0) || (certReqID =? -1)))
  end.

(** The check of one CertStatus; [first] is the first of them. *)
Definition checkCertStatus (entry : transactionEntry) (first cs : CertStatus) : result unit :=
  match cert entry with
  | None => Err GoPanic
  | Some crt =>
      match CertificateHash cs crt with
      | Err _ => Err (rejection FailBadAlg "cannot compute certHash")
      | Ok expectedHash =>
          reject_if negb (bytes_eqb (CertHash cs) expectedHash)
            with rejection FailBadCertId "certHash mismatch" ;;
          reject_if negb (certReqIDMatches entry (cs_CertReqID cs))
            with rejection FailBadCertId "certReqId does not match the issued certificate" ;;
          reject_if negb (Bool.eqb (certStatusRejects cs) (certStatusRejects first))
            with rejection FailBadRequest "CertStatus entries disagree" ;;
          Ok tt
      end
  end.
Fixpoint check_each (entry : transactionEntry) (first : CertStatus) (statuses : list CertStatus)
    : result unit :=
  match statuses with
  | [] => Ok tt
  | cs :: rest => let? _ := checkCertStatus entry first cs in check_each entry first rest
  end.
Definition checkCertStatuses (statuses : CertConfirmContent) (entry : transactionEntry)
    : result unit :=
  reject_if strictProfile c && (1 <? Z.of_nat (length statuses))
    with rejection FailBadRequest "more than one CertStatus" ;;
  match statuses with
  | [] => Ok tt
  | first :: _ => check_each entry first statuses
  end.

(** Accepted, with failInfo bits. *)
Definition contradictory (cs : CertStatus) : bool :=
  match StatusInfo cs with
  | Some si => (Status si =? StatusAccepted) && negb (FailInfo si =? 0)
  | None => false
  end.

(** The guards of [handleCertConf] between the lookup and the handler. *)
Definition certConf_guards (msg : PKIMessage) (sender : SenderIdentity)
    (conf : CertConfirmContent) (entry : transactionEntry) : result unit :=
  let? _ := checkCertStatuses conf entry in
  reject_if negb (nonempty (RecipNonce (Header msg)))
    with rejection FailBadRecipientNonce "missing recipNonce" ;;
  reject_if negb (bytes_eqb (RecipNonce (Header msg)) (issuedSenderNonce entry))
    with rejection FailBadRecipientNonce "recipNonce mismatch" ;;
  reject_if strictProfile c
            && (bytes_eqb (SenderNonce (Header msg)) (issuedSenderNonce entry)
                || (nonempty (clientSenderNonce entry)
                    && bytes_eqb (SenderNonce (Header msg)) (clientSenderNonce entry)))
    with rejection FailBadSenderNonce "senderNonce reused" ;;
  reject_if match si_Certificate sender, cert entry with
            | Some own, Some issued =>
                publicKeysEqual (certificatePublicKey own) (certificatePublicKey issued)
            | _, _ => false
            end
    with rejection FailBadMessageCheck "certConf signed with newly issued certificate" ;;
  Ok tt.

(** The status info of a rejection, its text always present. *)
Definition rejection_info (err : error) : PKIStatusInfo :=
  match err with
  | ServerError st fi text => mkPKIStatusInfo st [text] fi
  | _ => reject_info FailBadDataFormat []
  end.

Definition handleCertConf (ctx : context) (msg : PKIMessage) (sender : SenderIdentity)
    : ST (World S) PKIMessage :=
  let refuse failInfo text := buildErrorResponse msg (Some sender) (reject_info failInfo text) in
  match Body msg with
  | None => st_fail GoPanic
  | Some b =>
  match snd (CertConf b) with
  | Err _ => refuse FailBadDataFormat []
  | Ok conf =>
  if existsb contradictory conf then refuse FailBadRequest ["accepted status with failInfo set"]
  else match senderCredential sender with
  | Err _ => refuse FailBadMessageCheck []
  | Ok credID =>
  let txnID := TransactionID (Header msg) in
  let! w := st_get in
  match getIssued credID txnID (tracker w) with
  | None => refuse FailBadRequest ["unknown transaction"]
  | Some entry =>
  match certConf_guards msg sender conf entry with
  | Err GoPanic => st_fail GoPanic
  | Err err => buildErrorResponse msg (Some sender) (rejection_info err)
  | Ok _ =>
  let ctx := contextWithIssued ctx (mkIssuedInfo (cert entry) (te_issueRef entry)) in
  let! r := on_ca (call (handler srv ctx msg sender)) in
  match r with
  | Err err =>
      buildResponseWithEchoProtection msg (error_body (errorToStatusInfo (Some err)))
        (Some sender) (te_protectionParams entry)
  | Ok _ =>
      let! _ := on_tracker (delete_txn credID txnID) in
      buildResponseWithEchoProtection msg NewPKIConfBody (Some sender) (te_protectionParams entry)
  end
  end
  end
  end
  end
  end.

(** ** Revocation *)

(** [defer] runs [setCompleted] after the response is built. *)
Definition handleRevocation (ctx : context) (msg : PKIMessage) (sender : SenderIdentity)
    : ST (World S) PKIMessage :=
  match senderCredential sender with
  | Err _ => buildErrorResponse msg (Some sender) (reject_info FailBadMessageCheck [])
  | Ok credID =>
      let! r := on_ca (call (handler srv ctx msg sender)) in
      let! respMsg :=
        match r with
        | Err err =>
            let si := errorToStatusInfo (Some err) in
            if negb (Z.land (FailInfo si) FailBadMessageCheck =? 0)
            then buildErrorResponse msg (Some sender) si
            else buildRevRepResponse msg si (Some sender)
        | Ok resp =>
            match resp ≫= Waiting with
            | Some _ => buildRevRepResponse msg (reject_info FailSystemFailure []) (Some sender)
            | None => buildRevRepResponse msg (mkPKIStatusInfo StatusAccepted [] 0) (Some sender)
            end
        end in
      let! _ := on_tracker (setCompleted now credID (TransactionID (Header msg))) in
      st_ret respMsg
  end.

(** ** Header and protection of a request *)

Definition verifyRecipient (msg : PKIMessage) : result unit :=
  let check serverName :=
    let recipient := DirectoryName (Recipient (Header msg)) in
    if negb (nonempty recipient) then Ok tt
    else if bool_decide (Name_String (FillFromRDNSequence recipient) = Name_String serverName)
    then Ok tt
    else Err (rejection FailBadRequest "recipient does not match server identity") in
  if has_sender_name then check (cfg_sender c)
  else match signerCert c with Some crt => check (Subject crt) | None => Ok tt end.

Definition isInitialRequest (t : BodyType) : bool :=
  (t =? BodyTypeIR) || (t =? BodyTypeCR) || (t =? BodyTypeKUR) || (t =? BodyTypeP10CR)
  || (t =? BodyTypeRR).

(** The checks of [validateHeader] before the transaction table. *)
Definition check_header (msg : PKIMessage) (isFirst : bool) : result unit :=
  let h := Header msg in
  reject_if strictProfile c && negb (nonempty (SenderNonce h))
    with rejection FailBadSenderNonce "missing senderNonce" ;;
  reject_if strictProfile c && (Z.of_nat (length (SenderNonce h)) <? 16)
    with rejection FailBadSenderNonce "senderNonce too short" ;;
  reject_if (0 <? messageTimeTolerance c) && HasMessageTime h
            && ((MessageTime h <? now - messageTimeTolerance c)
                || (now + messageTimeTolerance c <? MessageTime h))
    with rejection FailBadTime "messageTime outside allowed tolerance" ;;
  reject_if isFirst && nonempty (RecipNonce h)
    with rejection FailBadRecipientNonce "recipNonce in first message" ;;
  Ok tt.

(** [validateHeader] once the transactionID is there. *)
Definition admit_transaction (msg : PKIMessage) (isFirst : bool) (sender : SenderIdentity)
    : ST (World S) unit :=
  let! _ := st_lift (check_header msg isFirst) in
  match senderCredential sender with
  | Err _ => st_fail (rejection FailBadMessageCheck "invalid sender credentials")
  | Ok credID =>
      if negb isFirst then st_ret tt
      else
        let! r := on_tracker (call (startIfAbsent now credID (TransactionID (Header msg)))) in
        match r with
        | Err err => st_fail (rejection FailSystemUnavail (Error_text err))
        | Ok true => st_fail (rejection FailTransactionIdInUse "transactionID already in use")
        | Ok false => st_ret tt
        end
  end.

(** The message, with the transactionID the server assigned if it did, and the
    error. *)
Definition validateHeader (msg : PKIMessage) (sender : SenderIdentity)
    : ST (World S) (PKIMessage * option error) :=
  let! t := st_lift (body_type msg) in
  let isFirst := isInitialRequest t in
  let missing := negb (nonempty (TransactionID (Header msg))) in
  if missing && (strictProfile c || negb isFirst)
  then st_ret (msg, Some (rejection FailBadDataFormat "missing transactionID"))
  else
    let! msg :=
      if missing then
        let! id := make16 in st_ret (set_Header (set_TransactionID id (Header msg)) msg)
      else st_ret msg in
    let! r := call (admit_transaction msg isFirst sender) in
    st_ret (msg, match r with Ok _ => None | Err err => Some err end).

Definition isUnsupportedAlgorithm (err : error) : bool :=
  bool_decide (errors_As as_VerificationError err = Some ReasonUnsupportedAlgorithm).

Definition isMACAlgorithm (oid : ObjectIdentifier) : bool :=
  OID_Equal oid [1; 2; 840; 113533; 7; 66; 13] || OID_Equal oid [1; 2; 840; 113549; 1; 5; 14].

(** [FillFromRDNSequence] of a name that is there. *)
Definition header_name (n : GeneralName) : Name :=
  if nonempty (DirectoryName n) then FillFromRDNSequence (DirectoryName n) else emptyName.

Definition mac_options (s : bytes) : VerifyOptions :=
  mkVerifyOptions ProtectionAny s None None [] [] false false.
Definition signer_options (crt : option Certificate) : VerifyOptions :=
  mkVerifyOptions ProtectionAny [] None crt [] [] false (allowSHA1Signatures c).

Definition verifyMACProtection (s : S) (msg : PKIMessage) : result SenderIdentity :=
  let h := Header msg in
  match secretLookup c with
  | None => Err (rejection FailBadMessageCheck "MAC protection not configured")
  | Some lookup =>
      let senderName := header_name (Sender h) in
      match lookup s senderName (SenderKID h) with
      | Err GoPanic => Err GoPanic
      | Err _ => Err (rejection FailBadMessageCheck "unknown sender")
      | Ok sec =>
          match Verify now msg (mac_options sec) with
          | Err err =>
              if isUnsupportedAlgorithm err
              then Err (rejection FailBadAlg "unsupported protection algorithm")
              else Err (rejection FailBadMessageCheck "MAC verification failed")
          | Ok vr =>
              Ok (mkSenderIdentity None senderName (SenderKID h) true None sec
                    (ProtectionParams vr) (Sender h))
          end
      end
  end.

Definition verifySignatureProtection (s : S) (msg : PKIMessage) : result SenderIdentity :=
  let h := Header msg in
  match certificateLookup c with
  | None => Err (rejection FailSignerNotTrusted "signature protection not configured")
  | Some lookup =>
      let senderName := header_name (Sender h) in
      match lookup s (header_name (Recipient h)) senderName (SenderKID h) with
      | Err GoPanic => Err GoPanic
      | Err _ => Err (rejection FailSignerNotTrusted "unknown sender")
      | Ok signer =>
          match Verify now msg (signer_options signer) with
          | Err err =>
              if bool_decide (errors_As as_VerificationError err = Some ReasonSenderMismatch)
              then Err (rejection FailBadMessageCheck
                          "sender does not match the certificate that signed the message")
              else if isUnsupportedAlgorithm err
              then Err (rejection FailBadAlg "unsupported protection algorithm")
              else Err (rejection FailSignerNotTrusted "signature verification failed")
          | Ok _ =>
              Ok (mkSenderIdentity signer senderName [] false None [] None emptyGeneralName)
          end
      end
  end.

Definition verifyProtection (s : S) (msg : PKIMessage) : result SenderIdentity :=
  match ProtectionAlg (Header msg) with
  | None => Err (rejection FailBadMessageCheck "message not protected")
  | Some a =>
      reject_if negb (nonempty (Protection msg))
        with rejection FailBadMessageCheck "message not protected" ;;
      if isMACAlgorithm (Algorithm a) then verifyMACProtection s msg
      else verifySignatureProtection s msg
  end.

(** ** The strict profile *)

Definition validateProfileSender (msg : PKIMessage) (t : BodyType) (sender : SenderIdentity)
    : result unit :=
  if negb (si_MACVerified sender) then Ok tt
  else if t =? BodyTypeNested then Ok tt
  else if negb (nonempty (DirectoryName (Sender (Header msg))))
  then Err (errorString "MAC protection requires directoryName sender")
  else Ok tt.

Fixpoint parse_each (certs : list CMPCertificate) : result (list Certificate) :=
  match certs with
  | [] => Ok []
  | ec :: rest =>
      let? parsed := of_option (errorString "undecodable certificate in extraCerts")
                       (CMPCertificate_Parse ec) in
      let? more := parse_each rest in
      Ok (parsed :: more)
  end.

(** Each certificate signed by the next, and the last by itself. *)
Fixpoint ordered_chain (crt : Certificate) (rest : list Certificate) : result unit :=
  match rest with
  | [] =>
      match CheckSignatureFrom crt crt with
      | None => Ok tt
      | Some _ => Err (errorString "incomplete certificate chain in extraCerts")
      end
  | issuer :: rest =>
      match CheckSignatureFrom crt issuer with
      | None => ordered_chain issuer rest
      | Some _ => Err (errorString "extraCerts is not an ordered certificate chain")
      end
  end.

Definition validateProfileExtraCerts (msg : PKIMessage) (t : BodyType) (sender : SenderIdentity)
    : result unit :=
  if si_MACVerified sender then Ok tt
  else if negb (isInitialRequest t) && negb (t =? BodyTypeNested) then Ok tt
  else
    let? certs := match ExtraCerts msg with
                  | [] => Err (errorString "signature protection without extraCerts")
                  | ecs => parse_each ecs
                  end in
    match certs with
    | [] => Err GoPanic
    | first :: rest =>
        reject_if match si_Certificate sender with
                  | Some crt => negb (bytes_eqb (Raw first) (Raw crt))
                  | None => false
                  end
          with errorString
                 "first certificate in extraCerts is not the CMP protection certificate" ;;
        ordered_chain first rest
    end.

(** ** Processing *)

Record forwarding := mkForwarding { fwd_msg : PKIMessage; fwd_ra : SenderIdentity }.

(** The nested message that carries one request, checked. *)
Definition check_nested (msg : PKIMessage) (b : PKIBody) : result PKIMessage :=
  reject_if is_nil (raAuthorizer c) with rejection FailBadRequest "nested messages not accepted" ;;
  match snd (Nested b) with
  | Err _ => Err (rejection FailBadDataFormat "invalid nested message")
  | Ok [None] => Err GoPanic
  | Ok [Some req] =>
      let? t := body_type req in
      reject_if t =? BodyTypeNested
        with rejection FailBadRequest "nested message inside a nested message" ;;
      reject_if negb (bytes_eqb (TransactionID (Header msg)) (TransactionID (Header req)))
        with rejection FailBadRequest "transactionID differs from the forwarded message" ;;
      reject_if negb (bytes_eqb (SenderNonce (Header msg)) (SenderNonce (Header req)))
        with rejection FailBadSenderNonce "senderNonce differs from the forwarded message" ;;
      Ok req
  | Ok _ => Err (rejection FailBadRequest "batched messages not supported")
  end.

(** The checks of [process] before the identity is known: the error and the
    version to answer with. *)
Definition check_version (msg : PKIMessage) : option Z :=
  let v := PVNO (Header msg) in
  if v <? PVNO2 then Some PVNO2 else if PVNO3 <? v then Some PVNO3 else None.

(** The answer to a message whose protection does not verify. *)
Definition protection_failure (err : error) : PKIStatusInfo :=
  let failInfo :=
    match errors_As as_ServerError err with
    | Some (_, fi, _) => if fi =? FailBadAlg then FailBadAlg else FailBadMessageCheck
    | None => FailBadMessageCheck
    end in
  reject_info failInfo [Error_text err].

Definition check_profile (msg : PKIMessage) (t : BodyType) (sender : SenderIdentity) : result unit :=
  if strictProfile c then
    let? _ := validateProfileSender msg t sender in validateProfileExtraCerts msg t sender
  else Ok tt.

Definition dispatch (ctx : context) (msg : PKIMessage) (t : BodyType) (sender : SenderIdentity)
    : ST (World S) PKIMessage :=
  if isCertRequest t then handleCertRequest ctx msg sender
  else if t =? BodyTypeCertConf then handleCertConf ctx msg sender
  else if t =? BodyTypePollReq then handlePollReq ctx msg sender
  else if t =? BodyTypeRR then handleRevocation ctx msg sender
  else if t =? BodyTypeError then buildResponse msg NewPKIConfBody (Some sender)
  else buildErrorResponse msg (Some sender) (reject_info FailBadRequest []).

(** From the authorization of a forwarded request on. *)
Definition process_verified (ctx : context) (msg : PKIMessage) (t : BodyType)
    (fwd : option forwarding) (sender : SenderIdentity) : ST (World S) PKIMessage :=
  let sender := match fwd with Some f => set_RA (Some (fwd_ra f)) sender | None => sender end in
  let! authorized :=
    match fwd, raAuthorizer c with
    | Some f, Some authorize => on_ca (call (authorize ctx (fwd_ra f) msg sender))
    | Some _, None => st_fail GoPanic
    | None, _ => st_ret (Ok tt)
    end in
  match authorized, fwd with
  | Err err, Some f =>
      buildErrorResponse (fwd_msg f) (Some (fwd_ra f)) (errorToStatusInfo (Some err))
  | _, _ =>
      let! (msg, err) := validateHeader msg sender in
      match err with
      | Some err => buildErrorResponse msg (Some sender) (rejection_info err)
      | None =>
          let ctx := if allowSHA1Signatures c then contextWithSHA1Signatures ctx else ctx in
          dispatch ctx msg t sender
      end
  end.

(** [fuel] bounds the depth of nested messages: 2 is enough, because a nested
    message inside a nested message is rejected. *)
Fixpoint process (fuel : nat) (ctx : context) (msg : PKIMessage) (fwd : option forwarding)
    : ST (World S) PKIMessage :=
  match fuel with
  | O => st_fail OutOfFuel
  | Datatypes.S fuel =>
  let refuse sender failInfo text := buildErrorResponse msg sender (reject_info failInfo text) in
  match signerErr c with
  | Some _ => refuse None FailSystemFailure ["server misconfigured"]
  | None =>
  match check_version msg with
  | Some v =>
      let! resp := refuse None FailUnsupportedVersion [] in
      st_ret (set_Header (set_PVNO v (Header resp)) resp)
  | None =>
  match verifyRecipient msg with
  | Err err => refuse None FailBadRequest [Error_text err]
  | Ok _ =>
  let! w := st_get in
  match verifyProtection (ca_state w) msg with
  | Err GoPanic => st_fail GoPanic
  | Err err => buildErrorResponse msg None (protection_failure err)
  | Ok sender =>
  match Body msg with
  | None => st_fail GoPanic
  | Some b =>
  let t := Type_ b in
  match check_profile msg t sender with
  | Err err => refuse (Some sender) FailBadMessageCheck [Error_text err]
  | Ok _ =>
  if t =? BodyTypeNested then
    match check_nested msg b with
    | Err GoPanic => st_fail GoPanic
    | Err err => buildErrorResponse msg (Some sender) (rejection_info err)
    | Ok req => process fuel ctx req (Some (mkForwarding msg sender))
    end
  else process_verified ctx msg t fwd sender
  end
  end
  end
  end
  end
  end
  end.

Definition processMessage (msg : PKIMessage) : ST (World S) PKIMessage :=
  process 2 context_Background msg None.

(** ** Expiry *)

(** Each expired certificate is reported, whatever the CA answers. *)
Fixpoint notify_expired (expired : list expiredIssued) : ST (World S) unit :=
  match expired, confirmer c with
  | e :: rest, Some confirm =>
      let! _ := on_ca (call (confirm context_Background (ex_cert e) ConfirmExpired (ex_issueRef e))) in
      notify_expired rest
  | _, _ => st_ret tt
  end.

Definition CleanupExpired : ST (World S) unit :=
  let! expired := on_tracker (cleanupExpired now (confirmWait c)) in
  notify_expired expired.

End Process.
End Server.
