(* ===== verification/ServerHTTP.v ===== *)
(** * The server over HTTP

    [ServeHTTP] of [src/server/server.go]: the octets of a request to those of the
    response. *)
From S2P Require Import Prelude Failure Errors Asn1 Types X509 Message Monad Algorithms Protect.
From S2P Require Import Transactions Handler Http Server.

(** The initial value of the variable, which a program may set. *)
Definition MaxRequestBodySize : Z := 2 ^ 20.

(** [http.Error]. *)
Definition http_Error (text : string) (code : Z) : http_Response :=
  mkHTTPResponse code "text/plain; charset=utf-8" (string_bytes (text +:+ String (Ascii.ascii_of_nat 10) "")) None.

Section Serve.
Context {CB : Cryptobyte} {GN : GoNames} {GX : GoX509} {GA : GoASN1} {GC : GoCrypto}
  {GP : GoPBMAC1} {GR : GoRandom} {GH : GoHTTP}.

(** The message of a request, or the refusal; [maxBody] is [MaxRequestBodySize]. *)
Definition read_request (maxBody : Z) (r : http_Request) : res http_Response PKIMessage :=
  reject_if negb (bool_decide (Method r = "POST"))
    with http_Error "Method Not Allowed" StatusMethodNotAllowed ;;
  reject_if negb (isCMPMediaType (req_ContentType r))
    with http_Error "Unsupported Media Type" StatusUnsupportedMediaType ;;
  match io_ReadAll (Some maxBody) (req_Body r) (req_BodyErr r) with
  | Err _ => Err (http_Error "Bad Request" StatusBadRequest)
  | Ok body =>
      match ParsePKIMessage body with
      | Err _ => Err (http_Error "Bad Request" StatusBadRequest)
      | Ok msg => Ok msg
      end
  end.

(** The HTTP response that carries a message. *)
Definition write_response (resp : PKIMessage) : http_Response :=
  match snd (MarshalBinary resp) with
  | Err _ => http_Error "Internal Server Error" StatusInternalServerError
  | Ok respDER => mkHTTPResponse StatusOK "application/pkixcmp" respDER None
  end.

Definition ServeHTTP {S} (maxBody : Z) (srv : Server S) (now : Time) (r : http_Request)
    : ST (World S) http_Response :=
  match read_request maxBody r with
  | Err refusal => st_ret refusal
  | Ok msg =>
      let! resp := processMessage srv now msg in
      st_ret (write_response resp)
  end.

End Serve.
