(* ===== verification/MockCA.v ===== *)
(** * The example CA

    [src/examples/mockserver/mockserver.go] and its [cmd/main.go]: a CA that signs
    with a key of its own, keeps what it issued and revoked, and looks up the secrets
    and certificates of the senders, behind a server under the Lightweight CMP Profile
    policy. Its state is the receiver of its methods, with the number of its reads of
    randomness and of the clock so far. *)
From S2P Require Import Prelude Failure Errors Asn1 Types StatusInfo X509 Message RevocationMsg Monad Algorithms.
From S2P Require Import Protect Transactions Handler CAHandler Policy Http Server ServerHTTP.

(** [rand.Int(rand.Reader, max)], [ecdsa.GenerateKey(elliptic.P256(), rand.Reader)] and
    [time.Now()], each at the [i]-th read, and [x509.CreateCertificate] with the octets
    it reads from [rand.Reader]. *)
Class GoIssuing := {
  rand_Int : nat -> Z -> option Z;
  ecdsa_GenerateKey : nat -> option Signer;
  clock_Now : nat -> Time;
  x509_CreateCertificate : bytes -> Certificate -> Certificate -> option PublicKey -> Signer -> option bytes
}.
Definition rand_error : error := externalError 5.

(** [secrets] is [None] where the Go map is nil, [hasLog] says that [Log] is not nil. *)
Record MockCA := mkMockCA {
  ca_key : Signer;
  ca_cert : Certificate;
  issuedCerts : list Certificate;
  revoked : gmap string CRLReason;
  secrets : option (gmap bytes bytes);
  nextIssueID : Z;
  hasLog : bool;
  reads : nat
}.

Definition oidKeyUsage : ObjectIdentifier := [2; 5; 29; 15].
Definition KeyUsageDigitalSignature : Z := Z.shiftl 1 0.
Definition KeyUsageCertSign : Z := Z.shiftl 1 5.
Definition KeyUsageCRLSign : Z := Z.shiftl 1 6.
Definition Minute : Z := 60 * Second.
Definition Hour : Z := 60 * Minute.

(** The [String] method of a [big.Int], of a nil pointer as well. *)
Definition big_String (n : option Z) : string := match n with Some n => pretty n | None => "<nil>" end.

(** The assignments to the template of [IssueCertificate]. *)
Definition issuance_fields (serial : option Z) (issuer : Name) (notBefore notAfter : Time)
    (usage : Z) (exts : list Extension) (t : Certificate) : Certificate :=
  mkCertificate (Raw t) (RawSubject t) (RawIssuer t) (RawSubjectPublicKeyInfo t) serial (Subject t)
    issuer (cert_PublicKey t) (SubjectKeyId t) (cert_SignatureAlgorithm t) notBefore notAfter usage
    (Extensions t) exts (UnhandledCriticalExtensions t) (BasicConstraintsValid t) (MaxPathLen t)
    (MaxPathLenZero t) (cert_IsCA t).

Section MockCA.
Context {CB : Cryptobyte} {GN : GoNames} {GX : GoX509} {GA : GoASN1} {GC : GoCrypto}
  {GP : GoPBMAC1} {GR : GoRandom} {GH : GoHTTP} {GI : GoIssuing}.

(** [GenerateSerial] of [src/server/ca.go], at the [i]-th read. *)
Definition GenerateSerial (i : nat) : result Z := of_option rand_error (rand_Int i (Z.shiftl 1 128)).

(** ** Start-up *)

Definition read_next {A} (f : nat -> A) : ST nat A := fun i => (Datatypes.S i, Ok (f i)).

Definition generateSelfSignedCA : ST nat (Signer * Certificate) :=
  let! key := read_next ecdsa_GenerateKey in
  let! key := st_lift (of_option rand_error key) in
  let! serial := read_next (fun i => rand_Int i (Z.shiftl 1 128)) in
  let pubDER := default [] (MarshalPKIXPublicKey (Some (Signer_Public key))) in
  let ski := take 20 (hash_Sum SHA256 pubDER) in
  let! now1 := read_next clock_Now in
  let! now2 := read_next clock_Now in
  let tmpl := mkCertificate [] [] [] [] serial
    (mkName "Test CA" "" [] [] [] [] [] [] [] [] None) emptyName None ski UnknownSignatureAlgorithm
    (now1 - 1 * Hour) (now2 + 10 * 365 * 24 * Hour)
    (Z.lor (Z.lor KeyUsageCertSign KeyUsageCRLSign) KeyUsageDigitalSignature)
    [] [] [] true 0 false true in
  let! random := read_next rand_Reader in
  let! der := st_lift (of_option x509_error
                (x509_CreateCertificate random tmpl tmpl (Some (Signer_Public key)) key)) in
  let! cert := st_lift (of_option x509_error (x509_ParseCertificate der)) in
  st_ret (key, cert).

Definition mockserver_New (secrets : option (gmap bytes bytes)) (log : bool) : ST nat MockCA :=
  let! (key, cert) := generateSelfSignedCA in
  let! i := st_get in
  st_ret (mkMockCA key cert [] ∅ secrets 0 log i).

(** ** The methods *)

Definition read_ca {A} (f : nat -> A) : ST MockCA A := fun c =>
  (mkMockCA (ca_key c) (ca_cert c) (issuedCerts c) (revoked c) (secrets c) (nextIssueID c) (hasLog c)
     (Datatypes.S (reads c)), Ok (f (reads c))).

(** [c.Log.Info] and [c.Log.Warn] on a logger that is there; a nil logger is
    dereferenced. *)
Definition log_line (c : MockCA) : result unit := if hasLog c then Ok tt else Err GoPanic.
Definition log_ca : ST MockCA unit := fun c => (c, log_line c).

Definition append_issued (cert : Certificate) (c : MockCA) : MockCA :=
  mkMockCA (ca_key c) (ca_cert c) (issuedCerts c ++ [cert]) (revoked c) (secrets c) (nextIssueID c)
    (hasLog c) (reads c).
(** [c.nextIssueID.Add(1)]. *)
Definition add_issueID (c : MockCA) : MockCA :=
  mkMockCA (ca_key c) (ca_cert c) (issuedCerts c) (revoked c) (secrets c)
    ((nextIssueID c + 1) mod 2 ^ 64) (hasLog c) (reads c).
Definition mark_revoked (serial : string) (reason : CRLReason) (c : MockCA) : MockCA :=
  mkMockCA (ca_key c) (ca_cert c) (issuedCerts c) (<[serial := reason]> (revoked c)) (secrets c)
    (nextIssueID c) (hasLog c) (reads c).

Definition MockCA_IssueCertificate (_ : context) (reqType : RequestType) (tmpl : Certificate)
    (sender : SenderIdentity) : ST MockCA (option Response) :=
  let! _ := log_ca in
  let! serial := read_ca GenerateSerial in
  let! serial := st_lift serial in
  let! c := st_get in
  let! now1 := read_ca clock_Now in
  let! now2 := read_ca clock_Now in
  let tmpl := issuance_fields (Some serial) (Subject (ca_cert c)) (now1 - 1 * Minute)
                (now2 + 365 * 24 * Hour) KeyUsageDigitalSignature
                (List.filter (fun e => negb (OID_Equal (Id e) oidKeyUsage)) (ExtraExtensions tmpl)) tmpl in
  let! _ := log_ca in
  let! random := read_ca rand_Reader in
  let! der := st_lift (of_option (Errorf_w "signing certificate" x509_error)
                (x509_CreateCertificate random tmpl (ca_cert c) (cert_PublicKey tmpl) (ca_key c))) in
  let! cert := st_lift (of_option x509_error (x509_ParseCertificate der)) in
  let! _ := st_modify (append_issued cert) in
  let! _ := st_modify add_issueID in
  let! c := st_get in
  let caPubs := if bool_decide (reqType = RequestIR) then [ca_cert c] else [] in
  let! _ := (if bool_decide (reqType = RequestIR) then log_ca else st_ret tt) in
  st_ret (Some (mkResponse (Some cert) caPubs None (Some (nextIssueID c)))).

Definition MockCA_LookupSecret (c : MockCA) (_ : Name) (senderKID : bytes) : result bytes :=
  let? _ := log_line c in
  match secrets c with
  | None => Err (errorString "no secrets configured")
  | Some m => of_option (errorString "unknown senderKID") (m !! senderKID)
  end.

(** The loop over [issuedCerts]. *)
Fixpoint lookup_issued (certs : list Certificate) (rev : gmap string CRLReason) (senderKID : bytes)
    : result (option Certificate) :=
  match certs with
  | [] => Err (errorString "certificate not found")
  | cert :: certs =>
      if bytes_eqb (SubjectKeyId cert) senderKID then
        match rev !! big_String (SerialNumber cert) with
        | Some _ => Err (errorString "certificate revoked")
        | None => Ok (Some cert)
        end
      else lookup_issued certs rev senderKID
  end.
Definition MockCA_LookupCertificate (c : MockCA) (_ _ : Name) (senderKID : bytes)
    : result (option Certificate) :=
  let? _ := log_line c in
  reject_if negb (nonempty senderKID) with errorString "senderKID required" ;;
  lookup_issued (issuedCerts c) (revoked c) senderKID.

(** The loop that finds a certificate by its serial number; [Cmp] dereferences it. *)
Fixpoint find_serial (certs : list Certificate) (serial : Z) : result (option Certificate) :=
  match certs with
  | [] => Ok None
  | issued :: certs =>
      match SerialNumber issued with
      | None => Err GoPanic
      | Some n => if n =? serial then Ok (Some issued) else find_serial certs serial
      end
  end.

Definition MockCA_RevokeCertificate (_ : context) (req : RevocationRequest) (_ : SenderIdentity)
    : ST MockCA unit :=
  let! c := st_get in
  let! cert := st_lift (find_serial (issuedCerts c) (rr_SerialNumber req)) in
  match Match req cert with
  | Some err => let! _ := log_ca in st_fail err
  | None =>
      fail_if (rr_Reason req =? CRLReasonCertificateHold) || (rr_Reason req =? CRLReasonRemoveFromCRL)
        with rejection FailBadRequest "certificate hold not supported" ;;
      let serial := big_String (cert ≫= SerialNumber) in
      fail_if negb (is_nil (revoked c !! serial))
        with rejection FailCertRevoked "certificate already revoked" ;;
      let! _ := st_modify (mark_revoked serial (rr_Reason req)) in
      log_ca
  end.

Definition MockCA_ConfirmCertificate (_ : context) (_ : Certificate) (_ : ConfirmStatus)
    (_ : option any) : ST MockCA unit := log_ca.

(** The interfaces [MockCA] implements. *)
Definition mock_CA : CA MockCA :=
  mkCA MockCA_IssueCertificate None (Some MockCA_ConfirmCertificate) (Some MockCA_RevokeCertificate) None.

(** ** The program *)

(** The options of [main], for the CA it made. *)
Definition mock_options (c : MockCA) : list (Option MockCA) :=
  [WithSigner (Some (ca_key c)) (Some (ca_cert c)) []; WithExtraCerts [ca_cert c];
   WithSecretLookup MockCA_LookupSecret; WithCertificateLookup MockCA_LookupCertificate].
Definition mock_server (c : MockCA) : Server MockCA * transactionTracker :=
  NewCAServer mock_CA (Some LightweightPolicy) (mock_options c).

(** [main] up to its first request: the server and its world. *)
Definition mock_main : ST nat (Server MockCA * World MockCA) :=
  let! ca := mockserver_New
    (Some {[ string_bytes "my-device" := string_bytes "test-shared-secret" ]}) true in
  let (srv, tracker) := mock_server ca in
  match signerErr (cfg srv) with
  | Some err => st_fail err
  | None => st_ret (srv, mkWorld tracker 0 ca)
  end.

(** What the running program reacts to: a request on [/cmp], and the ticker. *)
Inductive mock_event := OnRequest (now : Time) (r : http_Request) | OnTick (now : Time).

(** The program from [main] on, the responses in the order of the requests. *)
Fixpoint mock_serve (srv : Server MockCA) (events : list mock_event)
    : ST (World MockCA) (list http_Response) :=
  match events with
  | [] => st_ret []
  | OnRequest now r :: events =>
      let! resp := ServeHTTP MaxRequestBodySize srv now r in
      let! rest := mock_serve srv events in
      st_ret (resp :: rest)
  | OnTick now :: events =>
      let! _ := CleanupExpired srv now in
      mock_serve srv events
  end.

End MockCA.
