(* ===== verification/Snapshot.v ===== *)
(** * Snapshots of the transactions

    [src/server/snapshot.go]: the transactions of a stopped server as a JSON
    document, and their return into an empty one. [encoding/json] is a parameter;
    the document is the Go value it encodes. *)
From S2P Require Import Prelude Failure Errors Asn1 Types X509 Monad Algorithms Protect.
From S2P Require Import Transactions Handler Server.

Record savedTransaction := mkSaved {
  Key : transactionKey;
  Credential : credentialKey;
  State : Z;
  LastActivity : Time;
  st_RequestType : RequestType;
  st_PollRef : string;
  st_SenderNonce : bytes;
  LastPollTime : Time;
  st_CheckAfter : Z;
  st_Certificate : bytes;
  st_IssueRef : bytes;
  IssuedSenderNonce : bytes;
  ClientSenderNonce : bytes;
  ProtectionAlgorithm : option AlgorithmIdentifier;
  st_CertReqID : option Z
}.
Record transactionSnapshot := mkSnapshot {
  Version : Z;
  snap_Signer : bytes;
  Entries : list savedTransaction
}.

(** The constants of [txnState]. *)
Definition txnState_code (s : txnState) : Z :=
  match s with stateActive => 0 | statePending => 1 | stateIssued => 2 | stateCompleted => 3 end.
Definition txnState_of_code (z : Z) : option txnState :=
  match z with
  | 0 => Some stateActive | 1 => Some statePending | 2 => Some stateIssued | 3 => Some stateCompleted
  | _ => None
  end.

(** [encoding/json] on the document and on the opaque references of the CA, which
    are [json.RawMessage] octets inside it. A reference is an [any] that may be nil. *)
Class GoJSON := {
  json_Marshal : transactionSnapshot -> result bytes;
  json_Unmarshal : bytes -> result transactionSnapshot;
  json_Marshal_any : any -> result bytes;
  json_Unmarshal_any : bytes -> result (option any)
}.

(** The JSON value [null]. *)
Definition json_null : bytes := [110; 117; 108; 108].

(** [utf8.ValidString], on the octets of the string. *)
Definition utf8_tail (b : Z) : bool := (128 <=? b) && (b <=? 191).
Fixpoint utf8_valid (s : bytes) : bool :=
  match s with
  | [] => true
  | a :: s1 =>
      if a <? 128 then utf8_valid s1
      else match s1 with
           | [] => false
           | b :: s2 =>
               if (194 <=? a) && (a <=? 223) then utf8_tail b && utf8_valid s2
               else match s2 with
                    | [] => false
                    | c :: s3 =>
                        if (224 <=? a) && (a <=? 239) then
                          utf8_tail b && implb (a =? 224) (160 <=? b) && implb (a =? 237) (b <=? 159)
                          && utf8_tail c && utf8_valid s3
                        else match s3 with
                             | [] => false
                             | d :: s4 =>
                                 (240 <=? a) && (a <=? 244) && utf8_tail b
                                 && implb (a =? 240) (144 <=? b) && implb (a =? 244) (b <=? 143)
                                 && utf8_tail c && utf8_tail d && utf8_valid s4
                             end
                    end
           end
  end.

(** What [encoding/json] promises of the document. A string that is UTF-8 is read as it
    was written, and so is a reference that [json.Marshal] made. A [json.RawMessage] that
    is nil is written as [null], and is read as these four octets. *)
Definition json_read (s : savedTransaction) : savedTransaction :=
  let '(mkSaved k c st la rt pr sn lp ca crt ref isn csn alg id) := s in
  mkSaved k c st la rt pr sn lp ca crt (if nonempty ref then ref else json_null) isn csn alg id.
Definition json_safe {GJ : GoJSON} (s : savedTransaction) : Prop :=
  utf8_valid (string_bytes (st_PollRef s)) = true /\
  (st_IssueRef s = [] \/ exists v, json_Marshal_any v = Ok (st_IssueRef s)).
Class GoJSONLaws (GJ : GoJSON) : Prop := {
  json_reads s d :
    Forall json_safe (Entries s) -> json_Marshal s = Ok d ->
    json_Unmarshal d = Ok (mkSnapshot (Version s) (snap_Signer s) (json_read <$> Entries s));
  json_any_nonempty v d : json_Marshal_any v = Ok d -> d <> []
}.

Definition max_snapshot : Z := Z.shiftl 64 20.

(** [bytes.Compare(a, b) <= 0]. *)
Fixpoint bytes_le (a b : bytes) : bool :=
  match a, b with
  | [], _ => true
  | _ :: _, [] => false
  | x :: a', y :: b' => (x <? y) || ((x =? y) && bytes_le a' b')
  end.

(** Inserting keeps [sort.Slice]'s order by key; the keys are distinct, so that
    the result does not depend on the algorithm. *)
Fixpoint insert_saved (x : savedTransaction) (l : list savedTransaction) : list savedTransaction :=
  match l with
  | [] => [x]
  | y :: l' => if bytes_le (Key x) (Key y) then x :: l else y :: insert_saved x l'
  end.
Definition sort_saved (l : list savedTransaction) : list savedTransaction := foldr insert_saved [] l.

Section Snapshot.
Context {GX : GoX509} {GC : GoCrypto} {GJ : GoJSON}.

(** The function [Range] calls on each entry. *)
Definition save_entry (kv : transactionKey * transactionEntry) : result savedTransaction :=
  let '(key, entry) := kv in
  let? ref := match te_issueRef entry with
              | Some v => json_Marshal_any v
              | None => Ok []
              end in
  reject_if negb (is_nil (te_protectionParams entry)) && is_nil (te_protectionAlgorithm entry)
    with errorString "transaction has no serializable protection parameters" ;;
  Ok (mkSaved key (te_credentialKey entry) (txnState_code (state entry)) (lastActivity entry) (reqType entry)
        (pollRef entry) (te_senderNonce entry) (lastPollTime entry) (checkAfter entry)
        (match cert entry with Some c => Raw c | None => [] end) ref
        (issuedSenderNonce entry) (clientSenderNonce entry) (te_protectionAlgorithm entry)
        (te_certReqID entry)).

Fixpoint save_entries (kvs : list (transactionKey * transactionEntry))
    : result (list savedTransaction) :=
  match kvs with
  | [] => Ok []
  | kv :: kvs =>
      let? saved := save_entry kv in
      let? rest := save_entries kvs in
      Ok (saved :: rest)
  end.

Definition snapshotSigner {S} (c : serverConfig S) : bytes :=
  match signerCert c with Some crt => hash_Sum SHA256 (Raw crt) | None => [] end.

Definition SnapshotTransactions {S} (c : serverConfig S) (t : transactionTracker) : result bytes :=
  let? entries := save_entries (map_to_list (transactions t)) in
  let? data := json_Marshal (mkSnapshot 1 (snapshotSigner c) (sort_saved entries)) in
  reject_if max_snapshot <? Z.of_nat (length data)
    with errorString "transaction snapshot exceeds 64 MiB" ;;
  Ok data.

(** One entry of a snapshot; [decode] is [decodeIssueRef], nil or not. *)
Definition restore_entry (now : Time) (decode : option (bytes -> result (option any)))
    (saved : savedTransaction) : result transactionEntry :=
  let invalid := errorString "invalid saved transaction state or timestamp" in
  let? st := of_option invalid (txnState_of_code (State saved)) in
  reject_if (LastActivity saved =? 0) || (now + 60 * Second <? LastActivity saved) with invalid ;;
  let? crt :=
    (if nonempty (st_Certificate saved)
     then let? c := of_option x509_error (x509_ParseCertificate (st_Certificate saved)) in Ok (Some c)
     else Ok None) in
  reject_if bool_decide (st = stateIssued)
            && (is_nil crt || (Z.of_nat (length (IssuedSenderNonce saved)) <? 16))
    with errorString "issued transaction is incomplete" ;;
  reject_if bool_decide (st = statePending)
            && (bool_decide (st_PollRef saved = "")
                || (Z.of_nat (length (st_SenderNonce saved)) <? 16) || (st_CheckAfter saved <? 0))
    with errorString "pending transaction is incomplete" ;;
  let? ref :=
    (if nonempty (st_IssueRef saved)
     then default json_Unmarshal_any decode (st_IssueRef saved)
     else Ok None) in
  Ok (mkEntry st (LastActivity saved) (Credential saved) (st_RequestType saved)
        (st_PollRef saved) (st_SenderNonce saved) (LastPollTime saved) (st_CheckAfter saved)
        (st_CertReqID saved) crt ref (IssuedSenderNonce saved) (ClientSenderNonce saved)
        (ProtectionAlgorithm saved)
        (match ProtectionAlgorithm saved with
         | Some alg => Some (WithProtectionAlgorithm (Some alg))
         | None => None
         end)).

Fixpoint restore_entries (now : Time) (decode : option (bytes -> result (option any)))
    (entries : list savedTransaction) (next : transactionTracker) : result transactionTracker :=
  match entries with
  | [] => Ok next
  | saved :: rest =>
      let? entry := restore_entry now decode saved in
      let '(mkTracker m n mx cc mc) := next in
      reject_if negb (is_nil (m !! Key saved)) with errorString "duplicate saved transaction" ;;
      let v := default 0 (cc !! Credential saved) + 1 in
      reject_if mc <? v with errorString "saved credential exceeds transaction capacity" ;;
      restore_entries now decode rest
        (mkTracker (<[Key saved := entry]> m) (n + 1) mx (<[Credential saved := v]> cc) mc)
  end.

(** The tracker of the server, replaced on success. *)
Definition RestoreTransactions {S} (c : serverConfig S) (now : Time) (data : bytes)
    (decode : option (bytes -> result (option any))) (t : transactionTracker) : result transactionTracker :=
  reject_if negb (count t =? 0) with errorString "restore requires an empty transaction tracker" ;;
  reject_if max_snapshot <? Z.of_nat (length data)
    with errorString "transaction snapshot exceeds 64 MiB" ;;
  let? snapshot := json_Unmarshal data in
  reject_if negb (Version snapshot =? 1) || negb (bytes_eqb (snap_Signer snapshot) (snapshotSigner c))
    with errorString "transaction snapshot version or signer does not match" ;;
  reject_if maxTransactions t <? Z.of_nat (length (Entries snapshot))
    with errorString "transaction snapshot exceeds capacity" ;;
  restore_entries now decode (Entries snapshot)
    (newTransactionTracker (maxTransactions t) (maxTransactionsPerCredential t)).

End Snapshot.
