(* ===== verification/SnapshotFacts.v ===== *)
(** * Restoring a snapshot

    A snapshot of a tracker in order, restored into an empty server with the same
    signer and the same limits, gives a tracker in order with the same
    transactions, if the decoder of references also takes the [null] of an entry that
    has none; otherwise such an entry makes the whole restoration fail. *)
From S2P Require Import Prelude Failure Errors Asn1 Types X509 Monad Algorithms Protect.
From S2P Require Import Transactions TransactionsFacts Handler Server Snapshot.

(** ** Sorting *)

Lemma insert_saved_perm x l : insert_saved x l ≡ₚ x :: l.
Proof.
  induction l as [|y l IH]; simpl; [done|]. case_match; [done|]. rewrite IH. by apply perm_swap.
Qed.

Lemma sort_saved_perm l : sort_saved l ≡ₚ l.
Proof.
  induction l as [|x l IH]; simpl; [done|]. rewrite insert_saved_perm. by apply Permutation_cons.
Qed.

(** ** Smaller tables hold fewer transactions *)

Lemma size_le {A B : Type} (m : gmap transactionKey A) (m' : gmap transactionKey B) :
  (forall k v, m !! k = Some v -> is_Some (m' !! k)) ->
  Z.of_nat (size m) <= Z.of_nat (size m').
Proof.
  intros H. rewrite <- (size_dom m), <- (size_dom m').
  assert (size (dom m) <= size (dom m'))%nat; [|lia]. apply subseteq_size. intros k Hk.
  apply elem_of_dom in Hk as [v Hv]. apply elem_of_dom. by eapply H.
Qed.

Lemma held_le (ck : credentialKey) (m m' : gmap transactionKey transactionEntry) :
  (forall k e, m !! k = Some e ->
     exists e', m' !! k = Some e' /\ te_credentialKey e' = te_credentialKey e) ->
  held ck m <= held ck m'.
Proof.
  intros H. apply size_le. intros k e He. apply map_lookup_filter_Some in He as [He Hc]. simpl in Hc.
  destruct (H _ _ He) as (e' & He' & Hc'). exists e'. apply map_lookup_filter_Some.
  split; [done|]. simpl. congruence.
Qed.

Section Snapshot.
Context {GX : GoX509} {GC : GoCrypto} {GJ : GoJSON} {JL : GoJSONLaws GJ}.

(** The entry a restored transaction has: its protection parameters are those of
    the stored algorithm. *)
Definition restored (e : transactionEntry) : transactionEntry :=
  let '(mkEntry s la ck rt pr sn lp ca rid c ir isn csn alg _) := e in
  mkEntry s la ck rt pr sn lp ca rid c ir isn csn alg
    ((fun a => WithProtectionAlgorithm (Some a)) <$> alg).

Lemma restored_credential e : te_credentialKey (restored e) = te_credentialKey e.
Proof. by destruct e. Qed.

(** What [RestoreTransactions] asks of an entry. *)
Record restorable (now : Time) (e : transactionEntry) : Prop := {
  re_activity : lastActivity e <> 0 /\ lastActivity e <= now + 60 * Second;
  re_cert : forall c, cert e = Some c -> x509_ParseCertificate (Raw c) = Some c /\ Raw c <> [];
  re_issued : state e = stateIssued -> cert e <> None /\ 16 <= Z.of_nat (length (issuedSenderNonce e));
  re_text : utf8_valid (string_bytes (pollRef e)) = true;
  re_pending : state e = statePending ->
    pollRef e <> "" /\ 16 <= Z.of_nat (length (te_senderNonce e)) /\ 0 <= checkAfter e
}.

(** [decode] reads back the reference of an entry from what [json.Marshal] wrote for it,
    and nil from the [null] of an entry that has none. *)
Definition decodes_ref (decode : bytes -> result (option any)) (e : transactionEntry) : Prop :=
  match te_issueRef e with
  | Some v => forall d, json_Marshal_any v = Ok d -> decode d = Ok (Some v)
  | None => decode json_null = Ok None
  end.

(** The octets the decoder gets for an entry. *)
Definition saved_ref (e : transactionEntry) : result bytes :=
  match te_issueRef e with Some v => json_Marshal_any v | None => Ok json_null end.

Lemma state_code s : txnState_of_code (txnState_code s) = Some s.
Proof. by destruct s. Qed.

(** The entry read back, its reference being the one [decode] makes. *)
Definition with_ref (r : option any) (e : transactionEntry) : transactionEntry :=
  let '(mkEntry s la ck rt pr sn lp ca rid c _ isn csn alg ps) := e in
  mkEntry s la ck rt pr sn lp ca rid c r isn csn alg ps.

Lemma restore_saved now decode k e saved :
  restorable now e -> save_entry (k, e) = Ok saved ->
  exists d, saved_ref e = Ok d /\
    restore_entry now (Some decode) (json_read saved)
    = (let? r := decode d in Ok (with_ref r (restored e))) /\
    json_safe saved /\ Key (json_read saved) = k /\ Credential (json_read saved) = te_credentialKey e.
Proof.
  intros [[Ha0 Ha] Hc Hi Ht Hp] H. unfold save_entry in H. split_res.
  case_in H; [discriminate|]. injection H as <-.
  assert (Hd : exists d, saved_ref e = Ok d /\ nonempty d = true /\ (if nonempty a then a else json_null) = d).
  { unfold saved_ref. destruct (te_issueRef e) as [v|].
    - exists a. pose proof (json_any_nonempty _ _ E) as Hn%nonempty_true. by rewrite Hn.
    - injection E as <-. by exists json_null. }
  destruct Hd as (d & Hd & Hne & Hjd). exists d. split; [done|]. simpl. rewrite Hjd.
  split; [|split; [split; [done|] | done]].
  2: { destruct (te_issueRef e) as [v|]; [right; eauto | injection E as <-; by left]. }
  unfold restore_entry. simpl. rewrite state_code. simpl.
  destruct (Z.eqb_spec (lastActivity e) 0); [done|].
  destruct (Z.ltb_spec (now + 60 * Second) (lastActivity e)); [lia|]. simpl.
  assert (Hcert : (if nonempty (match cert e with Some c => Raw c | None => [] end)
      then let? c := of_option x509_error (x509_ParseCertificate
             (match cert e with Some c => Raw c | None => [] end)) in Ok (Some c)
      else Ok None) = Ok (cert e)).
  { destruct (cert e) as [c|]; [|done]. destruct (Hc c eq_refl) as [Hparse Hn].
    apply nonempty_true in Hn. by rewrite Hn, Hparse. }
  rewrite Hcert. simpl.
  assert (Hissued : bool_decide (state e = stateIssued)
      && (is_nil (cert e) || (Z.of_nat (length (issuedSenderNonce e)) <? 16)) = false).
  { case_bool_decide as Hs; [|done]. destruct (Hi Hs) as [Hn ?]. simpl.
    destruct (cert e); [|done]. simpl. apply Z.ltb_ge. lia. }
  rewrite Hissued.
  assert (Hpend : bool_decide (state e = statePending)
      && (bool_decide (pollRef e = "") || (Z.of_nat (length (te_senderNonce e)) <? 16)
          || (checkAfter e <? 0)) = false).
  { destruct (decide (state e = statePending)) as [Hs|Hs];
      [|by rewrite (bool_decide_eq_false_2 _ Hs)].
    destruct (Hp Hs) as (Hn & ? & ?). rewrite (bool_decide_eq_false_2 _ Hn).
    rewrite (bool_decide_eq_true_2 _ Hs). simpl.
    apply orb_false_iff. split; apply Z.ltb_ge; lia. }
  rewrite Hpend.
  simpl. rewrite Hne. simpl. destruct (decode d); [|done]. simpl. destruct e; simpl in *.
  by destruct te_protectionAlgorithm.
Qed.

Lemma restore_decoded now decode k e saved :
  decodes_ref decode e -> restorable now e -> save_entry (k, e) = Ok saved ->
  restore_entry now (Some decode) (json_read saved) = Ok (restored e) /\
  Key (json_read saved) = k /\ Credential (json_read saved) = te_credentialKey e.
Proof.
  intros Hd Hre Hs. destruct (restore_saved now decode _ _ _ Hre Hs) as (d & Hr & -> & _ & Hk).
  split; [|done]. unfold decodes_ref, saved_ref in *.
  assert (decode d = Ok (te_issueRef e)) as ->.
  { destruct (te_issueRef e); [by apply Hd | by injection Hr as <-]. }
  by destruct e.
Qed.

(** One entry that cannot be restored makes the restoration fail. *)
Lemma restore_entries_fails now decode l s err next :
  s ∈ l -> restore_entry now decode s = Err err -> is_ok (restore_entries now decode l next) = false.
Proof.
  revert next. induction l as [|x l IH]; intros next Hs He; [by apply not_elem_of_nil in Hs|].
  cbn [restore_entries]. apply elem_of_cons in Hs as [<-|Hs].
  - by rewrite He.
  - destruct (restore_entry now decode x); [|done]. cbn [res_bind]. destruct next as [m n mx cc mc].
    do 2 (case_goal; [done|]). by apply IH.
Qed.

(** The saved entries of a tracker. *)
Definition saved_of (t : transactionTracker) (l : list savedTransaction) : Prop :=
  NoDup (Key <$> l) /\
  forall s, s ∈ l -> exists e, transactions t !! Key s = Some e /\ save_entry (Key s, e) = Ok s.

Lemma save_entry_key k e s : save_entry (k, e) = Ok s -> Key s = k.
Proof.
  unfold save_entry. intros H. apply res_bind_ok in H as (ref & _ & H).
  case_in H; [discriminate|]. by injection H as <-.
Qed.

Lemma save_entries_of (kvs : list (transactionKey * transactionEntry)) l :
  save_entries kvs = Ok l ->
  Key <$> l = fst <$> kvs /\
  forall s, s ∈ l -> exists e, (Key s, e) ∈ kvs /\ save_entry (Key s, e) = Ok s.
Proof.
  revert l. induction kvs as [|[k e] kvs IH]; intros l H.
  { injection H as <-. split; [done|]. intros s Hs. by apply elem_of_nil in Hs. }
  cbn [save_entries] in H. apply res_bind_ok in H as (a & Ha & H).
  apply res_bind_ok in H as (rest & Hrest & H). injection H as <-.
  destruct (IH _ Hrest) as [Hk Hin]. pose proof (save_entry_key _ _ _ Ha) as <-.
  split; [by rewrite !fmap_cons, Hk|]. intros s Hs. apply elem_of_cons in Hs as [->|Hs].
  - exists e. split; [apply list_elem_of_here | exact Ha].
  - destruct (Hin s Hs) as (e' & Hin' & He'). exists e'. split; [by apply list_elem_of_further | done].
Qed.

(** The restoration under way: the tracker holds restored entries of [t]. *)
Definition part_of (t next : transactionTracker) : Prop :=
  maxTransactions next = maxTransactions t /\
  maxTransactionsPerCredential next = maxTransactionsPerCredential t /\
  forall k e, transactions next !! k = Some e ->
    exists e0, transactions t !! k = Some e0 /\ e = restored e0.

Lemma part_of_insert t next k e0 :
  part_of t next -> transactions t !! k = Some e0 -> part_of t (add_txn k (restored e0) next).
Proof.
  intros (H1 & H2 & H3) He. split; [done|]. split; [done|]. intros k' e'. simpl.
  intros H. apply lookup_insert_Some in H as [[<- <-]|[_ H]]; [eauto | by apply H3].
Qed.

Lemma part_of_room known t next k e0 :
  tracker_ok known t -> tracker_ok known next -> part_of t next ->
  transactions t !! k = Some e0 -> transactions next !! k = None ->
  count next + 1 <= maxTransactions t /\
  default 0 (credentialCounts next !! te_credentialKey e0) + 1 <= maxTransactionsPerCredential t.
Proof.
  intros Hok Hn Hp He Hk. pose proof (part_of_insert _ _ _ _ Hp He) as (_ & _ & H3). simpl in H3.
  set (m := <[k := restored e0]> (transactions next)) in *.
  assert (Hs : Z.of_nat (size m) <= Z.of_nat (size (transactions t))).
  { apply size_le. intros k' e' H. destruct (H3 _ _ H) as (e & -> & _). eauto. }
  assert (Hh : held (te_credentialKey e0) m <= held (te_credentialKey e0) (transactions t)).
  { apply held_le. intros k' e' H. destruct (H3 _ _ H) as (e & He' & ->). exists e.
    by rewrite restored_credential. }
  unfold m in Hs, Hh. rewrite size_insert_Z in Hs by done. rewrite held_insert in Hh by done.
  rewrite restored_credential in Hh. unfold one_if in Hh. rewrite decide_True in Hh by done.
  rewrite (ok_count _ _ Hn), (ok_credentials _ _ Hn).
  pose proof (ok_limit _ _ Hok). pose proof (ok_credential_limit _ _ Hok (te_credentialKey e0)).
  pose proof (held_nonneg (te_credentialKey e0) (transactions next)). lia.
Qed.

Lemma restore_entries_ok known now decode t l next :
  (forall k e, transactions t !! k = Some e -> decodes_ref decode e /\ restorable now e) ->
  tracker_ok known t -> tracker_ok known next -> part_of t next -> saved_of t l ->
  (forall s, s ∈ l -> transactions next !! Key s = None) ->
  exists t', restore_entries now (Some decode) (json_read <$> l) next = Ok t' /\ tracker_ok known t' /\
    part_of t t' /\
    forall k, is_Some (transactions t' !! k) <-> is_Some (transactions next !! k) \/ k ∈ Key <$> l.
Proof.
  intros Hre Hok. revert next. induction l as [|s l IH]; intros next Hn Hp [Hnd Hin] Hnew.
  { exists next. split; [done|]. split; [done|]. split; [done|]. intros k.
    split; [by left | intros [?|H]; [done | by apply elem_of_nil in H]]. }
  apply NoDup_cons in Hnd as [Hs Hnd]. destruct (Hin s) as (e & He & Hsave); [by left|].
  destruct (Hre _ _ He) as [Hd Hre']. destruct (restore_decoded now decode _ _ _ Hd Hre' Hsave) as (Hr & Hks & Hc).
  pose proof (Hnew s (list_elem_of_here _ _)) as Hk.
  destruct (part_of_room known t next _ _ Hok Hn Hp He Hk) as [Hroom Hcroom].
  assert (Hn' : tracker_ok known (add_txn (Key s) (restored e) next)).
  { destruct (ok_bound _ _ Hok _ _ He) as (c & tx & Hkn & Hkey & Hck). rewrite Hkey in Hk |- *.
    destruct Hp as (H1 & H2 & _). apply add_txn_ok; rewrite ?restored_credential, ?H1, ?H2; done. }
  destruct (IH _ Hn' (part_of_insert _ _ _ _ Hp He)) as (t' & Hrun & Hok' & Hp' & Hdom).
  - split; [done|]. intros s' Hs'. apply Hin. by right.
  - intros s' Hs'. simpl. rewrite lookup_insert_ne; [apply Hnew; by right|].
    intros Heq. apply Hs. rewrite Heq. by apply list_elem_of_fmap_2.
  - exists t'. split; [|split; [done|split; [done|]]].
    + rewrite fmap_cons. cbn [restore_entries]. rewrite Hr. cbn [res_bind]. rewrite Hks.
      destruct next as [m n mx cc mc]. simpl in *. rewrite Hk. simpl.
      rewrite Hc. destruct Hp as (_ & H2 & _). simpl in H2.
      destruct (Z.ltb_spec mc (default 0 (cc !! te_credentialKey e) + 1)); [lia|].
      unfold add_txn in Hrun. simpl in Hrun. by rewrite restored_credential in Hrun.
    + intros k. rewrite Hdom. simpl. rewrite elem_of_cons, lookup_insert_is_Some'.
      naive_solver.
Qed.

(** ** The theorem *)

(** Without a decoder, [json.Unmarshal] reads the references. *)
Lemma restore_default {S} (c : serverConfig S) now data decode t :
  RestoreTransactions c now data decode t
  = RestoreTransactions c now data (Some (default json_Unmarshal_any decode)) t.
Proof.
  destruct decode as [f|]; [done|]. cbn [default].
  assert (H : forall l next, restore_entries now None l next = restore_entries now (Some json_Unmarshal_any) l next).
  { induction l as [|s l IH]; intros next; [done|]. cbn [restore_entries].
    change (restore_entry now None s) with (restore_entry now (Some json_Unmarshal_any) s).
    destruct (restore_entry _ _ _); [|done]. cbn [res_bind]. destruct next.
    by do 2 (case_goal; [done|]). }
  unfold RestoreTransactions. do 2 (case_goal; [done|]). destruct (json_Unmarshal data); [|done].
  cbn [res_bind]. do 2 (case_goal; [done|]). apply H.
Qed.

(** A snapshot, as it is read: the saved entries in some order. *)
Lemma snapshot_read {S} (c : serverConfig S) now t data :
  (forall k e, transactions t !! k = Some e -> restorable now e) -> SnapshotTransactions c t = Ok data ->
  exists a, save_entries (map_to_list (transactions t)) = Ok a /\
    json_Unmarshal data = Ok (mkSnapshot 1 (snapshotSigner c) (json_read <$> sort_saved a)) /\
    (max_snapshot <? Z.of_nat (length data)) = false.
Proof.
  intros Hre H. unfold SnapshotTransactions in H. split_res.
  destruct (max_snapshot <? Z.of_nat (length _)) eqn:Hsize; [discriminate|]. injection H as <-.
  exists a. split; [done|]. split; [|done]. eapply json_reads in E0; [done|].
  cbn [Entries]. apply Forall_forall. intros s Hs. rewrite sort_saved_perm in Hs.
  destruct (save_entries_of _ _ E) as [_ Hsaved]. destruct (Hsaved s Hs) as (e & He & Hse).
  apply elem_of_map_to_list in He.
  destruct (restore_saved now json_Unmarshal_any _ _ _ (Hre _ _ He) Hse) as (d & _ & _ & H & _). exact H.
Qed.

(** A decoder that refuses [null] fails on the first entry without a reference. *)
Lemma restore_refused {S} (c : serverConfig S) now decode t data k e err t0 :
  (forall k e, transactions t !! k = Some e -> restorable now e) -> SnapshotTransactions c t = Ok data ->
  transactions t !! k = Some e -> te_issueRef e = None -> decode json_null = Err err ->
  is_ok (RestoreTransactions c now data (Some decode) t0) = false.
Proof.
  intros Hre H He Hnone Herr. destruct (snapshot_read _ _ _ _ Hre H) as (a & Ha & Hread & Hsize).
  unfold RestoreTransactions. case_goal; [done|]. rewrite Hsize, Hread. cbn [res_bind].
  do 2 (case_goal; [done|]). cbn [Entries].
  destruct (save_entries_of _ _ Ha) as [Hkeys Hsaved].
  assert (Hk : k ∈ Key <$> a).
  { rewrite Hkeys. apply list_elem_of_fmap. exists (k, e). split; [done|]. by apply elem_of_map_to_list. }
  apply list_elem_of_fmap in Hk as (s & -> & Hs). destruct (Hsaved _ Hs) as (e' & He' & Hse).
  apply elem_of_map_to_list in He'. rewrite He in He'. injection He' as <-.
  destruct (restore_saved now decode _ _ _ (Hre _ _ He) Hse) as (d & Hd & Hr & _).
  unfold saved_ref in Hd. rewrite Hnone in Hd. injection Hd as <-. rewrite Herr in Hr.
  eapply restore_entries_fails; [|exact Hr]. apply list_elem_of_fmap_2. by rewrite sort_saved_perm.
Qed.

Lemma restore_snapshot {S} (c : serverConfig S) known now decode t data :
  (forall k e, transactions t !! k = Some e -> restorable now e) -> tracker_ok known t ->
  0 <= maxTransactions t -> SnapshotTransactions c t = Ok data ->
  (forall k e, transactions t !! k = Some e -> decodes_ref decode e) ->
  exists t', RestoreTransactions c now data (Some decode)
      (newTransactionTracker (maxTransactions t) (maxTransactionsPerCredential t)) = Ok t' /\
    tracker_ok known t' /\ forall k, transactions t' !! k = restored <$> transactions t !! k.
Proof.
  intros Hre Hok Hmx H Hd. destruct (snapshot_read _ _ _ _ Hre H) as (a & E & Hread & Hsize).
  set (l := sort_saved a) in *.
  destruct (save_entries_of _ _ E) as [Hkeys Hsaved].
  assert (Hperm : Key <$> l ≡ₚ fst <$> map_to_list (transactions t)).
  { rewrite <- Hkeys. by apply fmap_Permutation, sort_saved_perm. }
  assert (Hl : saved_of t l).
  { split; [rewrite Hperm; apply NoDup_fst_map_to_list|]. intros s Hs.
    unfold l in Hs. rewrite sort_saved_perm in Hs. destruct (Hsaved s Hs) as (e & He & Hse).
    exists e. split; [by apply elem_of_map_to_list | done]. }
  set (next := newTransactionTracker (maxTransactions t) (maxTransactionsPerCredential t)).
  destruct (restore_entries_ok known now decode t l next
              (fun k e He => conj (Hd k e He) (Hre k e He)) Hok (new_tracker_ok _ _ _))
    as (t' & Hrun & Hok' & (_ & _ & Hp) & Hdom); [|done|by intros; apply lookup_empty|].
  { split; [done|]. split; [done|]. intros k e He. simpl in He. by rewrite lookup_empty in He. }
  exists t'. split; [|split; [done|]].
  - unfold RestoreTransactions. rewrite Hread, Hsize. simpl. rewrite bytes_eqb_refl, length_fmap. simpl.
    assert (Hlen : Z.of_nat (length l) = Z.of_nat (size (transactions t))).
    { rewrite <- length_map_to_list, <- (length_fmap fst), <- Hperm, length_fmap. done. }
    rewrite Hlen. destruct (Z.ltb_spec (maxTransactions t) (Z.of_nat (size (transactions t))));
      [|exact Hrun]. pose proof (ok_limit _ _ Hok). lia.
  - intros k. destruct (transactions t' !! k) as [e|] eqn:Ek.
    + destruct (Hp _ _ Ek) as (e0 & -> & ->). done.
    + destruct (transactions t !! k) as [e0|] eqn:Ek0; [|done]. exfalso.
      assert (Hk : is_Some (transactions t' !! k)); [|rewrite Ek in Hk; by destruct Hk].
      apply Hdom. right. rewrite Hperm. apply list_elem_of_fmap. exists (k, e0).
      split; [done|]. by apply elem_of_map_to_list.
Qed.

End Snapshot.
