(* ===== verification/ServerFacts.v ===== *)
(** * What every answer of the server has

    The responses [buildResponseInternal] makes, the parts of the world a call can
    change, and the shape of a run of [process]. *)
From S2P Require Import Prelude Failure Errors Asn1 Types StatusInfo Enrollment Crmf X509 Message.
From S2P Require Import RevocationMsg MessageFacts Monad Algorithms Protect Verify Transactions.
From S2P Require Import Keeps TransactionsFacts Handler ServerRequest CAHandler Server.

Create HintDb yields.
Create HintDb counts.

Section Facts.
Context {CB : Cryptobyte} {GN : GoNames} {GX : GoX509} {GA : GoASN1} {GC : GoCrypto}
  {GP : GoPBMAC1} {GR : GoRandom}.
Context {S : Type} (srv : Server S) (now : Time).

Lemma protectResponse_keeps r sender p :
  preserves keeps (protectResponseWithOptions srv r sender p).
Proof.
  unfold protectResponseWithOptions. preserves;
    first [apply MACCredentials_Protect_keeps | apply SignatureCredentials_Protect_keeps].
Qed.

(** ** Answers *)

(** [resp] answers [req] with the fresh nonce [nonce]. *)
Record answers (req : PKIMessage) (nonce : bytes) (resp : PKIMessage) : Prop := {
  an_transactionID : TransactionID (Header resp) = TransactionID (Header req);
  an_recipNonce : RecipNonce (Header resp) = SenderNonce (Header req);
  an_recipient : Recipient (Header resp) = Sender (Header req);
  an_senderNonce : SenderNonce (Header resp) = nonce
}.

(** The protection a response leaves with: applied as configured, or the body
    replaced by the report that it could not be. *)
Inductive protected_as (sender : option SenderIdentity) (body : PKIBody) (resp : PKIMessage) : Prop :=
| protected_ok r p m :
    protectResponseWithOptions srv r sender p m = (resp, Ok tt) -> Body resp = Some body ->
    protected_as sender body resp
| protected_failed :
    Body resp = Some protection_unavailable -> ProtectionAlg (Header resp) = None ->
    Protection resp = [] -> protected_as sender body resp.

(** How the response [m] to a message of [sender] leaves as [resp]: with a MAC under
    the secret of the sender and with the parameters [q], if it has such a secret, and
    else as the signer of the server is configured; a protection that fails leaves the
    report of that, unprotected. *)
Inductive protected_for (sender : option SenderIdentity) (q : option MACCredentialOption)
    (m resp : PKIMessage) : Prop :=
| by_secret s creds random :
    sender = Some s -> uses_mac sender = true -> NewMACCredentials (secret s) (option_list q) = Ok creds ->
    MACCredentials_Protect random creds m = (resp, Ok tt) -> protected_for sender q m resp
| by_signature creds random :
    uses_mac sender = false -> signerErr (cfg srv) = None -> signerCreds (cfg srv) = Some creds ->
    SignatureCredentials_Protect random creds m = (resp, Ok tt) -> protected_for sender q m resp
| no_signer :
    uses_mac sender = false -> signerErr (cfg srv) = None -> signerCreds (cfg srv) = None ->
    resp = m -> protected_for sender q m resp
| not_protected random r e :
    protectResponseWithOptions srv random sender q m = (r, Err e) -> resp = unprotected_failure r ->
    protected_for sender q m resp.

Lemma protectResponse_cases random sender q m r :
  protectResponseWithOptions srv random sender q m = (r, Ok tt) -> protected_for sender q m r.
Proof.
  intros H. pose proof H as H0. unfold protectResponseWithOptions in H0.
  destruct (uses_mac sender) eqn:Em.
  - destruct sender as [s|]; [|done]. unfold uses_mac in Em. rewrite Em in H0.
    destruct (NewMACCredentials (secret s) (option_list q)) as [creds|] eqn:Ec; [|done].
    by eapply by_secret.
  - assert (match signerErr (cfg srv) with
            | Some err => st_fail err
            | None => match signerCreds (cfg srv) with
                      | Some creds => SignatureCredentials_Protect random creds
                      | None => st_ret tt
                      end
            end m = (r, Ok tt)) as H1.
    { destruct sender as [s|]; [|exact H0]. unfold uses_mac in Em. by rewrite Em in H0. }
    destruct (signerErr (cfg srv)) eqn:Ee; [done|].
    destruct (signerCreds (cfg srv)) as [creds|] eqn:Ec; [by eapply by_signature|].
    apply st_ret_ok in H1 as [-> _]. by apply no_signer.
Qed.

(** The parameters a response has by itself: those of the message it answers. *)
Definition own_params (sender : option SenderIdentity) : option MACCredentialOption :=
  sender ≫= si_protectionParams.

(** The bodies the server makes, and the generalInfo. *)
Definition writable_body (body : PKIBody) : Prop :=
  dirty body = true /\ ContextSpecific (Type_ body) = Type_ body.

(** [resp] is the protected response to [req], with the parameters [q]. *)
Definition answer_with (q : option MACCredentialOption) (req : PKIMessage)
    (sender : option SenderIdentity) (resp : PKIMessage) : Prop :=
  exists body gi i, writable_body body /\ Forall info_wf gi /\
    protected_for sender q (response_message srv now req body sender gi (rand_Read i 16)) resp.

(** The world after [n] draws. *)
Definition drawn (n : nat) (w : World S) : World S :=
  mkWorld (tracker w) (n + draws w)%nat (ca_state w).

Lemma unprotected_failure_answers req nonce m :
  answers req nonce m -> answers req nonce (unprotected_failure m).
Proof. destruct m as [[] ? ? ? ? ?]. intros [? ? ? ?]. by constructor. Qed.

Lemma buildResponseInternal_spec req body sender gi p w :
  exists resp,
    buildResponseInternal srv now req body sender gi p w = (drawn 2 w, Ok resp) /\
    answers req (rand_Read (draws w) 16) resp /\ protected_as sender body resp.
Proof.
  unfold buildResponseInternal, make16, draw, st_bind, st_ret. destruct w as [t n s]. cbn -[rand_Read].
  set (m := response_message _ _ _ _ _ _ _).
  set (r := if uses_mac sender then _ else _). set (q := match p with Some _ => _ | None => _ end).
  assert (Hm : answers req (rand_Read n 16) m) by done.
  pose proof (protectResponse_keeps r sender q m) as Hk.
  destruct (protectResponseWithOptions srv r sender q m) as [m' [[]|e]] eqn:E; simpl in Hk;
    eexists; (split; [reflexivity|]); apply keeps_header_core in Hk;
    destruct Hk as (H1 & H2 & H3 & H4 & _ & H6).
  - split; [|by eapply protected_ok]. by constructor; rewrite ?H1, ?H2, ?H3, ?H4.
  - split; [apply unprotected_failure_answers; by constructor; rewrite ?H1, ?H2, ?H3, ?H4|].
    apply protected_failed; by destruct m' as [[] ? ? ? ? ?].
Qed.

(** ** What the runs of a call give

    [yields P m]: a run of [m] that returns, returns a value that [P] holds of. *)
Definition yields {A} (P : A -> Prop) (m : ST (World S) A) : Prop :=
  forall w w' a, m w = (w', Ok a) -> P a.

Lemma yields_ret {A} (P : A -> Prop) a : P a -> yields P (st_ret a).
Proof. intros H w w' b [= _ <-]. done. Qed.
Lemma yields_fail {A} (P : A -> Prop) e : yields P (st_fail e).
Proof. intros w w' b [=]. Qed.
Lemma yields_bind {A B} (P : B -> Prop) (m : ST (World S) A) k :
  (forall a, yields P (k a)) -> yields P (st_bind m k).
Proof. intros H w w' b E. apply st_bind_ok in E as (? & ? & _ & E). by eapply H. Qed.
Lemma yields_bind_with {A B} (Q : A -> Prop) (P : B -> Prop) (m : ST (World S) A) k :
  yields Q m -> (forall a, Q a -> yields P (k a)) -> yields P (st_bind m k).
Proof. intros Hm H w w' b E. apply st_bind_ok in E as (? & ? & E1 & E). eapply H; eauto. Qed.

(** An answer to [req], protected for [sender] with the parameters of its message. *)
Definition answer_to (req : PKIMessage) (sender : option SenderIdentity) : PKIMessage -> Prop :=
  answer_with (own_params sender) req sender.

Lemma build_yields req body sender gi p :
  writable_body body -> Forall info_wf gi ->
  yields (answer_with (match p with Some p => Some p | None => own_params sender end) req sender)
    (buildResponseInternal srv now req body sender gi p).
Proof.
  intros Hb Hgi w w' resp. unfold buildResponseInternal, make16, draw, st_bind, st_ret.
  destruct w as [t n s]. cbn -[rand_Read]. set (r := if uses_mac sender then _ else _).
  fold (own_params sender). set (q := match p with Some p => Some p | None => own_params sender end).
  intros [= _ <-]. exists body, gi, n. split; [done|]. split; [done|].
  destruct (protectResponseWithOptions srv r sender q _) as [m' [[]|e]] eqn:E;
    [by eapply protectResponse_cases | by eapply not_protected].
Qed.

Lemma certRep_writable id si crt cas rt : writable_body (certRep_body id si crt cas rt).
Proof. unfold certRep_body. by repeat case_goal. Qed.
Lemma certRep_info_wf (b1 b2 : bool) t d :
  Forall info_wf (if b1 then [ImplicitConfirmInfoValue] else if b2 then [ConfirmWaitTimeInfoValue t d] else []).
Proof. repeat case_goal; by repeat constructor. Qed.

Lemma buildResponse_yields req body sender :
  writable_body body -> yields (answer_to req sender) (buildResponse srv now req body sender).
Proof. intros H. by apply (build_yields _ _ _ _ None). Qed.
Lemma buildErrorResponse_yields req sender si :
  yields (answer_to req sender) (buildErrorResponse srv now req sender si).
Proof. by apply buildResponse_yields. Qed.
Lemma buildRevRep_yields req si sender :
  yields (answer_to req sender) (buildRevRepResponse srv now req si sender).
Proof. by apply buildResponse_yields. Qed.
Lemma buildCertRep_yields req id si crt cas sender rt p :
  p = None \/ p = own_params sender ->
  yields (answer_to req sender) (buildCertRepResponseForType srv now req id si crt cas sender rt p).
Proof.
  intros Hp. unfold answer_to.
  replace (own_params sender) with (match p with Some p => Some p | None => own_params sender end)
    by (destruct Hp as [->| ->]; [done | by destruct (own_params sender)]).
  apply build_yields; [apply certRep_writable | apply certRep_info_wf].
Qed.
Lemma buildEcho_yields req body sender p :
  writable_body body ->
  yields (answer_with (match p with Some p => Some p | None => own_params sender end) req sender)
    (buildResponseWithEchoProtection srv now req body sender p).
Proof. intros H. by apply build_yields. Qed.

Lemma poll_body_writable items : writable_body (NewPollRepBody items).
Proof. done. Qed.
Lemma conf_body_writable : writable_body NewPKIConfBody.
Proof. done. Qed.

Hint Resolve yields_ret yields_fail buildResponse_yields buildErrorResponse_yields
  buildRevRep_yields buildCertRep_yields poll_body_writable conf_body_writable : yields.

(** Walks through a method whose ends are answers. *)
Ltac yields :=
  repeat first
    [ solve [eauto with yields]
    | match goal with
      | |- yields _ (st_bind (buildResponse _ _ _ _ _) _) =>
          eapply yields_bind_with; [apply buildResponse_yields; solve [eauto with yields] | intros ? ?]
      | |- yields _ (st_bind (buildCertRepResponseForType _ _ _ _ _ _ _ _ _ _) _) =>
          eapply yields_bind_with; [apply buildCertRep_yields; by auto | intros ? ?]
      | |- yields _ (st_bind _ _) => apply yields_bind; intros ?
      | p : (_ * _)%type |- _ => destruct p
      end
    | case_goal ].

Lemma record_issuance_yields ctx msg credID rt id resp sender respMsg :
  answer_to msg (Some sender) respMsg ->
  yields (answer_to msg (Some sender)) (record_issuance srv now ctx msg credID rt id resp sender respMsg).
Proof. intros H. unfold record_issuance. yields. Qed.
Hint Resolve record_issuance_yields : yields.

Lemma refuse_request_yields msg t id rt sender err :
  yields (answer_to msg (Some sender)) (refuse_request srv now msg t id rt sender err).
Proof. unfold refuse_request. yields. Qed.
Hint Resolve refuse_request_yields : yields.

Lemma handleCertRequest_yields ctx msg sender :
  yields (answer_to msg (Some sender)) (handleCertRequest srv now ctx msg sender).
Proof. unfold handleCertRequest. yields. Qed.
Lemma handlePollReq_yields ctx msg sender :
  yields (answer_to msg (Some sender)) (handlePollReq srv now ctx msg sender).
Proof. unfold handlePollReq. yields. Qed.
(** The parameters of the answer to [req]: its own, or, for a confirmation, those of
    the request that is confirmed. *)
Inductive echoed (t : transactionTracker) (req : PKIMessage) (sender : option SenderIdentity)
    : option MACCredentialOption -> Prop :=
| echoed_own : echoed t req sender (own_params sender)
| echoed_issued b s credID entry p :
    Body req = Some b -> Type_ b = BodyTypeCertConf -> sender = Some s -> credentialID s = Ok credID ->
    getIssued credID (TransactionID (Header req)) t = Some entry -> te_protectionParams entry = Some p ->
    echoed t req sender (Some p).

(** What a response to [req] can be, given the table. *)
Definition replied (t : transactionTracker) (req : PKIMessage) (sender : option SenderIdentity)
    (resp : PKIMessage) : Prop :=
  exists q, echoed t req sender q /\ answer_with q req sender resp.

Lemma answer_replied t req sender resp : answer_to req sender resp -> replied t req sender resp.
Proof. intros H. eexists. split; [apply echoed_own | exact H]. Qed.

Lemma handleCertConf_replied ctx msg b sender w w' resp :
  Body msg = Some b -> Type_ b = BodyTypeCertConf ->
  handleCertConf srv now ctx msg sender w = (w', Ok resp) ->
  replied (tracker w) msg (Some sender) resp.
Proof.
  intros Hb Ht. unfold handleCertConf, senderCredential. rewrite Hb.
  assert (Hr : forall si w1, buildErrorResponse srv now msg (Some sender) si w1 = (w', Ok resp) ->
    replied (tracker w) msg (Some sender) resp)
    by (intros si w1 H; by eapply answer_replied, buildErrorResponse_yields).
  destruct (snd (CertConf b)) as [conf|]; [|apply Hr]. case_goal; [apply Hr|].
  destruct (credentialID sender) as [credID|] eqn:Ec; [|apply Hr].
  unfold st_bind at 1, st_get at 1.
  destruct (getIssued credID (TransactionID (Header msg)) (tracker w)) as [entry|] eqn:Ei; [|apply Hr].
  destruct (certConf_guards srv msg sender conf entry) as [[]|e]; [|destruct e; first [done | apply Hr]].
  assert (He : forall body w1, writable_body body ->
    buildResponseWithEchoProtection srv now msg body (Some sender) (te_protectionParams entry) w1
    = (w', Ok resp) -> replied (tracker w) msg (Some sender) resp).
  { intros body w1 Hw H. eexists. split; [|by eapply buildEcho_yields].
    destruct (te_protectionParams entry) eqn:Ep; [by eapply echoed_issued | apply echoed_own]. }
  intros H. apply st_bind_ok in H as (w1 & [o|e] & _ & H); [|eapply He; [|exact H]; done].
  apply st_bind_ok in H as (w2 & u & _ & H). eapply He; [|exact H]. done.
Qed.
Lemma handleRevocation_yields ctx msg sender :
  yields (answer_to msg (Some sender)) (handleRevocation srv now ctx msg sender).
Proof.
  unfold handleRevocation. destruct (senderCredential sender); [|yields].
  apply yields_bind. intros r. apply (yields_bind_with (answer_to msg (Some sender))); [yields|].
  intros resp Hr. yields.
Qed.
Hint Resolve handleCertRequest_yields handlePollReq_yields handleRevocation_yields : yields.

Lemma dispatch_replied ctx msg b sender w w' resp :
  Body msg = Some b -> dispatch srv now ctx msg (Type_ b) sender w = (w', Ok resp) ->
  if Type_ b =? BodyTypeCertConf then replied (tracker w) msg (Some sender) resp
  else answer_to msg (Some sender) resp.
Proof.
  intros Hb. unfold dispatch. destruct (Z.eqb_spec (Type_ b) BodyTypeCertConf) as [E|E].
  - intros H. rewrite E in H. exact (handleCertConf_replied ctx msg b sender w w' resp Hb E H).
  - intros H. revert w w' resp H. change (yields (answer_to msg (Some sender))
      (if isCertRequest (Type_ b) then handleCertRequest srv now ctx msg sender
       else if Type_ b =? BodyTypePollReq then handlePollReq srv now ctx msg sender
       else if Type_ b =? BodyTypeRR then handleRevocation srv now ctx msg sender
       else if Type_ b =? BodyTypeError then buildResponse srv now msg NewPKIConfBody (Some sender)
       else buildErrorResponse srv now msg (Some sender) (reject_info FailBadRequest []))).
    yields.
Qed.

(** What [replied] says of the header. *)
Lemma protected_for_answers req body sender gi nonce q resp :
  protected_for sender q (response_message srv now req body sender gi nonce) resp ->
  answers req nonce resp.
Proof.
  assert (Hm : answers req nonce (response_message srv now req body sender gi nonce)) by done.
  assert (Hk : forall r, keeps (response_message srv now req body sender gi nonce) r -> answers req nonce r).
  { intros r (H1 & H2 & H3 & H4 & _)%keeps_header_core. constructor; by rewrite ?H1, ?H2, ?H3, ?H4. }
  intros [s creds random _ _ _ H | creds random _ _ _ H | _ _ _ -> | random r e H ->]; [| |done|].
  - apply Hk. pose proof (MACCredentials_Protect_keeps random creds (response_message srv now req body sender gi nonce)) as H'.
    by rewrite H in H'.
  - apply Hk. pose proof (SignatureCredentials_Protect_keeps random creds (response_message srv now req body sender gi nonce)) as H'.
    by rewrite H in H'.
  - apply unprotected_failure_answers, Hk.
    pose proof (protectResponse_keeps random sender q (response_message srv now req body sender gi nonce)) as H'.
    by rewrite H in H'.
Qed.

Lemma replied_answers t req sender resp :
  replied t req sender resp -> exists i, answers req (rand_Read i 16) resp.
Proof. intros (q & _ & body & gi & i & _ & _ & H). exists i. by eapply protected_for_answers. Qed.

(** ** What the runs change *)

(** Only random numbers were drawn. *)
Definition quiet (w w' : World S) : Prop := exists n, w' = drawn n w.

Lemma drawn_drawn m n w : drawn m (drawn n w) = drawn (m + n) w.
Proof. unfold drawn. simpl. f_equal. lia. Qed.
Lemma drawn_0 w : drawn 0 w = w.
Proof. by destruct w. Qed.

(** An error message. *)
Definition refusal (resp : PKIMessage) : Prop := exists si, Body resp = Some (error_body si).

Lemma buildErrorResponse_spec req sender si w :
  exists resp, buildErrorResponse srv now req sender si w = (drawn 2 w, Ok resp) /\
    answers req (rand_Read (draws w) 16) resp /\ protected_as sender (error_body si) resp.
Proof. apply buildResponseInternal_spec. Qed.

Lemma protected_as_refusal sender si resp : protected_as sender (error_body si) resp -> refusal resp.
Proof. intros [? ? ? _ H | H _ _]; eexists; exact H. Qed.

Lemma buildErrorResponse_inv req sender si w w' r :
  buildErrorResponse srv now req sender si w = (w', Ok r) -> w' = drawn 2 w /\ refusal r.
Proof.
  destruct (buildErrorResponse_spec req sender si w) as (resp & H & _ & Hp).
  intros E. rewrite H in E. injection E as <- <-. split; [done|]. by eapply protected_as_refusal.
Qed.

(** ** The table while one message is processed *)

(** The count is exact and within its limit. *)
Definition counts_ok (t : transactionTracker) : Prop :=
  count t = Z.of_nat (size (transactions t)) /\
  Z.of_nat (size (transactions t)) <= Z.max 0 (maxTransactions t).

Definition keeps_counts (t t' : transactionTracker) : Prop :=
  maxTransactions t' = maxTransactions t /\ (counts_ok t -> counts_ok t').

#[local] Instance keeps_counts_refl : Reflexive keeps_counts.
Proof. done. Qed.
#[local] Instance keeps_counts_trans : Transitive keeps_counts.
Proof. intros x y z [? ?] [? ?]. split; [congruence | auto]. Qed.

Lemma counts_update t k e e' :
  transactions t !! k = Some e -> keeps_counts t (set_transactions (<[k := e']> (transactions t)) t).
Proof.
  destruct t as [m n mx cc mc]. unfold keeps_counts, counts_ok. simpl. intros H.
  by rewrite (size_update_Z _ _ _ _ H).
Qed.

Lemma advance_counts key e : preserves keeps_counts (advance key e).
Proof.
  intros t. rewrite advance_spec. destruct (transactions t !! key) as [old|] eqn:E; [|done].
  destruct (may_advance old); [|done]. by eapply counts_update.
Qed.
Lemma setCompleted_counts c tx : preserves keeps_counts (setCompleted now c tx).
Proof.
  intros t. rewrite setCompleted_spec. destruct (transactions t !! makeKey c tx) eqn:E; [|done].
  by eapply counts_update.
Qed.
Lemma delete_counts c tx : preserves keeps_counts (delete_txn c tx).
Proof.
  intros t. rewrite delete_txn_spec. destruct (transactions t !! makeKey c tx) as [e|] eqn:E; simpl.
  - split; [done|]. unfold counts_ok. simpl. rewrite (size_delete_Z _ _ _ E). lia.
  - by rewrite delete_absent.
Qed.
Lemma start_counts c tx : preserves keeps_counts (startIfAbsent now c tx).
Proof.
  intros t. destruct (startIfAbsent_outcome now c tx t) as [? ? Hs|? ? ? Hs|? ? ? ? ? Hs|? ? Hn]; simpl.
  4: { split; [done|]. unfold counts_ok. simpl. rewrite size_insert_Z by done. lia. }
  all: destruct Hs as (Hm & Hc & Hx & _); split; [done|]; unfold counts_ok; by rewrite Hm, Hc, Hx.
Qed.

Lemma cleanup_entry_counts cutoff kv : preserves keeps_counts (cleanup_entry cutoff kv).
Proof.
  destruct kv as [key entry]. intros t. unfold cleanup_entry. case_goal; [|done].
  unfold st_bind, LoadAndDelete. destruct t as [m n mx cc mc]. simpl.
  destruct (m !! key) as [e|] eqn:Ek; simpl; (split; [done|]); unfold counts_ok; simpl.
  - rewrite (size_delete_Z _ _ _ Ek). lia.
  - by rewrite delete_id.
Qed.
Lemma cleanup_counts at_ age : preserves keeps_counts (cleanupExpired at_ age).
Proof.
  unfold cleanupExpired. preserves.
  match goal with |- preserves _ (cleanup_entries _ ?l) => induction l as [|kv kvs IH] end;
    cbn [cleanup_entries]; preserves; [apply cleanup_entry_counts | exact IH].
Qed.

(** The worlds of a run, by a relation on their trackers. *)
Definition trackers (R : transactionTracker -> transactionTracker -> Prop) (w w' : World S) : Prop :=
  R (tracker w) (tracker w').
#[local] Instance trackers_refl R `{Reflexive _ R} : Reflexive (trackers R).
Proof. intros w. unfold trackers. reflexivity. Qed.
#[local] Instance trackers_trans R `{Transitive _ R} : Transitive (trackers R).
Proof. intros x y z ? ?. unfold trackers in *. by etrans. Qed.

Lemma on_tracker_preserves {A} R (m : ST transactionTracker A) :
  preserves R m -> preserves (trackers R) (on_tracker m : ST (World S) A).
Proof.
  intros H [t n s]. unfold on_tracker, trackers. specialize (H t). by destruct (m t).
Qed.
Lemma on_ca_preserves {A} R `{Reflexive _ R} (m : ST S A) :
  preserves (trackers R) (on_ca m : ST (World S) A).
Proof. intros [t n s]. unfold on_ca, trackers. destruct (m s). simpl. reflexivity. Qed.
Lemma draw_preserves {A} R `{Reflexive _ R} (f : nat -> A) :
  preserves (trackers R) (draw f : ST (World S) A).
Proof. intros [t n s]. unfold trackers. simpl. reflexivity. Qed.
Lemma call_preserves {T A} R (m : ST T A) : preserves R m -> preserves R (call m).
Proof.
  intros H s. unfold call. specialize (H s).
  destruct (m s) as [s' [a|e]]; [done|]. by destruct e.
Qed.

Lemma build_preserves R `{Reflexive _ R} req body sender gi p :
  preserves (trackers R) (buildResponseInternal srv now req body sender gi p).
Proof.
  intros w. destruct (buildResponseInternal_spec req body sender gi p w) as (? & -> & _).
  unfold trackers. simpl. reflexivity.
Qed.

Hint Resolve on_tracker_preserves on_ca_preserves call_preserves build_preserves advance_counts
  setCompleted_counts delete_counts start_counts : counts.

Lemma record_issuance_counts ctx msg credID rt id resp sender respMsg :
  preserves (trackers keeps_counts)
    (record_issuance srv now ctx msg credID rt id resp sender respMsg).
Proof.
  unfold record_issuance, setIssued, buildErrorResponse, buildResponse.
  preserves; eauto 7 with counts typeclass_instances.
Qed.
Hint Resolve record_issuance_counts : counts.

Ltac counts := preserves; eauto 7 with counts typeclass_instances.
Ltac builds := unfold buildCertRepResponseForType, buildRevRepResponse,
  buildResponseWithEchoProtection, buildErrorResponse, buildResponse.

Lemma handleCertRequest_counts ctx msg sender :
  preserves (trackers keeps_counts) (handleCertRequest srv now ctx msg sender).
Proof. unfold handleCertRequest, refuse_request, setPending. builds. counts. Qed.
Lemma handlePollReq_counts ctx msg sender :
  preserves (trackers keeps_counts) (handlePollReq srv now ctx msg sender).
Proof. unfold handlePollReq, setPending. builds. counts. Qed.
Lemma handleCertConf_counts ctx msg sender :
  preserves (trackers keeps_counts) (handleCertConf srv now ctx msg sender).
Proof. unfold handleCertConf. builds. counts. Qed.
Lemma handleRevocation_counts ctx msg sender :
  preserves (trackers keeps_counts) (handleRevocation srv now ctx msg sender).
Proof. unfold handleRevocation. builds. counts. Qed.
Hint Resolve handleCertRequest_counts handlePollReq_counts handleCertConf_counts
  handleRevocation_counts : counts.

Lemma validateHeader_counts msg sender :
  preserves (trackers keeps_counts) (validateHeader srv now msg sender).
Proof.
  unfold validateHeader, make16.
  assert (Ha : forall m f, preserves (trackers keeps_counts) (admit_transaction srv now m f sender))
    by (intros; unfold admit_transaction; counts).
  preserves; eauto using draw_preserves with counts typeclass_instances.
Qed.

Lemma process_verified_counts ctx msg t fwd sender :
  preserves (trackers keeps_counts) (process_verified srv now ctx msg t fwd sender).
Proof.
  unfold process_verified, dispatch. builds.
  pose proof validateHeader_counts. counts.
Qed.

Lemma process_counts fuel ctx msg fwd :
  preserves (trackers keeps_counts) (process srv now fuel ctx msg fwd).
Proof.
  revert ctx msg fwd. induction fuel as [|fuel IH]; intros ctx msg fwd; [intros w; simpl; reflexivity|].
  cbn [process]. builds. pose proof process_verified_counts. counts.
Qed.

End Facts.
