(* ===== verification/ServerRuns.v ===== *)
(** * The runs of the server

    Inversion of [process] and of each of its steps: what must have held for a run
    to come that far, and what it changed. *)
From S2P Require Import Prelude Failure Errors Asn1 Types StatusInfo Enrollment Crmf X509 Message.
From S2P Require Import RevocationMsg Monad Algorithms Protect Verify Transactions.
From S2P Require Import TransactionsFacts Handler ServerRequest CAHandler Policy Server ServerFacts.

Section Runs.
Context {CB : Cryptobyte} {GN : GoNames} {GX : GoX509} {GA : GoASN1} {GC : GoCrypto}
  {GP : GoPBMAC1} {GR : GoRandom}.
Context {S : Type} (srv : Server S) (now : Time).

(** The server refuses, and neither its table nor the CA sees anything. *)
Definition refused (w w' : World S) (resp : PKIMessage) : Prop := quiet w w' /\ refusal resp.

Lemma buildErrorResponse_refused req sender si w w' r :
  buildErrorResponse srv now req sender si w = (w', Ok r) -> refused w w' r.
Proof. intros H. apply buildErrorResponse_inv in H as [-> H]. split; [by exists 2%nat | done]. Qed.

(** A run that passed the checks of the message on its own. *)
Record verified (s : S) (msg : PKIMessage) (b : PKIBody) (sender : SenderIdentity) : Prop := {
  ver_signer : signerErr (cfg srv) = None;
  ver_version : check_version msg = None;
  ver_recipient : verifyRecipient srv msg = Ok tt;
  ver_protection : verifyProtection srv now s msg = Ok sender;
  ver_body : Body msg = Some b;
  ver_profile : check_profile srv msg (Type_ b) sender = Ok tt
}.

Lemma set_PVNO_refusal v m : refusal m -> refusal (set_Header (set_PVNO v (Header m)) m).
Proof. intros [si H]. exists si. by destruct m as [[] ? ? ? ? ?]. Qed.

Lemma process_cases fuel ctx msg fwd w w' resp :
  process srv now (Datatypes.S fuel) ctx msg fwd w = (w', Ok resp) ->
  refused w w' resp \/
  exists b sender, verified (ca_state w) msg b sender /\
    ((Type_ b <> BodyTypeNested /\
      process_verified srv now ctx msg (Type_ b) fwd sender w = (w', Ok resp)) \/
     (Type_ b = BodyTypeNested /\ exists req, check_nested srv msg b = Ok req /\
      process srv now fuel ctx req (Some (mkForwarding msg sender)) w = (w', Ok resp))).
Proof.
  cbn [process]. destruct (signerErr (cfg srv)) eqn:E1.
  { intros H. left. by eapply buildErrorResponse_refused. }
  destruct (check_version msg) as [v|] eqn:E2.
  { intros H. left. apply st_bind_ok in H as (w1 & r & H & Hr). injection Hr as <- <-.
    apply buildErrorResponse_refused in H as [Hq Hr]. split; [done|]. by apply set_PVNO_refusal. }
  destruct (verifyRecipient srv msg) as [[]|e] eqn:E3.
  2: { intros H. left. by eapply buildErrorResponse_refused. }
  unfold st_bind at 1, st_get at 1.
  destruct (verifyProtection srv now (ca_state w) msg) as [sender|e] eqn:E4.
  2: { intros H. left. destruct e; try discriminate H; by eapply buildErrorResponse_refused. }
  destruct (Body msg) as [b|] eqn:E5; [|discriminate].
  destruct (check_profile srv msg (Type_ b) sender) as [[]|e] eqn:E6.
  2: { intros H. left. by eapply buildErrorResponse_refused. }
  destruct (Z.eqb_spec (Type_ b) BodyTypeNested) as [Et|Et].
  - destruct (check_nested srv msg b) as [req|e] eqn:E7.
    + intros H. right. exists b, sender. split; [done|]. right. split; [done|]. by exists req.
    + intros H. left. destruct e; try discriminate H; by eapply buildErrorResponse_refused.
  - intros H. right. exists b, sender. split; [done|]. by left.
Qed.

(** ** The header *)

Lemma call_returns {T A} (m : ST T A) s s' r :
  call m s = (s', Ok r) -> m s = (s', r) /\ r <> Err GoPanic.
Proof. unfold call. destruct (m s) as [s1 [a|e]]; [|destruct e]; intros [= <- <-]; done. Qed.

Lemma on_tracker_run {A} (m : ST transactionTracker A) (w : World S) :
  on_tracker m w = (mkWorld (fst (m (tracker w))) (draws w) (ca_state w), snd (m (tracker w))).
Proof. destruct w. unfold on_tracker. simpl. by destruct (m _). Qed.
Lemma on_ca_run {A} (m : ST S A) (w : World S) :
  on_ca m w = (mkWorld (tracker w) (draws w) (fst (m (ca_state w))), snd (m (ca_state w))).
Proof. destruct w. unfold on_ca. simpl. by destruct (m _). Qed.

Lemma on_ca_call {A} (m : ST S A) (w w1 : World S) r :
  on_ca (call m) (w : World S) = (w1, Ok r) ->
  w1 = mkWorld (tracker w) (draws w) (ca_state w1) /\ m (ca_state w) = (ca_state w1, r) /\
  r <> Err GoPanic.
Proof.
  rewrite on_ca_run. intros [= <- H]. simpl. split; [done|].
  destruct (call m (ca_state w)) as [s1 r1] eqn:E. simpl in *. subst r1. by apply call_returns in E.
Qed.

Lemma on_tracker_call {A} (m : ST transactionTracker A) (w w1 : World S) r :
  on_tracker (call m) (w : World S) = (w1, Ok r) ->
  w1 = mkWorld (tracker w1) (draws w) (ca_state w) /\ m (tracker w) = (tracker w1, r).
Proof.
  rewrite on_tracker_run. intros [= <- H]. simpl. split; [done|].
  destruct (call m (tracker w)) as [s1 r1] eqn:E. simpl in *. subst r1. by apply call_returns in E as [? _].
Qed.

(** [ms]: the message with the transactionID the server works with. *)
Definition same_but_id (msg ms : PKIMessage) : Prop :=
  ms = msg \/
  (TransactionID (Header msg) = [] /\
   exists i, ms = set_Header (set_TransactionID (rand_Read i 16) (Header msg)) msg).

Lemma admit_transaction_ok msg isFirst sender w w' :
  admit_transaction srv now msg isFirst sender w = (w', Ok tt) ->
  check_header srv now msg isFirst = Ok tt /\
  exists credID, credentialID sender = Ok credID /\
    w' = mkWorld (tracker w') (draws w) (ca_state w) /\
    if isFirst
    then startIfAbsent now credID (TransactionID (Header msg)) (tracker w) = (tracker w', Ok false)
    else tracker w' = tracker w.
Proof.
  unfold admit_transaction, senderCredential. intros H. apply st_bind_ok in H as (w1 & [] & H1 & H).
  injection H1 as <- H1. split; [done|].
  destruct (credentialID sender) as [credID|]; [|discriminate]. exists credID. split; [done|].
  destruct isFirst; simpl in H.
  - apply st_bind_ok in H as (w2 & r & H2 & H). apply on_tracker_call in H2 as [Hw Hs].
    destruct r as [[|]|e]; try discriminate H. apply st_ret_ok in H as [-> _]. done.
  - apply st_ret_ok in H as [-> _]. by destruct w.
Qed.

Lemma validateHeader_ok msg sender b w w' ms :
  Body msg = Some b ->
  validateHeader srv now msg sender w = (w', Ok (ms, None)) ->
  same_but_id msg ms /\ exists n, admit_transaction srv now ms (isInitialRequest (Type_ b)) sender
    (drawn n w) = (w', Ok tt).
Proof.
  intros Hb. unfold validateHeader, body_type. rewrite Hb. unfold st_bind at 1, st_lift at 1.
  destruct (nonempty (TransactionID (Header msg))) eqn:Ht; simpl.
  - intros H. apply st_bind_ok in H as (w1 & m1 & H1 & H). injection H1 as <- <-.
    apply st_bind_ok in H as (w2 & r & H2 & H). apply call_returns in H2 as [H2 _].
    injection H as <- <- Hr. destruct r as [[]|e]; [|discriminate Hr].
    split; [by left|]. exists 0%nat. by rewrite drawn_0.
  - destruct (strictProfile (cfg srv) || negb (isInitialRequest (Type_ b))); [discriminate|].
    intros H. apply st_bind_ok in H as (w1 & m1 & H1 & H).
    apply st_bind_ok in H1 as (w0 & id & H0 & H1). destruct w as [t n s]. injection H0 as <- <-.
    injection H1 as <- <-. apply st_bind_ok in H as (w2 & r & H2 & H).
    apply call_returns in H2 as [H2 _]. injection H as <- <- Hr. destruct r as [[]|e]; [|discriminate Hr].
    split; [|by exists 1%nat]. right. split; [by apply nonempty_false | by exists n].
Qed.

(** A rejected header: the table is unchanged, limits aside. *)
Lemma admit_transaction_err msg isFirst sender w w' e :
  admit_transaction srv now msg isFirst sender w = (w', Err e) ->
  ca_state w' = ca_state w /\ same_counts (tracker w) (tracker w').
Proof.
  unfold admit_transaction, senderCredential, st_bind, st_lift.
  assert (Hs : same_counts (tracker w) (tracker w)) by done.
  destruct (check_header srv now msg isFirst); [|intros [= <- <-]; done].
  destruct (credentialID sender) as [credID|]; [|intros [= <- <-]; done].
  destruct isFirst; simpl; [|discriminate].
  destruct w as [t n s]. unfold on_tracker, call. simpl in *.
  destruct (startIfAbsent_outcome now credID (TransactionID (Header msg)) t); simpl;
    intros [= <- <-]; done.
Qed.

Lemma validateHeader_err msg sender w w' ms e :
  validateHeader srv now msg sender w = (w', Ok (ms, Some e)) ->
  ca_state w' = ca_state w /\ same_counts (tracker w) (tracker w') /\ same_but_id msg ms.
Proof.
  unfold validateHeader. intros H. apply st_bind_ok in H as (w0 & t & H0 & H). injection H0 as <- H0.
  assert (Hs : same_counts (tracker w) (tracker w)) by done.
  destruct (negb (nonempty (TransactionID (Header msg)))) eqn:Ht; simpl in H.
  - case_in H; [injection H as <- <- _; split; [done|split; [done|by left]]|].
    apply st_bind_ok in H as (w1 & m1 & H1 & H).
    apply st_bind_ok in H1 as (w2 & id & H2 & H1). destruct w as [tr n s]. injection H2 as <- <-.
    injection H1 as <- <-. apply st_bind_ok in H as (w3 & r & H3 & H).
    apply call_returns in H3 as [H3 _]. injection H as <- <- Hr. destruct r as [|e']; [discriminate|].
    apply admit_transaction_err in H3 as [? ?]. split; [done|]. split; [done|].
    right. split; [apply nonempty_false; by apply negb_true_iff | by exists n].
  - apply st_bind_ok in H as (w1 & m1 & H1 & H). injection H1 as <- <-.
    apply st_bind_ok in H as (w3 & r & H3 & H).
    apply call_returns in H3 as [H3 _]. injection H as <- <- Hr. destruct r as [|e']; [discriminate|].
    apply admit_transaction_err in H3 as [? ?]. split; [done|]. split; [done|by left].
Qed.

(** ** Confirmations *)

Lemma protected_as_body sender body resp :
  protected_as srv sender body resp ->
  Body resp = Some body \/ (Body resp = Some protection_unavailable /\
    ProtectionAlg (Header resp) = None /\ Protection resp = []).
Proof. intros [? ? ? _ H|]; auto. Qed.

(** The entry a certConf confirms, and what was checked before the handler saw it. *)
Record confirmable (w : World S) (msg : PKIMessage) (sender : SenderIdentity) (credID : bytes)
    (conf : CertConfirmContent) (entry : transactionEntry) : Prop := {
  cf_body : exists b, Body msg = Some b /\ snd (CertConf b) = Ok conf;
  cf_consistent : existsb contradictory conf = false;
  cf_credential : credentialID sender = Ok credID;
  cf_entry : getIssued credID (TransactionID (Header msg)) (tracker w) = Some entry;
  cf_guards : certConf_guards srv msg sender conf entry = Ok tt
}.

Definition issued_context (ctx : context) (entry : transactionEntry) : context :=
  contextWithIssued ctx (mkIssuedInfo (cert entry) (te_issueRef entry)).

Lemma handleCertConf_cases ctx msg sender w w' resp :
  handleCertConf srv now ctx msg sender w = (w', Ok resp) ->
  refused w w' resp \/
  exists credID conf entry r,
    confirmable w msg sender credID conf entry /\
    handler srv (issued_context ctx entry) msg sender (ca_state w) = (ca_state w', r) /\
    match r with
    | Err e => tracker w' = tracker w /\
        protected_as srv (Some sender) (error_body (errorToStatusInfo (Some e))) resp
    | Ok _ => tracker w' = fst (delete_txn credID (TransactionID (Header msg)) (tracker w)) /\
        protected_as srv (Some sender) NewPKIConfBody resp
    end.
Proof.
  unfold handleCertConf, senderCredential. destruct (Body msg) as [b|] eqn:Eb; [|discriminate].
  destruct (snd (CertConf b)) as [conf|] eqn:Econf;
    [|intros H; left; by eapply buildErrorResponse_refused].
  destruct (existsb contradictory conf) eqn:Ec;
    [intros H; left; by eapply buildErrorResponse_refused|].
  destruct (credentialID sender) as [credID|] eqn:Ecred;
    [|intros H; left; by eapply buildErrorResponse_refused].
  unfold st_bind at 1, st_get at 1.
  destruct (getIssued credID (TransactionID (Header msg)) (tracker w)) as [entry|] eqn:Ei;
    [|intros H; left; by eapply buildErrorResponse_refused].
  destruct (certConf_guards srv msg sender conf entry) as [[]|e] eqn:Eg.
  2: { destruct e; try discriminate; intros H; left; by eapply buildErrorResponse_refused. }
  intros H. apply st_bind_ok in H as (w1 & r & H1 & H). right. exists credID, conf, entry, r.
  apply on_ca_call in H1 as (Hw1 & Hh & _).
  split; [by constructor; eauto|].
  destruct r as [resp0|e].
  - apply st_bind_ok in H as (w2 & u & H2 & H). rewrite on_tracker_run in H2. injection H2 as <- _.
    match type of H with ?f ?x = _ =>
      destruct (buildResponseInternal_spec srv now msg NewPKIConfBody (Some sender) []
        (te_protectionParams entry) x) as (resp1 & Hr & _ & Hp) end.
    unfold buildResponseWithEchoProtection in H. rewrite Hr in H. injection H as <- <-. simpl.
    rewrite Hw1 in *. simpl in *. done.
  - match type of H with ?f ?x = _ =>
      destruct (buildResponseInternal_spec srv now msg (error_body (errorToStatusInfo (Some e)))
        (Some sender) [] (te_protectionParams entry) x) as (resp1 & Hr & _ & Hp) end.
    unfold buildResponseWithEchoProtection in H. rewrite Hr in H. injection H as <- <-. simpl.
    rewrite Hw1 in *. simpl in *. done.
Qed.

(** What the guards of a certConf say of the message. *)
Record confirms (msg : PKIMessage) (sender : SenderIdentity) (conf : CertConfirmContent)
    (entry : transactionEntry) : Prop := {
  co_nonce : RecipNonce (Header msg) = issuedSenderNonce entry /\ RecipNonce (Header msg) <> [];
  co_hashes : forall cs, cs ∈ conf -> exists c, cert entry = Some c /\
    CertificateHash cs c = Ok (CertHash cs) /\ certReqIDMatches entry (cs_CertReqID cs) = true /\
    certStatusRejects cs = existsb certStatusRejects conf;
  co_single : strictProfile (cfg srv) = true -> (length conf <= 1)%nat;
  co_signer : forall own issued, si_Certificate sender = Some own -> cert entry = Some issued ->
    publicKeysEqual (certificatePublicKey own) (certificatePublicKey issued) = false
}.

Lemma check_each_ok entry first l :
  check_each entry first l = Ok tt ->
  forall cs, cs ∈ l -> checkCertStatus entry first cs = Ok tt.
Proof.
  induction l as [|cs l IH]; intros H cs' Hin; [by apply elem_of_nil in Hin|].
  cbn [check_each] in H. apply res_bind_ok in H as ([] & H1 & H).
  apply elem_of_cons in Hin as [->|Hin]; [done | by apply IH].
Qed.

Lemma checkCertStatus_ok entry first cs :
  checkCertStatus entry first cs = Ok tt ->
  exists c, cert entry = Some c /\ CertificateHash cs c = Ok (CertHash cs) /\
    certReqIDMatches entry (cs_CertReqID cs) = true /\
    certStatusRejects cs = certStatusRejects first.
Proof.
  unfold checkCertStatus. destruct (cert entry) as [c|]; [|done].
  destruct (CertificateHash cs c) as [h|] eqn:Eh; [|done].
  repeat (case_goal; [done|]). intros _. exists c. split; [done|].
  apply negb_false_iff, bytes_eqb_eq in E as ->. apply negb_false_iff in E0.
  apply negb_false_iff, Bool.eqb_prop in E1. done.
Qed.

Lemma existsb_all_equal {A} (f : A -> bool) (x : A) l v :
  x ∈ l -> (forall y, y ∈ l -> f y = v) -> existsb f l = v.
Proof.
  intros Hx H. destruct v.
  - apply existsb_exists. exists x. split; [by apply list_elem_of_In | by apply H].
  - apply not_true_is_false. intros Hex. apply existsb_exists in Hex as (y & Hy & Ht).
    apply list_elem_of_In in Hy. rewrite (H y Hy) in Ht. done.
Qed.

Lemma certConf_guards_ok msg sender conf entry :
  certConf_guards srv msg sender conf entry = Ok tt -> confirms msg sender conf entry.
Proof.
  unfold certConf_guards. intros H. apply res_bind_ok in H as ([] & Hs & H).
  case_in H; [done|]. apply negb_false_iff, nonempty_true in E.
  case_in H; [done|]. apply negb_false_iff, bytes_eqb_eq in E0.
  case_in H; [done|]. unfold checkCertStatuses in Hs. case_in Hs; [done|]. constructor.
  - done.
  - intros cs Hcs. destruct conf as [|first rest]; [by apply elem_of_nil in Hcs|].
    pose proof (check_each_ok _ _ _ Hs) as Hall.
    destruct (checkCertStatus_ok _ _ _ (Hall cs Hcs)) as (c & Hc & Hh & Hid & Hr). exists c.
    split; [done|]. split; [done|]. split; [done|]. rewrite Hr. symmetry.
    apply (existsb_all_equal _ first); [by left|]. intros y Hy.
    by destruct (checkCertStatus_ok _ _ _ (Hall y Hy)) as (? & _ & _ & _ & ?).
  - intros Hstrict. rewrite Hstrict in E2. simpl in E2. apply Z.ltb_ge in E2. lia.
  - intros own issued Ho Hi. rewrite Ho, Hi in H. by destruct (publicKeysEqual _ _).
Qed.

(** ** Certificate requests *)

(** The issued entry as the tracker records it. *)
Definition issued_for (credID : bytes) (rt : RequestType) (id : Z) (crt : Certificate)
    (resp : Response) (sender : SenderIdentity) (msg respMsg : PKIMessage) : transactionEntry :=
  issued_entry now (makeCredentialKey credID) rt id crt (IssueRef resp)
    (SenderNonce (Header respMsg)) (SenderNonce (Header msg)) (si_protectionParams sender)
    (ProtectionAlg (Header msg)).

(** The table once [resp] was recorded for the transaction of [msg]. *)
Definition recorded (msg : PKIMessage) (credID : bytes) (rt : RequestType) (id : Z)
    (resp : Response) (sender : SenderIdentity) (respMsg : PKIMessage)
    (t t' : transactionTracker) : Prop :=
  let key := makeKey credID (TransactionID (Header msg)) in
  match resp_Certificate resp with
  | None => t' = t
  | Some crt =>
      if grants_implicit srv msg
      then t' = fst (setCompleted now credID (TransactionID (Header msg)) t)
      else exists e, transactions t !! key = Some e /\ may_advance e = true /\
             t' = set_transactions (<[key := issued_for credID rt id crt resp sender msg respMsg]>
                                      (transactions t)) t
  end.

(** What recording [resp] does to the CA: it is told of an implicit confirmation. *)
Definition implicit_confirmed (ctx : context) (msg : PKIMessage) (r : result (option Response))
    (s s' : S) : Prop :=
  s' = s \/
  (grants_implicit srv msg = true /\
   exists resp crt confirm, r = Ok (Some resp) /\ resp_Certificate resp = Some crt /\
     confirmer (cfg srv) = Some confirm /\
     fst (confirm ctx crt ConfirmImplicit (IssueRef resp) s) = s').

Lemma record_issuance_cases ctx msg credID rt id resp sender respMsg w w' r :
  record_issuance srv now ctx msg credID rt id resp sender respMsg w = (w', Ok r) ->
  ((r = respMsg /\ recorded msg credID rt id resp sender respMsg (tracker w) (tracker w')) \/
   (refused w w' r)) /\ implicit_confirmed ctx msg (Ok (Some resp)) (ca_state w) (ca_state w').
Proof.
  unfold record_issuance, recorded. destruct (resp_Certificate resp) as [crt|] eqn:Ecrt.
  2: { intros [= <- <-]. by split; left. }
  destruct (grants_implicit srv msg) eqn:Eg.
  - intros H. apply st_bind_ok in H as (w1 & u & H1 & H). rewrite on_tracker_run in H1.
    injection H1 as <- _. destruct (confirmer (cfg srv)) as [confirm|] eqn:Ef.
    + apply st_bind_ok in H as (w2 & u2 & H2 & H). apply on_ca_call in H2 as (Hw & Hc & _).
      injection H as <- <-. rewrite Hw. split; [by left|]. right. split; [done|].
      exists resp, crt, confirm. split; [done|]. split; [done|]. split; [done|]. simpl in *. by rewrite Hc.
    + injection H as <- <-. by split; left.
  - intros H. apply st_bind_ok in H as (w1 & u & H1 & H). rewrite on_tracker_run in H1.
    unfold setIssued in H1. rewrite advance_spec in H1.
    destruct (transactions (tracker w) !! makeKey credID (TransactionID (Header msg))) as [e|] eqn:E;
      [destruct (may_advance e) eqn:Ea|]; simpl in H1; injection H1 as <- <-.
    + injection H as <- <-. split; [left|by left]. split; [done|]. by exists e.
    + destruct w. apply buildErrorResponse_refused in H as [[n ->] Hr].
      split; [right|by left]. split; [by exists n | done].
    + destruct w. apply buildErrorResponse_refused in H as [[n ->] Hr].
      split; [right|by left]. split; [by exists n | done].
Qed.

(** The certificate of a response message, and the status with it. *)
Definition carries (rt : RequestType) (id : Z) (si : PKIStatusInfo) (crt : option Certificate)
    (cas : list Certificate) (sender : SenderIdentity) (resp : PKIMessage) : Prop :=
  protected_as srv (Some sender) (certRep_body id si crt cas rt) resp.

Definition accepted_info : PKIStatusInfo := mkPKIStatusInfo StatusAccepted [] 0.
Definition waiting_info : PKIStatusInfo := mkPKIStatusInfo StatusWaiting [] 0.

Lemma buildCertRep_spec req id si crt cas sender rt p w :
  exists resp,
    buildCertRepResponseForType srv now req id si crt cas (Some sender) rt p w
    = (drawn 2 w, Ok resp) /\
    answers req (rand_Read (draws w) 16) resp /\ carries rt id si crt cas sender resp.
Proof. apply buildResponseInternal_spec. Qed.

(** What a certificate request that reached the handler led to. *)
Inductive request_outcome (msg : PKIMessage) (t : BodyType) (sender : SenderIdentity)
    (credID : bytes) (id : Z) (w w' : World S) (resp : PKIMessage) : result (option Response) -> Prop :=
| ro_error e :
    tracker w' = tracker w ->
    (protected_as srv (Some sender) (error_body (errorToStatusInfo (Some e))) resp \/
     carries (requestTypeFromBody t) id (errorToStatusInfo (Some e)) None [] sender resp) ->
    request_outcome msg t sender credID id w w' resp (Err e)
| ro_waiting r wr :
    Waiting r = Some wr ->
    carries (requestTypeFromBody t) id waiting_info None [] sender resp ->
    tracker w' = fst (setPending now credID (TransactionID (Header msg)) (requestTypeFromBody t)
      (PollRef wr) (SenderNonce (Header resp)) (wr_CheckAfter wr) 0 (tracker w)) ->
    request_outcome msg t sender credID id w w' resp (Ok (Some r))
| ro_issued r :
    Waiting r = None ->
    carries (requestTypeFromBody t) id accepted_info (resp_Certificate r) (CACerts r) sender resp ->
    recorded msg credID (requestTypeFromBody t) id r sender resp (tracker w) (tracker w') ->
    request_outcome msg t sender credID id w w' resp (Ok (Some r))
| ro_not_recorded r :
    refusal resp -> tracker w' = tracker w ->
    request_outcome msg t sender credID id w w' resp (Ok (Some r)).

Lemma setPending_run c tx rt ref sn ca lp (w : World S) :
  on_tracker (setPending now c tx rt ref sn ca lp) w =
  (mkWorld (fst (setPending now c tx rt ref sn ca lp (tracker w))) (draws w) (ca_state w),
   Ok match transactions (tracker w) !! makeKey c tx with
      | Some e => may_advance e
      | None => false
      end).
Proof.
  rewrite on_tracker_run. unfold setPending. rewrite advance_spec.
  destruct (transactions (tracker w) !! makeKey c tx) as [e|]; [|done]. by destruct (may_advance e).
Qed.

Lemma setPending_failed c tx rt ref sn ca lp t :
  match transactions t !! makeKey c tx with Some e => may_advance e | None => false end = false ->
  fst (setPending now c tx rt ref sn ca lp t) = t.
Proof.
  unfold setPending. rewrite advance_spec. destruct (transactions t !! makeKey c tx) as [e|]; [|done].
  by intros ->.
Qed.

Lemma handleCertRequest_cases ctx msg sender w w' resp :
  handleCertRequest srv now ctx msg sender w = (w', Ok resp) ->
  refused w w' resp \/
  exists b credID id r s1,
    Body msg = Some b /\ credentialID sender = Ok credID /\
    getPending credID (TransactionID (Header msg)) (tracker w) = None /\
    certReqIDFromRequest msg = Ok id /\
    handler srv ctx msg sender (ca_state w) = (s1, r) /\
    implicit_confirmed ctx msg r s1 (ca_state w') /\
    request_outcome msg (Type_ b) sender credID id w w' resp r.
Proof.
  unfold handleCertRequest, senderCredential.
  destruct (credentialID sender) as [credID|] eqn:Ecred;
    [|intros H; left; by eapply buildErrorResponse_refused].
  unfold st_bind at 1, st_get at 1.
  destruct (getPending credID (TransactionID (Header msg)) (tracker w)) as [e|] eqn:Ep;
    [intros H; left; by eapply buildErrorResponse_refused|].
  intros H. apply st_bind_ok in H as (w0 & id & H0 & H). injection H0 as <- Hid.
  apply st_bind_ok in H as (w1 & t & H1 & H). injection H1 as <- Ht. unfold body_type in Ht.
  destruct (Body msg) as [b|] eqn:Eb; [|discriminate]. injection Ht as <-.
  apply st_bind_ok in H as (w2 & r & H2 & H). apply on_ca_call in H2 as (Hw2 & Hh & _).
  right. exists b, credID, id, r, (ca_state w2). split; [done|]. split; [done|]. split; [done|].
  split; [done|]. split; [exact Hh|].
  destruct r as [[r|]|e]; [| discriminate H |].
  - destruct (Waiting r) as [wr|] eqn:Ew.
    + apply st_bind_ok in H as (w3 & m & H3 & H).
      destruct (buildCertRep_spec msg id waiting_info None [] sender (requestTypeFromBody (Type_ b))
        None w2) as (m' & Hb & _ & Hc). unfold waiting_info in Hb. rewrite Hb in H3. injection H3 as <- <-.
      apply st_bind_ok in H as (w4 & ok & H4 & H). rewrite setPending_run in H4. injection H4 as <- <-.
      simpl in H. rewrite Hw2 in H. simpl in H.
      destruct (match transactions (tracker w) !! _ with Some e => may_advance e | None => false end)
        eqn:Ea.
      * injection H as <- <-. split; [by left|]. by eapply ro_waiting.
      * apply buildErrorResponse_refused in H as [[n ->] Hr]. split; [by left|].
        apply ro_not_recorded; [done|]. simpl. by apply setPending_failed.
    + apply st_bind_ok in H as (w3 & m & H3 & H).
      destruct (buildCertRep_spec msg id accepted_info (resp_Certificate r) (CACerts r) sender
        (requestTypeFromBody (Type_ b)) (si_protectionParams sender) w2) as (m' & Hb & _ & Hc).
      unfold accepted_info in Hb. rewrite Hb in H3. injection H3 as <- <-.
      apply record_issuance_cases in H as [H Himp]. split; [exact Himp|].
      destruct H as [[-> Hrec]|[[n ->] Hr]].
      * eapply ro_issued; [done|exact Hc|]. rewrite Hw2 in Hrec. exact Hrec.
      * apply ro_not_recorded; [done|]. simpl. by rewrite Hw2.
  - unfold refuse_request in H. case_in H.
    + match type of H with ?f ?x = _ =>
        destruct (buildErrorResponse_spec srv now msg (Some sender) (errorToStatusInfo (Some e)) x)
          as (m & Hb & _ & Hp) end.
      rewrite Hb in H. injection H as <- <-. split; [by left|].
      apply ro_error; [simpl; by rewrite Hw2 | by left].
    + destruct (buildCertRep_spec msg id (errorToStatusInfo (Some e)) None [] sender
        (requestTypeFromBody (Type_ b)) None w2) as (m' & Hb & _ & Hc).
      rewrite Hb in H. injection H as <- <-. split; [by left|].
      apply ro_error; [simpl; by rewrite Hw2 | by right].
Qed.

(** ** Polls *)

(** The pending entry a poll resumes, and what was checked before the handler saw it. *)
Record resumable (w : World S) (msg : PKIMessage) (sender : SenderIdentity) (credID : bytes)
    (entry : transactionEntry) : Prop := {
  rs_credential : credentialID sender = Ok credID;
  rs_entry : getPending credID (TransactionID (Header msg)) (tracker w) = Some entry;
  rs_nonce : RecipNonce (Header msg) = te_senderNonce entry /\ RecipNonce (Header msg) <> [];
  rs_time : lastPollTime entry = 0 \/ checkAfter entry <= now - lastPollTime entry
}.

(** The answer to a poll that is still waiting. *)
Definition poll_item (id : Z) (wr : WaitingResponse) : PollRepItem :=
  mkPollRepItem id (Z.max (Z.quot (wr_CheckAfter wr) Second) 1)
    (if bool_decide (wr_Reason wr = "") then [] else [wr_Reason wr]).

Inductive poll_outcome (msg : PKIMessage) (sender : SenderIdentity) (credID : bytes) (id : Z)
    (entry : transactionEntry) (w w' : World S) (resp : PKIMessage) : result (option Response) -> Prop :=
| po_error e :
    tracker w' = tracker w ->
    protected_as srv (Some sender) (error_body (errorToStatusInfo (Some e))) resp ->
    poll_outcome msg sender credID id entry w w' resp (Err e)
| po_waiting r wr :
    Waiting r = Some wr ->
    protected_as srv (Some sender) (NewPollRepBody [poll_item id wr]) resp ->
    tracker w' = fst (setPending now credID (TransactionID (Header msg)) (reqType entry)
      (PollRef wr) (SenderNonce (Header resp)) (wr_CheckAfter wr) now (tracker w)) ->
    poll_outcome msg sender credID id entry w w' resp (Ok (Some r))
| po_issued r :
    Waiting r = None ->
    carries (reqType entry) id accepted_info (resp_Certificate r) (CACerts r) sender resp ->
    recorded msg credID (reqType entry) id r sender resp (tracker w) (tracker w') ->
    poll_outcome msg sender credID id entry w w' resp (Ok (Some r))
| po_not_recorded r :
    refusal resp -> tracker w' = tracker w ->
    poll_outcome msg sender credID id entry w w' resp (Ok (Some r)).

Lemma handlePollReq_cases ctx msg sender w w' resp :
  handlePollReq srv now ctx msg sender w = (w', Ok resp) ->
  refused w w' resp \/
  exists b ids credID entry r s1,
    Body msg = Some b /\ snd (PollReq b) = Ok ids /\ resumable w msg sender credID entry /\
    handler srv (contextWithPollRef ctx (pollRef entry)) msg sender (ca_state w) = (s1, r) /\
    implicit_confirmed (contextWithPollRef ctx (pollRef entry)) msg r s1 (ca_state w') /\
    poll_outcome msg sender credID (default 0 (head ids)) entry w w' resp r.
Proof.
  unfold handlePollReq, senderCredential. destruct (Body msg) as [b|] eqn:Eb; [|discriminate].
  destruct (snd (PollReq b)) as [ids|] eqn:Eids;
    [|intros H; left; by eapply buildErrorResponse_refused].
  destruct (credentialID sender) as [credID|] eqn:Ecred;
    [|intros H; left; by eapply buildErrorResponse_refused].
  unfold st_bind at 1, st_get at 1.
  destruct (getPending credID (TransactionID (Header msg)) (tracker w)) as [entry|] eqn:Ei;
    [|intros H; left; by eapply buildErrorResponse_refused].
  destruct (nonempty (RecipNonce (Header msg))) eqn:En; cbn [negb];
    [|intros H; left; by eapply buildErrorResponse_refused].
  destruct (bytes_eqb (RecipNonce (Header msg)) (te_senderNonce entry)) eqn:Eq; cbn [negb];
    [|intros H; left; by eapply buildErrorResponse_refused].
  destruct (negb (lastPollTime entry =? 0) && (now - lastPollTime entry <? checkAfter entry)) eqn:Et;
    [intros H; left; by eapply buildErrorResponse_refused|].
  intros H. apply st_bind_ok in H as (w2 & r & H2 & H). apply on_ca_call in H2 as (Hw2 & Hh & _).
  right. exists b, ids, credID, entry, r, (ca_state w2). split; [done|]. split; [done|]. split.
  { constructor; [done..| |].
    - split; [by apply bytes_eqb_eq | by apply nonempty_true].
    - apply andb_false_iff in Et as [Et|Et]; [left|right; by apply Z.ltb_ge in Et].
      apply negb_false_iff in Et. by apply Z.eqb_eq. }
  split; [exact Hh|].
  destruct r as [[r|]|e]; [| discriminate H |].
  - destruct (Waiting r) as [wr|] eqn:Ew.
    + apply st_bind_ok in H as (w3 & m & H3 & H).
      match type of H3 with buildResponse _ _ _ ?body _ _ = _ =>
        destruct (buildResponseInternal_spec srv now msg body (Some sender) [] None w2)
          as (m' & Hb & _ & Hc) end.
      unfold buildResponse in H3. rewrite Hb in H3. injection H3 as <- <-.
      apply st_bind_ok in H as (w4 & ok & H4 & H). rewrite setPending_run in H4. injection H4 as <- <-.
      simpl in H. rewrite Hw2 in H. simpl in H.
      destruct (match transactions (tracker w) !! _ with Some e => may_advance e | None => false end)
        eqn:Ea.
      * injection H as <- <-. split; [by left|]. by eapply po_waiting.
      * apply buildErrorResponse_refused in H as [[n ->] Hr]. split; [by left|].
        apply po_not_recorded; [done|]. simpl. by apply setPending_failed.
    + apply st_bind_ok in H as (w3 & m & H3 & H).
      destruct (buildCertRep_spec msg (default 0 (head ids)) accepted_info (resp_Certificate r)
        (CACerts r) sender (reqType entry) None w2) as (m' & Hb & _ & Hc).
      unfold accepted_info in Hb. rewrite Hb in H3. injection H3 as <- <-.
      apply record_issuance_cases in H as [H Himp]. split; [exact Himp|].
      destruct H as [[-> Hrec]|[[n ->] Hr]].
      * eapply po_issued; [done|exact Hc|]. rewrite Hw2 in Hrec. exact Hrec.
      * apply po_not_recorded; [done|]. simpl. by rewrite Hw2.
  - match type of H with ?f ?x = _ =>
      destruct (buildErrorResponse_spec srv now msg (Some sender) (errorToStatusInfo (Some e)) x)
        as (m & Hb & _ & Hp) end.
    rewrite Hb in H. injection H as <- <-. split; [by left|].
    apply po_error; [simpl; by rewrite Hw2 | done].
Qed.

(** ** Revocations *)

Lemma handleRevocation_cases ctx msg sender w w' resp :
  handleRevocation srv now ctx msg sender w = (w', Ok resp) ->
  refused w w' resp \/
  exists credID r,
    credentialID sender = Ok credID /\
    handler srv ctx msg sender (ca_state w) = (ca_state w', r) /\
    tracker w' = fst (setCompleted now credID (TransactionID (Header msg)) (tracker w)) /\
    match r with
    | Err e =>
        let si := errorToStatusInfo (Some e) in
        protected_as srv (Some sender) (error_body si) resp \/
        protected_as srv (Some sender) (NewRPBody (mkRevRepContent [si] [] [])) resp
    | Ok answer =>
        let si := if is_nil (answer ≫= Waiting) then accepted_info
                  else reject_info FailSystemFailure [] in
        protected_as srv (Some sender) (NewRPBody (mkRevRepContent [si] [] [])) resp
    end.
Proof.
  unfold handleRevocation, senderCredential, buildRevRepResponse, buildErrorResponse, buildResponse.
  destruct (credentialID sender) as [credID|] eqn:Ecred;
    [|intros H; left; by eapply buildErrorResponse_refused].
  intros H. apply st_bind_ok in H as (w2 & r & H2 & H). apply on_ca_call in H2 as (Hw2 & Hh & _).
  apply st_bind_ok in H as (w3 & m & H3 & H). apply st_bind_ok in H as (w4 & u & H4 & H).
  rewrite on_tracker_run in H4. injection H4 as <- _. injection H as <- <-.
  right. exists credID, r. split; [done|].
  assert (Hgen : forall body, buildResponseInternal srv now msg body (Some sender) [] None w2
      = (w3, Ok m) -> w3 = drawn 2 w2 /\ protected_as srv (Some sender) body m).
  { intros body Hb. destruct (buildResponseInternal_spec srv now msg body (Some sender) [] None w2)
      as (m' & Hb' & _ & Hp). rewrite Hb' in Hb. by injection Hb as <- <-. }
  assert (Hw3 : w3 = drawn 2 w2 -> handler srv ctx msg sender (ca_state w) = (ca_state w3, r) /\
      tracker w3 = tracker w) by (intros ->; split; [exact Hh | by rewrite Hw2]).
  destruct r as [answer|e].
  - destruct (answer ≫= Waiting) as [wr|]; apply Hgen in H3 as [Hw H3];
      destruct (Hw3 Hw) as [Hh3 Ht3]; (split; [exact Hh3|]); (split; [simpl; by rewrite Ht3|]); auto.
  - case_in H3; apply Hgen in H3 as [Hw H3]; destruct (Hw3 Hw) as [Hh3 Ht3];
      (split; [exact Hh3|]); (split; [simpl; by rewrite Ht3|]); auto.
Qed.

(** ** From the verified message on *)

Definition server_context (ctx : context) : context :=
  if allowSHA1Signatures (cfg srv) then contextWithSHA1Signatures ctx else ctx.

(** The identity the handlers see: that of the requester, with the authority that
    forwarded the request. *)
Definition attributed (fwd : option forwarding) (sender : SenderIdentity) : SenderIdentity :=
  match fwd with Some f => set_RA (Some (fwd_ra f)) sender | None => sender end.

(** The authorizer accepted a forwarded request, and left the CA in [s']. *)
Definition forwarded_with_authority (ctx : context) (msg : PKIMessage) (fwd : option forwarding)
    (sender : SenderIdentity) (s s' : S) : Prop :=
  match fwd with
  | None => s' = s
  | Some f => exists authorize, raAuthorizer (cfg srv) = Some authorize /\
      authorize ctx (fwd_ra f) msg (attributed fwd sender) s = (s', Ok tt)
  end.

(** The authorizer refused it. *)
Definition forwarding_refused (ctx : context) (msg : PKIMessage) (fwd : option forwarding)
    (sender : SenderIdentity) (s s' : S) : Prop :=
  exists f authorize e, fwd = Some f /\ raAuthorizer (cfg srv) = Some authorize /\
    authorize ctx (fwd_ra f) msg (attributed fwd sender) s = (s', Err e).

(** A header that was not admitted. *)
Definition not_admitted (w w' : World S) : Prop :=
  ca_state w' = ca_state w /\ same_counts (tracker w) (tracker w').

(** How a verified message that is not nested ends. *)
Inductive verified_outcome (ctx : context) (msg : PKIMessage) (t : BodyType)
    (fwd : option forwarding) (sender : SenderIdentity) (w w' : World S) (resp : PKIMessage) : Prop :=
| vo_forwarding :
    forwarding_refused ctx msg fwd sender (ca_state w) (ca_state w') ->
    tracker w' = tracker w -> refusal resp ->
    verified_outcome ctx msg t fwd sender w w' resp
| vo_header s1 :
    forwarded_with_authority ctx msg fwd sender (ca_state w) s1 ->
    not_admitted (mkWorld (tracker w) (draws w) s1) w' -> refusal resp ->
    verified_outcome ctx msg t fwd sender w w' resp
| vo_dispatched s1 ms n w2 :
    forwarded_with_authority ctx msg fwd sender (ca_state w) s1 ->
    same_but_id msg ms ->
    admit_transaction srv now ms (isInitialRequest t) (attributed fwd sender)
      (mkWorld (tracker w) (n + draws w)%nat s1) = (w2, Ok tt) ->
    dispatch srv now (server_context ctx) ms t (attributed fwd sender) w2 = (w', Ok resp) ->
    verified_outcome ctx msg t fwd sender w w' resp.

Lemma admitted_outcome ctx msg b fwd sender w w1 w' resp :
  Body msg = Some b ->
  (let! (m, err) := validateHeader srv now msg (attributed fwd sender) in
   match err with
   | Some err => buildErrorResponse srv now m (Some (attributed fwd sender)) (rejection_info err)
   | None => dispatch srv now (server_context ctx) m (Type_ b) (attributed fwd sender)
   end) w1 = (w', Ok resp) ->
  w1 = mkWorld (tracker w) (draws w) (ca_state w1) ->
  forwarded_with_authority ctx msg fwd sender (ca_state w) (ca_state w1) ->
  verified_outcome ctx msg (Type_ b) fwd sender w w' resp.
Proof.
  intros Hb H Hw1 Hf. apply st_bind_ok in H as (w2 & [ms err] & Hv & H).
  destruct err as [e|].
  - apply validateHeader_err in Hv as (Hca & Hcounts & _).
    apply buildErrorResponse_refused in H as [[n ->] Hr]. eapply vo_header; [exact Hf| |done].
    rewrite Hw1 in Hca, Hcounts. split; [exact Hca | exact Hcounts].
  - destruct (validateHeader_ok _ _ _ _ _ _ Hb Hv) as (Hs & n & Ha).
    eapply vo_dispatched; [exact Hf | exact Hs | | exact H]. rewrite Hw1 in Ha. exact Ha.
Qed.

Lemma process_verified_cases ctx msg b fwd sender w w' resp :
  Body msg = Some b ->
  process_verified srv now ctx msg (Type_ b) fwd sender w = (w', Ok resp) ->
  verified_outcome ctx msg (Type_ b) fwd sender w w' resp.
Proof.
  intros Hb. unfold process_verified. destruct fwd as [f|].
  - destruct (raAuthorizer (cfg srv)) as [authorize|] eqn:Ea; [|discriminate].
    intros H. apply st_bind_ok in H as (w1 & r & H1 & H). apply on_ca_call in H1 as (Hw1 & Hh & _).
    destruct r as [[]|e].
    + eapply (admitted_outcome ctx msg b (Some f) sender w w1); [done|exact H|exact Hw1|].
      by exists authorize.
    + apply buildErrorResponse_refused in H as [[n ->] Hr]. eapply vo_forwarding; [|by rewrite Hw1|done].
      by exists f, authorize, e.
  - intros H. apply (admitted_outcome ctx msg b None sender w w); [done|exact H|by destruct w|done].
Qed.

(** ** From the message on *)

(** The request that [msg] delivers to the handlers, itself or the one nested in it,
    with the verified sender of each. *)
Inductive delivered (s : S) (msg : PKIMessage)
    : option forwarding -> PKIMessage -> PKIBody -> SenderIdentity -> Prop :=
| delivered_directly b sender :
    verified s msg b sender -> Type_ b <> BodyTypeNested -> delivered s msg None msg b sender
| delivered_forwarded b ra req bi sender :
    verified s msg b ra -> Type_ b = BodyTypeNested -> check_nested srv msg b = Ok req ->
    verified s req bi sender -> Type_ bi <> BodyTypeNested ->
    delivered s msg (Some (mkForwarding msg ra)) req bi sender.

Lemma check_nested_ok msg b req :
  check_nested srv msg b = Ok req ->
  raAuthorizer (cfg srv) <> None /\ snd (Nested b) = Ok [Some req] /\
  (forall bi, Body req = Some bi -> Type_ bi <> BodyTypeNested) /\
  TransactionID (Header req) = TransactionID (Header msg) /\
  SenderNonce (Header req) = SenderNonce (Header msg).
Proof.
  unfold check_nested. destruct (raAuthorizer (cfg srv)); [|done]. cbn [is_nil].
  destruct (snd (Nested b)) as [[|[r|] [|]]|]; try done. intros H.
  apply res_bind_ok in H as (t & Ht & H). case_in H; [done|]. case_in H; [done|]. case_in H; [done|].
  injection H as ->. split; [done|]. split; [done|]. split.
  - intros bi Hb. unfold body_type in Ht. rewrite Hb in Ht. injection Ht as <-. by apply Z.eqb_neq.
  - apply negb_false_iff, bytes_eqb_eq in E0, E1. done.
Qed.

Lemma processMessage_cases msg w w' resp :
  processMessage srv now msg w = (w', Ok resp) ->
  refused w w' resp \/
  exists fwd req b sender, delivered (ca_state w) msg fwd req b sender /\
    verified_outcome context_Background req (Type_ b) fwd sender w w' resp.
Proof.
  intros H. apply process_cases in H as [H|(b & sender & Hv & [[Ht H]|(Ht & req & Hn & H)])].
  - by left.
  - right. exists None, msg, b, sender. split; [by constructor|].
    apply process_verified_cases; [by destruct Hv | done].
  - destruct (check_nested_ok _ _ _ Hn) as (_ & _ & Hne & _).
    apply process_cases in H as [H|(bi & si & Hvi & [[Hti H]|(Hti & _)])].
    + by left.
    + right. exists (Some (mkForwarding msg sender)), req, bi, si. split; [by eapply delivered_forwarded|].
      apply process_verified_cases; [by destruct Hvi | done].
    + exfalso. eapply Hne; [|exact Hti]. by destruct Hvi.
Qed.

(** ** Whom a response answers *)

(** The sender of a message as the server knows it: nobody, if the server or the version
    does not allow to verify the message, or if its protection does not verify. *)
Definition authenticated_sender (s : S) (msg : PKIMessage) : option SenderIdentity :=
  match signerErr (cfg srv), check_version msg, verifyRecipient srv msg, verifyProtection srv now s msg with
  | None, None, Ok _, Ok sender => Some sender
  | _, _, _, _ => None
  end.

(** The message that [resp] answers, with its sender: [msg], where a message that
    forwards a request is only refused for its own part, or the request it forwards. *)
Inductive answered (s : S) (msg resp : PKIMessage) : PKIMessage -> option SenderIdentity -> Prop :=
| answered_own :
    (forall b, Body msg = Some b -> Type_ b = BodyTypeNested -> refusal resp) ->
    answered s msg resp msg (authenticated_sender s msg)
| answered_forwarded b ra req :
    Body msg = Some b -> Type_ b = BodyTypeNested -> authenticated_sender s msg = Some ra ->
    check_nested srv msg b = Ok req -> answered s msg resp req (authenticated_sender s req).

(** The version of an unsupported-version error is set after it was protected. *)
Definition versioned (req m : PKIMessage) : PKIMessage :=
  match signerErr (cfg srv), check_version req with
  | None, Some v => set_Header (set_PVNO v (Header m)) m
  | _, _ => m
  end.

(** The response to [req], with the transactionID the server works with, as it is sent. *)
Definition reply (t : transactionTracker) (req : PKIMessage) (sender : option SenderIdentity)
    (resp : PKIMessage) : Prop :=
  exists ms m, same_but_id req ms /\ replied srv now t ms sender m /\ resp = versioned req m.

Lemma authenticated_sender_Some s msg sender :
  authenticated_sender s msg = Some sender <->
  signerErr (cfg srv) = None /\ check_version msg = None /\ verifyRecipient srv msg = Ok tt /\
  verifyProtection srv now s msg = Ok sender.
Proof.
  unfold authenticated_sender. destruct (signerErr (cfg srv)), (check_version msg),
    (verifyRecipient srv msg) as [[]|], (verifyProtection srv now s msg);
    split; try done; try (intros (? & ? & ? & ?); congruence). intros [= ->]. done.
Qed.

(** A secret verified the MAC of every sender the server knows by one. *)
Lemma authenticated_uses_mac s msg sender :
  authenticated_sender s msg = Some sender -> uses_mac (Some sender) = si_MACVerified sender.
Proof.
  intros (_ & _ & _ & H)%authenticated_sender_Some. unfold uses_mac.
  destruct (si_MACVerified sender) eqn:Em; [|done]. unfold verifyProtection in H.
  destruct (ProtectionAlg (Header msg)) as [a|] eqn:Ea; [|done]. case_in H; [done|].
  case_in H.
  - unfold verifyMACProtection in H. destruct (secretLookup (cfg srv)) as [lookup|]; [|done].
    destruct (lookup _ _ _) as [sec|er]; [|by destruct er].
    destruct (Verify now msg (mac_options sec)) as [vr|e] eqn:Ev; [|by case_in H].
    injection H as <-. simpl. unfold Verify in Ev. rewrite Ea in Ev.
    repeat (case_in Ev; [discriminate Ev|]). unfold isMACAlgorithm in E0.
    change (OID_Equal (Algorithm a) oidPasswordBasedMac || OID_Equal (Algorithm a) oidPBMAC1 = true) in E0.
    rewrite E0 in Ev. case_in Ev; [done|]. simpl in *.
    by case_in Ev; [unfold verifyPBM in Ev | unfold verifyPBMAC1 in Ev]; case_in Ev;
      try done; apply negb_false_iff.
  - unfold verifySignatureProtection in H. destruct (certificateLookup (cfg srv)) as [lookup|]; [|done].
    destruct (lookup _ _ _ _) as [c|er]; [|by destruct er].
    destruct (Verify now msg (signer_options srv c)); [|by repeat case_in H]. by injection H as <-.
Qed.

Lemma credentialID_attributed fwd sender : credentialID (attributed fwd sender) = credentialID sender.
Proof. by destruct fwd, sender. Qed.

(** The authority that forwarded a request does not show in the protection. *)
Lemma response_attributed req body fwd sender gi nonce :
  response_message srv now req body (Some (attributed fwd sender)) gi nonce
  = response_message srv now req body (Some sender) gi nonce.
Proof. destruct fwd, sender; [|done]. unfold response_message. f_equal. Qed.

Lemma protect_attributed random fwd sender q m :
  protectResponseWithOptions srv random (Some (attributed fwd sender)) q m
  = protectResponseWithOptions srv random (Some sender) q m.
Proof. by destruct fwd, sender. Qed.

Lemma echoed_attributed t req fwd sender q :
  echoed t req (Some (attributed fwd sender)) q -> echoed t req (Some sender) q.
Proof.
  assert (Hown : own_params (Some (attributed fwd sender)) = own_params (Some sender))
    by (by destruct fwd, sender).
  intros [|b s credID entry p H1 H2 H3 H4 H5 H6]; [rewrite Hown; apply echoed_own|].
  injection H3 as <-. rewrite credentialID_attributed in H4. by eapply echoed_issued.
Qed.

Lemma protected_attributed fwd sender q m resp :
  protected_for srv (Some (attributed fwd sender)) q m resp -> protected_for srv (Some sender) q m resp.
Proof.
  assert (Hm : uses_mac (Some (attributed fwd sender)) = uses_mac (Some sender)) by (by destruct fwd, sender).
  assert (Hk : secret (attributed fwd sender) = secret sender) by (by destruct fwd, sender).
  intros [s creds random Hs H1 H2 H | creds random H1 H2 H3 H | H1 H2 H3 H | random r e H H'];
    rewrite ?Hm in *.
  - injection Hs as <-. rewrite Hk in H2. by eapply by_secret.
  - by eapply by_signature.
  - by apply no_signer.
  - rewrite protect_attributed in H. by eapply not_protected.
Qed.

Lemma replied_attributed t req fwd sender resp :
  replied srv now t req (Some (attributed fwd sender)) resp -> replied srv now t req (Some sender) resp.
Proof.
  intros (q & Hq & body & gi & i & Hb & Hgi & Hp). rewrite response_attributed in Hp.
  exists q. split; [by eapply echoed_attributed|]. exists body, gi, i. split; [done|]. split; [done|].
  by eapply protected_attributed.
Qed.

Lemma reply_authenticated t s req ms sender m :
  authenticated_sender s req = Some sender -> same_but_id req ms ->
  replied srv now t ms (Some sender) m -> reply t req (Some sender) m.
Proof.
  intros (He & Hv & _ & _)%authenticated_sender_Some Hid Hm. exists ms, m. split; [done|].
  split; [done|]. unfold versioned. by rewrite He, Hv.
Qed.

(** ** Every response is one to the message or to the request it forwards *)

(** What a run of [process] on [msg] answers, forwarded in a message or not. *)
Definition replies (w : World S) (msg : PKIMessage) (fwd : option forwarding) (resp : PKIMessage) : Prop :=
  (exists req sender, answered (ca_state w) msg resp req sender /\ reply (tracker w) req sender resp) \/
  exists f, fwd = Some f /\ refusal resp /\ reply (tracker w) (fwd_msg f) (Some (fwd_ra f)) resp.

Lemma same_but_id_body msg ms : same_but_id msg ms -> Body ms = Body msg.
Proof. intros [-> | (_ & i & ->)]; [done|]. by destruct msg. Qed.

(** A forwarding names the message and its verified sender. *)
Definition forwards (s : S) (fwd : option forwarding) : Prop :=
  forall f, fwd = Some f -> authenticated_sender s (fwd_msg f) = Some (fwd_ra f).

Lemma process_verified_replies ctx msg b fwd sender w w' resp :
  Body msg = Some b -> authenticated_sender (ca_state w) msg = Some sender -> forwards (ca_state w) fwd ->
  process_verified srv now ctx msg (Type_ b) fwd sender w = (w', Ok resp) ->
  reply (tracker w) msg (Some sender) resp \/
  exists f, fwd = Some f /\ refusal resp /\ reply (tracker w) (fwd_msg f) (Some (fwd_ra f)) resp.
Proof.
  intros Hb Ha Hf. unfold process_verified. fold (attributed fwd sender).
  assert (Hrest : forall w1 : World S, tracker w1 = tracker w ->
    (let! (m, err) := validateHeader srv now msg (attributed fwd sender) in
     match err with
     | Some err => buildErrorResponse srv now m (Some (attributed fwd sender)) (rejection_info err)
     | None => dispatch srv now (if allowSHA1Signatures (cfg srv) then contextWithSHA1Signatures ctx else ctx)
                 m (Type_ b) (attributed fwd sender)
     end) w1 = (w', Ok resp) -> reply (tracker w) msg (Some sender) resp).
  { intros w1 Hw1 H. apply st_bind_ok in H as (w2 & [ms e] & Hv & H). destruct e as [e|].
    - apply validateHeader_err in Hv as (_ & _ & Hid). eapply reply_authenticated; [exact Ha | exact Hid|].
      eapply replied_attributed, answer_replied, buildErrorResponse_yields, H.
    - destruct (validateHeader_ok _ _ _ _ _ _ Hb Hv) as (Hid & n & Hadm).
      eapply reply_authenticated; [exact Ha | exact Hid|]. eapply replied_attributed.
      eapply dispatch_replied in H; [|by rewrite (same_but_id_body _ _ Hid)].
      destruct (Z.eqb_spec (Type_ b) BodyTypeCertConf) as [E|E]; [|by apply answer_replied].
      apply admit_transaction_ok in Hadm as (_ & credID & _ & _ & Ht). rewrite E in Ht. cbn in Ht.
      rewrite <- Hw1, <- Ht. exact H. }
  destruct fwd as [f|]; [destruct (raAuthorizer (cfg srv)) as [authorize|]; [|done]|].
  - intros H. apply st_bind_ok in H as (w1 & r & H1 & H). apply on_ca_call in H1 as (Hw1 & _).
    destruct r as [u|e]; [left; apply (Hrest w1); [by rewrite Hw1 | exact H]|].
    right. exists f. split; [done|]. split; [by apply buildErrorResponse_refused in H as [_ H]|].
    eapply reply_authenticated; [by apply Hf | by left|].
    by eapply answer_replied, buildErrorResponse_yields.
  - intros H. left. by apply (Hrest w).
Qed.

Lemma unauthenticated_replies w msg fwd si w' resp :
  authenticated_sender (ca_state w) msg = None -> (signerErr (cfg srv) <> None \/ check_version msg = None) ->
  buildErrorResponse srv now msg None si w = (w', Ok resp) -> replies w msg fwd resp.
Proof.
  intros Ha Hs H. left. exists msg, None. split.
  - rewrite <- Ha. apply answered_own. intros b _ _. by apply buildErrorResponse_refused in H as [_ H].
  - exists msg, resp. split; [by left|]. split; [by eapply answer_replied, buildErrorResponse_yields|].
    unfold versioned. destruct Hs as [Hs| ->]; [|by destruct (signerErr (cfg srv))].
    by destruct (signerErr (cfg srv)).
Qed.

Lemma refused_replies w msg fwd sender si w' resp :
  authenticated_sender (ca_state w) msg = Some sender ->
  buildErrorResponse srv now msg (Some sender) si w = (w', Ok resp) -> replies w msg fwd resp.
Proof.
  intros Ha H. left. exists msg, (Some sender). split.
  - rewrite <- Ha. apply answered_own. intros b _ _. by apply buildErrorResponse_refused in H as [_ H].
  - eapply reply_authenticated; [exact Ha | by left|]. by eapply answer_replied, buildErrorResponse_yields.
Qed.

Lemma version_replies w msg fwd v w' resp :
  signerErr (cfg srv) = None -> check_version msg = Some v ->
  (let! r := buildErrorResponse srv now msg None (reject_info FailUnsupportedVersion []) in
   st_ret (set_Header (set_PVNO v (Header r)) r)) w = (w', Ok resp) -> replies w msg fwd resp.
Proof.
  intros He Hv H. apply st_bind_ok in H as (w1 & m & H & Hr). injection Hr as _ <-.
  assert (Ha : authenticated_sender (ca_state w) msg = None) by (unfold authenticated_sender; by rewrite He, Hv).
  left. exists msg, None. split.
  - rewrite <- Ha. apply answered_own. intros b _ _. apply set_PVNO_refusal.
    by apply buildErrorResponse_refused in H as [_ H].
  - exists msg, m. split; [by left|]. split; [by eapply answer_replied, buildErrorResponse_yields|].
    unfold versioned. by rewrite He, Hv.
Qed.

Lemma process_replies fuel ctx msg fwd w w' resp :
  forwards (ca_state w) fwd -> process srv now fuel ctx msg fwd w = (w', Ok resp) ->
  replies w msg fwd resp.
Proof.
  revert ctx msg fwd. induction fuel as [|fuel IH]; intros ctx msg fwd Hf; [done|]. cbn [process].
  destruct (signerErr (cfg srv)) eqn:E1.
  { apply unauthenticated_replies; [unfold authenticated_sender; by rewrite E1 | left; congruence]. }
  destruct (check_version msg) as [v|] eqn:E2; [by apply version_replies|].
  destruct (verifyRecipient srv msg) as [[]|e] eqn:E3.
  2: { apply unauthenticated_replies; [unfold authenticated_sender; by rewrite E1, E2, E3 | by right]. }
  unfold st_bind at 1, st_get at 1.
  destruct (verifyProtection srv now (ca_state w) msg) as [sender|e] eqn:E4.
  2: { assert (Ha : authenticated_sender (ca_state w) msg = None)
         by (unfold authenticated_sender; by rewrite E1, E2, E3, E4).
       destruct e; first [done | apply unauthenticated_replies; by auto]. }
  assert (Ha : authenticated_sender (ca_state w) msg = Some sender) by (by apply authenticated_sender_Some).
  destruct (Body msg) as [b|] eqn:Eb; [|done].
  destruct (check_profile srv msg (Type_ b) sender); [|by apply refused_replies].
  destruct (Z.eqb_spec (Type_ b) BodyTypeNested) as [Et|Et].
  - destruct (check_nested srv msg b) as [req|e] eqn:En; [|destruct e; first [done | by apply refused_replies]].
    intros H. apply IH in H; [|by intros f [= <-]].
    destruct H as [(req' & sender' & Hans & Hr)|(f & [= <-] & Hr & H)].
    + left. exists req', sender'. split; [|done].
      destruct Hans as [_ | bi ra req2 Hbi Hti _ _]; [by eapply answered_forwarded|].
      exfalso. by apply (proj1 (proj2 (proj2 (check_nested_ok _ _ _ En))) bi).
    + left. exists msg, (Some sender). split; [|exact H]. rewrite <- Ha. by apply answered_own.
  - intros H. eapply process_verified_replies in H; [|done..].
    destruct H as [H|H]; [left|by right]. exists msg, (Some sender). split; [|done].
    rewrite <- Ha. apply answered_own. intros b' Hb' Ht. exfalso. apply Et. congruence.
Qed.

(** ** What every response echoes *)

(** [resp], the response to [msg] in the world [w]: it has the nonce and the transaction
    of [msg], and is the protected response to it, or to the request it forwards, for
    the sender whose protection was verified. *)
Record echoes (w : World S) (msg resp : PKIMessage) : Prop := {
  ec_recipNonce : RecipNonce (Header resp) = SenderNonce (Header msg);
  ec_transactionID : TransactionID (Header resp) = TransactionID (Header msg) \/
    (TransactionID (Header msg) = [] /\ exists i, TransactionID (Header resp) = rand_Read i 16);
  ec_senderNonce : exists i, SenderNonce (Header resp) = rand_Read i 16;
  ec_protected : exists req sender, answered (ca_state w) msg resp req sender /\
    (forall s, sender = Some s -> uses_mac sender = si_MACVerified s) /\
    reply (tracker w) req sender resp
}.

(** The message answered is of the same transaction. *)
Lemma answered_transaction s msg resp req sender :
  answered s msg resp req sender ->
  TransactionID (Header req) = TransactionID (Header msg) /\
  SenderNonce (Header req) = SenderNonce (Header msg).
Proof.
  intros [_ | b ra req' _ _ _ H]; [done|]. by destruct (check_nested_ok _ _ _ H) as (_ & _ & _ & ? & ?).
Qed.

Lemma answered_uses_mac s msg resp req sender x :
  answered s msg resp req sender -> sender = Some x -> uses_mac sender = si_MACVerified x.
Proof. intros [_ | b ra req' _ _ _ _] Hx; rewrite Hx; by eapply authenticated_uses_mac. Qed.

Lemma answered_authenticated s msg resp req x :
  answered s msg resp req (Some x) -> authenticated_sender s req = Some x.
Proof. intros H. by inversion H. Qed.

Lemma versioned_header req m :
  TransactionID (Header (versioned req m)) = TransactionID (Header m) /\
  SenderNonce (Header (versioned req m)) = SenderNonce (Header m) /\
  RecipNonce (Header (versioned req m)) = RecipNonce (Header m).
Proof. unfold versioned. repeat case_goal; try done; by destruct m as [[] ? ? ? ? ?]. Qed.

Lemma processMessage_echoes msg w w' resp :
  processMessage srv now msg w = (w', Ok resp) -> echoes w msg resp.
Proof.
  intros H. apply process_replies in H; [|by intros f].
  destruct H as [(req & sender & Ha & Hr)|(f & [=] & _)].
  destruct (answered_transaction _ _ _ _ _ Ha) as [Ht Hn].
  pose proof Hr as (ms & m & Hid & Hm & Hs).
  destruct (replied_answers _ _ _ _ _ _ Hm) as [i [H1 H2 _ H4]].
  destruct (versioned_header req m) as (S1 & S2 & S3). rewrite <- Hs in S1, S2, S3.
  assert (Hms : SenderNonce (Header ms) = SenderNonce (Header req) /\
    (TransactionID (Header ms) = TransactionID (Header req) \/
     TransactionID (Header req) = [] /\ exists i, TransactionID (Header ms) = rand_Read i 16)).
  { destruct Hid as [-> | (Hid & j & ->)]; [by auto|]. destruct req as [[] ? ? ? ? ?]. split; [done|].
    right. split; [done | by exists j]. }
  destruct Hms as [N1 N2]. rewrite Ht in N2.
  constructor.
  - congruence.
  - rewrite S1, H1. exact N2.
  - exists i. congruence.
  - exists req, sender. split; [done|]. split; [|done]. intros x. by eapply answered_uses_mac.
Qed.

End Runs.
