(* ===== verification/ServerSafety.v ===== *)
(** * What an accepted request has proved

    The identity behind a verified message, the possession of the key a
    certificate is asked for, the authority to revoke, and the rules of the
    policy. *)
From S2P Require Import Prelude Failure Errors Asn1 Types StatusInfo Enrollment Crmf X509 Message.
From S2P Require Import CertPath RevocationMsg Monad Algorithms Protect Verify ProtectFacts.
From S2P Require Import SignatureFacts Transactions TransactionsFacts Handler ServerRequest.
From S2P Require Import CAHandler Policy Server ServerFacts ServerRuns.

Section Safety.
Context {CB : Cryptobyte} {GN : GoNames} {GX : GoX509} {GA : GoASN1} {GC : GoCrypto}
  {GP : GoPBMAC1} {GR : GoRandom}.

(** ** Identities *)
Section Identity.
Context {S : Type} (srv : Server S) (now : Time).

(** The protection of [msg] proves [sender]: the MAC of the received octets under
    the secret the server looked up for the names in the header, or a signature of
    them by the certificate the server looked up, valid now and naming the sender. *)
Inductive authenticated (s : S) (msg : PKIMessage) (sender : SenderIdentity) : Prop :=
| by_mac lookup alg h k data :
    si_MACVerified sender = true ->
    secretLookup (cfg srv) = Some lookup ->
    lookup s (si_Sender sender) (si_SenderKID sender) = Ok (secret sender) ->
    si_SenderKID sender = SenderKID (Header msg) -> headerSender sender = Sender (Header msg) ->
    ProtectionAlg (Header msg) = Some alg -> mac_key (secret sender) alg h k ->
    protectedPart msg = Ok data -> Protection msg = hmac_Sum h k data ->
    si_Certificate sender = None -> authenticated s msg sender
| by_signature lookup c alg check data :
    si_MACVerified sender = false ->
    certificateLookup (cfg srv) = Some lookup ->
    lookup s (header_name (Recipient (Header msg))) (si_Sender sender) (SenderKID (Header msg))
      = Ok (Some c) ->
    si_Certificate sender = Some c -> NotBefore c <= now <= NotAfter c ->
    senderMatchesCertificate (Sender (Header msg)) c = true ->
    ProtectionAlg (Header msg) = Some alg ->
    signatureChecker alg (allowSHA1Signatures (cfg srv)) = Ok check ->
    protectedPart msg = Ok data -> check c data (Protection msg) = None ->
    authenticated s msg sender.

(** A message with a MAC algorithm is verified as such, and its parameters kept. *)
Lemma Verify_mac_result msg o a vr :
  ProtectionAlg (Header msg) = Some a -> isMACAlgorithm (Algorithm a) = true ->
  Verify now msg o = Ok vr -> exists params, vr = mkVerifyResult true (Some params) None.
Proof.
  intros Ha Hm Hv. unfold Verify in Hv. rewrite Ha in Hv. repeat (case_in Hv; [discriminate|]).
  change (OID_Equal (Algorithm a) oidPasswordBasedMac || OID_Equal (Algorithm a) oidPBMAC1)
    with (isMACAlgorithm (Algorithm a)) in Hv. rewrite Hm in Hv. case_in Hv; [discriminate|].
  case_in Hv; [unfold verifyPBM in Hv | unfold verifyPBMAC1 in Hv];
    repeat first [progress split_res | case_in Hv]; try done; try (injection Hv as <-); by eexists.
Qed.

Lemma verifyProtection_sound s msg sender :
  verifyProtection srv now s msg = Ok sender -> authenticated s msg sender.
Proof.
  unfold verifyProtection. destruct (ProtectionAlg (Header msg)) as [a|] eqn:Ea; [|done].
  case_goal; [done|]. destruct (isMACAlgorithm (Algorithm a)) eqn:Em.
  - unfold verifyMACProtection. destruct (secretLookup (cfg srv)) as [lookup|] eqn:El; [|done].
    destruct (lookup _ _ _) as [sec|e] eqn:Es; [|by destruct e].
    destruct (Verify now msg (mac_options sec)) as [vr|e] eqn:Ev;
      [|by destruct (isUnsupportedAlgorithm e)].
    intros [= <-]. assert (Hm : MACVerified vr = true).
    { by destruct (Verify_mac_result _ _ _ _ Ea Em Ev) as (params & ->). }
    destruct (Verify_mac_sound now msg _ vr Ev Hm) as (_ & _ & alg & h & k & data & Ha & Hk & Hd & Hp).
    simpl in *. rewrite Ea in Ha. injection Ha as <-. by eapply by_mac.
  - unfold verifySignatureProtection. destruct (certificateLookup (cfg srv)) as [lookup|] eqn:El; [|done].
    destruct (lookup _ _ _ _) as [c|e] eqn:Es; [|by destruct e].
    destruct (Verify now msg (signer_options srv c)) as [vr|e] eqn:Ev; [|by repeat case_goal].
    intros [= <-]. destruct (MACVerified vr) eqn:Hm.
    { by destruct (Verify_mac_sound now msg _ vr Ev Hm) as (_ & ? & _). }
    destruct (Verify_signature_sound now msg _ vr Ev Hm)
      as (_ & alg & crt & check & data & Ha & _ & Hck & Hd & Hs & Hn & _ & Ht).
    simpl in *. rewrite Ea in Ha. injection Ha as <-.
    destruct c as [c|]; [destruct Ht as [-> Ht] | by destruct Ht as (? & ? & _)].
    by eapply by_signature.
Qed.
End Identity.

(** ** Proof of possession *)

(** [sk] is a signature of the encoded request under [pub]. *)
Definition pop_signed (pub : PublicKey) (sk : popoSigningKey) (raw : bytes) (allowSHA1 : bool) : Prop :=
  raw <> [] /\
  ((exists a m, pub = CompositePublicKey a m /\ compositemldsa_Verify pub raw (psk_Signature sk) = None) \/
   (exists alg, signatureAlgorithm (psk_Algorithm sk) allowSHA1 = Ok alg /\
      x509_CheckSignature (Some pub) alg raw (psk_Signature sk) = None)).

Lemma VerifyPOP_sound reqMsg allowSHA1 popo sk :
  VerifyPOPWithOptions reqMsg allowSHA1 = None -> Popo reqMsg = Some popo ->
  pop_Signature popo = Some sk ->
  RAVerified popo = false /\
  exists pub, ParsePKIXPublicKey (tmpl_PublicKey (cr_CertTemplate (CertReq reqMsg))) = Some pub /\
    pop_signed pub sk (cr_Raw (CertReq reqMsg)) allowSHA1.
Proof.
  unfold VerifyPOPWithOptions. intros H Hp Hs. rewrite Hp, Hs in H.
  destruct (RAVerified popo); [done|]. split; [done|]. case_in H; [done|].
  destruct (ParsePKIXPublicKey _) as [pub|]; [|done]. exists pub. split; [done|].
  destruct (nonempty (cr_Raw (CertReq reqMsg))) eqn:En; [|done]. cbn [negb] in H.
  split; [by apply nonempty_true|].
  destruct (compositeSignatureAlgorithm (psk_Algorithm sk)) as [[comp|]|]; [| |done].
  - left. destruct pub; try done. case_in H; [|done]. eauto.
  - right. destruct pub; try done;
      (destruct (signatureAlgorithm _ _) as [alg|]; [|done]); eauto.
Qed.

(** The requester of [b] holds the private key of [pub]. *)
Inductive possession (ctx : context) (b : PKIBody) (pub : PublicKey) : Prop :=
| by_csr csr :
    Type_ b = BodyTypeP10CR -> snd (P10CR b) = Ok csr ->
    CheckCertificateRequestSignature csr = None ->
    ParsePKIXPublicKey (csr_RawSubjectPublicKeyInfo csr) = Some pub -> possession ctx b pub
| by_popo reqMsg popo sk :
    crmf_body (mkPKIMessage emptyPKIHeader (Some b) [] [] [] []) (Ok []) = Ok [reqMsg] ->
    Popo reqMsg = Some popo -> RAVerified popo = false -> pop_Signature popo = Some sk ->
    ParsePKIXPublicKey (tmpl_PublicKey (cr_CertTemplate (CertReq reqMsg))) = Some pub ->
    pop_signed pub sk (cr_Raw (CertReq reqMsg)) (sha1SignaturesAllowed ctx) ->
    possession ctx b pub.

Lemma crmf_body_only msg b other :
  Body msg = Some b ->
  crmf_body msg other = crmf_body (mkPKIMessage emptyPKIHeader (Some b) [] [] [] []) other.
Proof. unfold crmf_body. by intros ->. Qed.

Lemma parseCRMFMsg_ok msg crmf :
  parseCRMFMsg msg = Ok crmf ->
  exists reqMsg, crmf_body msg (Err (rejection FailBadRequest "")) = Ok [reqMsg] /\
    template_publicKey (cr_CertTemplate (CertReq reqMsg)) = Ok (crmf_publicKey crmf) /\
    crmf_certReqID crmf = cr_req_CertReqID (CertReq reqMsg) /\
    crmf_subject crmf = template_subject (cr_CertTemplate (CertReq reqMsg)) /\
    signaturePOP crmf = match Popo reqMsg with
                        | Some popo => negb (is_nil (pop_Signature popo)) | None => false end.
Proof.
  unfold parseCRMFMsg. intros H. apply res_bind_ok in H as (msgs & Hb & H).
  destruct msgs as [|reqMsg [|]]; try discriminate. exists reqMsg.
  apply res_bind_ok in H as (pub & Hp & H). apply res_bind_ok in H as (exts & _ & H).
  injection H as <-. done.
Qed.

Lemma crmf_body_other msg (msgs : CertReqMessages) e other :
  crmf_body msg (Err e) = Ok msgs -> crmf_body msg other = Ok msgs.
Proof. unfold crmf_body. destruct (Body msg); [|done]. by repeat case_goal. Qed.

Lemma template_publicKey_ok t pub :
  template_publicKey t = Ok (Some pub) -> ParsePKIXPublicKey (tmpl_PublicKey t) = Some pub.
Proof. unfold template_publicKey. repeat case_goal; congruence. Qed.

Lemma crmf_possession ctx msg b crmf :
  Body msg = Some b -> parseCRMFMsg msg = Ok crmf ->
  verifyPOPMsg msg (sha1SignaturesAllowed ctx) = None -> signaturePOP crmf = true ->
  forall pub, crmf_publicKey crmf = Some pub -> possession ctx b pub.
Proof.
  intros Hb Hp Hv Hs pub Hpub.
  destruct (parseCRMFMsg_ok _ _ Hp) as (reqMsg & Hbody & Hkey & _ & _ & Hsig).
  pose proof (crmf_body_other _ _ _ (Ok []) Hbody) as Hbody'. unfold verifyPOPMsg in Hv.
  rewrite Hbody' in Hv. rewrite Hs in Hsig. destruct (Popo reqMsg) as [popo|] eqn:Epopo; [|done].
  destruct (pop_Signature popo) as [sk|] eqn:Esk; [|done]. rewrite Hpub in Hkey.
  apply template_publicKey_ok in Hkey.
  destruct (VerifyPOP_sound _ _ _ _ Hv Epopo Esk) as (Hra & pub' & Hpub' & Hsigned).
  rewrite Hkey in Hpub'. injection Hpub' as <-.
  rewrite (crmf_body_only _ _ _ Hb) in Hbody'. by eapply by_popo.
Qed.

Lemma isCertRequest_cases t :
  isCertRequest t = true -> t <> BodyTypeP10CR ->
  (t =? BodyTypeIR) || (t =? BodyTypeCR) || (t =? BodyTypeKUR) = true.
Proof.
  unfold isCertRequest. intros H Hne. apply Z.eqb_neq in Hne. rewrite Hne, orb_false_r in H. done.
Qed.

(** A template the CA gets is for a key the requester holds. *)
Lemma issuance_template_possession ctx msg b template :
  Body msg = Some b -> isCertRequest (Type_ b) = true ->
  issuance_template ctx msg = Ok template ->
  exists pub, cert_PublicKey template = Some pub /\ possession ctx b pub /\
    is_ok (decodeBasicConstraints (ExtraExtensions template)) = true.
Proof.
  intros Hb Ht H. unfold issuance_template in H. apply res_bind_ok in H as ([] & Hpop & H).
  apply res_bind_ok in H as ([[subject pub] exts] & Hf & H).
  apply res_bind_ok in H as (bcs & Hbc & H). apply res_bind_ok in H as (der & _ & H).
  injection H as <-. simpl. rewrite Hbc.
  unfold enforceProofOfPossession in Hpop. unfold request_fields in Hf. rewrite Hb in Hpop, Hf.
  destruct (Z.eqb_spec (Type_ b) BodyTypeP10CR) as [Et|Et].
  - destruct (snd (P10CR b)) as [csr|] eqn:Ecsr; [|done].
    apply res_bind_ok in Hf as (p & Hp & Hf). apply of_option_ok in Hp. injection Hf as <- <- <-.
    exists p. split; [done|]. split; [|done]. destruct (CheckCertificateRequestSignature csr) eqn:Ec.
    + by destruct (is_ErrUnsupportedAlgorithm e).
    + by eapply by_csr.
  - rewrite (isCertRequest_cases _ Ht Et) in Hpop. apply res_bind_ok in Hpop as (crmf & Hc & Hpop).
    rewrite Hc in Hf. injection Hf as <- <- <-.
    destruct (verifyPOPMsg msg (sha1SignaturesAllowed ctx)) eqn:Ev; [done|].
    destruct (crmf_publicKey crmf) as [p|] eqn:Ep; [|done]. cbn [is_nil] in Hpop.
    destruct (signaturePOP crmf) eqn:Es; [|done].
    exists p. split; [done|]. split; [|done]. by eapply crmf_possession.
Qed.

(** ** The policy *)

Definition no_ca (exts : list Extension) : Prop :=
  exists bcs, decodeBasicConstraints exts = Ok bcs /\
    Forall (fun bc => IsCA bc = false /\ bc_MaxPathLen bc = 0) bcs.

Lemma checkBasicConstraints_ok exts : checkBasicConstraints exts = Ok tt -> no_ca exts.
Proof.
  unfold checkBasicConstraints. intros H. apply res_bind_ok in H as (bcs & Hb & H).
  case_in H; [done|]. case_in H; [done|]. exists bcs. split; [done|].
  apply List.Forall_forall. intros bc Hin.
  assert (Hca : IsCA bc = false).
  { destruct (IsCA bc) eqn:Ec; [|done]. exfalso. eapply not_true_iff_false; [exact E0|].
    apply existsb_exists. eauto. }
  split; [done|]. destruct (Z.eqb_spec (bc_MaxPathLen bc) 0) as [|Hne]; [done|]. exfalso.
  eapply not_true_iff_false; [exact E|]. apply existsb_exists. exists bc. split; [done|].
  unfold bad_path_length. rewrite Hca. apply Z.eqb_neq in Hne. rewrite Hne. simpl. by rewrite orb_true_r.
Qed.

(** What the policy guarantees of a request of body type [t] that passed it. *)
Record policy_passed (ctx : context) (msg : PKIMessage) (t : BodyType) (sender : SenderIdentity) : Prop := {
  pp_named : si_MACVerified sender = true ->
    DirectoryName (Sender (Header msg)) <> [] \/ SenderKID (Header msg) <> [];
  pp_kur : t = BodyTypeKUR -> si_MACVerified sender = false;
  pp_rr : t = BodyTypeRR -> si_MACVerified sender = false /\
    exists req, parseRevocationRequest msg = Ok req /\ hasReason req = true;
  pp_p10cr : t = BodyTypeP10CR -> exists b csr, Body msg = Some b /\ snd (P10CR b) = Ok csr /\
    enforceProofOfPossession ctx msg = Ok tt /\ Name_String (csr_Subject csr) <> "" /\
    no_ca (csr_Extensions csr);
  pp_crmf : t = BodyTypeIR \/ t = BodyTypeCR \/ t = BodyTypeKUR ->
    exists crmf, parseCRMFMsg msg = Ok crmf /\ crmf_certReqID crmf = 0 /\
    enforceProofOfPossession ctx msg = Ok tt /\ Name_String (crmf_subject crmf) <> "" /\
    no_ca (crmf_extensions crmf)
}.

Lemma validateP10CR_ok ctx msg :
  validateP10CR ctx msg = Ok tt -> exists b csr, Body msg = Some b /\ snd (P10CR b) = Ok csr /\
    enforceProofOfPossession ctx msg = Ok tt /\ Name_String (csr_Subject csr) <> "" /\
    no_ca (csr_Extensions csr).
Proof.
  unfold validateP10CR. destruct (Body msg) as [b|]; [|done].
  destruct (snd (P10CR b)) as [csr|] eqn:Ecsr; [|done]. intros H. apply res_bind_ok in H as ([] & Hp & H).
  case_bool_decide as Hn; [done|]. exists b, csr. apply checkBasicConstraints_ok in H. done.
Qed.

Lemma validateCRMF_ok ctx msg :
  validateCRMF ctx msg = Ok tt -> exists crmf, parseCRMFMsg msg = Ok crmf /\ crmf_certReqID crmf = 0 /\
    enforceProofOfPossession ctx msg = Ok tt /\ Name_String (crmf_subject crmf) <> "" /\
    no_ca (crmf_extensions crmf).
Proof.
  unfold validateCRMF. intros H. apply res_bind_ok in H as (crmf & Hp & H).
  destruct (Z.eqb_spec (crmf_certReqID crmf) 0); [|done]. simpl in H.
  apply res_bind_ok in H as ([] & Hpop & H). case_bool_decide as Hn; [done|].
  exists crmf. apply checkBasicConstraints_ok in H. done.
Qed.

Lemma policy_check_ok ctx msg t sender :
  policy_check ctx msg t sender = Ok tt -> policy_passed ctx msg t sender.
Proof.
  unfold policy_check, validateRR. intros H. case_in H; [done|].
  constructor.
  - intros Hm. rewrite Hm in E. simpl in E. apply andb_false_iff in E as [E|E];
      apply negb_false_iff, nonempty_true in E; auto.
  - intros ->. change (BodyTypeKUR =? BodyTypeRR) with false in H.
    change (isCertRequest BodyTypeKUR) with true in H. cbn in H. by destruct (si_MACVerified sender).
  - intros ->. change (BodyTypeRR =? BodyTypeRR) with true in H. cbn in H.
    destruct (si_MACVerified sender); [done|]. split; [done|].
    apply res_bind_ok in H as (req & Hreq & H). exists req. split; [done|]. by destruct (hasReason req).
  - intros ->. change (BodyTypeP10CR =? BodyTypeRR) with false in H.
    change (isCertRequest BodyTypeP10CR) with true in H. cbn in H. by apply validateP10CR_ok.
  - intros Ht. apply validateCRMF_ok.
    destruct Ht as [->|[->| ->]]; [exact H..|]. cbn in H. by destruct (si_MACVerified sender).
Qed.

(** ** Revocation *)

(** The sender may have the certificate of [req] revoked: it signed with that
    certificate, or the CA said so, leaving the state [s1]. *)
Inductive revocation_authority {S} (ca : CA S) (ctx : context) (req : RevocationRequest)
    (sender : SenderIdentity) (s : S) : S -> Prop :=
| own_certificate c :
    si_Certificate sender = Some c -> identifies req c = true -> Match req (Some c) = None ->
    revocation_authority ca ctx req sender s s
| authorized_by_ca authorize s1 :
    AuthorizeRevocation ca = Some authorize -> authorize ctx req sender s = (s1, Ok tt) ->
    revocation_authority ca ctx req sender s s1.

Lemma caHandler_authorize_ok {S} (ca : CA S) ctx req sender s s1 :
  caHandler_authorize ca ctx req sender s = (s1, Ok tt) ->
  revocation_authority ca ctx req sender s s1.
Proof.
  unfold caHandler_authorize. intros H.
  assert (Hca : (match AuthorizeRevocation ca with
      | None => st_fail (rejection FailNotAuthorized
          "revocation request must be signed with the certificate being revoked")
      | Some authorize => authorize ctx req sender end) s = (s1, Ok tt) ->
      revocation_authority ca ctx req sender s s1).
  { destruct (AuthorizeRevocation ca) as [authorize|] eqn:Ea; [|discriminate].
    intros. by eapply authorized_by_ca. }
  destruct (si_Certificate sender) as [c|] eqn:Ec; [|auto].
  destruct (identifies req c) eqn:Ei; [|auto].
  destruct (Match req (Some c)) eqn:Em; [discriminate|]. injection H as <-. by eapply own_certificate.
Qed.

(** ** What the CA is asked *)

(** The calls of the CA one message of body [b] leads to, with what each needs: a key
    the requester possesses, the reference of the pending transaction, the issued
    certificate of the transaction, the authority to revoke. *)
Inductive ca_call {S} (ca : CA S) (ctx : context) (msg : PKIMessage) (sender : SenderIdentity)
    (b : PKIBody) : S -> S -> Prop :=
| call_none s : ca_call ca ctx msg sender b s s
| call_issue s s' template pub r :
    isCertRequest (Type_ b) = true -> issuance_template ctx msg = Ok template ->
    cert_PublicKey template = Some pub -> possession ctx b pub ->
    is_ok (decodeBasicConstraints (ExtraExtensions template)) = true ->
    IssueCertificate ca ctx (bodyTypeToRequestType (Type_ b)) template sender s = (s', r) ->
    ca_call ca ctx msg sender b s s'
| call_check s s' check ref r :
    Type_ b = BodyTypePollReq -> CheckPending ca = Some check -> ctx_pollRef ctx = Some ref ->
    check ctx ref sender s = (s', r) -> ca_call ca ctx msg sender b s s'
| call_confirm s s' confirm conf crt r :
    Type_ b = BodyTypeCertConf -> ConfirmCertificate ca = Some confirm ->
    snd (CertConf b) = Ok conf -> IssuedCertFromContext ctx = Some crt ->
    confirm ctx crt
      (if match conf with cs :: _ => certStatusRejects cs | [] => true end
       then ConfirmRejected else ConfirmAccepted) (IssueRefFromContext ctx) s = (s', r) ->
    ca_call ca ctx msg sender b s s'
| call_authorize s s' authorize req e :
    Type_ b = BodyTypeRR -> AuthorizeRevocation ca = Some authorize ->
    parseRevocationRequest msg = Ok req -> authorize ctx req sender s = (s', Err e) ->
    ca_call ca ctx msg sender b s s'
| call_revoke s s1 s' revoke req r :
    Type_ b = BodyTypeRR -> RevokeCertificate ca = Some revoke ->
    parseRevocationRequest msg = Ok req -> revocation_authority ca ctx req sender s s1 ->
    revoke ctx req sender s1 = (s', r) -> ca_call ca ctx msg sender b s s'.

Lemma caHandler_authorize_err {S} (ca : CA S) ctx req sender s s' e :
  caHandler_authorize ca ctx req sender s = (s', Err e) ->
  s' = s \/ exists authorize, AuthorizeRevocation ca = Some authorize /\
              authorize ctx req sender s = (s', Err e).
Proof.
  unfold caHandler_authorize. intros H.
  assert (Hca : (match AuthorizeRevocation ca with
      | None => st_fail (rejection FailNotAuthorized
          "revocation request must be signed with the certificate being revoked")
      | Some authorize => authorize ctx req sender end) s = (s', Err e) ->
      s' = s \/ exists authorize, AuthorizeRevocation ca = Some authorize /\
              authorize ctx req sender s = (s', Err e)).
  { destruct (AuthorizeRevocation ca) as [authorize|]; [by right; exists authorize|].
    intros [= <- _]. by left. }
  destruct (si_Certificate sender) as [c|]; [|auto]. destruct (identifies req c); [|auto].
  destruct (Match req (Some c)); [|discriminate]. injection H as <- _. by left.
Qed.

Lemma revocation_calls {S} (ca : CA S) ctx msg sender b s s' r :
  Type_ b = BodyTypeRR -> caHandler_handleRevocation ca ctx msg sender s = (s', r) ->
  ca_call ca ctx msg sender b s s'.
Proof.
  intros Ht. unfold caHandler_handleRevocation.
  destruct (RevokeCertificate ca) as [revoke|] eqn:Er; [|intros [= <- _]; constructor].
  unfold st_bind at 1, st_lift at 1. destruct (parseRevocationRequest msg) as [req|e] eqn:Ep;
    [|intros [= <- _]; constructor].
  unfold st_bind. destruct (caHandler_authorize ca ctx req sender s) as [s1 [[]|e]] eqn:Ea.
  - intros H. eapply call_revoke; [done..| |exact H]. by apply caHandler_authorize_ok.
  - intros [= <- _]. apply caHandler_authorize_err in Ea as [->|(authorize & Ha & Hr)]; [constructor|].
    by eapply call_authorize.
Qed.

Lemma NewCAHandler_calls {S} (ca : CA S) ctx msg b sender s s' r :
  Body msg = Some b -> NewCAHandler ca ctx msg sender s = (s', r) ->
  ca_call ca ctx msg sender b s s'.
Proof.
  intros Hb. unfold NewCAHandler. rewrite Hb. destruct (isCertRequest (Type_ b)) eqn:Et.
  { unfold caHandler_handleCertRequest, st_bind at 1, st_lift at 1.
    destruct (issuance_template ctx msg) as [template|e] eqn:Ei; [|intros [= <- _]; constructor].
    unfold body_type. rewrite Hb. intros H.
    destruct (issuance_template_possession _ _ _ _ Hb Et Ei) as (pub & Hp & Hpos & Hbc).
    by eapply call_issue. }
  case_goal.
  { apply Z.eqb_eq in E. unfold caHandler_handleCertConf. rewrite Hb.
    destruct (ConfirmCertificate ca) as [confirm|] eqn:Ec; [|intros [= <- _]; constructor].
    destruct (snd (CertConf b)) as [conf|] eqn:Econf; [|intros [= <- _]; constructor].
    destruct (IssuedCertFromContext ctx) as [crt|] eqn:Ecrt; [|intros [= <- _]; constructor].
    unfold no_response, st_bind. intros H.
    destruct (confirm ctx crt _ (IssueRefFromContext ctx) s) as [s1 r1] eqn:Econfirm.
    assert (s1 = s') as <- by (destruct r1; unfold st_ret in H; congruence).
    eapply call_confirm; [done..|]. rewrite <- Econfirm. f_equal. by destruct conf as [|cs ?]. }
  case_goal.
  { apply Z.eqb_eq in E0. unfold caHandler_handlePollReq, PollRefFromContext.
    destruct (CheckPending ca) as [check|] eqn:Ec; [|intros [= <- _]; constructor].
    destruct (ctx_pollRef ctx) as [ref|] eqn:Er; [|intros [= <- _]; constructor].
    intros H. by eapply call_check. }
  case_goal; [|intros [= <- _]; constructor].
  apply Z.eqb_eq in E1. unfold no_response, st_bind. intros H.
  destruct (caHandler_handleRevocation ca ctx msg sender s) as [s1 r1] eqn:Er.
  assert (s1 = s') as <- by (destruct r1; unfold st_ret in H; congruence). by eapply revocation_calls.
Qed.

(** What the policy leaves in a template. *)
Lemma policy_template ctx msg b sender tmpl :
  Body msg = Some b -> isCertRequest (Type_ b) = true -> policy_passed ctx msg (Type_ b) sender ->
  issuance_template ctx msg = Ok tmpl ->
  no_ca (ExtraExtensions tmpl) /\ Name_String (Subject tmpl) <> "" /\
  cert_IsCA tmpl = false /\ BasicConstraintsValid tmpl = false.
Proof.
  intros Hb Ht Hp H. unfold issuance_template in H. apply res_bind_ok in H as ([] & _ & H).
  apply res_bind_ok in H as ([[subject pub] exts] & Hf & H).
  apply res_bind_ok in H as (bcs & _ & H). apply res_bind_ok in H as (der & _ & H).
  injection H as <-. cbn. unfold request_fields in Hf. rewrite Hb in Hf.
  destruct (Z.eqb_spec (Type_ b) BodyTypeP10CR) as [Et|Et].
  - destruct (pp_p10cr _ _ _ _ Hp Et) as (b' & csr & Hb' & Hc & _ & Hs & Hn).
    rewrite Hb in Hb'. injection Hb' as <-. rewrite Hc in Hf.
    apply res_bind_ok in Hf as (p & _ & Hf). by injection Hf as <- <- <-.
  - assert (Ht' : Type_ b = BodyTypeIR \/ Type_ b = BodyTypeCR \/ Type_ b = BodyTypeKUR).
    { pose proof (isCertRequest_cases _ Ht Et) as Hor. apply orb_true_iff in Hor as [Hor|Hor].
      - apply orb_true_iff in Hor as [Hor|Hor]; apply Z.eqb_eq in Hor; auto.
      - apply Z.eqb_eq in Hor; auto. }
    destruct (pp_crmf _ _ _ _ Hp Ht') as (crmf & Hc & _ & _ & Hs & Hn).
    rewrite Hc in Hf. by injection Hf as <- <- <-.
Qed.

Lemma LightweightPolicy_cases {S} (next : Handler S) ctx msg b sender s s' r :
  Body msg = Some b -> LightweightPolicy next ctx msg sender s = (s', r) ->
  (s' = s /\ exists e, r = Err e) \/
  (policy_passed ctx msg (Type_ b) sender /\ next ctx msg sender s = (s', r)).
Proof.
  intros Hb. unfold LightweightPolicy. rewrite Hb. unfold st_bind, st_lift.
  destruct (policy_check ctx msg (Type_ b) sender) as [[]|e] eqn:Ep.
  - intros H. right. split; [by apply policy_check_ok | done].
  - intros [= <- <-]. left. split; [done | by exists e].
Qed.

End Safety.
