(* ===== verification/Authority.v ===== *)
(** * From the message to the CA

    Every call of the CA goes back to a message whose sender was verified: the
    server's part of it, composed with the handler's of [ServerSafety]. *)
From S2P Require Import Prelude Failure Errors Asn1 Types StatusInfo Enrollment Crmf X509 Message.
From S2P Require Import CertPath RevocationMsg Monad Algorithms Protect Verify Transactions.
From S2P Require Import TransactionsFacts Handler ServerRequest CAHandler Policy Server ServerFacts.
From S2P Require Import ServerRuns ServerSafety.

Section Authority.
Context {CB : Cryptobyte} {GN : GoNames} {GX : GoX509} {GA : GoASN1} {GC : GoCrypto}
  {GP : GoPBMAC1} {GR : GoRandom}.
Context {S : Type} (calls : context -> PKIMessage -> SenderIdentity -> PKIBody -> S -> S -> Prop).
Context (srv : Server S) (now : Time).

(** The handler of the server acts on the CA as [calls] says. *)
Definition drives_ca : Prop := forall ctx msg b sender s s' r,
  Body msg = Some b -> handler srv ctx msg sender s = (s', r) ->
  calls ctx msg sender b s s'.

(** The context a handler is called in, with what the table had for the message. *)
Inductive calling_context (w : World S) (ctx : context) (msg : PKIMessage) (b : PKIBody)
    (sender : SenderIdentity) : context -> Prop :=
| cc_request : isInitialRequest (Type_ b) = true -> calling_context w ctx msg b sender ctx
| cc_poll credID entry :
    Type_ b = BodyTypePollReq -> resumable now w msg sender credID entry ->
    calling_context w ctx msg b sender (contextWithPollRef ctx (pollRef entry))
| cc_confirm credID conf entry :
    Type_ b = BodyTypeCertConf -> confirmable srv w msg sender credID conf entry ->
    calling_context w ctx msg b sender (issued_context ctx entry).

(** What a request did to the CA: nothing, or one call in such a context, and the
    report of an implicit confirmation. *)
Definition ca_asked (w : World S) (ctx : context) (msg : PKIMessage) (b : PKIBody)
    (sender : SenderIdentity) (s s' : S) : Prop :=
  s' = s \/
  exists ctx' s1 r, calling_context w ctx msg b sender ctx' /\
    calls ctx' msg sender b s s1 /\ implicit_confirmed srv ctx' msg r s1 s'.

Lemma quiet_ca (w w' : World S) : quiet w w' -> ca_state w' = ca_state w.
Proof. intros [n ->]. done. Qed.

Lemma initial_request t : isCertRequest t = true -> isInitialRequest t = true.
Proof. unfold isCertRequest, isInitialRequest. intros ->. done. Qed.

Lemma dispatch_asks ctx msg b sender w w' resp :
  drives_ca -> Body msg = Some b ->
  dispatch srv now ctx msg (Type_ b) sender w = (w', Ok resp) ->
  ca_asked w ctx msg b sender (ca_state w) (ca_state w').
Proof.
  intros Hd Hb. unfold dispatch, ca_asked.
  destruct (isCertRequest (Type_ b)) eqn:Et; [|case_goal; [|case_goal; [|case_goal; [|case_goal]]]];
    try apply Z.eqb_eq in E; try apply Z.eqb_eq in E0; try apply Z.eqb_eq in E1.
  - intros H. apply handleCertRequest_cases in H as [[Hq _]|(b' & credID & id & r & s1 & _ & _ & _ & _ & Hh & Hi & _)].
    + left. by apply quiet_ca.
    + right. exists ctx, s1, r. split; [by apply cc_request, initial_request|]. split; [by eapply Hd | done].
  - intros H. apply handleCertConf_cases in H as [[Hq _]|(credID & conf & entry & r & Hc & Hh & _)].
    + left. by apply quiet_ca.
    + right. exists (issued_context ctx entry), (ca_state w'), (Err GoPanic).
      split; [by eapply cc_confirm|]. split; [by eapply Hd | by left].
  - intros H. apply handlePollReq_cases in H
      as [[Hq _]|(b' & ids & credID & entry & r & s1 & _ & _ & Hr & Hh & Hi & _)].
    + left. by apply quiet_ca.
    + right. eexists _, s1, r. split; [by eapply cc_poll|]. split; [by eapply Hd | done].
  - intros H. apply handleRevocation_cases in H as [[Hq _]|(credID & r & _ & Hh & _)].
    + left. by apply quiet_ca.
    + right. exists ctx, (ca_state w'), (Err GoPanic).
      split; [apply cc_request; unfold isInitialRequest; rewrite E1; done|].
      split; [by eapply Hd | by left].
  - unfold buildResponse. intros H. left.
    match type of H with ?f ?x = _ =>
      destruct (buildResponseInternal_spec srv now msg NewPKIConfBody (Some sender) [] None x)
        as (m & Hr & _) end.
    rewrite Hr in H. by injection H as <- _.
  - intros H. apply buildErrorResponse_refused in H as [Hq _]. left. by apply quiet_ca.
Qed.

(** A context is found in the tracker alone, and an initial request needs none. *)
Lemma calling_context_tracker w w' ctx msg b sender ctx' :
  (isInitialRequest (Type_ b) = false -> tracker w' = tracker w) ->
  calling_context w' ctx msg b sender ctx' -> calling_context w ctx msg b sender ctx'.
Proof.
  intros Hw [Hi | credID entry Ht Hr | credID conf entry Ht Hc].
  - by apply cc_request.
  - rewrite Ht in Hw. specialize (Hw eq_refl). destruct Hr as [H1 H2 H3 H4]. rewrite Hw in H2.
    by eapply cc_poll.
  - rewrite Ht in Hw. specialize (Hw eq_refl). destruct Hc as [H1 H2 H3 H4 H5]. rewrite Hw in H4.
    by eapply cc_confirm.
Qed.

Lemma verified_outcome_asks ctx msg b fwd sender w w' resp :
  drives_ca -> Body msg = Some b ->
  verified_outcome srv now ctx msg (Type_ b) fwd sender w w' resp ->
  forwarding_refused srv ctx msg fwd sender (ca_state w) (ca_state w') \/
  exists s1 ms, forwarded_with_authority srv ctx msg fwd sender (ca_state w) s1 /\
    same_but_id msg ms /\
    ca_asked w (server_context srv ctx) ms b (attributed fwd sender) s1 (ca_state w').
Proof.
  intros Hd Hb [Hf _ _ | s1 Hf [Hs _] _ | s1 ms n w2 Hf Hid Ha Hdisp].
  - by left.
  - right. exists s1, msg. split; [done|]. split; [by left|]. by left.
  - right. exists s1, ms. split; [done|]. split; [done|].
    apply admit_transaction_ok in Ha as (_ & credID & _ & Hw2 & Hst).
    assert (Htr : isInitialRequest (Type_ b) = false -> tracker w2 = tracker w).
    { intros Hi. by rewrite Hi in Hst. }
    assert (Hbms : Body ms = Some b) by (by rewrite (same_but_id_body _ _ Hid)).
    apply (dispatch_asks _ _ _ _ _ _ _ Hd Hbms) in Hdisp.
    rewrite Hw2 in Hdisp at 2. cbn [ca_state] in Hdisp.
    destruct Hdisp as [->|(ctx' & s2 & r & Hc & Hcall & Hi)]; [by left|].
    right. exists ctx', s2, r. split; [|done]. by eapply calling_context_tracker.
Qed.

(** What one message did to the CA. *)
Lemma message_asks msg w w' resp :
  drives_ca -> processMessage srv now msg w = (w', Ok resp) ->
  ca_state w' = ca_state w \/
  exists fwd req b sender, delivered srv now (ca_state w) msg fwd req b sender /\
    Body req = Some b /\
    (forwarding_refused srv context_Background req fwd sender (ca_state w) (ca_state w') \/
     exists s1 ms,
       forwarded_with_authority srv context_Background req fwd sender (ca_state w) s1 /\
       same_but_id req ms /\
       ca_asked w (server_context srv context_Background) ms b (attributed fwd sender)
         s1 (ca_state w')).
Proof.
  intros Hd H.
  apply processMessage_cases in H as [[Hq _]|(fwd & req & b & sender & Hdel & Ho)].
  - left. by apply quiet_ca.
  - right. exists fwd, req, b, sender. split; [done|].
    assert (Hb : Body req = Some b) by (by destruct Hdel as [? ? [] | ? ? ? ? ? _ _ _ []]).
    split; [done|]. by eapply verified_outcome_asks.
Qed.

End Authority.

Section CAServer.
Context {CB : Cryptobyte} {GN : GoNames} {GX : GoX509} {GA : GoASN1} {GC : GoCrypto}
  {GP : GoPBMAC1} {GR : GoRandom}.

(** Each delivery rests on a proof of every sender. *)
Lemma delivered_authenticated {S} (srv : Server S) now s msg fwd req b sender :
  delivered srv now s msg fwd req b sender ->
  authenticated srv now s req sender /\
  match fwd with
  | None => req = msg
  | Some f => fwd_msg f = msg /\ authenticated srv now s msg (fwd_ra f) /\
      TransactionID (Header req) = TransactionID (Header msg) /\
      SenderNonce (Header req) = SenderNonce (Header msg)
  end.
Proof.
  intros [b0 sd [] _ | b0 ra rq bi sd [] _ Hn [] _]; (split; [by eapply verifyProtection_sound|]).
  - done.
  - destruct (check_nested_ok _ _ _ _ Hn) as (_ & _ & _ & Ht & Hs).
    split; [done|]. split; [by apply verifyProtection_sound | done].
Qed.

Lemma New_handler {S} (h : Handler S) opts : handler (fst (New h opts)) = h.
Proof. done. Qed.

(** The server of a CA, under the policy or not. *)
Lemma NewCAServer_drives {S} (ca : CA S) policy opts :
  policy = None \/ policy = Some LightweightPolicy ->
  drives_ca (ca_call ca) (fst (NewCAServer ca policy opts)).
Proof.
  intros Hp ctx msg b sender s s' r Hb. unfold NewCAServer. rewrite New_handler.
  destruct Hp as [-> | ->]; [by apply NewCAHandler_calls|].
  intros H. destruct (LightweightPolicy_cases _ _ _ _ _ _ _ _ Hb H) as [[-> _]|[_ H1]].
  - constructor.
  - by eapply NewCAHandler_calls.
Qed.

End CAServer.
