(* ===== verification/TransactionMachine.v ===== *)
(** * The life of a transaction

    The abstract machine of the table: for each message and each sweep, exactly what it
    may do to which entry, and with which answer. A message works on one entry, that of
    its transactionID and its sender. *)
From S2P Require Import Prelude Failure Errors Asn1 Types StatusInfo Enrollment Crmf X509 Message.
From S2P Require Import RevocationMsg Monad Algorithms Protect Verify Transactions.
From S2P Require Import TransactionsFacts Handler ServerRequest CAHandler Policy Server ServerFacts.
From S2P Require Import ServerRuns.

Abbreviation table := (gmap transactionKey transactionEntry).

(** The state of the entry of [k]. *)
Definition phase (t : transactionTracker) (k : transactionKey) : option txnState :=
  state <$> transactions t !! k.

Section Machine.
Context {CB : Cryptobyte} {GN : GoNames} {GX : GoX509} {GA : GoASN1} {GC : GoCrypto}
  {GP : GoPBMAC1} {GR : GoRandom}.
Context {S : Type} (srv : Server S) (now : Time).

(** ** The steps of one entry *)

Section Entry.
Context (msg : PKIMessage) (sender : SenderIdentity) (credID : bytes) (resp : PKIMessage).

(** The entry [e] after the CA was asked for the certificate [id] of a request of type
    [rt], and the answer: it waits, with the nonce and the reference of this answer; it
    stays, if the CA gave no certificate; or it holds the certificate of the answer until
    it is confirmed, or is completed by it. *)
Inductive asked (rt : RequestType) (id : Z) (waiting : WaitingResponse -> PKIBody) (polled : Time)
    (e : transactionEntry) : transactionEntry -> Prop :=
| asked_waiting wr :
    protected_as srv (Some sender) (waiting wr) resp ->
    asked rt id waiting polled e
      (pending_entry now (makeCredentialKey credID) rt (PollRef wr) (SenderNonce (Header resp))
         (wr_CheckAfter wr) polled)
| asked_empty r :
    resp_Certificate r = None -> carries srv rt id accepted_info None (CACerts r) sender resp ->
    asked rt id waiting polled e e
| asked_issued r crt :
    resp_Certificate r = Some crt -> grants_implicit srv msg = false ->
    carries srv rt id accepted_info (Some crt) (CACerts r) sender resp ->
    asked rt id waiting polled e (issued_for now credID rt id crt r sender msg resp)
| asked_completed r crt :
    resp_Certificate r = Some crt -> grants_implicit srv msg = true ->
    carries srv rt id accepted_info (Some crt) (CACerts r) sender resp ->
    asked rt id waiting polled e (completed_entry now e).

(** What the message, of type [t], does to its entry, [None] where there is none. *)
Inductive entry_step (t : BodyType) : option transactionEntry -> option transactionEntry -> Prop :=
| step_refused x : refusal resp -> entry_step t x x
| step_acknowledged x :
    t = BodyTypeError -> protected_as srv (Some sender) NewPKIConfBody resp -> entry_step t x x
| step_admitted :
    isInitialRequest t = true -> refusal resp ->
    entry_step t None (Some (active_entry now (makeCredentialKey credID)))
| step_rejected id e :
    isCertRequest t = true ->
    carries srv (requestTypeFromBody t) id (errorToStatusInfo (Some e)) None [] sender resp ->
    entry_step t None (Some (active_entry now (makeCredentialKey credID)))
| step_requested id e :
    isCertRequest t = true -> certReqIDFromRequest msg = Ok id ->
    asked (requestTypeFromBody t) id
      (fun _ => certRep_body id waiting_info None [] (requestTypeFromBody t)) 0
      (active_entry now (makeCredentialKey credID)) e ->
    entry_step t None (Some e)
| step_revoked si :
    t = BodyTypeRR ->
    protected_as srv (Some sender) (error_body si) resp \/
    protected_as srv (Some sender) (NewRPBody (mkRevRepContent [si] [] [])) resp ->
    entry_step t None (Some (completed_entry now (active_entry now (makeCredentialKey credID))))
| step_polled id e e' :
    t = BodyTypePollReq -> state e = statePending ->
    asked (reqType e) id (fun wr => NewPollRepBody [poll_item id wr]) now e e' ->
    entry_step t (Some e) (Some e')
| step_confirmed e :
    t = BodyTypeCertConf -> state e = stateIssued ->
    protected_as srv (Some sender) NewPKIConfBody resp ->
    entry_step t (Some e) None.

(** The step of a message: that of its own entry, and of no other. *)
Definition moved (t : BodyType) (m m' : table) : Prop :=
  let key := makeKey credID (TransactionID (Header msg)) in
  exists x, entry_step t (m !! key) x /\ m' = partial_alter (fun _ => x) key m.

Lemma moved_refused t m : refusal resp -> moved t m m.
Proof.
  intros H. eexists. split; [by apply step_refused|]. symmetry. apply partial_alter_self.
Qed.

(** ** The methods of the tracker *)

Lemma setPending_writes c tx rt ref sn ca lp (t : transactionTracker) e :
  transactions t !! makeKey c tx = Some e -> state e = stateActive \/ state e = statePending ->
  transactions (fst (setPending now c tx rt ref sn ca lp t))
  = <[makeKey c tx := pending_entry now (makeCredentialKey c) rt ref sn ca lp]> (transactions t).
Proof.
  intros He Hs. unfold setPending. rewrite advance_spec, He.
  assert (may_advance e = true) as ->; [|by destruct t].
  unfold may_advance. rewrite orb_true_iff, !bool_decide_eq_true. done.
Qed.

Lemma setCompleted_writes c tx (t : transactionTracker) e :
  transactions t !! makeKey c tx = Some e ->
  transactions (fst (setCompleted now c tx t)) = <[makeKey c tx := completed_entry now e]> (transactions t).
Proof. intros He. rewrite setCompleted_spec, He. by destruct t. Qed.

(** A method that replaces an entry does so only while it is active or pending. *)
Definition guarded (key : transactionKey) (t t' : transactionTracker) : Prop :=
  t' = t \/
  exists old new, transactions t !! key = Some old /\ (state old = stateActive \/ state old = statePending) /\
    t' = set_transactions (<[key := new]> (transactions t)) t.

Lemma advance_guarded key e t : guarded key t (fst (advance key e t)).
Proof.
  rewrite advance_spec. destruct (transactions t !! key) as [old|] eqn:E; [|by left].
  destruct (may_advance old) eqn:Em; [|by left]. right. exists old, e. split; [done|]. split; [|done].
  unfold may_advance in Em. by rewrite orb_true_iff, !bool_decide_eq_true in Em.
Qed.

(** ** The handlers *)

#[local] Abbreviation key := (makeKey credID (TransactionID (Header msg))).

Lemma recorded_asked rt id r waiting polled t t' e :
  transactions t !! key = Some e ->
  carries srv rt id accepted_info (resp_Certificate r) (CACerts r) sender resp ->
  recorded srv now msg credID rt id r sender resp t t' ->
  exists e', asked rt id waiting polled e e' /\ transactions t' = <[key := e']> (transactions t).
Proof.
  intros He Hc. unfold recorded. destruct (resp_Certificate r) as [crt|] eqn:Er.
  - destruct (grants_implicit srv msg) eqn:Eg.
    + intros ->. eexists. split; [by eapply asked_completed|]. by apply setCompleted_writes.
    + intros (e0 & _ & _ & ->). eexists. split; [by eapply asked_issued|]. by destruct t.
  - intros ->. exists e. split; [by eapply asked_empty|]. by rewrite insert_id.
Qed.

Lemma request_step ctx b (w w' : World S) :
  Body msg = Some b -> isCertRequest (Type_ b) = true -> credentialID sender = Ok credID ->
  transactions (tracker w) !! key = Some (active_entry now (makeCredentialKey credID)) ->
  handleCertRequest srv now ctx msg sender w = (w', Ok resp) ->
  exists e, entry_step (Type_ b) None (Some e) /\
    transactions (tracker w') = <[key := e]> (transactions (tracker w)).
Proof.
  intros Hb Ht Hc He H.
  assert (Hi : isInitialRequest (Type_ b) = true)
    by (unfold isCertRequest in Ht; unfold isInitialRequest; by rewrite Ht).
  set (e0 := active_entry now (makeCredentialKey credID)) in *.
  assert (Hstay : forall w0 : World S, tracker w0 = tracker w ->
    transactions (tracker w0) = <[key := e0]> (transactions (tracker w)))
    by (intros w0 ->; by rewrite insert_id).
  apply handleCertRequest_cases in H
    as [[[n ->] Hr]|(b' & credID' & id & r & s1 & Hb' & Hc' & _ & Hid & _ & _ & Ho)].
  { exists e0. split; [by apply step_admitted | by apply Hstay]. }
  replace b' with b in * by congruence. replace credID' with credID in * by congruence.
  destruct Ho as [e Hsame [Hr|Hr] | r wr _ Hr -> | r _ Hr Hrec | r Hr Hsame].
  - exists e0. split; [|by apply Hstay]. apply step_admitted; [done|]. by eapply protected_as_refusal.
  - exists e0. split; [by eapply step_rejected | by apply Hstay].
  - eexists. split; [|by eapply setPending_writes; [|left]].
    eapply step_requested; [done..|]. by apply asked_waiting.
  - destruct (recorded_asked _ _ _ (fun _ => certRep_body id waiting_info None [] (requestTypeFromBody (Type_ b)))
      0 _ _ _ He Hr Hrec) as (e & Ha & Hw). exists e. split; [by eapply step_requested | done].
  - exists e0. split; [by apply step_admitted | by apply Hstay].
Qed.

Lemma revocation_step ctx (w w' : World S) :
  credentialID sender = Ok credID ->
  transactions (tracker w) !! key = Some (active_entry now (makeCredentialKey credID)) ->
  handleRevocation srv now ctx msg sender w = (w', Ok resp) ->
  exists e, entry_step BodyTypeRR None (Some e) /\
    transactions (tracker w') = <[key := e]> (transactions (tracker w)).
Proof.
  intros Hc He H. apply handleRevocation_cases in H as [[[n ->] Hr]|(credID' & r & Hc' & _ & Hw & Hr)].
  { eexists. split; [by apply step_admitted|]. by rewrite insert_id. }
  replace credID' with credID in * by congruence. rewrite Hw.
  eexists. split; [|by apply setCompleted_writes].
  destruct r as [o|e]; [eapply step_revoked; [done|]; by right|]. destruct Hr as [Hr|Hr];
    (eapply step_revoked; [done|]); [by left | by right].
Qed.

Lemma in_state s c tx (t : transactionTracker) e :
  get_in_state s c tx t = Some e -> transactions t !! makeKey c tx = Some e /\ state e = s.
Proof.
  unfold get_in_state. destruct (transactions t !! _) as [e'|]; [|done].
  case_bool_decide as Hs; [|done]. by intros [= ->].
Qed.

Lemma poll_step ctx (w w' : World S) :
  credentialID sender = Ok credID -> handlePollReq srv now ctx msg sender w = (w', Ok resp) ->
  moved BodyTypePollReq (transactions (tracker w)) (transactions (tracker w')).
Proof.
  intros Hc H. apply handlePollReq_cases in H
    as [[[n ->] Hr]|(b & ids & credID' & e & r & s1 & _ & _ & [Hc' Hp _ _] & _ & _ & Ho)];
    [by apply moved_refused|].
  replace credID' with credID in * by congruence. apply in_state in Hp as [He Hs].
  destruct Ho as [e1 -> Hr | r wr _ Hr Hw | r _ Hr Hrec | r Hr ->].
  - apply moved_refused. by eapply protected_as_refusal.
  - rewrite Hw, (setPending_writes _ _ _ _ _ _ _ _ _ He) by auto.
    eexists. split; [|reflexivity]. rewrite He. eapply step_polled; [done..|]. by apply asked_waiting.
  - destruct (recorded_asked _ _ _ (fun wr => NewPollRepBody [poll_item (default 0 (head ids)) wr])
      now _ _ _ He Hr Hrec) as (e' & Ha & Hw).
    rewrite Hw. exists (Some e'). split; [|reflexivity]. rewrite He. by eapply step_polled.
  - by apply moved_refused.
Qed.

Lemma certConf_step ctx (w w' : World S) :
  credentialID sender = Ok credID -> handleCertConf srv now ctx msg sender w = (w', Ok resp) ->
  moved BodyTypeCertConf (transactions (tracker w)) (transactions (tracker w')).
Proof.
  intros Hc H. apply handleCertConf_cases in H
    as [[[n ->] Hr]|(credID' & conf & e & r & [_ _ Hc' He _] & _ & Hr)]; [by apply moved_refused|].
  replace credID' with credID in * by congruence. apply in_state in He as [He Hs].
  destruct r as [o|err]; destruct Hr as [-> Hr].
  - exists None. rewrite He, delete_txn_spec, He. split; [by apply step_confirmed | done].
  - apply moved_refused. by eapply protected_as_refusal.
Qed.

(** A new transaction. *)
Lemma start_writes t t' :
  startIfAbsent now credID (TransactionID (Header msg)) t = (t', Ok false) ->
  transactions t !! key = None /\
  transactions t' = <[key := active_entry now (makeCredentialKey credID)]> (transactions t).
Proof.
  intros H. pose proof (startIfAbsent_outcome now credID (TransactionID (Header msg)) t) as Ho.
  rewrite H in Ho. by inversion Ho; subst.
Qed.

(** The step of an initial request, from what it does once it is admitted. *)
Lemma admitted_moved (t : BodyType) (m m1 m' : table) (e0 : transactionEntry) :
  m !! key = None -> m1 = <[key := e0]> m ->
  (exists e, entry_step t None (Some e) /\ m' = <[key := e]> m1) -> moved t m m'.
Proof.
  intros Hn -> (e & He & ->). exists (Some e). rewrite Hn. split; [done|]. by rewrite insert_insert_eq.
Qed.

(** What an admitted message does to the table. *)
Lemma dispatch_step ctx b (w w1 w' : World S) :
  Body msg = Some b -> credentialID sender = Ok credID ->
  (if isInitialRequest (Type_ b)
   then startIfAbsent now credID (TransactionID (Header msg)) (tracker w) = (tracker w1, Ok false)
   else tracker w1 = tracker w) ->
  dispatch srv now ctx msg (Type_ b) sender w1 = (w', Ok resp) ->
  moved (Type_ b) (transactions (tracker w)) (transactions (tracker w')).
Proof.
  intros Hb Hc Hst Hd. unfold dispatch in Hd. destruct (isCertRequest (Type_ b)) eqn:Et.
  { assert (Hi : isInitialRequest (Type_ b) = true)
      by (unfold isCertRequest in Et; unfold isInitialRequest; by rewrite Et).
    rewrite Hi in Hst. apply start_writes in Hst as [Hn Hw]. eapply admitted_moved; [done..|].
    eapply request_step; try done. rewrite Hw. apply lookup_insert_eq. }
  destruct (Z.eqb_spec (Type_ b) BodyTypeCertConf) as [E|E].
  { rewrite E in Hst |- *. change (isInitialRequest BodyTypeCertConf) with false in Hst. cbn in Hst.
    rewrite <- Hst. by eapply certConf_step. }
  destruct (Z.eqb_spec (Type_ b) BodyTypePollReq) as [E0|E0].
  { rewrite E0 in Hst |- *. change (isInitialRequest BodyTypePollReq) with false in Hst. cbn in Hst.
    rewrite <- Hst. by eapply poll_step. }
  destruct (Z.eqb_spec (Type_ b) BodyTypeRR) as [E1|E1].
  { rewrite E1 in Hst |- *. change (isInitialRequest BodyTypeRR) with true in Hst. cbn in Hst.
    apply start_writes in Hst as [Hn Hw]. eapply admitted_moved; [done..|].
    eapply revocation_step; try done. rewrite Hw. apply lookup_insert_eq. }
  assert (Hi : isInitialRequest (Type_ b) = false).
  { unfold isInitialRequest. unfold isCertRequest in Et. rewrite Et. by apply Z.eqb_neq. }
  rewrite Hi in Hst. rewrite <- Hst. case_in Hd.
  - apply Z.eqb_eq in E2. unfold buildResponse in Hd.
    destruct (buildResponseInternal_spec srv now msg NewPKIConfBody (Some sender) [] None w1)
      as (m & Hm & _ & Hp). rewrite Hm in Hd. injection Hd as <- ->.
    eexists. split; [by apply step_acknowledged|]. symmetry. apply partial_alter_self.
  - apply buildErrorResponse_refused in Hd as [[k ->] Hr]. by apply moved_refused.
Qed.
End Entry.

(** What a verified message does to the table: nothing, if it is refused before its
    transaction is looked up, or one step. *)
Lemma verified_outcome_moved ctx req b fwd sender (w w' : World S) resp :
  Body req = Some b -> verified_outcome srv now ctx req (Type_ b) fwd sender w w' resp ->
  (transactions (tracker w') = transactions (tracker w) /\ refusal resp) \/
  exists ms credID, same_but_id req ms /\ credentialID sender = Ok credID /\
    moved ms (attributed fwd sender) credID resp (Type_ b) (transactions (tracker w)) (transactions (tracker w')).
Proof.
  intros Hb [_ Ht Hr | s1 _ [_ Hs] Hr | s1 ms n w2 _ Hid Ha Hd].
  - left. by rewrite Ht.
  - left. by destruct Hs as [-> _].
  - right. apply admit_transaction_ok in Ha as (_ & credID & Hc & _ & Hst). exists ms, credID.
    rewrite credentialID_attributed in Hc. split; [done|]. split; [done|].
    eapply dispatch_step; [by rewrite (same_but_id_body _ _ Hid) | by rewrite credentialID_attributed | | exact Hd].
    exact Hst.
Qed.

Lemma processMessage_moved msg resp (w w' : World S) :
  processMessage srv now msg w = (w', Ok resp) ->
  (transactions (tracker w') = transactions (tracker w) /\ refusal resp) \/
  exists fwd req b sender ms credID,
    delivered srv now (ca_state w) msg fwd req b sender /\ same_but_id req ms /\ credentialID sender = Ok credID /\
    moved ms (attributed fwd sender) credID resp (Type_ b) (transactions (tracker w)) (transactions (tracker w')).
Proof.
  intros H. apply processMessage_cases in H as [[[n ->] Hr]|(fwd & req & b & sender & Hd & Ho)]; [by left|].
  apply verified_outcome_moved in Ho as [Ho|(ms & credID & Hid & Hc & Hm)]; [by left| |].
  - right. exists fwd, req, b, sender, ms, credID. done.
  - by destruct Hd as [? ? []|? ? ? ? ? ? ? ? []].
Qed.

End Machine.

Section Runs.
Context {CB : Cryptobyte} {GN : GoNames} {GX : GoX509} {GA : GoASN1} {GC : GoCrypto}
  {GP : GoPBMAC1} {GR : GoRandom}.
Context {S : Type} (srv : Server S).

(** ** Sweeps *)

Lemma notify_expired_tracker l (w w' : World S) u :
  notify_expired srv l w = (w', Ok u) -> tracker w' = tracker w /\ draws w' = draws w.
Proof.
  revert w. induction l as [|e l IH]; intros w H; cbn [notify_expired] in H.
  - apply st_ret_ok in H as [-> _]. done.
  - destruct (confirmer (cfg srv)) as [confirm|]; [|by apply st_ret_ok in H as [-> _]].
    apply st_bind_ok in H as (w1 & r & H1 & H). apply on_ca_call in H1 as (Hw & _ & _).
    apply IH in H as [-> ->]. by rewrite Hw.
Qed.

(** What a sweep leaves of an entry, and what the CA was told. *)
Lemma CleanupExpired_cases at_ w w' :
  CleanupExpired srv at_ w = (w', Ok tt) ->
  (confirmWait (cfg srv) <= 0 /\ tracker w' = tracker w) \/
  exists t', 0 < confirmWait (cfg srv) /\ tracker w' = t' /\
    cleanupExpired at_ (confirmWait (cfg srv)) (tracker w)
    = (t', Ok (expired_report (at_ - confirmWait (cfg srv)) (map_to_list (transactions (tracker w))))).
Proof.
  unfold CleanupExpired. intros H. apply st_bind_ok in H as (w1 & l & H1 & H).
  rewrite on_tracker_run in H1. injection H1 as <- Hl. apply notify_expired_tracker in H as [H _].
  destruct (Z.leb_spec (confirmWait (cfg srv)) 0) as [Hle|Hlt].
  - left. split; [done|]. rewrite H. simpl. unfold cleanupExpired.
    by rewrite (proj2 (Z.leb_le _ _) Hle).
  - right. exists (tracker w'). split; [done|]. split; [done|].
    destruct (cleanupExpired_spec (fun _ => True) at_ _ (tracker w) Hlt) as (t' & Hc & _).
    rewrite H, Hc. done.
Qed.

Lemma CleanupExpired_counts at_ w w' :
  CleanupExpired srv at_ w = (w', Ok tt) -> keeps_counts (tracker w) (tracker w').
Proof.
  intros H. apply CleanupExpired_cases in H as [[_ ->]|(t' & _ & -> & Hc)]; [done|].
  pose proof (cleanup_counts at_ (confirmWait (cfg srv)) (tracker w)) as Hk. by rewrite Hc in Hk.
Qed.

Lemma cleanup_entries_limits cutoff kvs : preserves (fun t t' =>
  maxTransactions t' = maxTransactions t /\
  maxTransactionsPerCredential t' = maxTransactionsPerCredential t) (cleanup_entries cutoff kvs).
Proof.
  induction kvs as [|[k e] kvs IH]; intros [m n mx cc mc]; cbn [cleanup_entries]; [done|].
  unfold st_bind, cleanup_entry. destruct (lastActivity e <? cutoff).
  - unfold st_bind, LoadAndDelete. simpl. destruct (m !! k) as [v|]; simpl.
    all: match goal with |- context [cleanup_entries ?c ?es ?t] =>
      specialize (IH t); destruct (cleanup_entries c es t) as [t' [l|x]] end; exact IH.
  - simpl. match goal with |- context [cleanup_entries ?c ?es ?t] =>
      specialize (IH t); destruct (cleanup_entries c es t) as [t' [l|x]] end; exact IH.
Qed.

Lemma CleanupExpired_limits at_ w w' :
  CleanupExpired srv at_ w = (w', Ok tt) ->
  maxTransactions (tracker w') = maxTransactions (tracker w) /\
  maxTransactionsPerCredential (tracker w') = maxTransactionsPerCredential (tracker w).
Proof.
  intros H. apply CleanupExpired_cases in H as [[_ ->]|(t' & Hpos & -> & Hc)]; [done|].
  unfold cleanupExpired in Hc. rewrite (proj2 (Z.leb_gt _ _) Hpos) in Hc. unfold st_bind, st_get in Hc.
  pose proof (cleanup_entries_limits (at_ - confirmWait (cfg srv))
    (map_to_list (transactions (tracker w))) (tracker w)) as Hl. by rewrite Hc in Hl.
Qed.

(** ** Sequences of events *)

(** What happens to a server: a message and its answer, or a sweep, at a time. *)
Inductive server_event :=
| Received (at_ : Time) (msg resp : PKIMessage)
| Swept (at_ : Time).

Definition server_step (ev : server_event) (w w' : World S) : Prop :=
  match ev with
  | Received at_ msg resp => processMessage srv at_ msg w = (w', Ok resp)
  | Swept at_ => CleanupExpired srv at_ w = (w', Ok tt)
  end.

(** The same events, of the table alone. *)
Definition expired (at_ : Time) (e : transactionEntry) : Prop :=
  0 < confirmWait (cfg srv) /\ is_old (at_ - confirmWait (cfg srv)) e.

Inductive table_step : server_event -> table -> table -> Prop :=
| table_refused at_ msg resp m : refusal resp -> table_step (Received at_ msg resp) m m
| table_moved at_ msg resp m m' s fwd req b sender ms credID :
    delivered srv at_ s msg fwd req b sender -> same_but_id req ms -> credentialID sender = Ok credID ->
    moved srv at_ ms (attributed fwd sender) credID resp (Type_ b) m m' ->
    table_step (Received at_ msg resp) m m'
| table_swept at_ m m' :
    (forall k e, m' !! k = Some e <-> m !! k = Some e /\ ~ expired at_ e) ->
    table_step (Swept at_) m m'.

(** Runs of a system with steps. *)
Inductive runs {W} (step : server_event -> W -> W -> Prop) : list server_event -> W -> W -> Prop :=
| runs_nil w : runs step [] w w
| runs_cons ev evs w w1 w' : step ev w w1 -> runs step evs w1 w' -> runs step (ev :: evs) w w'.

Lemma server_step_simulated ev w w' :
  server_step ev w w' -> table_step ev (transactions (tracker w)) (transactions (tracker w')).
Proof.
  destruct ev as [at_ msg resp|at_]; simpl; intros H.
  - apply processMessage_moved in H as [[-> Hr]|(fwd & req & b & sender & ms & credID & Hd & Hid & Hc & Hm)];
      [by apply table_refused | by eapply table_moved].
  - apply table_swept. intros k e. unfold expired.
    apply CleanupExpired_cases in H as [[Hle ->]|(t' & Hpos & -> & Hc)].
    + split; [|by intros []]. intros He. split; [done|]. intros [Hlt _]. lia.
    + destruct (cleanupExpired_spec (fun _ => True) at_ _ (tracker w) Hpos) as (t2 & Hc2 & _ & Hk).
      rewrite Hc in Hc2. injection Hc2 as <-. rewrite Hk. tauto.
Qed.

(** The forward simulation, over a run. *)
Lemma runs_simulated {W V} (f : W -> V) (step : server_event -> W -> W -> Prop) (step' : server_event -> V -> V -> Prop) evs w w' :
  (forall ev w w', step ev w w' -> step' ev (f w) (f w')) -> runs step evs w w' -> runs step' evs (f w) (f w').
Proof. intros Hs. induction 1; econstructor; eauto. Qed.

(** ** What the machine rules out *)

(** An entry later in its life, while it is there: one that does not wait for the CA is the
    same as it was; one that waits goes on waiting, or is issued or completed, for the
    same type of request. *)
Definition later (e e' : transactionEntry) : Prop :=
  e' = e \/
  (state e = statePending /\ reqType e' = reqType e /\
   (state e' = statePending \/ state e' = stateIssued \/ state e' = stateCompleted)).

#[export] Instance later_refl : Reflexive later.
Proof. intros e. by left. Qed.
#[export] Instance later_trans : Transitive later.
Proof.
  intros x y z [->|(H1 & H2 & H3)] [->|(H5 & H6 & H7)]; [by left| | |].
  - by right.
  - by right.
  - right. split; [done|]. split; [congruence | done].
Qed.

(** The event takes an entry away: a sweep, of one that is too old, or a confirmation that
    was accepted, of one that was issued. *)
Definition removes (ev : server_event) (e : transactionEntry) : Prop :=
  match ev with
  | Swept at_ => expired at_ e
  | Received at_ msg resp =>
      state e = stateIssued /\
      exists s fwd req b sender, delivered srv at_ s msg fwd req b sender /\ Type_ b = BodyTypeCertConf /\
        protected_as srv (Some (attributed fwd sender)) NewPKIConfBody resp
  end.

Lemma asked_later now msg sender credID resp id waiting polled e e' :
  state e = statePending ->
  asked srv now msg sender credID resp (reqType e) id waiting polled e e' -> later e e'.
Proof.
  intros Hs [wr _|r _ _|r crt _ _ _|r crt _ _ _]; [| by left | |]; right.
  - by repeat split; auto.
  - by repeat split; auto.
  - by destruct e; repeat split; auto.
Qed.

(** One event: an entry that was there is later in its life, or was removed. *)
Lemma table_step_later ev m m' k e :
  table_step ev m m' -> m !! k = Some e ->
  (exists e', m' !! k = Some e' /\ later e e') \/ (m' !! k = None /\ removes ev e).
Proof.
  intros [at_ msg resp m0 Hr | at_ msg resp m0 m1 s fwd req b sender ms credID Hd Hid Hc (x & Hx & ->)
    | at_ m0 m1 Hk] He; [by left; eexists| |].
  - set (key := makeKey credID (TransactionID (Header ms))) in *. destruct (decide (key = k)) as [<-|Hne].
    2: { left. exists e. by rewrite lookup_partial_alter_ne. }
    rewrite lookup_partial_alter_eq. rewrite He in Hx. inversion Hx; subst; try by left; eexists.
    + left. eexists. split; [done|]. by eapply asked_later.
    + right. split; [done|]. simpl. split; [done|]. by exists s, fwd, req, b, sender.
  - destruct (m1 !! k) as [e'|] eqn:Ek.
    + apply Hk in Ek as [Ek _]. left. exists e'. split; [done|]. replace e' with e by congruence. by left.
    + right. split; [done|]. simpl. destruct (decide (confirmWait (cfg srv) <= 0)) as [Hle|Hlt].
      * assert (Hs : m1 !! k = Some e); [|congruence]. apply Hk. split; [done|]. intros [Hpos _]. lia.
      * unfold expired, is_old in *.
        destruct (Z.lt_ge_cases (lastActivity e) (at_ - confirmWait (cfg srv))); [split; lia|].
        assert (Hs : m1 !! k = Some e); [|congruence]. apply Hk. split; [done|]. lia.
Qed.

(** Over a run: the same, until an event removes it. *)
Definition removed_in (k : transactionKey) (e : transactionEntry) (evs : list server_event) (m : table) : Prop :=
  exists evs1 ev evs2 m1 m2 e1, evs = evs1 ++ ev :: evs2 /\ runs table_step evs1 m m1 /\
    m1 !! k = Some e1 /\ later e e1 /\ table_step ev m1 m2 /\ m2 !! k = None /\ removes ev e1.

Lemma table_runs_later evs m m' k e :
  runs table_step evs m m' -> m !! k = Some e ->
  (exists e', m' !! k = Some e' /\ later e e') \/ removed_in k e evs m.
Proof.
  intros H. revert e. induction H as [m|ev evs m m1 m' Hs Hr IH]; intros e He; [by left; exists e|].
  destruct (table_step_later _ _ _ _ _ Hs He) as [(e1 & He1 & Hl)|[Hn Hrem]].
  - destruct (IH _ He1) as [(e' & He' & Hl')|(evs1 & ev' & evs2 & m2 & m3 & e2 & -> & Hr1 & H2 & Hl2 & H)].
    + left. exists e'. split; [done|]. by etrans.
    + right. exists (ev :: evs1), ev', evs2, m2, m3, e2. split; [done|].
      split; [by econstructor|]. split; [done|]. split; [by etrans | done].
  - right. exists [], ev, evs, m, m1, e. split; [done|]. split; [constructor|]. done.
Qed.

End Runs.
