(* ===== verification/ServerReplies.v ===== *)
(** * What a client makes of the responses

    The protection parameters the table keeps are those of the requests it was made by,
    and the responses of [process], sent and received, verify. *)
From S2P Require Import Prelude Failure Errors Monad Asn1 Types StatusInfo Enrollment Crmf X509 Message.
From S2P Require Import MessageFacts BodyFacts RevocationMsg Algorithms Protect Verify Keeps TypesFacts.
From S2P Require Import ProtectFacts.
From S2P Require Import SignatureFacts Transactions TransactionsFacts Handler ServerRequest CAHandler Policy.
From S2P Require Import Server Snapshot ServerFacts ServerRuns ServerSafety TransactionMachine.

Section Params.
Context {CB : Cryptobyte} {L : CryptobyteLaws CB} {GN : GoNames} {GX : GoX509} {GA : GoASN1}
  {GC : GoCrypto} {GL : GoCryptoLaws GX GC} {GP : GoPBMAC1} {PL : GoPBMAC1Laws CB GP} {GR : GoRandom}.

(** ** The parameters a transaction keeps *)

(** Parameters that protect with the algorithm [alg], as a peer can read it. *)
Definition params_for (p : MACCredentialOption) (alg : option AlgorithmIdentifier) : Prop :=
  mac_config_wf (p emptyMacConfig) /\ Algorithm <$> alg = Some (configured_alg (p emptyMacConfig)).

Definition entry_params (e : transactionEntry) : Prop :=
  forall p, te_protectionParams e = Some p -> params_for p (te_protectionAlgorithm e).

(** Every transaction of the table keeps the parameters of its algorithm. *)
Definition params_ok (m : table) : Prop := map_Forall (fun _ e => entry_params e) m.

Lemma params_ok_new maxTxn maxPerCred : params_ok (transactions (newTransactionTracker maxTxn maxPerCred)).
Proof. apply map_Forall_empty. Qed.

(** A restored table has the parameters of the algorithms it was saved with. *)
Lemma restore_entry_params {GJ : GoJSON} now decode saved e :
  restore_entry now decode saved = Ok e -> entry_params e.
Proof.
  unfold restore_entry. intros H. repeat first [progress split_res | case_in H; [discriminate H|]].
  intros p. simpl. destruct (ProtectionAlgorithm saved) as [alg|]; [|done].
  intros [= <-]. done.
Qed.

Lemma restore_entries_params {GJ : GoJSON} now decode l next t :
  params_ok (transactions next) -> restore_entries now decode l next = Ok t -> params_ok (transactions t).
Proof.
  revert next. induction l as [|s l IH]; intros [m n mx cc mc] Hm; cbn [restore_entries].
  - by intros [= <-].
  - intros H. apply res_bind_ok in H as (e & He & H). case_in H; [done|]. case_in H; [done|].
    apply IH in H; [done|]. simpl. apply map_Forall_insert_2; [|done]. by eapply restore_entry_params.
Qed.

Lemma RestoreTransactions_params {GJ : GoJSON} {T} (c : serverConfig T) now data decode t t' :
  RestoreTransactions c now data decode t = Ok t' -> params_ok (transactions t').
Proof.
  unfold RestoreTransactions. intros H. repeat first [progress split_res | case_in H; [discriminate H|]].
  eapply restore_entries_params; [apply params_ok_new | exact H].
Qed.

Context {S : Type} (srv : Server S).

(** The table a server starts with: empty, or restored. *)
Definition started {GJ : GoJSON} (t : transactionTracker) : Prop :=
  (exists maxTxn maxPerCred, t = newTransactionTracker maxTxn maxPerCred) \/
  exists now data decode t0, RestoreTransactions (cfg srv) now data decode t0 = Ok t.

Lemma started_params {GJ : GoJSON} t : started t -> params_ok (transactions t).
Proof.
  intros [(m & n & ->)|(now & data & decode & t0 & H)]; [apply params_ok_new | by eapply RestoreTransactions_params].
Qed.

(** The parameters of a verified sender are those of its message. *)
Lemma verifyProtection_params now s msg sender :
  verifyProtection srv now s msg = Ok sender ->
  (si_MACVerified sender = true ->
   exists res params, Verify now msg (mac_options (secret sender)) = Ok res /\
     ProtectionParams res = Some params /\ si_protectionParams sender = Some params) /\
  (si_MACVerified sender = false -> si_protectionParams sender = None).
Proof.
  unfold verifyProtection. destruct (ProtectionAlg (Header msg)) as [a|] eqn:Ea; [|done].
  case_goal; [done|]. destruct (isMACAlgorithm (Algorithm a)) eqn:Em.
  - unfold verifyMACProtection. destruct (secretLookup (cfg srv)) as [lookup|]; [|done].
    destruct (lookup _ _ _) as [sec|er]; [|by destruct er].
    destruct (Verify now msg (mac_options sec)) as [vr|e] eqn:Ev; [|by case_goal].
    intros [= <-]. split; [|done]. intros _.
    destruct (Verify_mac_result now _ _ _ _ Ea Em Ev) as (params & ->). by eexists _, params.
  - unfold verifySignatureProtection. destruct (certificateLookup (cfg srv)) as [lookup|]; [|done].
    destruct (lookup _ _ _ _) as [c|er]; [|by destruct er].
    destruct (Verify now msg (signer_options srv c)); [|by repeat case_goal]. by intros [= <-].
Qed.

Lemma verified_params now s msg sender :
  verifyProtection srv now s msg = Ok sender ->
  forall p, si_protectionParams sender = Some p -> params_for p (ProtectionAlg (Header msg)).
Proof.
  intros H p Hp. destruct (verifyProtection_params _ _ _ _ H) as [Hmac Hsig].
  destruct (si_MACVerified sender); [|by rewrite Hsig in Hp].
  destruct Hmac as (res & q & Hv & Hr & Hq); [done|]. replace q with p in * by congruence.
  destruct (echo_config _ _ _ _ _ Hv Hr) as (alg & Ha & _ & _ & Hwf & Hcfg & _).
  rewrite Ha. split; [done|]. simpl. by rewrite Hcfg.
Qed.

Lemma delivered_params now s msg fwd req b sender ms :
  delivered srv now s msg fwd req b sender -> same_but_id req ms ->
  forall p, si_protectionParams (attributed fwd sender) = Some p -> params_for p (ProtectionAlg (Header ms)).
Proof.
  intros Hd Hid p Hp.
  assert (Hv : verifyProtection srv now s req = Ok sender) by (by destruct Hd as [? ? []|? ? ? ? ? ? ? ? []]).
  replace (ProtectionAlg (Header ms)) with (ProtectionAlg (Header req))
    by (destruct Hid as [->|(_ & i & ->)]; [done | by destruct req as [[] ? ? ? ? ?]]).
  eapply verified_params; [exact Hv|]. by destruct fwd, sender.
Qed.

(** An event keeps the parameters in order. *)
Lemma asked_params now msg sender credID resp rt id waiting polled e e' :
  (forall p, si_protectionParams sender = Some p -> params_for p (ProtectionAlg (Header msg))) ->
  entry_params e -> asked srv now msg sender credID resp rt id waiting polled e e' -> entry_params e'.
Proof. intros Hs He [wr _|r _ _|r crt _ _ _|r crt _ _ _]; [by intros p | done | exact Hs | by destruct e]. Qed.

Lemma table_step_params ev m m' : table_step srv ev m m' -> params_ok m -> params_ok m'.
Proof.
  intros [at_ msg resp m0 Hr | at_ msg resp m0 m1 s fwd req b sender ms credID Hd Hid Hc (x & Hx & ->)
    | at_ m0 m1 Hk] Hm; [done| |].
  2: { intros k e He. apply Hk in He as [He _]. by eapply Hm. }
  set (key := makeKey credID (TransactionID (Header ms))) in *.
  assert (Hin : forall e, x = Some e -> entry_params e).
  { intros e ->. pose proof (delivered_params _ _ _ _ _ _ _ _ Hd Hid) as Hp.
    inversion Hx as [y Hy|y Hy| | | | | |]; subst.
    - by eapply (Hm key).
    - by eapply (Hm key).
    - by intros p.
    - by intros p.
    - eapply asked_params; [exact Hp| |eassumption]. by intros p.
    - by intros p.
    - eapply asked_params; [exact Hp| |eassumption]. by eapply (Hm key). }
  intros k e. destruct (decide (key = k)) as [<-|Hne].
  - rewrite lookup_partial_alter_eq. apply Hin.
  - rewrite lookup_partial_alter_ne by done. apply Hm.
Qed.

Lemma runs_params evs w w' :
  params_ok (transactions (tracker w)) -> runs (server_step srv) evs w w' ->
  params_ok (transactions (tracker w')).
Proof.
  intros Hm H. induction H as [|ev evs w w1 w' Hs _ IH]; [done|].
  eapply IH, table_step_params; [|exact Hm]. by apply server_step_simulated.
Qed.

(** ** Responses over the wire *)

(** The algorithm a response to [req] is protected with: that of [req], or, for a
    confirmation, that of the request that is confirmed. *)
Inductive algorithm_of (t : transactionTracker) (req resp : PKIMessage) (s : SenderIdentity)
    : option AlgorithmIdentifier -> Prop :=
| algorithm_requested : algorithm_of t req resp s (ProtectionAlg (Header req))
| algorithm_confirmed b credID entry :
    Body req = Some b -> Type_ b = BodyTypeCertConf -> credentialID s = Ok credID ->
    getIssued credID (TransactionID (Header resp)) t = Some entry -> te_protectionParams entry <> None ->
    algorithm_of t req resp s (te_protectionAlgorithm entry).

(** The names of [resp] are read as [sd] and [rc]. *)
Definition names_read (sd rc : GeneralName) (resp : PKIMessage) : Prop :=
  reads_as (Sender (Header resp)) sd /\ reads_as (Recipient (Header resp)) rc.

Lemma protected_keeps sender q m resp :
  protected_for srv sender q m resp -> Body resp <> Some protection_unavailable -> keeps m resp.
Proof.
  intros [s creds random _ _ _ H | creds random _ _ _ H | _ _ _ -> | random r e _ ->] Hb; [| |done|].
  - pose proof (MACCredentials_Protect_keeps random creds m) as Hk. by rewrite H in Hk.
  - pose proof (SignatureCredentials_Protect_keeps random creds m) as Hk. by rewrite H in Hk.
  - exfalso. apply Hb. by destruct r as [[] ? ? ? ? ?].
Qed.

Lemma keeps_names m m' :
  keeps m m' -> Sender (Header m') = Sender (Header m) /\ Recipient (Header m') = Recipient (Header m).
Proof.
  intros [_ H]. destruct m as [[] ? ? ? ? ?], m' as [[] ? ? ? ? ?]. simpl in *. by injection H.
Qed.

(** A response can be sent if its names and the configured certificates can. *)
Lemma response_sendable now req body sender gi nonce resp sd rc :
  Forall (fun c => element (Raw c)) (cfg_extraCerts (cfg srv)) -> check_version req = None ->
  writable_body body -> Forall info_wf gi -> names_read sd rc resp ->
  keeps (response_message srv now req body sender gi nonce) resp ->
  sendable sd rc body (response_message srv now req body sender gi nonce).
Proof.
  intros Hec Hv [Hd Ht] Hgi [Hs Hr] Hk. apply keeps_names in Hk as [E1 E2]. rewrite E1 in Hs. rewrite E2 in Hr.
  split; [done|]. split; [done|]. split; [done|]. split.
  - split; [|by repeat split]. simpl. unfold check_version in Hv. case_in Hv; [done|]. case_in Hv; [done|].
    apply Z.ltb_ge in E, E0. unfold int64_ok, PVNO2, PVNO3 in *.
    apply andb_true_iff. rewrite Z.leb_le, Z.ltb_lt. lia.
  - simpl. apply Forall_fmap. exact Hec.
Qed.

Lemma same_but_id_version req ms : same_but_id req ms -> check_version ms = check_version req.
Proof. intros [->|(_ & i & ->)]; [done | by destruct req as [[] ? ? ? ? ?]]. Qed.

(** The parameters of a response are in order, and its algorithm is what it should be. *)
Lemma echoed_params now st t req ms s q resp :
  params_ok (transactions t) -> authenticated_sender srv now st req = Some s -> si_MACVerified s = true ->
  same_but_id req ms -> TransactionID (Header resp) = TransactionID (Header ms) -> echoed t ms (Some s) q ->
  exists p alg, q = Some p /\ params_for p alg /\ algorithm_of t req resp s alg.
Proof.
  intros Ht (_ & _ & _ & Hv)%authenticated_sender_Some Hm Hid Htx Hq.
  destruct Hq as [|b s' credID entry p H1 H2 [= <-] H4 H5 H6].
  - destruct (verifyProtection_params _ _ _ _ Hv) as [(res & p & _ & _ & Hp) _]; [done|].
    exists p, (ProtectionAlg (Header req)). split; [exact Hp|]. split; [by eapply verified_params|].
    apply algorithm_requested.
  - exists p, (te_protectionAlgorithm entry). split; [done|]. rewrite (same_but_id_body _ _ Hid) in H1.
    split; [|eapply algorithm_confirmed; [exact H1 | exact H2 | exact H4 | by rewrite Htx | by rewrite H6]].
    apply in_state in H5 as [H5 _]. by apply (Ht _ _ H5).
Qed.

(** A client that holds the secret accepts the response to a sender the server knows by it. *)
Lemma mac_reply_verified now now' st t req s sd rc resp m2 e :
  Forall (fun c => element (Raw c)) (cfg_extraCerts (cfg srv)) -> params_ok (transactions t) ->
  authenticated_sender srv now st req = Some s -> si_MACVerified s = true ->
  reply srv now t req (Some s) resp -> Body resp <> Some protection_unavailable -> names_read sd rc resp ->
  MarshalBinary resp = (m2, Ok e) ->
  exists b m3 params alg, Body resp = Some b /\ ParsePKIMessage e = Ok m3 /\ received sd rc b resp m3 /\
    algorithm_of t req resp s alg /\ Algorithm <$> ProtectionAlg (Header m3) = Algorithm <$> alg /\
    Verify now' m3 (mac_options (secret s)) = Ok (mkVerifyResult true (Some params) None).
Proof.
  intros Hec Ht Ha Hm (ms & m & Hid & (q & Hq & body & gi & i & Hb & Hgi & Hp) & Hs) Hne Hn He.
  pose proof (authenticated_uses_mac _ _ _ _ _ Ha) as Hu. rewrite Hm in Hu.
  pose proof Ha as (Hse & Hv & _)%authenticated_sender_Some.
  unfold versioned in Hs. rewrite Hse, Hv in Hs. subst m.
  pose proof (protected_keeps _ _ _ _ Hp Hne) as Hk.
  pose proof (an_transactionID _ _ _ (protected_for_answers _ _ _ _ _ _ _ _ _ Hp)) as Htx.
  destruct (echoed_params _ _ _ _ _ _ _ _ Ht Ha Hm Hid Htx Hq) as (p & alg & -> & [Hwf Halg] & Hof).
  assert (Hsend := response_sendable now ms body (Some s) gi _ resp sd rc Hec
    (eq_trans (same_but_id_version _ _ Hid) Hv) Hb Hgi Hn Hk).
  destruct Hp as [s' creds random [= <-] _ Hc H | creds random H _ _ _ | H _ _ _ | random r er _ ->];
    [|congruence..|exfalso; apply Hne; by destruct r as [[] ? ? ? ? ?]].
  unfold NewMACCredentials in Hc. case_in Hc; [done|]. cbn [option_list foldl] in Hc.
  case_in Hc; [done|]. injection Hc as <-. apply negb_false_iff, nonempty_true in E.
  destruct (mac_credentials_verified sd rc body random
    (mkMACCredentials (secret s) (p emptyMacConfig)) _ resp m2 e now' (mac_options (secret s))
    Hsend Hwf H He) as (_ & m3 & params & H3 & Hrec & Hal & Hver); [by split|].
  exists body, m3, params, alg. split; [by destruct Hk as [-> _]|]. split; [done|]. split; [done|].
  split; [done|]. split; [by rewrite Hal, Halg | done].
Qed.

(** A client that trusts the server accepts any other response of a version the server
    knows. *)
Lemma signed_reply_verified now now' t req sender creds sd rc resp m2 e o :
  signerErr (cfg srv) = None -> signerCreds (cfg srv) = Some creds -> element (Raw (sc_cert creds)) ->
  Forall (fun c => element (Raw c)) (sc_chain creds) -> cert_key (sc_cert creds) (Signer_Public (sc_key creds)) ->
  Forall (fun c => element (Raw c)) (cfg_extraCerts (cfg srv)) -> check_version req = None ->
  uses_mac sender = false -> reply srv now t req sender resp -> Body resp <> Some protection_unavailable ->
  names_read sd rc resp -> MarshalBinary resp = (m2, Ok e) -> trusts now' o (sc_cert creds) sd (ExtraCerts resp) ->
  exists b m3, Body resp = Some b /\ ParsePKIMessage e = Ok m3 /\ received sd rc b resp m3 /\
    Verify now' m3 o = Ok (mkVerifyResult false None (Some (sc_cert creds))).
Proof.
  intros Hse Hc Hel Hch Hkey Hec Hv Hm (ms & m & Hid & (q & _ & body & gi & i & Hb & Hgi & Hp) & Hs) Hne Hn He Htr.
  unfold versioned in Hs. rewrite Hse, Hv in Hs. subst m.
  pose proof (protected_keeps _ _ _ _ Hp Hne) as Hk.
  assert (Hsend := response_sendable now ms body sender gi _ resp sd rc Hec
    (eq_trans (same_but_id_version _ _ Hid) Hv) Hb Hgi Hn Hk).
  destruct Hp as [s' creds' random _ H _ _ | creds' random _ _ Hc' H | _ _ H _ | random r er _ ->];
    [congruence| |congruence|exfalso; apply Hne; by destruct r as [[] ? ? ? ? ?]].
  replace creds' with creds in * by congruence.
  destruct (signature_verified sd rc body random _ _ _ _ resp m2 e now' o Hsend Hel Hch Hkey H He Htr)
    as (_ & m3 & H3 & Hrec & Hver).
  exists body, m3. split; [by destruct Hk as [-> _]|]. done.
Qed.

End Params.
