(* ===== verification/ServerTotality.v ===== *)
(** * Every message is answered

    The runs of the server come to an end with a response: the nesting is at most
    two deep, and nothing the server does itself panics while the entries of issued
    transactions have their certificates. *)
From S2P Require Import Prelude Failure Errors Asn1 Asn1Facts Types StatusInfo Enrollment Crmf X509 Message.
From S2P Require Import RevocationMsg Monad Algorithms Protect Verify Transactions.
From S2P Require Import TransactionsFacts Handler ServerRequest CAHandler Policy Server ServerFacts.
From S2P Require Import ServerRuns Totality TypedBodies.

(** An issued transaction has its certificate, and [Known] holds of it. *)
Definition has_certs (Known : Certificate -> Prop) (t : transactionTracker) : Prop :=
  forall (k : transactionKey) e, transactions t !! k = Some e -> state e = stateIssued ->
    exists c, cert e = Some c /\ Known c.

Lemma has_certs_insert Known (k : transactionKey) e t :
  has_certs Known t -> (state e = stateIssued -> exists c, cert e = Some c /\ Known c) ->
  has_certs Known (set_transactions (<[k := e]> (transactions t)) t).
Proof.
  destruct t as [m n mx cc mc]. unfold has_certs. simpl. intros H He k' e' Hk.
  apply lookup_insert_Some in Hk as [[<- <-]|[_ Hk]]; eauto.
Qed.

Section Complete.
Context {CB : Cryptobyte} {GN : GoNames} {GX : GoX509}.

(** A message as the parser gives it: with a body, and so the messages nested in it. *)
Definition complete (msg : PKIMessage) : Prop :=
  exists b, Body msg = Some b /\ received b /\
    forall ms, snd (Nested b) = Ok ms ->
      Forall (fun o => exists m bi, o = Some m /\ Body m = Some bi /\ received bi) ms.

Lemma complete_received msg b : complete msg -> Body msg = Some b -> received b.
Proof. intros (b' & Hb' & Hr & _) Hb. congruence. Qed.

Lemma parsed_complete {L : CryptobyteLaws CB} der m : ParsePKIMessage der = Ok m -> complete m.
Proof.
  intros Hp. destruct (parsed_received _ _ Hp) as (b & Hb & Hr). exists b. split; [done|]. split; [done|].
  intros ms H. apply typed_get_Nested in H as [_ H]; [|done]. eapply Forall_impl; [exact H|].
  intros o (x & d & -> & Hx). destruct (parsed_received _ _ Hx) as (bi & Hbi & Hri). by exists x, bi.
Qed.

End Complete.

Section Totality.
Context {CB : Cryptobyte} {GN : GoNames} {GX : GoX509} {GA : GoASN1} {GC : GoCrypto}
  {GP : GoPBMAC1} {GR : GoRandom}.
Context {S : Type} (srv : Server S) (now : Time) (Inv : S -> Prop) (Known : Certificate -> Prop).

(** A method of the CA that does not panic and keeps the invariant of its state. *)
Definition sound_call {A} (m : ST S A) : Prop :=
  forall s, Inv s -> Inv (fst (m s)) /\ snd (m s) <> Err GoPanic.

(** What the server expects of the code it calls: no panic while the state of the CA
    is as [Inv] says, which every call keeps, a response to every request and poll that
    is not refused, and only certificates that [Known] holds of. *)
Record well_behaved : Prop := {
  wb_handler : forall ctx msg b sender, Body msg = Some b -> received b ->
    sound_call (handler srv ctx msg sender);
  wb_issued : forall ctx msg b sender s resp c, Inv s -> Body msg = Some b ->
    snd (handler srv ctx msg sender s) = Ok (Some resp) -> resp_Certificate resp = Some c -> Known c;
  wb_response : forall ctx msg b sender s, Inv s -> Body msg = Some b ->
    isCertRequest (Type_ b) = true \/ Type_ b = BodyTypePollReq ->
    snd (handler srv ctx msg sender s) <> Ok None;
  wb_confirmer : forall confirm ctx c st ref, confirmer (cfg srv) = Some confirm ->
    sound_call (confirm ctx c st ref);
  wb_authorizer : forall authorize ctx ra msg sender, raAuthorizer (cfg srv) = Some authorize ->
    sound_call (authorize ctx ra msg sender);
  wb_secrets : forall lookup name kid s, Inv s -> secretLookup (cfg srv) = Some lookup ->
    lookup s name kid <> Err GoPanic;
  wb_certificates : forall lookup issuer name kid s, Inv s -> certificateLookup (cfg srv) = Some lookup ->
    lookup s issuer name kid <> Err GoPanic
}.

(** The table and the CA as they should be. *)
Definition good (w : World S) : Prop := has_certs Known (tracker w) /\ Inv (ca_state w).

(** A run that ends, in a table as it should be, with a value that [P] holds of. *)
Definition ends {A} (P : A -> Prop) (m : ST (World S) A) : Prop :=
  forall w, good w -> exists w' a, m w = (w', Ok a) /\ good w' /\ P a.
Definition any_value {A} (a : A) : Prop := True.

Lemma ends_ret {A} (P : A -> Prop) a : P a -> ends P (st_ret a).
Proof. intros H w Hw. by exists w, a. Qed.
Lemma ends_bind {A B} (P : A -> Prop) (Q : B -> Prop) m k :
  ends P m -> (forall a, P a -> ends Q (k a)) -> ends Q (st_bind m k).
Proof.
  intros Hm Hk w Hw. destruct (Hm w Hw) as (w1 & a & E & Hw1 & Ha).
  destruct (Hk a Ha w1 Hw1) as (w2 & b & E2 & H). exists w2, b. split; [|done].
  unfold st_bind. by rewrite E.
Qed.
(** The table as it is when a method reads it. *)
Lemma ends_get {A} (P : A -> Prop) k :
  (forall w, good w -> ends P (k w)) -> ends P (st_bind st_get k).
Proof. intros H w Hw. exact (H w Hw w Hw). Qed.
Lemma ends_any {A} (P : A -> Prop) m : ends P m -> ends any_value m.
Proof. intros H w Hw. destruct (H w Hw) as (w' & a & E & ? & _). by exists w', a. Qed.

(** ** The parts of the world *)

Lemma ends_draw {A} (f : nat -> A) : ends any_value (draw f : ST (World S) A).
Proof. intros [t n s] Hw. by exists (mkWorld t (Datatypes.S n) s), (f n). Qed.

Lemma ends_on_ca {A} (m : ST S A) (P : result A -> Prop) :
  sound_call m -> (forall s, Inv s -> P (snd (m s))) -> ends P (on_ca (call m) : ST (World S) _).
Proof.
  intros H HP w [Ht Hi]. rewrite on_ca_run. destruct (H _ Hi) as [Hi' Hne]. specialize (HP _ Hi).
  unfold call. destruct (m (ca_state w)) as [s' r] eqn:E. simpl in *.
  exists (mkWorld (tracker w) (draws w) s'), r. split; [|done].
  by destruct r as [a|[]].
Qed.

Lemma ends_on_tracker {A} (m : ST transactionTracker A) :
  (forall t, has_certs Known t -> exists t' a, m t = (t', Ok a) /\ has_certs Known t') ->
  ends any_value (on_tracker m : ST (World S) A).
Proof.
  intros H w [Hw Hi]. rewrite on_tracker_run. destruct (H _ Hw) as (t' & a & -> & Ht').
  by eexists _, a.
Qed.

Lemma ends_build req body sender gi p : ends any_value (buildResponseInternal srv now req body sender gi p).
Proof.
  intros w Hw. destruct (buildResponseInternal_spec srv now req body sender gi p w) as (r & E & _).
  by exists (drawn 2 w), r.
Qed.
Lemma ends_error req sender si : ends any_value (buildErrorResponse srv now req sender si).
Proof. apply ends_build. Qed.

Lemma advance_total key e :
  (state e = stateIssued -> exists c, cert e = Some c /\ Known c) -> forall t, has_certs Known t ->
  exists t' b, advance key e t = (t', Ok b) /\ has_certs Known t'.
Proof.
  intros He t Ht. rewrite advance_spec. destruct (transactions t !! key) as [old|]; [|by exists t, false].
  destruct (may_advance old); [|by exists t, false].
  eexists _, true. split; [done|]. by apply has_certs_insert.
Qed.

Lemma setCompleted_total c tx t :
  has_certs Known t -> exists t' u, setCompleted now c tx t = (t', Ok u) /\ has_certs Known t'.
Proof.
  intros Ht. rewrite setCompleted_spec. destruct (transactions t !! makeKey c tx) as [e|]; [|by exists t, tt].
  eexists _, tt. split; [done|]. apply has_certs_insert; [done|]. by destruct e.
Qed.

Lemma delete_total c tx t :
  has_certs Known t -> exists t' u, delete_txn c tx t = (t', Ok u) /\ has_certs Known t'.
Proof.
  intros Ht. rewrite delete_txn_spec. destruct (transactions t !! makeKey c tx) as [e|] eqn:E.
  - eexists _, tt. split; [done|]. intros k' e' Hk. simpl in Hk.
    apply lookup_delete_Some in Hk as [_ Hk]. by eapply Ht.
  - exists t, tt. by rewrite delete_absent.
Qed.

Lemma start_total c tx t :
  has_certs Known t -> exists t' r, call (startIfAbsent now c tx) t = (t', Ok r) /\ has_certs Known t'.
Proof.
  intros Ht. unfold call. destruct (startIfAbsent_outcome now c tx t) as [t' ? Hs|t' ? ? Hs|t' e ? ? ? Hs|];
    try (eexists t', _; split; [done|]; intros k e'; by rewrite (proj1 Hs); apply Ht).
  eexists _, _. split; [done|]. intros k e Hk. simpl in Hk.
  apply lookup_insert_Some in Hk as [[<- <-]|[_ Hk]]; [done | by eapply Ht].
Qed.

(** ** The handlers of the server *)

Context (Hwb : well_behaved).

(** What the server may rely on in the answer [r] of its handler to a body [b]. *)
Definition fit_answer (b : PKIBody) (r : result (option Response)) : Prop :=
  (isCertRequest (Type_ b) = true \/ Type_ b = BodyTypePollReq -> r <> Ok None) /\
  forall resp c, r = Ok (Some resp) -> resp_Certificate resp = Some c -> Known c.

Lemma ends_handler ctx msg sender b :
  Body msg = Some b -> received b ->
  ends (fit_answer b) (on_ca (call (handler srv ctx msg sender))).
Proof.
  intros Hb Hr. apply ends_on_ca; [by eapply wb_handler|].
  intros s Hs. split; intros; [by eapply wb_response | by eapply wb_issued].
Qed.

Lemma ends_record ctx msg credID rt id resp sender respMsg :
  (forall c, resp_Certificate resp = Some c -> Known c) ->
  ends any_value (record_issuance srv now ctx msg credID rt id resp sender respMsg).
Proof.
  intros Hk. unfold record_issuance, setIssued. destruct (resp_Certificate resp) as [crt|]; [|by apply ends_ret].
  case_goal.
  - eapply ends_bind; [apply ends_on_tracker; intros; by apply setCompleted_total|]. intros _ _.
    destruct (confirmer (cfg srv)) as [confirm|] eqn:E0; [|by apply ends_ret].
    eapply ends_bind; [apply (ends_on_ca _ any_value)|]; [by apply (wb_confirmer Hwb)|done|].
    intros; by apply ends_ret.
  - eapply ends_bind; [apply ends_on_tracker; intros; apply advance_total; eauto|].
    intros [|] _; [by apply ends_ret | apply ends_error].
Qed.

Lemma ends_pending c tx rt ref sn ca lp :
  ends any_value (on_tracker (setPending now c tx rt ref sn ca lp) : ST (World S) bool).
Proof. apply ends_on_tracker. intros t Ht. by apply advance_total. Qed.

Lemma ends_request ctx msg sender b :
  Body msg = Some b -> received b -> isCertRequest (Type_ b) = true ->
  ends any_value (handleCertRequest srv now ctx msg sender).
Proof.
  intros Hb Hrb Ht. unfold handleCertRequest. destruct (senderCredential sender); [|apply ends_error].
  apply ends_get. intros w _. destruct (getPending _ _ _); [apply ends_error|].
  unfold certReqIDFromRequest, body_type. rewrite Hb. cbn [res_bind].
  eapply (ends_bind any_value).
  { intros w0 Hw0. unfold st_lift. case_goal; [by eexists _, _|].
    destruct (parseCRMFMsg msg); by eexists _, _. }
  intros id _. eapply (ends_bind (fun t => t = Type_ b)); [intros w0 ?; by exists w0, (Type_ b)|].
  intros t ->. eapply ends_bind; [by apply ends_handler|]. intros r [Hr Hk].
  destruct r as [[r|]|e]; [|by destruct (Hr (or_introl Ht))|].
  - destruct (Waiting r) as [wr|].
    + eapply ends_bind; [apply ends_build|]. intros m _.
      eapply ends_bind; [apply ends_pending|]. intros [|] _; [by apply ends_ret | apply ends_error].
    + eapply ends_bind; [apply ends_build|]. intros m _. apply ends_record. eauto.
  - unfold refuse_request. case_goal; apply ends_build.
Qed.

Lemma ends_poll ctx msg sender b :
  Body msg = Some b -> received b -> Type_ b = BodyTypePollReq -> ends any_value (handlePollReq srv now ctx msg sender).
Proof.
  intros Hb Hrb Ht. unfold handlePollReq. rewrite Hb. destruct (snd (PollReq b)); [|apply ends_error].
  destruct (senderCredential sender); [|apply ends_error]. apply ends_get. intros w _.
  destruct (getPending _ _ _) as [e|]; [|apply ends_error].
  case_goal; [apply ends_error|]. case_goal; [apply ends_error|]. case_goal; [apply ends_error|].
  eapply ends_bind; [by apply ends_handler|]. intros r [Hr Hk].
  destruct r as [[r|]|e']; [|by destruct (Hr (or_intror Ht))|apply ends_error].
  destruct (Waiting r) as [wr|].
  - eapply ends_bind; [apply ends_build|]. intros m _.
    eapply ends_bind; [apply ends_pending|]. intros [|] _; [by apply ends_ret | apply ends_error].
  - eapply ends_bind; [apply ends_build|]. intros m _. apply ends_record. eauto.
Qed.

Lemma check_each_panics entry first l :
  cert entry <> None -> check_each entry first l <> Err GoPanic.
Proof.
  intros Hc. induction l as [|cs l IH]; [done|]. cbn [check_each]. unfold checkCertStatus.
  destruct (cert entry); [|done]. destruct (CertificateHash _ _); [|done]. by repeat case_goal.
Qed.

Lemma certConf_guards_panics msg sender conf entry :
  cert entry <> None -> certConf_guards srv msg sender conf entry <> Err GoPanic.
Proof.
  intros Hc. unfold certConf_guards. destruct (checkCertStatuses srv conf entry) as [|e] eqn:E.
  - simpl. by repeat case_goal.
  - simpl. intros [= ->]. unfold checkCertStatuses in E. case_in E; [done|].
    destruct conf; [done|]. by apply check_each_panics in E.
Qed.

Lemma issued_cert t (k : transactionKey) e :
  has_certs Known t -> transactions t !! k = Some e -> state e = stateIssued -> cert e <> None.
Proof. intros Ht Hk Hs. destruct (Ht _ _ Hk Hs) as (c & -> & _). done. Qed.

Lemma ends_certConf ctx msg sender b :
  Body msg = Some b -> received b -> ends any_value (handleCertConf srv now ctx msg sender).
Proof.
  intros Hb Hrb. unfold handleCertConf. rewrite Hb. destruct (snd (CertConf b)) as [conf|]; [|apply ends_error].
  case_goal; [apply ends_error|]. destruct (senderCredential sender); [|apply ends_error].
  apply ends_get. intros w Hw. unfold getIssued, get_in_state.
  destruct (transactions (tracker w) !! _) as [entry|] eqn:Ee; [|apply ends_error].
  case_bool_decide as Hs; [|apply ends_error].
  pose proof (certConf_guards_panics msg sender conf entry (issued_cert _ _ _ (proj1 Hw) Ee Hs)) as Hp.
  destruct (certConf_guards srv msg sender conf entry) as [u|e].
  - eapply ends_bind; [by apply ends_handler|]. intros [o|e] _; [|apply ends_build].
    eapply ends_bind; [apply ends_on_tracker; intros; by apply delete_total|]. intros _ _. apply ends_build.
  - destruct e; try done; apply ends_error.
Qed.

Lemma ends_revocation ctx msg sender b :
  Body msg = Some b -> received b -> ends any_value (handleRevocation srv now ctx msg sender).
Proof.
  intros Hb Hrb. unfold handleRevocation. destruct (senderCredential sender); [|apply ends_error].
  eapply ends_bind; [by apply ends_handler|]. intros r _.
  eapply (ends_bind any_value).
  { destruct r as [o|e]; [|case_goal; apply ends_build]. destruct (o ≫= Waiting); apply ends_build. }
  intros m _. eapply ends_bind; [apply ends_on_tracker; intros; by apply setCompleted_total|].
  intros _ _. by apply ends_ret.
Qed.

Lemma ends_dispatch ctx msg sender b :
  Body msg = Some b -> received b -> ends any_value (dispatch srv now ctx msg (Type_ b) sender).
Proof.
  intros Hb Hrb. unfold dispatch. destruct (isCertRequest (Type_ b)) eqn:Et; [by eapply ends_request|].
  case_goal; [by eapply ends_certConf|].
  case_goal; [eapply ends_poll; [done..| by apply Z.eqb_eq]|].
  case_goal; [by eapply ends_revocation|]. case_goal; apply ends_build.
Qed.

(** ** Admission and processing *)

Lemma check_header_panics msg f : check_header srv now msg f <> Err GoPanic.
Proof. unfold check_header. by repeat case_goal. Qed.

Lemma ends_admit msg f sender :
  ends any_value (call (admit_transaction srv now msg f sender)).
Proof.
  intros w [Hw Hi]. unfold call, admit_transaction, st_bind at 1, st_lift at 1.
  pose proof (check_header_panics msg f) as Hp.
  destruct (check_header srv now msg f) as [u|e]; [|destruct e; try done; by eexists _, _].
  destruct (senderCredential sender) as [c|]; [|by eexists _, _].
  destruct (negb f); [by eexists _, _|]. unfold st_bind. rewrite on_tracker_run.
  destruct (start_total c (TransactionID (Header msg)) (tracker w) Hw) as (t' & r & -> & Ht').
  cbn [fst snd]. destruct r as [[|]|e]; by eexists _, _.
Qed.

Lemma ends_validate msg sender b :
  Body msg = Some b ->
  ends (fun p => Body (fst p) = Some b) (validateHeader srv now msg sender).
Proof.
  intros Hb. unfold validateHeader, body_type. rewrite Hb.
  eapply (ends_bind (fun t => t = Type_ b)); [intros w ?; by exists w, (Type_ b)|]. intros t ->.
  case_goal; [by apply ends_ret|].
  eapply (ends_bind (fun m => Body m = Some b)).
  { case_goal; [|by apply ends_ret]. eapply ends_bind; [apply ends_draw|]. intros i _.
    apply ends_ret. by destruct msg. }
  intros m Hm. eapply ends_bind; [apply ends_admit|]. intros r _. by apply ends_ret.
Qed.

Lemma ends_process_verified ctx msg fwd sender b :
  Body msg = Some b -> received b -> raAuthorizer (cfg srv) <> None \/ fwd = None ->
  ends any_value (process_verified srv now ctx msg (Type_ b) fwd sender).
Proof.
  intros Hb Hrb Hra. unfold process_verified.
  assert (Hrest : forall sd, ends any_value
    (let! (msg, err) := validateHeader srv now msg sd in
     match err with
     | Some err => buildErrorResponse srv now msg (Some sd) (rejection_info err)
     | None => dispatch srv now (if allowSHA1Signatures (cfg srv)
                 then contextWithSHA1Signatures ctx else ctx) msg (Type_ b) sd
     end)).
  { intros sd. eapply ends_bind; [by apply ends_validate|]. intros [m [e|]] Hm; [apply ends_error|].
    by apply ends_dispatch. }
  destruct fwd as [f|]; [|eapply (ends_bind any_value); [by apply ends_ret|]; intros [|] _; apply Hrest].
  destruct (raAuthorizer (cfg srv)) as [authorize|] eqn:Ea; [|by destruct Hra].
  eapply (ends_bind any_value).
  - apply ends_on_ca; [by apply (wb_authorizer Hwb) | done].
  - intros [u|e] _; [apply Hrest | apply ends_error].
Qed.

Lemma verifyProtection_panics s msg : Inv s -> verifyProtection srv now s msg <> Err GoPanic.
Proof.
  intros Hs. unfold verifyProtection. destruct (ProtectionAlg (Header msg)) as [a|]; [|done].
  case_goal; [done|]. case_goal.
  - unfold verifyMACProtection. destruct (secretLookup (cfg srv)) as [lookup|] eqn:El; [|done].
    pose proof (wb_secrets Hwb _ (header_name (Sender (Header msg))) (SenderKID (Header msg)) _ Hs El) as Hp.
    destruct (lookup _ _ _) as [sec|e]; [|by destruct e]. destruct (Verify _ _ _); [done|]. by case_goal.
  - unfold verifySignatureProtection. destruct (certificateLookup (cfg srv)) as [lookup|] eqn:El; [|done].
    pose proof (wb_certificates Hwb _ (header_name (Recipient (Header msg)))
      (header_name (Sender (Header msg))) (SenderKID (Header msg)) _ Hs El) as Hp.
    destruct (lookup _ _ _ _) as [crt|e]; [|by destruct e]. destruct (Verify _ _ _); [done|].
    by repeat case_goal.
Qed.

Lemma check_nested_complete msg b :
  complete msg -> Body msg = Some b -> check_nested srv msg b <> Err GoPanic.
Proof.
  intros (b' & Hb' & _ & Hn) Hb. rewrite Hb' in Hb. injection Hb as ->. unfold check_nested.
  case_goal; [done|]. destruct (snd (Nested b)) as [[|[r|] [|]]|] eqn:En; try done.
  - specialize (Hn _ eq_refl). apply Forall_cons in Hn as [(m & bi & [= <-] & Hm & _) _]. unfold body_type.
    rewrite Hm. simpl. by repeat case_goal.
  - specialize (Hn _ eq_refl). by apply Forall_cons in Hn as [(m & bi & [=] & _) _].
Qed.

Lemma ends_process fuel ctx msg fwd b :
  Body msg = Some b -> complete msg -> raAuthorizer (cfg srv) <> None \/ fwd = None ->
  (Type_ b = BodyTypeNested -> (0 < fuel)%nat) ->
  ends any_value (process srv now (Datatypes.S fuel) ctx msg fwd).
Proof.
  revert ctx msg fwd b. induction fuel as [|fuel IH]; intros ctx msg fwd b Hb Hc Hra Hf;
    [|remember (Datatypes.S fuel) as depth eqn:Edepth]; cbn [process].
  all: destruct (signerErr (cfg srv)); [apply ends_error|].
  all: destruct (check_version msg); [eapply ends_bind; [apply ends_error|]; intros; by apply ends_ret|].
  all: destruct (verifyRecipient srv msg); [|apply ends_error].
  all: apply ends_get; intros w [_ Hi]; pose proof (verifyProtection_panics (ca_state w) msg Hi) as Hv.
  all: destruct (verifyProtection srv now (ca_state w) msg) as [sender|e];
    [|destruct e; first [done | apply ends_error]].
  all: rewrite Hb; destruct (check_profile srv msg (Type_ b) sender); [|apply ends_error].
  all: destruct (Z.eqb_spec (Type_ b) BodyTypeNested) as [Et|Et]; [|by eapply ends_process_verified, Hra; [done | eapply complete_received]].
  - lia.
  - pose proof (check_nested_complete _ _ Hc Hb) as Hp.
    destruct (check_nested srv msg b) as [req|e] eqn:En; [|destruct e; try done; apply ends_error].
    destruct (check_nested_ok srv _ _ _ En) as (Hr & Hms & Hty & _).
    destruct Hc as (b' & Hb' & _ & Hall). rewrite Hb' in Hb. injection Hb as ->.
    specialize (Hall _ Hms). apply Forall_cons in Hall as [(m & bi & [= <-] & Ebi & Hri) _]. specialize (Hty _ Ebi).
    refine (IH ctx req (Some (mkForwarding msg sender)) bi Ebi _ (or_introl Hr) (fun E => False_ind _ (Hty E))). exists bi. split; [done|]. split; [done|].
    intros ms Hnest. unfold Nested in Hnest. apply Z.eqb_neq in Hty. by rewrite Hty in Hnest.
Qed.

(** ** The sweep *)

Lemma cleanup_total age t :
  has_certs Known t -> exists t' l, cleanupExpired now age t = (t', Ok l) /\ has_certs Known t'.
Proof.
  intros Ht. destruct (Z.leb_spec age 0) as [Hle|Hlt].
  - exists t, []. unfold cleanupExpired. by rewrite (proj2 (Z.leb_le _ _) Hle).
  - destruct (cleanupExpired_spec (fun _ => True) now _ t Hlt) as (t' & -> & _ & Hk).
    eexists t', _. split; [done|]. intros k e H. apply Hk in H as [H _]. by eapply Ht.
Qed.

Lemma ends_notify l : ends any_value (notify_expired srv l).
Proof.
  induction l as [|e l IH]; cbn [notify_expired]; [by apply ends_ret|].
  destruct (confirmer (cfg srv)) as [confirm|] eqn:Ec; [|by apply ends_ret].
  eapply ends_bind; [apply (ends_on_ca _ any_value)|]; [by apply (wb_confirmer Hwb)|done|]. by intros.
Qed.

Lemma ends_cleanup : ends any_value (CleanupExpired srv now).
Proof.
  eapply ends_bind; [apply ends_on_tracker; intros; by apply cleanup_total|]. intros l _. apply ends_notify.
Qed.

(** ** Messages *)

Lemma ends_message msg : complete msg -> ends any_value (processMessage srv now msg).
Proof.
  intros Hc. pose proof Hc as (b & Hb & _).
  by apply (ends_process 1 context_Background msg None b Hb Hc (or_intror eq_refl) (fun _ => Nat.lt_0_1)).
Qed.

End Totality.
