(* ===== verification/MockFacts.v ===== *)
(** * The example CA behind its server

    The handler of the program completes on every message the parser gives, keeps the
    invariant of the CA and issues only certificates that follow its rules. *)
From S2P Require Import Prelude Failure Errors Asn1 Types StatusInfo Enrollment Crmf X509 Message.
From S2P Require Import RevocationMsg Totality Monad Algorithms Protect Verify Transactions.
From S2P Require Import Handler ServerRequest CAHandler Policy Http Server ServerHTTP MockCA.
From S2P Require Import ServerRuns ServerSafety Authority ServerTotality.

(** ** The request side completes *)

Lemma completes_no_panic {A} (r : result A) : completes r -> r <> Err GoPanic.
Proof. by intros H ->. Qed.

Section Requests.
Context {CB : Cryptobyte} {L : CryptobyteLaws CB} {GN : GoNames} {GX : GoX509} {GA : GoASN1} {GC : GoCrypto}.

Lemma crmf_body_completes msg b other :
  Body msg = Some b -> received b -> completes other -> completes (crmf_body msg other).
Proof.
  intros Hb Hr Ho. unfold crmf_body. rewrite Hb.
  repeat case_goal; try done; apply total_getter; first [apply _ | done].
Qed.

Lemma parseCRMFMsg_completes msg b :
  Body msg = Some b -> received b -> completes (parseCRMFMsg msg).
Proof.
  intros Hb Hr. unfold parseCRMFMsg. apply bind_total; [by eapply crmf_body_completes|].
  intros msgs. unfold template_publicKey, template_extensions. total.
Qed.

Lemma enforce_completes ctx msg b :
  Body msg = Some b -> received b -> completes (enforceProofOfPossession ctx msg).
Proof.
  intros Hb Hr. unfold enforceProofOfPossession. rewrite Hb. case_goal.
  - pose proof (total_get_P10CR b Hr) as Hp. destruct (snd (P10CR b)); [|done]. by repeat case_goal.
  - case_goal; [|done]. apply bind_total; [by eapply parseCRMFMsg_completes|]. intros crmf.
    by repeat case_goal.
Qed.

Lemma decodeBasicConstraints_completes exts : completes (decodeBasicConstraints exts).
Proof.
  induction exts as [|e exts IH]; [done|]. cbn [decodeBasicConstraints]. repeat (case_goal; try done).
  by apply bind_total.
Qed.

Lemma checkBasicConstraints_completes exts : completes (checkBasicConstraints exts).
Proof.
  apply bind_total; [apply decodeBasicConstraints_completes|]. intros all. by repeat case_goal.
Qed.

Lemma revocation_reason_completes exts reason has : completes (revocation_reason exts reason has).
Proof.
  revert reason has. induction exts as [|e exts IH]; intros reason has; [done|].
  cbn [revocation_reason]. repeat (case_goal; try done).
Qed.

Lemma parseRevocationRequest_completes msg b :
  Body msg = Some b -> received b -> completes (parseRevocationRequest msg).
Proof.
  intros Hb Hr. unfold parseRevocationRequest. rewrite Hb.
  assert (Hg : completes (snd (RR b))) by (apply total_getter; [apply _|done]).
  destruct (snd (RR b)) as [[|d [|]]|]; try done.
  apply bind_total; [by apply of_option_total|]. intros serial.
  apply bind_total; [by case_goal; [apply of_option_total|]|]. intros issuer. case_goal; [done|].
  destruct (CRLEntryExtensions d); [|done]. apply bind_total; [apply revocation_reason_completes|].
  by intros [? ?].
Qed.

Lemma policy_check_completes ctx msg b sender :
  Body msg = Some b -> received b -> completes (policy_check ctx msg (Type_ b) sender).
Proof.
  intros Hb Hr. unfold policy_check. repeat (case_goal; try done).
  - unfold validateRR. case_goal; [done|].
    apply bind_total; [by eapply parseRevocationRequest_completes|]. intros req. by case_goal.
  - unfold validateP10CR. rewrite Hb. destruct (snd (P10CR b)); [|done].
    apply bind_total; [by eapply enforce_completes|]. intros _. case_goal; [done|].
    apply checkBasicConstraints_completes.
  - unfold validateCRMF. apply bind_total; [by eapply parseCRMFMsg_completes|]. intros crmf.
    case_goal; [done|]. apply bind_total; [by eapply enforce_completes|]. intros _. case_goal; [done|].
    apply checkBasicConstraints_completes.
Qed.

Lemma issuance_template_completes ctx msg b :
  Body msg = Some b -> received b -> completes (issuance_template ctx msg).
Proof.
  intros Hb Hr. apply bind_total; [by eapply enforce_completes|]. intros _. apply bind_total.
  - unfold request_fields. rewrite Hb. case_goal.
    + destruct (snd (P10CR b)); [|done]. apply bind_total; [by apply of_option_total|done].
    + apply bind_total; [by eapply parseCRMFMsg_completes|done].
  - intros [[subject pub] exts]. apply bind_total; [apply decodeBasicConstraints_completes|].
    intros bcs. apply bind_total; [by apply of_option_total|done].
Qed.

End Requests.

(** ** The rules of the CA *)

Section Mock.
Context {CB : Cryptobyte} {L : CryptobyteLaws CB} {GN : GoNames} {GX : GoX509} {GA : GoASN1} {GC : GoCrypto}
  {GP : GoPBMAC1} {GR : GoRandom} {GH : GoHTTP} {GI : GoIssuing}.

(** What the CA [crt] signs: a serial number it drew, its name as issuer, digital
    signature as the only key usage, no extension that overrides it or makes a CA, a
    subject, and a key the requester proved to have. *)
Record template_rules (crt tmpl : Certificate) : Prop := {
  tr_serial : exists i n, GenerateSerial i = Ok n /\ SerialNumber tmpl = Some n;
  tr_issuer : Issuer tmpl = Subject crt;
  tr_usage : KeyUsage tmpl = KeyUsageDigitalSignature;
  tr_no_usage : Forall (fun e => Id e <> oidKeyUsage) (ExtraExtensions tmpl);
  tr_no_ca : no_ca (ExtraExtensions tmpl) /\ cert_IsCA tmpl = false /\ BasicConstraintsValid tmpl = false;
  tr_subject : Name_String (Subject tmpl) <> "";
  tr_key : exists ctx b pub, cert_PublicKey tmpl = Some pub /\ possession ctx b pub
}.

(** The certificate is one the CA signed under those rules. *)
Definition issued_by (key : Signer) (crt c : Certificate) : Prop :=
  exists random tmpl der, template_rules crt tmpl /\
    x509_CreateCertificate random tmpl crt (cert_PublicKey tmpl) key = Some der /\
    x509_ParseCertificate der = Some c.

(** The invariant of a CA with the key [key] and the certificate [crt]. *)
Record mock_ok (key : Signer) (crt : Certificate) (c : MockCA) : Prop := {
  mo_key : ca_key c = key;
  mo_cert : ca_cert c = crt;
  mo_log : hasLog c = true;
  mo_issued : Forall (issued_by key crt) (issuedCerts c);
  mo_counter : nextIssueID c = Z.of_nat (length (issuedCerts c)) mod 2 ^ 64;
  mo_revoked : forall serial reason, revoked c !! serial = Some reason ->
    (exists crt', crt' ∈ issuedCerts c /\ serial = big_String (SerialNumber crt')) /\
    reason <> CRLReasonCertificateHold /\ reason <> CRLReasonRemoveFromCRL
}.

(** What the calls of a CA leave: it forgets nothing, and keeps its key. *)
Record mock_grows (c c' : MockCA) : Prop := {
  mg_key : ca_key c' = ca_key c;
  mg_cert : ca_cert c' = ca_cert c;
  mg_log : hasLog c' = hasLog c;
  mg_secrets : secrets c' = secrets c;
  mg_issued : issuedCerts c `prefix_of` issuedCerts c';
  mg_revoked : revoked c ⊆ revoked c'
}.
#[export] Instance mock_grows_refl : Reflexive mock_grows.
Proof. by constructor. Qed.
#[export] Instance mock_grows_trans : Transitive mock_grows.
Proof. intros x y z [] []. constructor; [congruence..|by etrans|by etrans]. Qed.

(** ** The methods *)

Definition reread (n : nat) (c : MockCA) : MockCA :=
  mkMockCA (ca_key c) (ca_cert c) (issuedCerts c) (revoked c) (secrets c) (nextIssueID c) (hasLog c)
    (n + reads c).

Lemma reread_ok key crt n c : mock_ok key crt c -> mock_ok key crt (reread n c).
Proof. intros []. by constructor. Qed.
Lemma reread_grows n c : mock_grows c (reread n c).
Proof. by constructor. Qed.

(** What an issuance leaves. *)
Definition issuance (rt : RequestType) (tmpl : Certificate) (c c' : MockCA) (r : result (option Response))
    : Prop :=
  (exists n e, c' = reread n c /\ r = Err e /\ e <> GoPanic) \/
  exists n i serial t1 t2 random der cert,
    let tmpl' := issuance_fields (Some serial) (Subject (ca_cert c)) t1 t2 KeyUsageDigitalSignature
      (List.filter (fun e => negb (OID_Equal (Id e) oidKeyUsage)) (ExtraExtensions tmpl)) tmpl in
    GenerateSerial i = Ok serial /\
    x509_CreateCertificate random tmpl' (ca_cert c) (cert_PublicKey tmpl) (ca_key c) = Some der /\
    x509_ParseCertificate der = Some cert /\
    c' = add_issueID (append_issued cert (reread n c)) /\
    r = Ok (Some (mkResponse (Some cert) (if bool_decide (rt = RequestIR) then [ca_cert c] else [])
                    None (Some (nextIssueID c')))).

Lemma issue_spec ctx rt tmpl sender c c' r :
  hasLog c = true -> MockCA_IssueCertificate ctx rt tmpl sender c = (c', r) -> issuance rt tmpl c c' r.
Proof.
  destruct c as [k crt iss rev sec n log rd]. cbn [hasLog]. intros ->.
  unfold MockCA_IssueCertificate, st_bind, log_ca, log_line, read_ca, st_lift, st_get, st_modify, st_ret,
    GenerateSerial.
  cbn [ca_key ca_cert issuedCerts revoked secrets nextIssueID hasLog reads].
  destruct (rand_Int rd (Z.shiftl 1 128)) as [serial|] eqn:Es; cbn [of_option].
  2: { intros [= <- <-]. left. by exists 1%nat, rand_error. }
  cbn [ca_key ca_cert issuedCerts revoked secrets nextIssueID hasLog reads].
  destruct (x509_CreateCertificate _ _ _ _ _) as [der|] eqn:Ed; cbn [of_option].
  2: { intros [= <- <-]. left. by exists 4%nat, (Errorf_w "signing certificate" x509_error). }
  destruct (x509_ParseCertificate der) as [cert|] eqn:Ep; cbn [of_option].
  2: { intros [= <- <-]. left. by exists 4%nat, x509_error. }
  intros H. right. exists 4%nat, rd, serial, (clock_Now (Datatypes.S rd) - 1 * Minute),
    (clock_Now (Datatypes.S (Datatypes.S rd)) + 365 * 24 * Hour).
  do 2 eexists. exists cert. cbn zeta. split; [unfold GenerateSerial; by rewrite Es|].
  split; [exact Ed|]. split; [done|].
  destruct (bool_decide (rt = RequestIR)); cbn in H; injection H as <- <-; done.
Qed.

Lemma no_ca_filter exts :
  no_ca exts -> no_ca (List.filter (fun e => negb (OID_Equal (Id e) oidKeyUsage)) exts).
Proof.
  intros (bcs & Hb & Hall). exists bcs. split; [|done]. rewrite <- Hb. clear.
  induction exts as [|e exts IH]; [done|]. cbn [List.filter decodeBasicConstraints].
  unfold OID_Equal at 1. case_bool_decide as He; cbn [negb decodeBasicConstraints].
  - rewrite IH, He. done.
  - by rewrite IH.
Qed.

Lemma rules_kept crt tmpl i serial t1 t2 :
  GenerateSerial i = Ok serial -> no_ca (ExtraExtensions tmpl) -> Name_String (Subject tmpl) <> "" ->
  cert_IsCA tmpl = false -> BasicConstraintsValid tmpl = false ->
  (exists ctx b pub, cert_PublicKey tmpl = Some pub /\ possession ctx b pub) ->
  template_rules crt (issuance_fields (Some serial) (Subject crt) t1 t2 KeyUsageDigitalSignature
    (List.filter (fun e => negb (OID_Equal (Id e) oidKeyUsage)) (ExtraExtensions tmpl)) tmpl).
Proof.
  intros Hi Hn Hs Hc Hv Hk. constructor; cbn; [by exists i, serial|done|done| |split; [|done]|done|done].
  - apply List.Forall_forall. intros e [_ He]%List.filter_In. apply negb_true_iff in He.
    by apply bool_decide_eq_false in He.
  - by apply no_ca_filter.
Qed.

(** ** Looking up *)

Definition has_serial (c : Certificate) : Prop := SerialNumber c <> None.

Lemma find_serial_spec certs n :
  Forall has_serial certs ->
  (exists c, find_serial certs n = Ok (Some c) /\ c ∈ certs /\ SerialNumber c = Some n) \/
  (find_serial certs n = Ok None /\ Forall (fun c => SerialNumber c <> Some n) certs).
Proof.
  induction 1 as [|c certs Hc _ IH]; [by right|]. cbn [find_serial]. unfold has_serial in Hc.
  destruct (SerialNumber c) as [m|] eqn:Em; [|done]. destruct (Z.eqb_spec m n) as [->|Hne].
  - left. exists c. split; [done|]. split; [by left | done].
  - destruct IH as [(c' & H & Hin & Hs)|[H Hall]].
    + left. exists c'. split; [done|]. split; [by right | done].
    + right. split; [done|]. constructor; [congruence | done].
Qed.

Lemma lookup_issued_spec certs rev kid o :
  lookup_issued certs rev kid = Ok o ->
  exists c, o = Some c /\ c ∈ certs /\ SubjectKeyId c = kid /\ rev !! big_String (SerialNumber c) = None.
Proof.
  induction certs as [|c certs IH]; [done|]. cbn [lookup_issued].
  destruct (bytes_eqb (SubjectKeyId c) kid) eqn:Ek.
  - destruct (rev !! _) eqn:Er; [done|]. intros [= <-]. apply bytes_eqb_eq in Ek.
    exists c. split; [done|]. split; [by left | done].
  - intros (c' & -> & Hin & H)%IH. exists c'. split; [done|]. split; [by right | done].
Qed.

Lemma lookup_issued_no_panic certs rev kid : lookup_issued certs rev kid <> Err GoPanic.
Proof. induction certs; cbn [lookup_issued]; [done|]. by repeat case_goal. Qed.

Lemma big_String_inj m n : big_String (Some m) = big_String (Some n) -> m = n.
Proof. apply pretty_Z_inj. Qed.

Lemma Match_no_panic req o : Match req o <> Some GoPanic.
Proof. unfold Match. by repeat case_goal. Qed.

Lemma Match_reports req o e : Match req o = Some e -> exists text, e = rejection FailBadCertId text.
Proof. unfold Match. repeat case_goal; intros [= <-]; eauto. Qed.

(** What a revocation leaves. *)
Definition revocation (req : RevocationRequest) (c c' : MockCA) (r : result unit) : Prop :=
  (c' = c /\ exists e, r = Err e /\ e <> GoPanic) \/
  exists cert, cert ∈ issuedCerts c /\ SerialNumber cert = Some (rr_SerialNumber req) /\
    Match req (Some cert) = None /\
    rr_Reason req <> CRLReasonCertificateHold /\ rr_Reason req <> CRLReasonRemoveFromCRL /\
    revoked c !! big_String (Some (rr_SerialNumber req)) = None /\
    c' = mark_revoked (big_String (Some (rr_SerialNumber req))) (rr_Reason req) c /\ r = Ok tt.

Lemma revoke_spec ctx req sender c c' r :
  hasLog c = true -> Forall has_serial (issuedCerts c) ->
  MockCA_RevokeCertificate ctx req sender c = (c', r) -> revocation req c c' r.
Proof.
  intros Hlog Hs. unfold MockCA_RevokeCertificate, st_bind, st_get, st_lift, log_ca, log_line.
  destruct (find_serial_spec _ (rr_SerialNumber req) Hs) as [(cert & -> & Hin & Hn)|[-> _]].
  - destruct (Match req (Some cert)) as [e|] eqn:Em.
    { rewrite Hlog. intros [= <- <-]. left. split; [done|].
      apply Match_reports in Em as [text ->]. by eexists. }
    case_goal; [intros [= <- <-]; left; eauto|].
    apply orb_false_iff in E as [E1 E2]. apply Z.eqb_neq in E1, E2. cbn [mbind option_bind].
    rewrite Hn. case_goal; [intros [= <- <-]; left; eauto|]. cbn [st_modify].
    destruct (revoked c !! big_String (Some (rr_SerialNumber req))) eqn:Er; [done|].
    unfold st_modify. replace (hasLog _) with true by (by rewrite <- Hlog). intros [= <- <-].
    right. exists cert. done.
  - cbn [Match]. rewrite Hlog. intros [= <- <-]. left. eauto.
Qed.

(** ** The invariant is kept *)

(** Documented of [x509.ParseCertificate]: a certificate it gives has a serial number. *)
Context (Hserial : forall der c, x509_ParseCertificate der = Some c -> SerialNumber c <> None).
Context (key : Signer) (crt : Certificate).

Lemma issued_has_serial c : issued_by key crt c -> has_serial c.
Proof. intros (random & tmpl & der & _ & _ & H). by eapply Hserial. Qed.

Lemma mock_serials c : mock_ok key crt c -> Forall has_serial (issuedCerts c).
Proof. intros H. eapply Forall_impl; [apply (mo_issued _ _ _ H)|]. apply issued_has_serial. Qed.

(** The template of a request that the CA may sign. *)
Definition signable (tmpl : Certificate) : Prop :=
  no_ca (ExtraExtensions tmpl) /\ Name_String (Subject tmpl) <> "" /\
  cert_IsCA tmpl = false /\ BasicConstraintsValid tmpl = false /\
  exists ctx b pub, cert_PublicKey tmpl = Some pub /\ possession ctx b pub.

Lemma issuance_issued rt tmpl c c' r resp x :
  mock_ok key crt c -> signable tmpl -> issuance rt tmpl c c' r ->
  r = Ok (Some resp) -> resp_Certificate resp = Some x -> issued_by key crt x.
Proof.
  intros Hc (Hn & Hs & Hca & Hv & Hk) [(n & e & _ & -> & _)|Hi] Hr Hx; [done|].
  destruct Hi as (n & i & serial & t1 & t2 & random & der & cert & Hi & Hd & Hp & _ & ->).
  injection Hr as <-. injection Hx as <-. rewrite (mo_key _ _ _ Hc), (mo_cert _ _ _ Hc) in Hd.
  eexists random, _, der. split; [|split; [exact Hd | done]].
  by eapply rules_kept.
Qed.

Lemma issuance_ok rt tmpl c c' r :
  mock_ok key crt c -> signable tmpl -> issuance rt tmpl c c' r ->
  mock_ok key crt c' /\ mock_grows c c' /\ r <> Err GoPanic.
Proof.
  intros Hc Ht Hi. pose proof (fun resp x => issuance_issued rt tmpl c c' r resp x Hc Ht Hi) as Hx.
  destruct Hi as [(n & e & -> & -> & He)|(n & i & serial & t1 & t2 & random & der & cert & H)].
  { split; [by apply reread_ok|]. split; [apply reread_grows | congruence]. }
  assert (Hnew : issued_by key crt cert).
  { destruct H as (_ & _ & _ & _ & Hr). by apply (Hx _ _ Hr). }
  destruct H as (_ & _ & _ & -> & ->). split; [|split; [|done]].
  - destruct Hc as [H1 H2 H3 H4 H5 H6]. constructor; cbn; [done..| | |].
    + apply Forall_app. split; [done|]. by constructor.
    + rewrite H5, length_app, Zplus_mod_idemp_l. f_equal. simpl. lia.
    + intros s reason [(x & Hin & ->) Hne]%H6. split; [|done]. exists x. split; [|done].
      apply elem_of_app. by left.
  - constructor; cbn; [done..| |done]. by exists [cert].
Qed.

Lemma revocation_ok req c c' r :
  mock_ok key crt c -> revocation req c c' r ->
  mock_ok key crt c' /\ mock_grows c c' /\ r <> Err GoPanic.
Proof.
  intros Hc [[-> (e & -> & He)]|(cert & Hin & Hn & _ & Hh & Hr & Hnew & -> & ->)].
  { split; [done|]. split; [reflexivity | congruence]. }
  split; [|split; [|done]].
  - destruct Hc as [H1 H2 H3 H4 H5 H6]. constructor; cbn; [done..|].
    intros s reason [[<- <-]|[_ Hs]]%lookup_insert_Some; [|by eapply H6].
    split; [|done]. exists cert. by rewrite Hn.
  - constructor; cbn; [done..|]. by apply insert_subseteq.
Qed.

(** What the handler of the program does to the CA for a request. *)
Definition mock_call (ctx : context) (msg : PKIMessage) (sender : SenderIdentity) (b : PKIBody)
    (c c' : MockCA) : Prop :=
  c' = c \/
  policy_passed ctx msg (Type_ b) sender /\
  ((exists tmpl r, isCertRequest (Type_ b) = true /\ issuance_template ctx msg = Ok tmpl /\
      signable tmpl /\ issuance (bodyTypeToRequestType (Type_ b)) tmpl c c' r) \/
   (exists req r crt', Type_ b = BodyTypeRR /\ parseRevocationRequest msg = Ok req /\
      si_Certificate sender = Some crt' /\ identifies req crt' = true /\ revocation req c c' r)).

Lemma mock_call_ok ctx msg sender b c c' :
  mock_ok key crt c -> mock_call ctx msg sender b c c' -> mock_ok key crt c' /\ mock_grows c c'.
Proof.
  intros Hc [->|(_ & [(tmpl & r & _ & _ & Ht & Hi)|(req & r & x & _ & _ & _ & _ & Hr)])]; [done| |].
  - destruct (issuance_ok _ _ _ _ _ Hc Ht Hi) as (? & ? & _). done.
  - destruct (revocation_ok _ _ _ _ Hc Hr) as (? & ? & _). done.
Qed.

Lemma request_signable ctx msg b sender tmpl pub :
  Body msg = Some b -> isCertRequest (Type_ b) = true -> policy_passed ctx msg (Type_ b) sender ->
  issuance_template ctx msg = Ok tmpl -> cert_PublicKey tmpl = Some pub -> possession ctx b pub ->
  signable tmpl.
Proof.
  intros Hb Ht Hp Hi Hk Hpos. destruct (policy_template _ _ _ _ _ Hb Ht Hp Hi) as (H1 & H2 & H3 & H4).
  split; [done|]. split; [done|]. split; [done|]. split; [done|]. by exists ctx, b, pub.
Qed.

Definition mock_handler : Handler MockCA := LightweightPolicy (NewCAHandler mock_CA).

Lemma mock_handler_calls ctx msg b sender c c' r :
  mock_ok key crt c -> Body msg = Some b -> mock_handler ctx msg sender c = (c', r) ->
  mock_call ctx msg sender b c c'.
Proof.
  intros Hc Hb H. destruct (LightweightPolicy_cases _ _ _ _ _ _ _ _ Hb H) as [[-> _]|[Hp H1]]; [by left|].
  pose proof (NewCAHandler_calls _ _ _ _ _ _ _ _ Hb H1) as Hcall.
  destruct Hcall as [c|c c' tmpl pub r' Ht Hi Hk Hpos _ Hr|c c' check ref r' _ [=]
    |c c' confirm conf x r' _ [= <-] _ _ Hr|c c' authorize req e _ [=]
    |c s1 c' revoke req r' Ht [= <-] Hq Hauth Hr].
  - by left.
  - right. split; [done|]. left. exists tmpl, r'. split; [done|]. split; [done|].
    split; [by eapply request_signable|]. by apply (issue_spec ctx _ _ sender) in Hr; [|apply (mo_log _ _ _ Hc)].
  - left. unfold MockCA_ConfirmCertificate, log_ca in Hr. congruence.
  - destruct Hauth as [x Hx Hid _|? ? [=]]. right. split; [done|]. right.
    exists req, r', x. split; [done|]. split; [done|]. split; [done|]. split; [done|].
    apply (revoke_spec ctx _ sender) in Hr; [done | apply (mo_log _ _ _ Hc) | by apply mock_serials].
Qed.

(** ** The handler answers *)

Lemma log_ca_run c : hasLog c = true -> log_ca c = (c, Ok tt).
Proof. unfold log_ca, log_line. by intros ->. Qed.

Lemma no_response_panic (m : ST MockCA unit) c :
  snd (m c) <> Err GoPanic -> snd (no_response m c) <> Err GoPanic.
Proof. unfold no_response, st_bind. destruct (m c) as [c' [[]|e]]; simpl; congruence. Qed.

Lemma no_response_none {T} (m : ST T unit) c resp : snd (no_response m c) <> Ok (Some resp).
Proof. unfold no_response, st_bind. by destruct (m c) as [c' [[]|e]]. Qed.

Lemma request_answer ctx msg b sender c c' r :
  mock_ok key crt c -> Body msg = Some b -> isCertRequest (Type_ b) = true ->
  policy_passed ctx msg (Type_ b) sender ->
  caHandler_handleCertRequest mock_CA ctx msg sender c = (c', r) ->
  (exists e, issuance_template ctx msg = Err e /\ r = Err e) \/
  (exists tmpl, signable tmpl /\ issuance (bodyTypeToRequestType (Type_ b)) tmpl c c' r).
Proof.
  intros Hc Hb Ht Hp. unfold caHandler_handleCertRequest, st_bind at 1, st_lift at 1.
  destruct (issuance_template ctx msg) as [tmpl|e] eqn:Ei; [|intros [= _ <-]; left; eauto].
  unfold body_type. rewrite Hb. intros H. right. exists tmpl.
  destruct (issuance_template_possession _ _ _ _ Hb Ht Ei) as (pub & Hk & Hpos & _).
  split; [by eapply request_signable|]. by apply (issue_spec ctx _ _ sender) in H; [|apply (mo_log _ _ _ Hc)].
Qed.

Lemma revocation_answer ctx msg b sender c :
  mock_ok key crt c -> Body msg = Some b -> received b ->
  snd (caHandler_handleRevocation mock_CA ctx msg sender c) <> Err GoPanic.
Proof.
  intros Hc Hb Hr. unfold caHandler_handleRevocation. cbn [RevokeCertificate mock_CA].
  unfold st_bind at 1, st_lift at 1. pose proof (parseRevocationRequest_completes _ _ Hb Hr) as Hp.
  destruct (parseRevocationRequest msg) as [req|e]; [|by intros [= ->]].
  unfold caHandler_authorize. cbn [AuthorizeRevocation mock_CA].
  assert (Hrev : snd (MockCA_RevokeCertificate ctx req sender c) <> Err GoPanic).
  { destruct (MockCA_RevokeCertificate ctx req sender c) as [c' r] eqn:Er.
    apply revoke_spec in Er; [|apply (mo_log _ _ _ Hc)|by apply mock_serials].
    by destruct (revocation_ok _ _ _ _ Hc Er) as (_ & _ & ?). }
  unfold st_bind. destruct (si_Certificate sender) as [x|]; [|done].
  destruct (identifies req x); [|done]. pose proof (Match_no_panic req (Some x)) as Hm.
  destruct (Match req (Some x)); [|done]. simpl. congruence.
Qed.

Lemma mock_handler_sound ctx msg b sender :
  Body msg = Some b -> received b -> sound_call (mock_ok key crt) (mock_handler ctx msg sender).
Proof.
  intros Hb Hr c Hc. split.
  { destruct (mock_handler ctx msg sender c) as [c' r] eqn:E.
    apply (mock_handler_calls _ _ _ _ _ _ _ Hc Hb) in E. by destruct (mock_call_ok _ _ _ _ _ _ Hc E). }
  unfold mock_handler, LightweightPolicy. rewrite Hb. unfold st_bind at 1, st_lift at 1.
  pose proof (policy_check_completes ctx msg b sender Hb Hr) as Hpc.
  destruct (policy_check ctx msg (Type_ b) sender) as [[]|e] eqn:Ep; [|by intros [= ->]].
  apply policy_check_ok in Ep. unfold NewCAHandler. rewrite Hb.
  destruct (isCertRequest (Type_ b)) eqn:Et; [|case_goal; [|case_goal; [|case_goal; [|done]]]].
  - destruct (caHandler_handleCertRequest mock_CA ctx msg sender c) as [c' r] eqn:E.
    destruct (request_answer _ _ _ _ _ _ _ Hc Hb Et Ep E) as [(e & Hi & ->)|(tmpl & Ht & Hi)].
    + pose proof (issuance_template_completes ctx msg b Hb Hr) as Hic. rewrite Hi in Hic.
      intros [= ->]. done.
    + by destruct (issuance_ok _ _ _ _ _ Hc Ht Hi) as (_ & _ & ?).
  - unfold caHandler_handleCertConf. cbn [ConfirmCertificate mock_CA]. rewrite Hb.
    destruct (snd (CertConf b)); [|done]. destruct (IssuedCertFromContext ctx); [|done].
    apply no_response_panic. unfold MockCA_ConfirmCertificate.
    by rewrite (log_ca_run _ (mo_log _ _ _ Hc)).
  - done.
  - apply no_response_panic. by eapply revocation_answer.
Qed.

Lemma mock_handler_issued ctx msg b sender c resp x :
  mock_ok key crt c -> Body msg = Some b ->
  snd (mock_handler ctx msg sender c) = Ok (Some resp) -> resp_Certificate resp = Some x ->
  issued_by key crt x.
Proof.
  intros Hc Hb Hr Hx. unfold mock_handler, LightweightPolicy in Hr. rewrite Hb in Hr.
  unfold st_bind at 1, st_lift at 1 in Hr.
  destruct (policy_check ctx msg (Type_ b) sender) as [[]|e] eqn:Ep; [|done].
  apply policy_check_ok in Ep. unfold NewCAHandler in Hr. rewrite Hb in Hr.
  destruct (isCertRequest (Type_ b)) eqn:Et.
  - destruct (caHandler_handleCertRequest mock_CA ctx msg sender c) as [c' r] eqn:E.
    destruct (request_answer _ _ _ _ _ _ _ Hc Hb Et Ep E) as [(e & _ & ->)|(tmpl & Ht & Hi)]; [done|].
    by eapply issuance_issued.
  - exfalso. case_in Hr; [|case_in Hr; [done|case_in Hr; [|done]]].
    + unfold caHandler_handleCertConf in Hr. cbn [ConfirmCertificate mock_CA] in Hr. rewrite Hb in Hr.
      destruct (snd (CertConf b)); [|done]. destruct (IssuedCertFromContext ctx); [|done].
      by apply no_response_none in Hr.
    + by apply no_response_none in Hr.
Qed.

Lemma mock_handler_response ctx msg b sender c :
  mock_ok key crt c -> Body msg = Some b ->
  isCertRequest (Type_ b) = true \/ Type_ b = BodyTypePollReq ->
  snd (mock_handler ctx msg sender c) <> Ok None.
Proof.
  intros Hc Hb Ht. unfold mock_handler, LightweightPolicy. rewrite Hb. unfold st_bind at 1, st_lift at 1.
  destruct (policy_check ctx msg (Type_ b) sender) as [[]|e] eqn:Ep; [|done].
  apply policy_check_ok in Ep. unfold NewCAHandler. rewrite Hb.
  destruct (isCertRequest (Type_ b)) eqn:Et.
  - destruct (caHandler_handleCertRequest mock_CA ctx msg sender c) as [c' r] eqn:E.
    destruct (request_answer _ _ _ _ _ _ _ Hc Hb Et Ep E) as [(e & _ & ->)|(tmpl & _ & Hi)]; [done|].
    destruct Hi as [(n & e & _ & -> & _)|(n & i & s & t1 & t2 & rd & der & x & _ & _ & _ & _ & ->)]; done.
  - destruct Ht as [Ht|Ht]; [done|]. by rewrite Ht.
Qed.

(** ** The server of the program *)

Lemma mock_config c0 :
  let srv := fst (mock_server c0) in
  handler srv = mock_handler /\ confirmer (cfg srv) = Some MockCA_ConfirmCertificate /\
  raAuthorizer (cfg srv) = None /\ secretLookup (cfg srv) = Some MockCA_LookupSecret /\
  certificateLookup (cfg srv) = Some MockCA_LookupCertificate.
Proof.
  unfold mock_server, NewCAServer, New. cbn -[NewSignatureCredentials].
  by destruct (NewSignatureCredentials (Some (ca_key c0)) (Some (ca_cert c0)) []).
Qed.

Lemma mock_well_behaved c0 :
  well_behaved (fst (mock_server c0)) (mock_ok key crt) (issued_by key crt).
Proof.
  destruct (mock_config c0) as (Hh & Hcf & Hra & Hsl & Hcl). constructor; rewrite ?Hh, ?Hcf, ?Hra, ?Hsl, ?Hcl.
  - intros. by eapply mock_handler_sound.
  - intros. by eapply mock_handler_issued.
  - intros. by eapply mock_handler_response.
  - intros confirm ctx x st ref [= <-] c Hc. unfold MockCA_ConfirmCertificate.
    by rewrite (log_ca_run _ (mo_log _ _ _ Hc)).
  - done.
  - intros lookup name kid c Hc [= <-]. unfold MockCA_LookupSecret, log_line.
    rewrite (mo_log _ _ _ Hc). cbn [res_bind]. destruct (secrets c) as [m|]; [|done].
    by destruct (m !! kid).
  - intros lookup issuer name kid c Hc [= <-]. unfold MockCA_LookupCertificate, log_line.
    rewrite (mo_log _ _ _ Hc). cbn [res_bind]. case_goal; [done|]. apply lookup_issued_no_panic.
Qed.

(** ** Runs of the program *)

Section Program.
Context (c0 : MockCA).
Let srv := fst (mock_server c0).

(** The calls, from a state as it should be. *)
Definition sound_mock_call (ctx : context) (msg : PKIMessage) (sender : SenderIdentity) (b : PKIBody)
    (c c' : MockCA) : Prop := mock_ok key crt c -> mock_call ctx msg sender b c c'.

Lemma mock_drives : drives_ca sound_mock_call srv.
Proof.
  intros ctx msg b sender c c' r Hb H Hc. destruct (mock_config c0) as (Hh & _). subst srv.
  rewrite Hh in H. by eapply mock_handler_calls.
Qed.

(** What a message does to the CA: nothing, or the call its sender may make. *)
Lemma mock_message now msg (w w' : World MockCA) resp :
  mock_ok key crt (ca_state w) -> processMessage srv now msg w = (w', Ok resp) ->
  ca_state w' = ca_state w \/
  exists b sender ctx ms, Body msg = Some b /\ authenticated srv now (ca_state w) msg sender /\
    same_but_id msg ms /\ mock_call ctx ms sender b (ca_state w) (ca_state w').
Proof.
  intros Hc H. destruct (mock_config c0) as (_ & Hcf & Hra & _).
  fold srv in Hcf, Hra. apply (message_asks sound_mock_call) in H; [|apply mock_drives].
  destruct H as [->|(fwd & req & b & sender & Hdel & Hb & H)]; [by left|]. right.
  assert (Hfwd : fwd = None /\ req = msg).
  { destruct Hdel as [|? ? ? ? ? _ _ Hn]; [done|]. apply check_nested_ok in Hn as [Hn _]. by rewrite Hra in Hn. }
  destruct Hfwd as [-> ->]. exists b, sender.
  destruct (delivered_authenticated _ _ _ _ _ _ _ _ Hdel) as [Ha _].
  destruct H as [(f & authorize & e & [=] & _)|(s1 & ms & -> & Hid & H)].
  destruct H as [->|(ctx' & s1 & r & _ & Hcall & Hi)].
  { exists context_Background, ms. split; [done|]. split; [done|]. split; [done|]. by left. }
  exists ctx', ms. split; [done|]. split; [done|]. split; [done|].
  destruct (mock_call_ok _ _ _ _ _ _ Hc (Hcall Hc)) as [Hc1 _].
  destruct Hi as [->|(_ & rs & x & confirm & _ & _ & Hcf' & Hst)]; [by apply Hcall|].
  rewrite Hcf in Hcf'. injection Hcf' as <-. unfold MockCA_ConfirmCertificate in Hst.
  rewrite (log_ca_run _ (mo_log _ _ _ Hc1)) in Hst. rewrite <- Hst. by apply Hcall.
Qed.

Lemma mock_message_grows now msg (w w' : World MockCA) resp :
  mock_ok key crt (ca_state w) -> processMessage srv now msg w = (w', Ok resp) ->
  mock_grows (ca_state w) (ca_state w').
Proof.
  intros Hc H. destruct (mock_message _ _ _ _ _ Hc H) as [->|(b & sender & ctx & ms & _ & _ & _ & Hcall)];
    [done|]. by destruct (mock_call_ok _ _ _ _ _ _ Hc Hcall).
Qed.

Lemma mock_cleanup now (w w' : World MockCA) u :
  mock_ok key crt (ca_state w) -> CleanupExpired srv now w = (w', Ok u) -> ca_state w' = ca_state w.
Proof.
  intros Hc H. unfold CleanupExpired in H. apply st_bind_ok in H as (w1 & l & H1 & H).
  rewrite on_tracker_run in H1. injection H1 as Hw1 _.
  assert (Hw : ca_state w1 = ca_state w) by (by rewrite <- Hw1). clear Hw1. rewrite <- Hw in Hc |- *. clear Hw.
  destruct (mock_config c0) as (_ & Hcf & _). fold srv in Hcf.
  revert w1 Hc H. induction l as [|e l IH]; intros w1 Hc H; cbn [notify_expired] in H.
  { by apply st_ret_ok in H as [-> _]. }
  rewrite Hcf in H. apply st_bind_ok in H as (w2 & r & H2 & H).
  apply on_ca_call in H2 as (Hw2 & Hst & _). unfold MockCA_ConfirmCertificate in Hst.
  rewrite (log_ca_run _ (mo_log _ _ _ Hc)) in Hst. injection Hst as Hst _.
  rewrite (IH w2); [by rewrite <- Hst|by rewrite <- Hst|exact H].
Qed.

Lemma read_request_parses maxBody r msg :
  read_request maxBody r = Ok msg -> exists der, ParsePKIMessage der = Ok msg.
Proof.
  unfold read_request. repeat (case_goal; [done|]). destruct (io_ReadAll _ _ _) as [body|]; [|done].
  destruct (ParsePKIMessage body) as [m|] eqn:Ep; [|done]. intros [= <-]. eauto.
Qed.

Lemma ServeHTTP_run now r (w w' : World MockCA) resp :
  ServeHTTP MaxRequestBodySize srv now r w = (w', Ok resp) ->
  w' = w \/ exists msg m, processMessage srv now msg w = (w', Ok m).
Proof.
  unfold ServeHTTP. destruct (read_request _ r) as [msg|x]; [|intros [= <- _]; by left].
  intros H. apply st_bind_ok in H as (w1 & m & H & Hr). apply st_ret_ok in Hr as [-> _]. eauto.
Qed.

Abbreviation mock_good := (good (mock_ok key crt) (issued_by key crt)).

(** Every request is answered and every tick ends. *)
Lemma mock_request_answered now r w :
  mock_good w -> exists w' resp, ServeHTTP MaxRequestBodySize srv now r w = (w', Ok resp) /\ mock_good w'.
Proof.
  intros Hw. unfold ServeHTTP. destruct (read_request _ r) as [msg|x] eqn:Er; [|by exists w, x].
  apply read_request_parses in Er as [der Hp].
  destruct (ends_message srv now _ _ (mock_well_behaved c0) msg (parsed_complete _ _ Hp) w Hw)
    as (w' & resp & H & Hw' & _).
  exists w', (write_response resp). split; [|done]. unfold st_bind. by rewrite H.
Qed.

(** The requests among the events. *)
Definition is_request (e : mock_event) : bool := match e with OnRequest _ _ => true | OnTick _ => false end.

Lemma mock_serve_total events w :
  mock_good w -> exists w' resps, mock_serve srv events w = (w', Ok resps) /\ mock_good w' /\
    mock_grows (ca_state w) (ca_state w') /\
    length resps = length (List.filter is_request events).
Proof.
  revert w. induction events as [|[now r|now] events IH]; intros w Hw; cbn [mock_serve List.filter is_request].
  - by exists w, [].
  - destruct (mock_request_answered now r w Hw) as (w1 & resp & H1 & Hw1).
    destruct (IH w1 Hw1) as (w' & resps & H2 & Hw' & Hg & Hl). exists w', (resp :: resps).
    unfold st_bind. rewrite H1, H2. split; [done|]. split; [done|]. split; [|simpl; by rewrite Hl].
    etrans; [|exact Hg]. apply ServeHTTP_run in H1 as [->|(msg & m & H1)]; [done|].
    eapply mock_message_grows, H1. apply Hw.
  - destruct (ends_cleanup srv now _ _ (mock_well_behaved c0) w Hw) as (w1 & u & H1 & Hw1 & _).
    destruct (IH w1 Hw1) as (w' & resps & H2 & Hw' & Hg & Hl). exists w', resps.
    unfold st_bind. rewrite H1, H2. split; [done|]. split; [done|]. split; [|done].
    apply mock_cleanup in H1; [|apply Hw]. by rewrite <- H1.
Qed.

End Program.

(** The program starts in a good world. *)
Lemma mock_main_ok i j srv w :
  mock_main i = (j, Ok (srv, w)) ->
  exists c, srv = fst (mock_server c) /\ ca_state w = c /\ issuedCerts c = [] /\ revoked c = ∅ /\
    secrets c = Some {[ string_bytes "my-device" := string_bytes "test-shared-secret" ]} /\
    (ca_key c = key -> ca_cert c = crt -> good (mock_ok key crt) (issued_by key crt) w).
Proof.
  unfold mock_main, mockserver_New. intros H.
  apply st_bind_ok in H as (s1 & ca & H1 & H). apply st_bind_ok in H1 as (s2 & [k x] & _ & H1).
  apply st_bind_ok in H1 as (s3 & n & _ & H1). apply st_ret_ok in H1 as [_ ->].
  set (c := mkMockCA k x [] ∅ _ 0 true n) in *.
  destruct (mock_server c) as [srv' t] eqn:Es. case_in H; [done|]. apply st_ret_ok in H as [_ H].
  injection H as -> ->. exists c. rewrite Es. split; [done|]. split; [done|].
  split; [done|]. split; [done|]. split; [done|]. intros Hk Hx. split.
  - assert (Ht : transactions t = ∅) by (by apply (f_equal snd) in Es; cbn in Es; subst t).
    intros k' e He. simpl in He. by rewrite Ht, lookup_empty in He.
  - by constructor.
Qed.

End Mock.
