(* ===== verification/ServerExamples.v ===== *)
(** * A server to run

    A CA that keeps a log of what it was asked, the server in front of it, and
    messages of its clients as received: an enrollment with proof of possession,
    its confirmation, a poll, a revocation request and a forwarded request. *)
From S2P Require Import Prelude Failure Errors Asn1 Der Types StatusInfo Enrollment Crmf X509.
From S2P Require Import Message RevocationMsg Monad Algorithms Protect Verify Instances CodecProps.
From S2P Require Import Transactions Handler ServerRequest CAHandler Policy Server Snapshot.
From S2P Require Import SnapshotFacts ServerTotality.

(** ** The CA *)

Inductive event :=
| Ev_issued (rt : RequestType) (subject : string) (pub : option PublicKey)
| Ev_polled (ref : string)
| Ev_confirmed (serial : option Z) (status : ConfirmStatus)
| Ev_revoked (serial : Z).

(** The certificate of a template; the serial number counts the events. *)
Definition toy_certificate (log : list event) (t : Certificate) : Certificate :=
  Instances.ex_cert (100 + Z.of_nat (length log)) (CommonName (Subject t)) "ca"
    (default (OtherPublicKey []) (cert_PublicKey t)) 9.
Definition toy_issued (log : list event) (t : Certificate) : Response :=
  mkResponse (Some (toy_certificate log t)) [ex_ca] None (Some 77).

(** A subject that starts with "slow" has to wait. *)
Definition toy_CA : CA (list event) := mkCA
  (fun _ rt t _ log =>
     (log ++ [Ev_issued rt (CommonName (Subject t)) (cert_PublicKey t)],
      Ok (Some (if String.prefix "slow" (CommonName (Subject t))
                then mkResponse None [] (Some (mkWaiting (30 * Second) "manual approval" "job-1")) None
                else toy_issued log t))))
  (Some (fun _ ref _ log =>
     (log ++ [Ev_polled ref],
      Ok (Some (mkResponse (Some ex_leaf) [ex_ca] None None)))))
  (Some (fun _ c st _ log => (log ++ [Ev_confirmed (SerialNumber c) st], Ok tt)))
  (Some (fun _ req _ log => (log ++ [Ev_revoked (rr_SerialNumber req)], Ok tt)))
  None.

(** ** The server *)

#[export] Instance ExRandom : GoRandom := {|
  rand_Read := fun i n => (Z.of_nat i mod 256) :: replicate (n - 1) 200;
  rand_Reader := fun i => [Z.of_nat i mod 256; 13]
|}.

Definition toy_secret : bytes := [115; 51; 99].
Definition toy_options : list (Option (list event)) :=
  [WithSecretLookup (fun _ _ _ => Ok toy_secret);
   WithCertificateLookup (fun _ _ _ _ => Ok (Some ex_leaf));
   WithRAAuthorizer (fun _ _ _ _ => st_ret tt);
   WithSigner (Some 3) (Some ex_ca) [ex_root]].
Definition toy_setup : Server (list event) * transactionTracker :=
  NewCAServer toy_CA (Some LightweightPolicy) toy_options.
Definition toy_server : Server (list event) := fst toy_setup.
Definition toy_world : World (list event) := mkWorld (snd toy_setup) 0 [].
Definition toy_now : Time := 5 * 10 ^ 17.

(** ** Messages of the clients *)

Definition toy_pbm : MACCredentials := mkMACCredentials toy_secret (WithMACIterationCount 3 (WithPBM emptyMacConfig)).
Definition toy_credentials : SignatureCredentials := mkSigCredentials 2 ex_leaf [ex_ca].

(** The messages as the server reads them. *)
Definition sent (m : PKIMessage) : PKIMessage := ok_or m (ParsePKIMessage (ex_encoding m)).
Definition toy_message (txn nonce recip : bytes) (b : PKIBody) : PKIMessage :=
  NewPKIMessage txn nonce toy_now b (mkMessageOptions ex_sender emptyGeneralName None None recip).
Definition by_secret (m : PKIMessage) : PKIMessage :=
  sent (fst (MACCredentials_Protect [8; 8; 8; 8] toy_pbm m)).
Definition by_key (m : PKIMessage) : PKIMessage :=
  sent (fst (SignatureCredentials_Protect [4] toy_credentials m)).

Definition toy_request (cn : string) : CertReqMsg :=
  ok_or ex_certReqMsg
    (GeneratePOP [3] 3 (mkCertReqMsg (ex_request 0 (ex_template cn (ex_public 3))) None)).
Definition toy_enrol (cn : string) : PKIMessage :=
  by_secret (toy_message [1; 2; 3; 4] [5; 6] [] (NewIRBody [toy_request cn])).

Definition toy_device : PKIMessage := Eval vm_compute in toy_enrol "device".

Definition toy_run (m : PKIMessage) (w : World (list event)) : World (list event) * PKIMessage :=
  let (w', r) := processMessage toy_server toy_now m w in (w', ok_or m r).

(** An enrollment, its response, and the confirmation of what was issued. *)
Definition toy_enrolled : World (list event) * PKIMessage := Eval vm_compute in toy_run toy_device toy_world.
Definition toy_new_certificate : Certificate :=
  Eval vm_compute in Instances.ex_cert 100 "device" "ca" (ex_public 3) 9.
Definition toy_confirmation : PKIMessage := Eval vm_compute in
  by_secret (toy_message [1; 2; 3; 4] [5; 7] (SenderNonce (Header (snd toy_enrolled)))
    (NewCertConfBody
       [ok_or (mkCertStatus [] 0 None None) (NewCertStatus toy_new_certificate 0)])).
Definition toy_confirmed : World (list event) * PKIMessage := Eval vm_compute in
  toy_run toy_confirmation (fst toy_enrolled).

(** An enrollment that has to wait, and the poll after it. *)
Definition toy_waiting : World (list event) * PKIMessage :=
  Eval vm_compute in toy_run (toy_enrol "slow device") toy_world.
Definition toy_poll : PKIMessage := Eval vm_compute in
  by_secret (toy_message [1; 2; 3; 4] [5; 8] (SenderNonce (Header (snd toy_waiting)))
    (NewPollReqBody [0])).
Definition toy_polled : World (list event) * PKIMessage := Eval vm_compute in toy_run toy_poll (fst toy_waiting).

(** The revocation of the certificate that signs the request, and the forwarding of
    the enrollment. *)
Definition toy_revocation : PKIMessage := Eval vm_compute in
  by_key (toy_message [9; 9; 9; 9] [5; 9] []
    (NewRRBody [ok_or (mkRevDetails (ex_template "leaf" (ex_public 2)) [])
                  (NewRevDetails (Some ex_leaf) CRLReasonSuperseded)])).
Definition toy_revoked : World (list event) * PKIMessage := Eval vm_compute in toy_run toy_revocation toy_world.
Definition toy_forwarded : PKIMessage := Eval vm_compute in
  by_key (toy_message [1; 2; 3; 4] [5; 6] [] (NewNestedBody [Some toy_device])).
Definition toy_relayed : World (list event) * PKIMessage := Eval vm_compute in toy_run toy_forwarded toy_world.

(** The same server in front of a handler that grants one certificate. *)
Definition simple_handler : Handler (list event) := fun _ _ _ =>
  st_ret (Some (mkResponse (Some ex_leaf) [] None None)).
Definition simple_server : Server (list event) := fst (New simple_handler toy_options).
Definition simple_result : World (list event) * PKIMessage := Eval vm_compute in
  let (w', r) := processMessage simple_server toy_now toy_device toy_world in
  (w', ok_or toy_device r).

Lemma simple_well_behaved : well_behaved simple_server (fun _ => True) (fun _ => True).
Proof.
  assert (Hc : confirmer (cfg simple_server) = None) by (vm_compute; reflexivity).
  assert (Ha : raAuthorizer (cfg simple_server) = Some (fun _ _ _ _ => st_ret tt))
    by (vm_compute; reflexivity).
  assert (Hh : handler simple_server = simple_handler) by reflexivity.
  constructor.
  - intros ctx msg b sender _ _ s _. rewrite Hh. split; [done | discriminate].
  - done.
  - intros ctx msg b sender s _ _ _. rewrite Hh. discriminate.
  - intros confirm ctx c st ref H. rewrite Hc in H. discriminate H.
  - intros authorize ctx ra msg sender H s _. rewrite Ha in H. injection H as <-.
    split; [done | discriminate].
  - intros lookup name kid s _ H. vm_compute in H. injection H as <-. discriminate.
  - intros lookup issuer name kid s _ H. vm_compute in H. injection H as <-. discriminate.
Qed.

(** Who the enrollment comes from. *)
Definition toy_identity : SenderIdentity := Eval vm_compute in
  ok_or (mkSenderIdentity None emptyName [] false None [] None emptyGeneralName)
    (verifyProtection toy_server toy_now [] toy_device).
(** And the confirmation. *)
Definition toy_confirmer : SenderIdentity := Eval vm_compute in
  ok_or toy_identity (verifyProtection toy_server toy_now [] toy_confirmation).

(** ** A lossless encoding for the snapshots *)

Definition put_list (l : bytes) : bytes := Z.of_nat (length l) :: l.
Definition get_list (s : bytes) : option (bytes * bytes) :=
  match s with
  | n :: r => Some (take (Z.to_nat n) r, drop (Z.to_nat n) r)
  | [] => None
  end.
Lemma get_put_list l r : get_list (put_list l ++ r) = Some (l, r).
Proof. unfold get_list, put_list. simpl. by rewrite Nat2Z.id, take_app_length, drop_app_length. Qed.

Definition put_text (t : string) : bytes := [Z.pos (encode t)].
Definition get_text (s : bytes) : option (string * bytes) :=
  match s with
  | Z.pos p :: r => t ← decode p; Some (t, r)
  | _ => None
  end.
Lemma get_put_text t r : get_text (put_text t ++ r) = Some (t, r).
Proof. unfold get_text, put_text. cbn [app]. by rewrite decode_encode. Qed.

Definition put_alg (a : option AlgorithmIdentifier) : bytes :=
  match a with
  | Some a => 1 :: put_list (Algorithm a) ++ put_list (Parameters_ a)
  | None => [0]
  end.
Definition get_alg (s : bytes) : option (option AlgorithmIdentifier * bytes) :=
  match s with
  | 1 :: s =>
      '(oid, s) ← get_list s; '(ps, s) ← get_list s; Some (Some (mkAlg oid ps), s)
  | _ :: s => Some (None, s)
  | [] => None
  end.
Lemma get_put_alg a r : get_alg (put_alg a ++ r) = Some (a, r).
Proof.
  destruct a as [[oid ps]|]; [|done]. unfold put_alg, get_alg. rewrite <- app_comm_cons, <- app_assoc.
  cbn [Algorithm Parameters_]. rewrite get_put_list. cbn [mbind option_bind]. by rewrite get_put_list.
Qed.

Definition put_id (i : option Z) : bytes := match i with Some i => [1; i] | None => [0] end.
Definition get_id (s : bytes) : option (option Z * bytes) :=
  match s with 1 :: i :: s => Some (Some i, s) | 0 :: s => Some (None, s) | _ => None end.
Lemma get_put_id i r : get_id (put_id i ++ r) = Some (i, r).
Proof. by destruct i. Qed.

Definition put_saved (s : savedTransaction) : bytes :=
  put_list (Key s) ++ put_list (Credential s)
  ++ put_list [State s; LastActivity s; st_RequestType s; LastPollTime s; st_CheckAfter s]
  ++ put_text (st_PollRef s) ++ put_list (st_SenderNonce s) ++ put_list (st_Certificate s)
  ++ put_list (st_IssueRef s) ++ put_list (IssuedSenderNonce s) ++ put_list (ClientSenderNonce s)
  ++ put_alg (ProtectionAlgorithm s) ++ put_id (st_CertReqID s).
Definition get_saved (s : bytes) : option (savedTransaction * bytes) :=
  '(k, s) ← get_list s; '(c, s) ← get_list s; '(n, s) ← get_list s; '(pr, s) ← get_text s;
  '(sn, s) ← get_list s; '(crt, s) ← get_list s; '(ir, s) ← get_list s; '(isn, s) ← get_list s;
  '(csn, s) ← get_list s; '(alg, s) ← get_alg s; '(i, s) ← get_id s;
  match n with
  | [st; la; rt; lp; ca] => Some (mkSaved k c st la rt pr sn lp ca crt ir isn csn alg i, s)
  | _ => None
  end.
Lemma get_put_saved s r : get_saved (put_saved s ++ r) = Some (s, r).
Proof.
  unfold get_saved, put_saved. rewrite <- !app_assoc.
  repeat first [rewrite get_put_list; cbn [mbind option_bind] | rewrite get_put_text; cbn [mbind option_bind]
    | rewrite get_put_alg; cbn [mbind option_bind] | rewrite get_put_id; cbn [mbind option_bind]].
  by destruct s.
Qed.

Fixpoint get_entries (n : nat) (s : bytes) : option (list savedTransaction) :=
  match n with
  | O => Some []
  | Datatypes.S n => '(e, s) ← get_saved s; l ← get_entries n s; Some (e :: l)
  end.
Lemma get_put_entries l : get_entries (length l) (l ≫= put_saved) = Some l.
Proof.
  induction l as [|e l IH]; [done|]. cbn [get_entries length].
  change ((e :: l) ≫= put_saved) with (put_saved e ++ (l ≫= put_saved)).
  rewrite get_put_saved. cbn [mbind option_bind]. by rewrite IH.
Qed.

#[export] Instance ExJSON : GoJSON := {|
  json_Marshal := fun s =>
    Ok (Version s :: Z.of_nat (length (Entries s)) :: put_list (snap_Signer s)
        ++ ((json_read <$> Entries s) ≫= put_saved));
  json_Unmarshal := fun d =>
    match d with
    | v :: n :: s =>
        of_option asn1_error
          ('(signer, s) ← get_list s; l ← get_entries (Z.to_nat n) s; Some (mkSnapshot v signer l))
    | _ => Err asn1_error
    end;
  json_Marshal_any := fun v => Ok [v];
  json_Unmarshal_any := fun d =>
    match d with [v] => Ok (Some v) | _ => if bytes_eqb d json_null then Ok None else Err asn1_error end
|}.

#[export] Instance ExJSONLaws : GoJSONLaws ExJSON.
Proof.
  constructor.
  - intros s d _ H. cbn [json_Marshal ExJSON] in H. apply Ok_inj in H as <-. cbn [json_Unmarshal ExJSON].
    rewrite get_put_list. cbn [mbind option_bind].
    rewrite Nat2Z.id, <- (length_fmap json_read), get_put_entries. done.
  - intros v d H. by injection H as <-.
Qed.
