(* ===== verification/ServerProps.v ===== *)
(** * Properties of the server

    Who the server acts for, what it asks of the CA, and what its responses are. *)
From S2P Require Import Prelude Failure Errors Monad Asn1 Asn1Facts Der Types TypesFacts.
From S2P Require Import StatusInfo Enrollment Crmf X509 Message MessageFacts BodyFacts RevocationMsg.
From S2P Require Import Algorithms Protect Verify ProtectFacts SignatureFacts Instances CodecProps ProtectionProps.
From S2P Require Import Transactions TransactionsFacts Handler ServerRequest CAHandler Policy Server.
From S2P Require Import Snapshot ServerFacts ServerRuns ServerSafety Authority TransactionMachine ServerReplies.
From S2P Require Import ServerTotality ServerExamples.

Section Server.
Context {CB : Cryptobyte} {GN : GoNames} {GX : GoX509} {GA : GoASN1} {GC : GoCrypto}
  {GP : GoPBMAC1} {GR : GoRandom}.

(** C15: a message changes the state of the server or of the CA, or gets another answer
    than an error, only if its protection proves its sender: by the MAC of the octets
    received, under the secret the server holds for the names in the header, or by a
    signature of the certificate it holds for them. A request forwarded in a nested
    message has two such proofs, that of the forwarding authority over the outer
    message and that of the requester, of one transaction. *)
Theorem processed_message_authenticated {S} (srv : Server S) (now : Time) (msg resp : PKIMessage)
    (w w' : World S) :
  processMessage srv now msg w = (w', Ok resp) ->
  (quiet w w' /\ refusal resp) \/
  exists fwd req b sender, delivered srv now (ca_state w) msg fwd req b sender /\
    authenticated srv now (ca_state w) req sender /\
    match fwd with
    | None => req = msg
    | Some f => fwd_msg f = msg /\ authenticated srv now (ca_state w) msg (fwd_ra f) /\
        TransactionID (Header req) = TransactionID (Header msg) /\
        SenderNonce (Header req) = SenderNonce (Header msg)
    end.
Proof.
  intros H. apply processMessage_cases in H as [H|(fwd & req & b & sender & Hd & _)]; [by left|].
  right. exists fwd, req, b, sender. split; [done|]. exact (delivered_authenticated _ _ _ _ _ _ _ _ Hd).
Qed.

(** C16: whatever a message makes the server of a CA ask of it, under the Lightweight
    Profile policy or not, is owed to an authenticated sender: a certificate is issued
    only for a key whose possession the request proves, the state of a pending request
    and a confirmation are passed on only for the transaction of that sender, with its
    nonces, and a revocation only with the authority to revoke. A forwarded request
    is seen by the authorizer first, and by the CA only if it agrees. *)
Theorem ca_called_with_authority {S} (ca : CA S) (policy : option (Handler S -> Handler S))
    (opts : list (Option S)) (now : Time) (msg resp : PKIMessage) (w w' : World S) :
  policy = None \/ policy = Some LightweightPolicy ->
  let srv := fst (NewCAServer ca policy opts) in
  processMessage srv now msg w = (w', Ok resp) ->
  ca_state w' = ca_state w \/
  exists fwd req b sender, delivered srv now (ca_state w) msg fwd req b sender /\
    authenticated srv now (ca_state w) req sender /\
    (forwarding_refused srv context_Background req fwd sender (ca_state w) (ca_state w') \/
     exists s1 ms,
       forwarded_with_authority srv context_Background req fwd sender (ca_state w) s1 /\
       same_but_id req ms /\
       ca_asked (ca_call ca) srv now w (server_context srv context_Background) ms b (attributed fwd sender)
         s1 (ca_state w')).
Proof.
  intros Hp srv H. pose proof (NewCAServer_drives ca policy opts Hp) as Hd. fold srv in Hd.
  apply (message_asks (ca_call ca)) in H as [H|(fwd & req & b & sender & Hdel & _ & Ho)]; [by left| |done].
  right. exists fwd, req, b, sender. split; [done|]. split; [by eapply delivered_authenticated | done].
Qed.

(** C17: every message that was parsed is answered, with a nesting of two messages at
    most, and every sweep ends, if the code the server calls does not panic in the
    states [Inv] of the CA, which it keeps, and has a response to what it does not
    refuse; the transactions awaiting a confirmation keep certificates that [Known]
    holds of, and the CA its invariant, for what comes next. *)
Theorem every_message_answered {L : CryptobyteLaws CB} {S} (srv : Server S) (now : Time) (Inv : S -> Prop)
    (Known : Certificate -> Prop) (der : bytes) (msg : PKIMessage) (w : World S) :
  well_behaved srv Inv Known -> good Inv Known w ->
  (ParsePKIMessage der = Ok msg ->
   exists w' resp, processMessage srv now msg w = (w', Ok resp) /\ good Inv Known w') /\
  exists w', CleanupExpired srv now w = (w', Ok tt) /\ good Inv Known w'.
Proof.
  intros Hwb Hw. split.
  - intros Hp. apply parsed_complete in Hp.
    destruct (ends_message srv now Inv Known Hwb msg Hp w Hw) as (w' & resp & H & Hw' & _).
    by exists w', resp.
  - destruct (ends_cleanup srv now Inv Known Hwb w Hw) as (w' & [] & H & Hw' & _). by exists w'.
Qed.

(** C18: every response echoes the senderNonce of the message as its recipNonce and its
    transactionID, which the server draws if the message has none, with a senderNonce
    of its own. It is the response to that message, or to the request the message
    forwards, and is protected for the sender whose protection the server verified: with
    a MAC under the very secret that verified the request, if one did, with the parameters
    of the request or of the request that is confirmed; for any other sender, and for
    nobody, with the signer of the server, and unprotected only if none is configured.
    A protection that fails leaves the report of that, and only the version of an
    unsupported-version error changes after the protection. *)
Theorem responses_echo_request {S} (srv : Server S) (now : Time) (msg resp : PKIMessage)
    (w w' : World S) :
  processMessage srv now msg w = (w', Ok resp) -> echoes srv now w msg resp.
Proof. apply processMessage_echoes. Qed.

End Server.

Section Interop.
Context {CB : Cryptobyte} {L : CryptobyteLaws CB} {GN : GoNames} {GX : GoX509} {GA : GoASN1}
  {GC : GoCrypto} {GL : GoCryptoLaws GX GC} {GP : GoPBMAC1} {PL : GoPBMAC1Laws CB GP} {GR : GoRandom}
  {GJ : GoJSON}.

(** C19: whatever happened to a server since it started, with an empty table or a restored
    one, its response to a request protected with a shared secret, sent and received, is
    verified by a client that holds the secret: granted certificates, confirmations and
    refusals alike, unless the server reports that it could not protect it. The client
    reads the header and the body of the response, and the protection has the algorithm
    of the request, or of the request that is confirmed. *)
Theorem mac_response_verified {S} (srv : Server S) (evs : list server_event) (now now' : Time)
    (sd rc : GeneralName) (msg resp m2 : PKIMessage) (w0 w w' : World S) (e : bytes) :
  Forall (fun c => element (Raw c)) (cfg_extraCerts (cfg srv)) ->
  started srv (tracker w0) -> runs (server_step srv) evs w0 w ->
  processMessage srv now msg w = (w', Ok resp) -> Body resp <> Some protection_unavailable ->
  names_read sd rc resp -> MarshalBinary resp = (m2, Ok e) ->
  exists req sender, answered srv now (ca_state w) msg resp req sender /\
    forall s, sender = Some s -> si_MACVerified s = true ->
    exists b m3 params alg, Body resp = Some b /\ ParsePKIMessage e = Ok m3 /\ received sd rc b resp m3 /\
      algorithm_of (tracker w) req resp s alg /\
      Algorithm <$> ProtectionAlg (Header m3) = Algorithm <$> alg /\
      Verify now' m3 (mac_options (secret s)) = Ok (mkVerifyResult true (Some params) None).
Proof.
  intros Hec Hst Hruns H Hne Hn He. apply processMessage_echoes in H as [_ _ _ (req & sender & Ha & _ & Hr)].
  exists req, sender. split; [exact Ha|]. intros s -> Hm.
  eapply mac_reply_verified; try done.
  - eapply runs_params; [exact (started_params _ _ Hst) | exact Hruns].
  - by eapply answered_authenticated.
Qed.

(** C20: every other response of a server with a certificate to a message of a version it
    supports, sent and received, is verified by every client that trusts the certificate,
    unless the server reports that it could not protect it: the responses to signed
    requests, and the errors for messages whose sender was not verified. *)
Theorem signed_response_verified {S} (srv : Server S) (now now' : Time) (sd rc : GeneralName)
    (msg resp m2 : PKIMessage) (w w' : World S) (creds : SignatureCredentials) (e : bytes)
    (o : VerifyOptions) :
  signerErr (cfg srv) = None -> signerCreds (cfg srv) = Some creds ->
  element (Raw (sc_cert creds)) -> Forall (fun c => element (Raw c)) (sc_chain creds) ->
  cert_key (sc_cert creds) (Signer_Public (sc_key creds)) ->
  Forall (fun c => element (Raw c)) (cfg_extraCerts (cfg srv)) ->
  processMessage srv now msg w = (w', Ok resp) -> Body resp <> Some protection_unavailable ->
  names_read sd rc resp -> MarshalBinary resp = (m2, Ok e) ->
  trusts now' o (sc_cert creds) sd (ExtraCerts resp) ->
  exists req sender, answered srv now (ca_state w) msg resp req sender /\
    (check_version req = None -> (forall s, sender = Some s -> si_MACVerified s = false) ->
     exists b m3, Body resp = Some b /\ ParsePKIMessage e = Ok m3 /\ received sd rc b resp m3 /\
       Verify now' m3 o = Ok (mkVerifyResult false None (Some (sc_cert creds)))).
Proof.
  intros Hse Hc Hel Hch Hk Hec H Hne Hn He Ht.
  apply processMessage_echoes in H as [_ _ _ (req & sender & Ha & Hu & Hr)].
  exists req, sender. split; [exact Ha|]. intros Hv Hm. eapply signed_reply_verified; try done.
  destruct sender as [s|]; [|done]. rewrite (Hu s eq_refl). by apply Hm.
Qed.

End Interop.

(** ** Runs *)

(** The enrollment changes the CA, so it is not refused. *)
Lemma toy_not_quiet : ~ quiet toy_world (fst toy_enrolled).
Proof. intros [n H]. apply (f_equal (fun w => length (ca_state w))) in H. by vm_compute in H. Qed.

Lemma processed_message_authenticated_witness :
  exists sender, authenticated toy_server toy_now [] toy_device sender.
Proof.
  destruct (processed_message_authenticated toy_server toy_now toy_device (snd toy_enrolled)
    toy_world (fst toy_enrolled)) as [[Hq _]|(fwd & req & b & sender & Hd & Ha & Hf)].
  - vm_compute. reflexivity.
  - exfalso. exact (toy_not_quiet Hq).
  - destruct fwd as [f|].
    + destruct Hf as (_ & Hf & _). exists (fwd_ra f). exact Hf.
    + subst req. exists sender. exact Ha.
Defined.

Lemma ca_called_with_authority_witness :
  exists fwd req b sender, delivered toy_server toy_now [] toy_device fwd req b sender /\
    authenticated toy_server toy_now [] req sender.
Proof.
  destruct (ca_called_with_authority toy_CA (Some LightweightPolicy) toy_options toy_now
    toy_device (snd toy_enrolled) toy_world (fst toy_enrolled))
    as [Hca|(fwd & req & b & sender & Hd & Ha & _)].
  - right. reflexivity.
  - vm_compute. reflexivity.
  - exfalso. apply (f_equal length) in Hca. vm_compute in Hca. discriminate Hca.
  - exists fwd, req, b, sender. split; [exact Hd | exact Ha].
Defined.

Lemma every_message_answered_witness :
  is_ok (ParsePKIMessage (ex_encoding toy_device)) = true /\
  exists w' resp, processMessage simple_server toy_now toy_device toy_world = (w', Ok resp)
    /\ good (fun _ => True) (fun _ => True) w'.
Proof.
  split; [vm_compute; reflexivity|].
  apply (every_message_answered simple_server toy_now (fun _ => True) (fun _ => True)
    (ex_encoding toy_device) toy_device toy_world simple_well_behaved).
  - split; [|exact I]. intros k e H. exfalso. vm_compute in H. destruct k; discriminate H.
  - vm_compute. reflexivity.
Defined.

(** The only message answered for one that is not nested. *)
Lemma answered_plain {S} (srv : Server S) now s msg resp req sender b :
  answered srv now s msg resp req sender -> Body msg = Some b -> Type_ b <> BodyTypeNested ->
  req = msg /\ sender = authenticated_sender srv now s msg.
Proof. intros [H | b' ra r Hb' Ht _ _] Hb Hne; [done|]. congruence. Qed.

Definition body_or (m : PKIMessage) : PKIBody := default NewPKIConfBody (Body m).

Lemma responses_echo_request_witness :
  RecipNonce (Header (snd toy_enrolled)) = [5; 6] /\
  (exists i, SenderNonce (Header (snd toy_enrolled)) = rand_Read i 16) /\
  exists sender, authenticated_sender toy_server toy_now [] toy_device = Some sender /\
    uses_mac (Some sender) = true /\
    reply toy_server toy_now (tracker toy_world) toy_device (Some sender) (snd toy_enrolled).
Proof.
  destruct (responses_echo_request toy_server toy_now toy_device (snd toy_enrolled)
    toy_world (fst toy_enrolled)) as [Hr _ Hn (req & sender & Ha & Hu & Hp)]; [vm_compute; reflexivity|].
  split; [exact Hr|]. split; [exact Hn|].
  destruct (answered_plain _ _ _ _ _ _ _ (body_or toy_device) Ha) as [E1 E2];
    [vm_compute; reflexivity | vm_compute; discriminate|].
  exists toy_identity. assert (Es : authenticated_sender toy_server toy_now [] toy_device = Some toy_identity)
    by (vm_compute; reflexivity).
  change (ca_state toy_world) with (@nil event) in E2. rewrite Es in E2. subst req sender.
  split; [exact Es|]. split; [|exact Hp]. rewrite (Hu _ eq_refl). reflexivity.
Defined.

(** A name as the peer reads it. *)
Definition read_name (g : GeneralName) : GeneralName :=
  match bout (GeneralName_marshal g) with
  | Ok d => match GeneralName_unmarshal d with Ok (gn, _) => gn | Err _ => emptyGeneralName end
  | Err _ => emptyGeneralName
  end.
Definition sender_of (m : PKIMessage) : GeneralName := read_name (Sender (Header m)).
Definition recipient_of (m : PKIMessage) : GeneralName := read_name (Recipient (Header m)).

(** The confirmation of the enrollment: its answer is protected as the enrollment was. *)
Definition toy_conf_response : PKIMessage := Eval vm_compute in snd toy_confirmed.
Definition toy_conf_from : GeneralName := Eval vm_compute in sender_of toy_conf_response.
Definition toy_conf_to : GeneralName := Eval vm_compute in recipient_of toy_conf_response.

Lemma mac_response_verified_witness :
  exists m3 params, ParsePKIMessage (ex_encoding toy_conf_response) = Ok m3 /\
    Verify 3 m3 (mac_options toy_secret) = Ok (mkVerifyResult true (Some params) None).
Proof.
  destruct (mac_response_verified toy_server [Received toy_now toy_device (snd toy_enrolled)] toy_now 3
    toy_conf_from toy_conf_to toy_confirmation toy_conf_response (fst (MarshalBinary toy_conf_response))
    toy_world (fst toy_enrolled) (fst toy_confirmed) (ex_encoding toy_conf_response))
    as (req & sender & Ha & Hv).
  - constructor.
  - left. exists 10000, 100. reflexivity.
  - eapply runs_cons; [|apply runs_nil]. vm_compute. reflexivity.
  - vm_compute. reflexivity.
  - vm_compute. discriminate.
  - split; apply reads_as_by; vm_compute; reflexivity.
  - vm_compute. reflexivity.
  - destruct (answered_plain _ _ _ _ _ _ _ (body_or toy_confirmation) Ha) as [E1 E2];
      [vm_compute; reflexivity | vm_compute; discriminate|].
    assert (Es : authenticated_sender toy_server toy_now (ca_state (fst toy_enrolled)) toy_confirmation
      = Some toy_confirmer) by (vm_compute; reflexivity).
    rewrite Es in E2. destruct (Hv _ E2 eq_refl) as (b & m3 & params & alg & _ & Hp & _ & _ & _ & Hver).
    exists m3, params. split; [exact Hp | exact Hver].
Defined.

(** The response to a signed revocation request. *)
Definition toy_rev_response : PKIMessage := Eval vm_compute in snd toy_revoked.
Definition toy_rev_from : GeneralName := Eval vm_compute in sender_of toy_rev_response.
Definition toy_rev_to : GeneralName := Eval vm_compute in recipient_of toy_rev_response.
Definition toy_revoker : SenderIdentity := Eval vm_compute in
  ok_or toy_identity (verifyProtection toy_server toy_now [] toy_revocation).
Definition toy_client_options : VerifyOptions :=
  mkVerifyOptions ProtectionSignature [] None (Some ex_ca) [] [] false false.
Definition toy_signer : SignatureCredentials := mkSigCredentials 3 ex_ca [ex_root].

Lemma signed_response_verified_witness :
  exists m3, ParsePKIMessage (ex_encoding toy_rev_response) = Ok m3 /\
    Verify 5 m3 toy_client_options = Ok (mkVerifyResult false None (Some ex_ca)).
Proof.
  destruct (signed_response_verified toy_server toy_now 5 toy_rev_from toy_rev_to
    toy_revocation toy_rev_response (fst (MarshalBinary toy_rev_response))
    toy_world (fst toy_revoked) toy_signer (ex_encoding toy_rev_response) toy_client_options)
    as (req & sender & Ha & Hv).
  - vm_compute. reflexivity.
  - vm_compute. reflexivity.
  - apply ex_element. vm_compute. reflexivity.
  - constructor; [|constructor]. apply ex_element. vm_compute. reflexivity.
  - vm_compute. reflexivity.
  - constructor.
  - vm_compute. reflexivity.
  - vm_compute. discriminate.
  - split; apply reads_as_by; vm_compute; reflexivity.
  - vm_compute. reflexivity.
  - split; [discriminate|]. split; [vm_compute; reflexivity|]. split; [discriminate|].
    split; [reflexivity|]. vm_compute. split; discriminate.
  - destruct (answered_plain _ _ _ _ _ _ _ (body_or toy_revocation) Ha) as [E1 E2];
      [vm_compute; reflexivity | vm_compute; discriminate|].
    assert (Es : authenticated_sender toy_server toy_now (ca_state toy_world) toy_revocation
      = Some toy_revoker) by (vm_compute; reflexivity).
    rewrite Es in E2. subst req. destruct Hv as (b & m3 & _ & Hp & _ & Hver).
    + vm_compute. reflexivity.
    + intros s Hs. rewrite E2 in Hs. injection Hs as Hs. rewrite <- Hs. reflexivity.
    + exists m3. split; [exact Hp | exact Hver].
Defined.

(** ** The unsupported-version error

    A message of a version the server does not know, and the error it gets: the version
    in the header is replaced after the error was signed, so that no client can verify
    it; with the version it was signed with, every client that trusts the server can. *)
Definition toy_future : PKIMessage := Eval vm_compute in
  let m := toy_device in set_Header (set_PVNO 5 (Header m)) m.
Definition toy_future_answer : PKIMessage := Eval vm_compute in snd (toy_run toy_future toy_world).

Lemma version_error_unverifiable :
  PVNO (Header (sent toy_future_answer)) = PVNO3 /\
  is_ok (Verify 5 (sent toy_future_answer) toy_client_options) = false /\
  is_ok (Verify 5 (sent (set_Header (set_PVNO 5 (Header toy_future_answer)) toy_future_answer))
           toy_client_options) = true.
Proof. vm_compute. done. Qed.
