(* ===== verification/TransactionProps.v ===== *)
(** * Properties of transactions

    What happens to a transaction between its first message and its last, alone and
    among others. *)
From S2P Require Import Prelude Failure Errors Monad Asn1 Der Types StatusInfo Enrollment Crmf.
From S2P Require Import X509 Message RevocationMsg Algorithms Protect Verify Instances CodecProps.
From S2P Require Import Transactions TransactionsFacts TransactionRace Handler ServerRequest CAHandler.
From S2P Require Import Policy Server Snapshot SnapshotFacts ServerFacts ServerRuns ServerSafety Authority.
From S2P Require Import TransactionMachine ServerTotality ServerExamples ServerProps.

Section Protocol.
Context {CB : Cryptobyte} {GN : GoNames} {GX : GoX509} {GA : GoASN1} {GC : GoCrypto}
  {GP : GoPBMAC1} {GR : GoRandom}.

(** C21: a message moves one transaction at most, the one of its transactionID and of its
    authenticated sender, by one step of the protocol that its type and its answer decide:
    a request admits a transaction where there was none, and leaves it active, waiting with
    the nonce of the answer, issued with the certificate of the answer, or completed; a poll
    moves a waiting one; a confirmation releases an issued one; a revocation completes its
    own; and a refusal changes nothing but that an initial request may stay admitted. All
    other entries are the same. The methods that record a waiting or an issued certificate
    replace an active or a waiting entry only, whatever came in between. *)
Theorem message_moves_own_transaction {S} (srv : Server S) (now : Time) (msg resp : PKIMessage)
    (w w' : World S) :
  processMessage srv now msg w = (w', Ok resp) ->
  ((transactions (tracker w') = transactions (tracker w) /\ refusal resp) \/
   exists fwd req b sender ms credID,
     authenticated srv now (ca_state w) req sender /\ delivered srv now (ca_state w) msg fwd req b sender /\
     same_but_id req ms /\ credentialID sender = Ok credID /\
     moved srv now ms (attributed fwd sender) credID resp (Type_ b)
       (transactions (tracker w)) (transactions (tracker w'))) /\
  (forall c tx rt ref nonce after polled t,
     guarded (makeKey c tx) t (fst (setPending now c tx rt ref nonce after polled t))) /\
  (forall c tx rt id crt ref nonce client params alg t,
     guarded (makeKey c tx) t (fst (setIssued now c tx rt id crt ref nonce client params alg t))).
Proof.
  intros H. split; [|split; intros; apply advance_guarded].
  apply processMessage_moved in H as [H|(fwd & req & b & sender & ms & credID & Hd & H)]; [by left|].
  right. exists fwd, req, b, sender, ms, credID. split; [by eapply delivered_authenticated | done].
Qed.

(** C22: over any sequence of messages and sweeps, the table follows the abstract machine
    event by event: each message makes the step of its own entry, each sweep removes
    exactly the entries that are too old. So an entry that does not wait for the CA stays
    the very same, an issued one in particular, and one that waits only goes on waiting, is
    issued or is completed, until a sweep finds it too old or a confirmation of the issued
    certificate is accepted. The counter of the server is exactly the number of
    transactions, and neither goes beyond the limit. *)
Theorem server_refines_machine {S} (srv : Server S) (evs : list server_event) (w w' : World S) :
  runs (server_step srv) evs w w' ->
  runs (table_step srv) evs (transactions (tracker w)) (transactions (tracker w')) /\
  (forall k e, transactions (tracker w) !! k = Some e ->
     (exists e', transactions (tracker w') !! k = Some e' /\ later e e') \/
     removed_in srv k e evs (transactions (tracker w))) /\
  (counts_ok (tracker w) -> counts_ok (tracker w')) /\
  maxTransactions (tracker w') = maxTransactions (tracker w).
Proof.
  intros H. assert (Hm : runs (table_step srv) evs (transactions (tracker w)) (transactions (tracker w'))).
  { apply (runs_simulated (fun w : World S => transactions (tracker w)) (server_step srv)); [|done].
    intros ev w0 w1. apply server_step_simulated. }
  split; [done|]. split; [intros k e; by apply table_runs_later|]. clear Hm.
  induction H as [w|ev evs w w1 w' Hs _ [IH1 IH2]]; [done|].
  assert (Hk : keeps_counts (tracker w) (tracker w1)); [|destruct Hk as [Hk1 Hk2]; split; [auto | congruence]].
  destruct ev as [at_ msg resp|at_]; simpl in Hs; [|by eapply CleanupExpired_counts].
  pose proof (process_counts srv at_ 2 context_Background msg None w) as Hc.
  unfold processMessage in Hs. by rewrite Hs in Hc.
Qed.

(** C23: a confirmation releases a transaction only when it is that of its sender, names
    the response that carried the certificate by its nonce, hashes the very certificate
    that was issued, agrees with itself, is not signed with the new key, and the handler
    accepts it; otherwise the transaction stays as it was, and the response is an error. *)
Theorem confirmation_checked {S} (srv : Server S) (now : Time) (ctx : context) (msg resp : PKIMessage)
    (sender : SenderIdentity) (w w' : World S) :
  handleCertConf srv now ctx msg sender w = (w', Ok resp) ->
  refused w w' resp \/
  exists credID conf entry r, confirmable srv w msg sender credID conf entry /\
    confirms srv msg sender conf entry /\
    handler srv (issued_context ctx entry) msg sender (ca_state w) = (ca_state w', r) /\
    match r with
    | Ok _ => tracker w' = remove_txn (makeKey credID (TransactionID (Header msg))) entry (tracker w) /\
        protected_as srv (Some sender) NewPKIConfBody resp
    | Err e => tracker w' = tracker w /\
        protected_as srv (Some sender) (error_body (errorToStatusInfo (Some e))) resp
    end.
Proof.
  intros H. apply handleCertConf_cases in H as [H|(credID & conf & entry & r & Hc & Hh & Hr)]; [by left|].
  right. exists credID, conf, entry, r. split; [done|].
  split; [apply certConf_guards_ok; by destruct Hc|]. split; [done|].
  destruct r as [o|e]; [|done]. destruct Hr as [Ht Hp]. split; [|done]. rewrite Ht, delete_txn_spec.
  destruct Hc as [_ _ _ He _]. unfold getIssued, get_in_state in He.
  destruct (transactions (tracker w) !! _); [|done]. case_bool_decide; [|done]. by injection He as ->.
Qed.

(** The confirmation an honest client sends for certificate [crt], issued under
    [certReqID] in the response [resp]. *)
Record honest_confirmation {S} (srv : Server S) (credID : bytes) (msg resp conf : PKIMessage)
    (sender : SenderIdentity) (crt : Certificate) (certReqID : Z) : Prop := {
  hc_body : exists b cs, Body conf = Some b /\ snd (CertConf b) = Ok [cs] /\
    NewCertStatus crt certReqID = Ok cs;
  hc_transaction : TransactionID (Header conf) = TransactionID (Header msg);
  hc_nonce : RecipNonce (Header conf) = SenderNonce (Header resp);
  hc_nonce_there : SenderNonce (Header resp) <> [];
  hc_fresh : strictProfile (cfg srv) = true ->
    SenderNonce (Header conf) <> SenderNonce (Header resp) /\
    SenderNonce (Header conf) <> SenderNonce (Header msg);
  hc_sender : credentialID sender = Ok credID;
  hc_signer : forall own, si_Certificate sender = Some own ->
    publicKeysEqual (certificatePublicKey own) (certificatePublicKey crt) = false
}.

Lemma honest_guards {S} (srv : Server S) now msg resp conf sender sender0 crt credID id rt r cs :
  composite_prehash_sha2 -> sha2_linked ->
  (forall a, compositex509_SignatureAlgorithm (Raw crt) = Some a ->
             hashFromSigAlg (cert_SignatureAlgorithm crt) = HashNone) ->
  honest_confirmation srv credID msg resp conf sender crt id -> NewCertStatus crt id = Ok cs ->
  StatusInfo cs = None /\
  certConf_guards srv conf sender [cs] (issued_for now credID rt id crt r sender0 msg resp) = Ok tt.
Proof.
  intros Hpre Hav Hcomp [_ _ Hn Hnt Hf _ Hsig] Hcs.
  destruct (NewCertStatus_checks crt id cs Hpre Hav Hcomp Hcs) as (Hid & Hsi & Hh).
  split; [done|]. unfold certConf_guards, checkCertStatuses. cbn [length check_each].
  rewrite andb_false_r. unfold checkCertStatus. cbn [cert issued_for issued_entry].
  rewrite Hh, bytes_eqb_refl. unfold certReqIDMatches. cbn [te_certReqID issued_for issued_entry].
  rewrite Hid, Z.eqb_refl. cbn [orb negb Bool.eqb]. rewrite Bool.eqb_reflx. cbn [negb res_bind].
  rewrite Hn. apply nonempty_true in Hnt. rewrite Hnt.
  cbn [issuedSenderNonce clientSenderNonce issued_for issued_entry]. rewrite bytes_eqb_refl. cbn [negb].
  assert (strictProfile (cfg srv) && (bytes_eqb (SenderNonce (Header conf)) (SenderNonce (Header resp))
            || nonempty (SenderNonce (Header msg))
               && bytes_eqb (SenderNonce (Header conf)) (SenderNonce (Header msg))) = false) as ->.
  { apply not_true_iff_false.
    rewrite andb_true_iff, orb_true_iff, andb_true_iff, !bytes_eqb_eq. tauto. }
  destruct (si_Certificate sender) as [own|] eqn:Eo; [|done].
  by rewrite (Hsig _ eq_refl).
Qed.

(** The confirmation of a certificate that was recorded as issued: the handler is asked
    about that certificate, the transaction is removed, and the response is a pkiConf. *)
Lemma confirmation_accepted {S} (srv : Server S) now now' ctx msg resp conf sender0 sender (w : World S)
    s2 r crt credID rt id o :
  composite_prehash_sha2 -> sha2_linked ->
  (forall a, compositex509_SignatureAlgorithm (Raw crt) = Some a ->
             hashFromSigAlg (cert_SignatureAlgorithm crt) = HashNone) ->
  let entry := issued_for now credID rt id crt r sender0 msg resp in
  let key := makeKey credID (TransactionID (Header msg)) in
  transactions (tracker w) !! key = Some entry ->
  honest_confirmation srv credID msg resp conf sender crt id ->
  handler srv (issued_context ctx entry) conf sender (ca_state w) = (s2, Ok o) ->
  handleCertConf srv now' ctx conf sender w =
  buildResponseWithEchoProtection srv now' conf NewPKIConfBody (Some sender) (si_protectionParams sender0)
    (mkWorld (remove_txn key entry (tracker w)) (draws w) s2).
Proof.
  intros Hpre Hav Hcomp entry key Hlook Hc Hacc. unfold key in *. clear key.
  pose proof Hc as [(b2 & cs & Hb2 & Hconf & Hcs) Htx _ _ _ Hsd _].
  destruct (honest_guards srv now _ _ _ _ sender0 _ _ _ rt r _ Hpre Hav Hcomp Hc Hcs) as [Hsi Hguards].
  fold entry in Hguards. unfold handleCertConf, senderCredential. rewrite Hb2, Hconf. cbn [existsb].
  unfold contradictory at 1. rewrite Hsi. cbn [orb]. rewrite Hsd. unfold st_bind at 1, st_get at 1.
  unfold getIssued, get_in_state. rewrite Htx, Hlook, bool_decide_eq_true_2 by done.
  rewrite Hguards. change (contextWithIssued ctx _) with (issued_context ctx entry).
  assert (Hrun : on_ca (call (handler srv (issued_context ctx entry) conf sender)) w
      = (mkWorld (tracker w) (draws w) s2, Ok (Ok o))).
  { rewrite on_ca_run. unfold call. by rewrite Hacc. }
  unfold st_bind at 1. rewrite Hrun. unfold st_bind at 1. rewrite on_tracker_run. cbn [tracker].
  by rewrite delete_txn_spec, Hlook.
Qed.

(** C24: what the server issues can be confirmed: after the response that carries a
    certificate, the confirmation an honest client computes from it passes every check,
    the handler is asked about that certificate, and its acceptance gives a pkiConf and
    removes the transaction. *)
Theorem issued_certificate_confirmed {S} (srv : Server S) (now now' : Time) (ctx ctx' : context)
    (msg resp conf : PKIMessage) (sender sender' : SenderIdentity) (w w1 : World S) (s1 s2 : S)
    (r : Response) (crt : Certificate) (credID : bytes) (id : Z) (o : option Response) :
  composite_prehash_sha2 -> sha2_linked ->
  (forall a, compositex509_SignatureAlgorithm (Raw crt) = Some a ->
             hashFromSigAlg (cert_SignatureAlgorithm crt) = HashNone) ->
  handleCertRequest srv now ctx msg sender w = (w1, Ok resp) -> ~ refusal resp ->
  handler srv ctx msg sender (ca_state w) = (s1, Ok (Some r)) ->
  Waiting r = None -> resp_Certificate r = Some crt -> grants_implicit srv msg = false ->
  credentialID sender = Ok credID -> certReqIDFromRequest msg = Ok id ->
  honest_confirmation srv credID msg resp conf sender' crt id ->
  (forall entry, cert entry = Some crt -> te_issueRef entry = IssueRef r ->
     handler srv (issued_context ctx' entry) conf sender' (ca_state w1) = (s2, Ok o)) ->
  exists w2 resp2, handleCertConf srv now' ctx' conf sender' w1 = (w2, Ok resp2) /\
    protected_as srv (Some sender') NewPKIConfBody resp2 /\ ca_state w2 = s2 /\
    transactions (tracker w2) !! makeKey credID (TransactionID (Header msg)) = None /\
    count (tracker w2) = count (tracker w1) - 1.
Proof.
  intros Hpre Hav Hcomp Hrun Hnr Hh Hw Hcrt Hg Hcred Hid Hc Hacc.
  apply handleCertRequest_cases in Hrun as [[_ Hr]|(b & credID' & id' & r' & s' & _ & Hcred' & _ & Hid' & Hh' & _ & Ho)];
    [done|].
  rewrite Hcred in Hcred'. injection Hcred' as <-. rewrite Hid in Hid'. injection Hid' as <-.
  rewrite Hh in Hh'. injection Hh' as _ <-.
  inversion Ho as [|r0 wr Hwr Hcar Htr E|r0 Hwr Hcar Hrec E|r0 Hr Htr E]; subst;
    [by rewrite Hw in Hwr| |done].
  unfold recorded in Hrec. rewrite Hcrt, Hg in Hrec. destruct Hrec as (e & He & _ & Ht1).
  set (entry := issued_for _ _ _ _ _ _ _ _ _) in Ht1.
  assert (Hlook : transactions (tracker w1) !! makeKey credID (TransactionID (Header msg)) = Some entry).
  { rewrite Ht1. destruct (tracker w). simpl. by rewrite lookup_insert_eq. }
  rewrite (confirmation_accepted srv now now' ctx' msg resp conf sender sender' w1 s2 r crt credID _ id o
             Hpre Hav Hcomp Hlook Hc (Hacc entry eq_refl eq_refl)).
  unfold buildResponseWithEchoProtection.
  match goal with |- context [buildResponseInternal _ _ ?m ?body ?sd ?g ?p ?w0] =>
    destruct (buildResponseInternal_spec srv now' m body sd g p w0) as (resp2 & -> & _ & Hp) end.
  eexists _, resp2. split; [reflexivity|]. split; [done|]. split; [done|].
  simpl. by rewrite lookup_delete_eq.
Qed.

Lemma start_occupied now c tx t t' e :
  transactions t !! makeKey c tx = Some e -> startIfAbsent now c tx t <> (t', Ok false).
Proof.
  intros He H. pose proof (startIfAbsent_outcome now c tx t) as Ho. rewrite H in Ho.
  inversion Ho; subst. congruence.
Qed.

(** C25: while a transaction is held, no other request gets into it: an initial request of
    the same sender with the same transactionID is answered with an error, and neither
    the CA nor the table sees it. *)
Theorem repeated_request_refused {S} (srv : Server S) (now : Time) (msg resp : PKIMessage)
    (b : PKIBody) (sender : SenderIdentity) (credID : bytes) (e : transactionEntry) (w w' : World S) :
  processMessage srv now msg w = (w', Ok resp) ->
  verifyProtection srv now (ca_state w) msg = Ok sender -> credentialID sender = Ok credID ->
  Body msg = Some b -> isInitialRequest (Type_ b) = true -> TransactionID (Header msg) <> [] ->
  transactions (tracker w) !! makeKey credID (TransactionID (Header msg)) = Some e ->
  refusal resp /\ ca_state w' = ca_state w /\ same_counts (tracker w) (tracker w').
Proof.
  intros H Hv Hc Hb Hi Htx He.
  assert (Hs : same_counts (tracker w) (tracker w)) by done.
  apply processMessage_cases in H as [[[n ->] Hr]|(fwd & req & b' & sd & Hd & Ho)]; [done|].
  destruct Hd as [b' sd [_ _ _ Hv' Hb' _] _|b' ra rq bi sd [_ _ _ _ Hb' _] Ht _ _ _].
  2: { rewrite Hb in Hb'. injection Hb' as <-. rewrite Ht in Hi. discriminate Hi. }
  rewrite Hb in Hb'. injection Hb' as <-. rewrite Hv in Hv'. injection Hv' as <-.
  destruct Ho as [(f & _ & _ & Hf & _) _ _|s1 Hf [Hca Hsc] Hr|s1 ms n w2 Hf Hid Ha _]; [done| |].
  - simpl in Hf, Hca, Hsc. subst s1. done.
  - exfalso. apply admit_transaction_ok in Ha as (_ & credID' & Hc' & _ & Hst). rewrite Hi in Hst.
    simpl in Hc', Hst. rewrite Hc in Hc'. injection Hc' as <-.
    destruct Hid as [-> | (Hn & _)]; [|done]. by eapply start_occupied.
Qed.

(** C26: a poll reaches the handler only for the pending transaction of its sender, with
    the nonce of the last response and no sooner than that response said; it gets that
    transaction's reference, and the transaction stays pending, under the nonce of the
    new response, or holds the certificate that was issued. *)
Theorem poll_checked {S} (srv : Server S) (now : Time) (ctx : context) (msg resp : PKIMessage)
    (sender : SenderIdentity) (w w' : World S) :
  handlePollReq srv now ctx msg sender w = (w', Ok resp) ->
  refused w w' resp \/
  exists credID entry ids r s1, resumable now w msg sender credID entry /\
    handler srv (contextWithPollRef ctx (pollRef entry)) msg sender (ca_state w) = (s1, r) /\
    poll_outcome srv now msg sender credID (default 0 (head ids)) entry w w' resp r /\
    forall e', transactions (tracker w') !! makeKey credID (TransactionID (Header msg)) = Some e' ->
      e' = entry \/ (state e' = statePending /\ te_senderNonce e' = SenderNonce (Header resp)) \/
      (state e' = stateIssued /\ issuedSenderNonce e' = SenderNonce (Header resp)) \/
      state e' = stateCompleted.
Proof.
  intros H. apply handlePollReq_cases in H
    as [H|(b & ids & credID & entry & r & s1 & _ & _ & Hr & Hh & _ & Ho)]; [by left|].
  right. exists credID, entry, ids, r, s1. split; [done|]. split; [done|]. split; [done|].
  pose proof Hr as [_ He _ _]. unfold getPending, get_in_state in He.
  destruct (transactions (tracker w) !! _) as [e0|] eqn:E; [|done].
  case_bool_decide as Hst; [|done]. injection He as ->.
  intros e' He'. destruct Ho as [e Ht _|r wr _ _ Ht|r _ _ Hrec|r _ Ht]; try (rewrite Ht in He').
  - left. congruence.
  - right. left. unfold setPending in He'. rewrite advance_spec, E in He'.
    unfold may_advance in He'. rewrite Hst in He'. simpl in He'. destruct (tracker w). simpl in He'.
    rewrite lookup_insert_eq in He'. by injection He' as <-.
  - unfold recorded in Hrec. destruct (resp_Certificate r); [|left; congruence].
    destruct (grants_implicit srv msg).
    + right. right. right. rewrite Hrec, setCompleted_spec, E in He'. destruct (tracker w). simpl in He'.
      rewrite lookup_insert_eq in He'. injection He' as <-. by destruct entry.
    + right. right. left. destruct Hrec as (e1 & _ & _ & Hrec). rewrite Hrec in He'.
      destruct (tracker w). simpl in He'. rewrite lookup_insert_eq in He'. by injection He' as <-.
  - left. congruence.
Qed.

End Protocol.

Section Races.
Context {GC : GoCrypto}.

(** C27: however the requests of many clients and the sweeps interleave, down to the
    single operations on the tables and counters, there are never more transactions
    than the server or a credential may have, and once every request has returned the
    counters are exact. *)
Theorem capacity_under_races (known : bytes -> Prop) (mx mc : Z) (t : transactionTracker)
    (ps : list thread) :
  collision_free known -> reachable known mx mc (t, ps) ->
  Z.of_nat (size (transactions t)) <= Z.max 0 mx /\
  (forall ck, held ck (transactions t) <= Z.max 0 mc) /\
  (Forall returned ps -> tracker_ok known t).
Proof.
  intros Hf Hr. destruct (reachable_limits _ _ _ _ _ Hf Hr) as [H1 H2].
  split; [done|]. split; [done|]. by apply quiescent_exact with (1 := Hf) (2 := Hr).
Qed.

End Races.

Section Credentials.
Context {GN : GoNames} {GC : GoCrypto}.

Lemma length_prefixed_inj (a a' r r' : bytes) :
  short a -> short a' ->
  writeLengthPrefixed a ++ r = writeLengthPrefixed a' ++ r' -> a = a' /\ r = r'.
Proof.
  unfold writeLengthPrefixed. rewrite <- !app_assoc. apply prefixed_inj.
Qed.

(** What tells two senders apart for the server: the reference and the name of a shared
    secret, or a certificate. *)
Definition same_credential (a b : SenderIdentity) : Prop :=
  si_MACVerified a = si_MACVerified b /\
  if si_MACVerified a
  then si_SenderKID a = si_SenderKID b /\ senderNameKey (headerSender a) = senderNameKey (headerSender b)
  else Raw <$> si_Certificate a = Raw <$> si_Certificate b.

(** A sender whose fields have lengths that are written in full, and whose certificate
    is a DER sequence. *)
Definition credential_wf (a : SenderIdentity) : Prop :=
  short (si_SenderKID a) /\ short (senderNameKey (headerSender a)) /\
  (forall c, si_Certificate a = Some c -> head (Raw c) = Some SEQUENCE).

Lemma credential_input_inj a b x :
  credential_wf a -> credential_wf b -> credential_input a = Ok x -> credential_input b = Ok x ->
  same_credential a b.
Proof.
  intros (Ha1 & Ha2 & Ha3) (Hb1 & Hb2 & Hb3). unfold credential_input, same_credential.
  destruct (si_MACVerified a), (si_MACVerified b).
  - intros <-%Ok_inj H. apply Ok_inj, app_inv_head in H.
    apply length_prefixed_inj in H as [H1 H]; [|done..].
    rewrite <- (app_nil_r (writeLengthPrefixed (senderNameKey (headerSender a)))) in H.
    rewrite <- (app_nil_r (writeLengthPrefixed (senderNameKey (headerSender b)))) in H.
    apply length_prefixed_inj in H as [H2 _]; [|done..]. done.
  - intros [= <-] H. destruct (si_Certificate b) as [c|]; [|done]. injection H as H.
    specialize (Hb3 _ eq_refl). rewrite H in Hb3. discriminate Hb3.
  - intros H [= <-]. destruct (si_Certificate a) as [c|]; [|done]. injection H as H.
    specialize (Ha3 _ eq_refl). rewrite H in Ha3. discriminate Ha3.
  - destruct (si_Certificate a), (si_Certificate b); try done. intros [= <-] [= H]. simpl. by rewrite H.
Qed.

(** C28: transactions of different senders never meet: identities with different
    credentials, or different transactionIDs, have different entries, as long as SHA-256
    does not collide on what was hashed. *)
Theorem credentials_separate_transactions (known : bytes -> Prop) (a b : SenderIdentity)
    (xa xb ca cb ta tb : bytes) :
  collision_free known -> credential_wf a -> credential_wf b ->
  credential_input a = Ok xa -> credential_input b = Ok xb -> known xa -> known xb ->
  credentialID a = Ok ca -> credentialID b = Ok cb -> known_pair known ca ta -> known_pair known cb tb ->
  ~ (same_credential a b /\ ta = tb) -> makeKey ca ta <> makeKey cb tb.
Proof.
  intros Hf Ha Hb Hxa Hxb Hka Hkb Hca Hcb Hpa Hpb Hn H. apply Hn.
  destruct (makeKey_inj _ _ _ _ _ Hf Hpa Hpb H) as [-> ->]. split; [|done].
  unfold credentialID in Hca, Hcb. rewrite Hxa in Hca. rewrite Hxb in Hcb. simpl in Hca, Hcb.
  injection Hca as <-. injection Hcb as Hcb. apply Hf in Hcb; [|done..]. subst xb.
  by eapply credential_input_inj.
Qed.

End Credentials.

Section Expiry.
Context {CB : Cryptobyte} {GN : GoNames} {GX : GoX509} {GA : GoASN1} {GC : GoCrypto}
  {GP : GoPBMAC1} {GR : GoRandom}.

(** The CA once it was told of each expired certificate, whatever it answered. *)
Definition told_expired {S} (confirm : context -> Certificate -> ConfirmStatus -> option any -> ST S unit)
    (report : list expiredIssued) (s : S) : S :=
  foldl (fun s x => fst (confirm context_Background (ex_cert x) ConfirmExpired (ex_issueRef x) s)) s report.

Lemma notify_expired_told {S} (srv : Server S) confirm report (w w' : World S) u :
  confirmer (cfg srv) = Some confirm -> notify_expired srv report w = (w', Ok u) ->
  ca_state w' = told_expired confirm report (ca_state w).
Proof.
  intros Hc. revert w. induction report as [|x report IH]; intros w H; cbn [notify_expired] in H.
  - apply st_ret_ok in H as [-> _]. done.
  - rewrite Hc in H. apply st_bind_ok in H as (w1 & r & H1 & H).
    apply on_ca_call in H1 as (_ & Hr & _). apply IH in H. rewrite H. simpl. by rewrite Hr.
Qed.

(** C29: a sweep removes the transactions without activity for the confirmation time and
    no other, keeps the counters exact, and tells the CA of each certificate among them
    that was issued and not confirmed, each with its reference. *)
Theorem expired_reported {S} (srv : Server S) (known : bytes -> Prop) (now : Time) (w w' : World S)
    (confirm : context -> Certificate -> ConfirmStatus -> option any -> ST S unit) :
  0 < confirmWait (cfg srv) -> confirmer (cfg srv) = Some confirm -> tracker_ok known (tracker w) ->
  CleanupExpired srv now w = (w', Ok tt) ->
  let cutoff := now - confirmWait (cfg srv) in
  tracker_ok known (tracker w') /\
  (forall k e, transactions (tracker w') !! k = Some e <->
     transactions (tracker w) !! k = Some e /\ ~ is_old cutoff e) /\
  exists report, ca_state w' = told_expired confirm report (ca_state w) /\
    forall x, x ∈ report <-> exists k e c, transactions (tracker w) !! k = Some e /\ is_old cutoff e /\
      state e = stateIssued /\ cert e = Some c /\ x = mkExpired c (te_issueRef e).
Proof.
  intros Hpos Hconf Hok H cutoff.
  destruct (cleanupExpired_spec known now _ (tracker w) Hpos) as (t' & Hc & Hok' & Hk).
  unfold CleanupExpired in H. apply st_bind_ok in H as (w1 & l & H1 & H).
  rewrite on_tracker_run, Hc in H1. injection H1 as <- <-.
  destruct (notify_expired_tracker _ _ _ _ _ H) as [Ht _].
  apply (notify_expired_told _ _ _ _ _ _ Hconf) in H. simpl in Ht, H. rewrite Ht.
  split; [by apply Hok'|]. split; [exact Hk|].
  exists (expired_report cutoff (map_to_list (transactions (tracker w)))). split; [exact H|].
  intros x. apply expired_report_spec.
Qed.

(** A full server comes back: once its transactions have been idle for the
    confirmation time, a sweep makes room, and the next request of any client is
    admitted. *)
Lemma swept_server_admits {S} (srv : Server S) (known : bytes -> Prop) (now now' : Time)
    (w w' : World S) (credID tx : bytes) :
  0 < confirmWait (cfg srv) -> tracker_ok known (tracker w) ->
  (forall k e, transactions (tracker w) !! k = Some e -> is_old (now - confirmWait (cfg srv)) e) ->
  1 <= maxTransactions (tracker w) -> 1 <= maxTransactionsPerCredential (tracker w) ->
  CleanupExpired srv now w = (w', Ok tt) ->
  count (tracker w') = 0 /\
  exists t, startIfAbsent now' credID tx (tracker w') = (t, Ok false) /\
    phase t (makeKey credID tx) = Some stateActive.
Proof.
  intros Hpos Hok Hold Hmx Hmc H.
  destruct (CleanupExpired_counts _ _ _ _ H) as [Hmx' _].
  destruct (CleanupExpired_limits srv now w w' H) as [_ Hmc'].
  destruct (cleanupExpired_spec known now _ (tracker w) Hpos) as (t' & Hc & Hok' & Hk).
  apply CleanupExpired_cases in H as [[Hle _]|(t2 & _ & Ht2 & Hc2)]; [lia|].
  rewrite Hc in Hc2. injection Hc2 as <-. rewrite Ht2 in *.
  assert (Hempty : transactions t' = ∅).
  { apply map_empty. intros k. apply eq_None_not_Some. intros [e He]. apply Hk in He as [He Hn].
    apply Hn. by eapply Hold. }
  specialize (Hok' Hok). destruct Hok' as [Hcount Hcred _ _ _]. rewrite Hempty in Hcount, Hcred.
  assert (Hz : forall ck, default 0 (credentialCounts t' !! ck) = 0).
  { intros ck. rewrite Hcred. unfold held. by rewrite map_filter_empty. }
  split; [by rewrite Hcount|].
  destruct (startIfAbsent now' credID tx t') as [t r] eqn:E. exists t.
  pose proof (startIfAbsent_outcome now' credID tx t') as Ho. rewrite E in Ho.
  inversion Ho as [t0 Hl _|t0 _ Hl _|t0 e _ _ He _|_ _ _]; subst.
  - rewrite Hmx', Hcount, map_size_empty in Hl. lia.
  - rewrite Hz in Hl. lia.
  - rewrite Hempty in He. by rewrite lookup_empty in He.
  - split; [done|]. unfold phase. simpl. by rewrite lookup_insert_eq.
Qed.
End Expiry.

Section Snapshots.
Context {GX : GoX509} {GC : GoCrypto} {GJ : GoJSON} {JL : GoJSONLaws GJ}.

(** C31: a snapshot of a server, restored into an empty one with the same signer and limits,
    gives every transaction back with its state, its nonces and the reference of the CA,
    its protection parameters read from its algorithm, and counters that are exact, if the
    decoder of references, or [json.Unmarshal] without one, reads back every reference and
    nil from [null]. That [null] is what it gets for a transaction without a reference: a
    decoder that refuses it makes the restoration of the whole snapshot fail. *)
Theorem snapshot_restored {S} (c : serverConfig S) (known : bytes -> Prop) (now : Time)
    (decode : option (bytes -> result (option any))) (t : transactionTracker) (data : bytes) :
  (forall k e, transactions t !! k = Some e -> restorable now e) -> tracker_ok known t ->
  0 <= maxTransactions t -> SnapshotTransactions c t = Ok data ->
  let read := default json_Unmarshal_any decode in
  ((forall k e, transactions t !! k = Some e -> decodes_ref read e) ->
   exists t', RestoreTransactions c now data decode
       (newTransactionTracker (maxTransactions t) (maxTransactionsPerCredential t)) = Ok t' /\
     tracker_ok known t' /\ forall k, transactions t' !! k = restored <$> transactions t !! k) /\
  (forall k e err t0, transactions t !! k = Some e -> te_issueRef e = None -> read json_null = Err err ->
     is_ok (RestoreTransactions c now data decode t0) = false).
Proof.
  intros Hre Hok Hmx H read. split.
  - intros Hd. rewrite restore_default. by apply restore_snapshot.
  - intros k e err t0 He Hn Herr. rewrite restore_default. by eapply restore_refused.
Qed.

End Snapshots.

(** ** Runs *)

Lemma message_moves_own_transaction_witness :
  exists fwd sender credID ms b, credentialID sender = Ok credID /\ same_but_id toy_device ms /\
    moved toy_server toy_now ms (attributed fwd sender) credID (snd toy_enrolled) (Type_ b)
      (transactions (tracker toy_world)) (transactions (tracker (fst toy_enrolled))).
Proof.
  destruct (message_moves_own_transaction toy_server toy_now toy_device (snd toy_enrolled)
    toy_world (fst toy_enrolled)) as [[[H _]|(fwd & req & b & sender & ms & credID & _ & Hd & Hid & Hc & Hm)] _].
  - vm_compute. reflexivity.
  - exfalso. apply (f_equal (fun m => length (map_to_list m))) in H. vm_compute in H. discriminate H.
  - exists fwd, sender, credID, ms, b. split; [exact Hc|]. split; [|exact Hm].
    assert (Hq : delivered toy_server toy_now [] toy_device fwd req b sender -> req = toy_device).
    { intros [|? ? ? ? ? [] Ht _ _ _]; [reflexivity|]. exfalso. vm_compute in ver_body.
      injection ver_body as <-. discriminate Ht. }
    rewrite (Hq Hd) in Hid. exact Hid.
Defined.

Definition toy_events : list server_event :=
  [Received toy_now toy_device (snd toy_enrolled);
   Received toy_now toy_confirmation (snd toy_confirmed)].

Lemma server_refines_machine_witness :
  runs (table_step toy_server) toy_events (transactions (tracker toy_world))
    (transactions (tracker (fst toy_confirmed))) /\
  counts_ok (tracker (fst toy_confirmed)).
Proof.
  destruct (server_refines_machine toy_server toy_events toy_world (fst toy_confirmed)) as (H1 & _ & H2 & _).
  - apply (runs_cons _ _ _ _ (fst toy_enrolled)); [vm_compute; reflexivity|].
    apply (runs_cons _ _ _ _ (fst toy_confirmed)); [vm_compute; reflexivity | apply runs_nil].
  - split; [exact H1|]. apply H2. split; vm_compute; [reflexivity | discriminate].
Defined.

(** The run of the handler of the confirmation alone. *)
Definition toy_release : World (list event) * result PKIMessage := Eval vm_compute in
  handleCertConf toy_server toy_now context_Background toy_confirmation toy_confirmer (fst toy_enrolled).

(** The entry the enrollment left. *)
Definition toy_credential : bytes := Eval vm_compute in ok_or [] (credentialID toy_identity).
Definition toy_key : transactionKey := makeKey toy_credential [1; 2; 3; 4].
Definition some_entry : transactionEntry := active_entry 0 [].
Definition toy_entry : transactionEntry := Eval vm_compute in
  default some_entry (transactions (tracker (fst toy_enrolled)) !! toy_key).

Lemma confirmation_checked_witness :
  exists conf entry, confirms toy_server toy_confirmation toy_confirmer conf entry /\
    cert entry = Some toy_new_certificate.
Proof.
  destruct (confirmation_checked toy_server toy_now context_Background toy_confirmation
    (ok_or toy_confirmation (snd toy_release)) toy_confirmer (fst toy_enrolled) (fst toy_release))
    as [[[n Hq] _]|(credID & conf & entry & r & Hc & Hco & _ & _)].
  - vm_compute. reflexivity.
  - exfalso. apply (f_equal (fun w => length (ca_state w))) in Hq. vm_compute in Hq. discriminate Hq.
  - exists conf, entry. split; [exact Hco|]. destruct Hc as [_ _ Hcred He _].
    assert (Ec : credentialID toy_confirmer = Ok toy_credential) by (vm_compute; reflexivity).
    rewrite Ec in Hcred. apply Ok_inj in Hcred as <-.
    assert (Ee : getIssued toy_credential (TransactionID (Header toy_confirmation))
      (tracker (fst toy_enrolled)) = Some toy_entry) by (vm_compute; reflexivity).
    rewrite Ee in He. apply Some_inj in He as <-. vm_compute. reflexivity.
Defined.

(** The enrollment once it was admitted, and the run of its handler alone. *)
Definition toy_admitted : World (list event) := Eval vm_compute in
  fst (admit_transaction toy_server toy_now toy_device true toy_identity toy_world).
Definition toy_grant : World (list event) * result PKIMessage := Eval vm_compute in
  handleCertRequest toy_server toy_now context_Background toy_device toy_identity toy_admitted.
Definition toy_response : Response := mkResponse (Some toy_new_certificate) [ex_ca] None (Some 77).
Definition toy_final : list event :=
  [Ev_issued 0 "device" (Some (ex_public 3)); Ev_confirmed (Some 100) ConfirmAccepted].

Lemma toy_honest :
  honest_confirmation toy_server toy_credential toy_device (snd toy_enrolled)
    toy_confirmation toy_confirmer toy_new_certificate 0.
Proof.
  constructor.
  - eexists _, _. split; [vm_compute; reflexivity|]. split; vm_compute; reflexivity.
  - vm_compute. reflexivity.
  - vm_compute. reflexivity.
  - vm_compute. discriminate.
  - intros _. split; vm_compute; discriminate.
  - vm_compute. reflexivity.
  - intros own H. vm_compute in H. discriminate H.
Qed.

Lemma issued_certificate_confirmed_witness :
  exists w2 resp2, handleCertConf toy_server (toy_now + 1) context_Background toy_confirmation
      toy_confirmer (fst toy_grant) = (w2, Ok resp2) /\
    protected_as toy_server (Some toy_confirmer) NewPKIConfBody resp2 /\ ca_state w2 = toy_final.
Proof.
  destruct (issued_certificate_confirmed toy_server toy_now (toy_now + 1) context_Background
    context_Background toy_device (snd toy_enrolled) toy_confirmation toy_identity
    toy_confirmer toy_admitted (fst toy_grant) [Ev_issued 0 "device" (Some (ex_public 3))] toy_final
    toy_response toy_new_certificate toy_credential 0 None) as (w2 & resp2 & Hrun & Hp & Hs & _).
  - intros a. right. right. reflexivity.
  - intros h [->|[->| ->]]; reflexivity.
  - intros a _. vm_compute. reflexivity.
  - vm_compute. reflexivity.
  - intros [si H]. vm_compute in H. discriminate H.
  - vm_compute. reflexivity.
  - reflexivity.
  - reflexivity.
  - vm_compute. reflexivity.
  - vm_compute. reflexivity.
  - vm_compute. reflexivity.
  - exact toy_honest.
  - intros entry Hc Hr. unfold issued_context. rewrite Hc, Hr. vm_compute. reflexivity.
  - exists w2, resp2. split; [exact Hrun|]. split; [exact Hp | exact Hs].
Defined.

Definition toy_repeated : World (list event) * PKIMessage := Eval vm_compute in
  toy_run toy_device (fst toy_enrolled).

Lemma repeated_request_refused_witness :
  refusal (snd toy_repeated) /\ ca_state (fst toy_repeated) = ca_state (fst toy_enrolled).
Proof.
  destruct (repeated_request_refused toy_server toy_now toy_device (snd toy_repeated)
    (default NewPKIConfBody (Body toy_device)) toy_identity toy_credential toy_entry
    (fst toy_enrolled) (fst toy_repeated)) as (Hr & Hs & _).
  - vm_compute. reflexivity.
  - vm_compute. reflexivity.
  - vm_compute. reflexivity.
  - vm_compute. reflexivity.
  - vm_compute. reflexivity.
  - vm_compute. discriminate.
  - vm_compute. reflexivity.
  - split; [exact Hr | exact Hs].
Defined.

Definition toy_poller : SenderIdentity := Eval vm_compute in
  ok_or toy_identity (verifyProtection toy_server toy_now [] toy_poll).
Definition toy_resumed : World (list event) * result PKIMessage := Eval vm_compute in
  handlePollReq toy_server toy_now context_Background toy_poll toy_poller (fst toy_waiting).

Definition toy_pending : transactionEntry := Eval vm_compute in
  default some_entry (getPending toy_credential [1; 2; 3; 4] (tracker (fst toy_waiting))).

Lemma poll_checked_witness :
  exists credID entry, resumable toy_now (fst toy_waiting) toy_poll toy_poller credID entry /\
    pollRef entry = "job-1".
Proof.
  destruct (poll_checked toy_server toy_now context_Background toy_poll
    (ok_or toy_poll (snd toy_resumed)) toy_poller (fst toy_waiting) (fst toy_resumed))
    as [[[n Hq] _]|(credID & entry & ids & r & s1 & Hr & _ & _)].
  - vm_compute. reflexivity.
  - exfalso. apply (f_equal (fun w => length (ca_state w))) in Hq. vm_compute in Hq. discriminate Hq.
  - exists credID, entry. split; [exact Hr|]. destruct Hr as [Hc He _ _].
    assert (Ec : credentialID toy_poller = Ok toy_credential) by (vm_compute; reflexivity).
    rewrite Ec in Hc. apply Ok_inj in Hc as <-.
    assert (Ee : getPending toy_credential (TransactionID (Header toy_poll))
      (tracker (fst toy_waiting)) = Some toy_pending) by (vm_compute; reflexivity).
    rewrite Ee in He. apply Some_inj in He as <-. vm_compute. reflexivity.
Defined.

(** What was hashed in the runs below. *)
Definition one_known (x : bytes) : Prop := x = key_input [1] [2].
Lemma one_known_free : collision_free one_known.
Proof. intros x y -> -> _. reflexivity. Qed.
Lemma one_known_pair : known_pair one_known [1] [2].
Proof. split; [reflexivity|]. split; vm_compute; reflexivity. Qed.

Lemma capacity_under_races_witness :
  exists t ps, reachable one_known 1 1 (t, ps) /\ transactions t <> ∅ /\ tracker_ok one_known t.
Proof.
  destruct (reach_start one_known 1 1 5 [1] [2] one_known_pair) as (t & Hr & Ht); [lia..|].
  destruct (capacity_under_races one_known 1 1 t _ one_known_free Hr) as (_ & _ & Hq).
  eexists t, _. split; [exact Hr|]. split.
  - intros E. rewrite E in Ht. discriminate Ht.
  - apply Hq. repeat constructor.
Defined.

(** The identity of the certificate, next to that of the secret. *)
Definition toy_leaf_identity : SenderIdentity :=
  mkSenderIdentity (Some ex_leaf) emptyName [] false None [] None emptyGeneralName.
Definition toy_inputs : list bytes := Eval vm_compute in
  let i s := ok_or [] (credential_input s) in
  [i toy_identity; i toy_leaf_identity; key_input (hash_Sum SHA256 (i toy_identity)) [7];
   key_input (hash_Sum SHA256 (i toy_leaf_identity)) [7]].
Definition toy_known (x : bytes) : Prop := x ∈ toy_inputs.

(** No two of a list of inputs collide. *)
Definition distinct_hashes (l : list bytes) : bool :=
  forallb (fun x => forallb (fun y =>
    negb (bytes_eqb (hash_Sum SHA256 x) (hash_Sum SHA256 y)) || bytes_eqb x y) l) l.

Lemma distinct_hashes_free l : distinct_hashes l = true -> collision_free (fun x => x ∈ l).
Proof.
  unfold distinct_hashes. rewrite forallb_forall. intros H x y Hx%list_elem_of_In Hy%list_elem_of_In Heq.
  specialize (H x Hx). rewrite forallb_forall in H. specialize (H y Hy).
  rewrite Heq, bytes_eqb_refl in H. by apply bytes_eqb_eq.
Qed.

Lemma toy_known_free : collision_free toy_known.
Proof. apply distinct_hashes_free. vm_compute. reflexivity. Qed.

Lemma credentials_separate_transactions_witness :
  makeKey (hash_Sum SHA256 (ok_or [] (credential_input toy_identity))) [7] <>
  makeKey (hash_Sum SHA256 (ok_or [] (credential_input toy_leaf_identity))) [7].
Proof.
  apply (credentials_separate_transactions toy_known toy_identity toy_leaf_identity
    (ok_or [] (credential_input toy_identity)) (ok_or [] (credential_input toy_leaf_identity))).
  - exact toy_known_free.
  - split; [vm_compute; reflexivity|]. split; [vm_compute; reflexivity|].
    intros c H. vm_compute in H. discriminate H.
  - split; [vm_compute; reflexivity|]. split; [vm_compute; reflexivity|].
    intros c H. apply Some_inj in H as <-. vm_compute. reflexivity.
  - vm_compute. reflexivity.
  - vm_compute. reflexivity.
  - left.
  - right. left.
  - vm_compute. reflexivity.
  - vm_compute. reflexivity.
  - split; [right; right; left|]. split; vm_compute; reflexivity.
  - split; [right; right; right; left|]. split; vm_compute; reflexivity.
  - intros [[H _] _]. vm_compute in H. discriminate H.
Defined.

(** The tracker with one transaction is in order. *)
Lemma single_tracker_ok known c tx e mx mc :
  known_pair known c tx -> te_credentialKey e = makeCredentialKey c -> 1 <= mx -> 1 <= mc ->
  tracker_ok known (add_txn (makeKey c tx) e (newTransactionTracker mx mc)).
Proof.
  intros Hk He Hmx Hmc.
  apply add_txn_ok; [apply new_tracker_ok | done | done | reflexivity | simpl; lia |].
  replace (default 0 _) with 0 by reflexivity. simpl. lia.
Qed.

Local Notation toy_tracker := (tracker (fst toy_enrolled)).
Definition enrolled_known (x : bytes) : Prop := x = key_input toy_credential [1; 2; 3; 4].

Lemma toy_tracker_ok : tracker_ok enrolled_known toy_tracker.
Proof.
  assert (E : toy_tracker = add_txn toy_key toy_entry (newTransactionTracker 10000 100))
    by (vm_compute; reflexivity).
  rewrite E. apply single_tracker_ok; [|vm_compute; reflexivity|lia|lia].
  split; [reflexivity|]. split; vm_compute; reflexivity.
Qed.

Lemma toy_tracker_entries k e : transactions toy_tracker !! k = Some e -> e = toy_entry.
Proof.
  intros H. apply elem_of_map_to_list in H.
  assert (E : map_to_list (transactions toy_tracker) = [(toy_key, toy_entry)]) by (vm_compute; reflexivity).
  rewrite E in H. apply list_elem_of_singleton in H.
  apply pair_equal_spec in H as [_ H]. exact H.
Qed.

Definition toy_later : Time := toy_now + 11 * 10 ^ 9.
Definition toy_swept : World (list event) :=
  Eval vm_compute in fst (CleanupExpired toy_server toy_later (fst toy_enrolled)).
Definition toy_confirm : context -> Certificate -> ConfirmStatus -> option any -> ST (list event) unit :=
  fun _ c st _ log => (log ++ [Ev_confirmed (SerialNumber c) st], Ok tt).

Lemma expired_reported_witness :
  exists report, ca_state toy_swept = told_expired toy_confirm report (ca_state (fst toy_enrolled)) /\
    mkExpired toy_new_certificate (Some 77) ∈ report.
Proof.
  destruct (expired_reported toy_server enrolled_known toy_later (fst toy_enrolled) toy_swept toy_confirm)
    as (_ & _ & report & Hs & Hr).
  - vm_compute. reflexivity.
  - vm_compute. reflexivity.
  - exact toy_tracker_ok.
  - vm_compute. reflexivity.
  - exists report. split; [exact Hs|]. apply Hr. exists toy_key, toy_entry, toy_new_certificate.
    split; [vm_compute; reflexivity|]. split; [vm_compute; reflexivity|].
    split; [vm_compute; reflexivity|]. split; vm_compute; reflexivity.
Defined.

Lemma swept_server_admits_witness :
  count (tracker toy_swept) = 0 /\
  exists t, startIfAbsent toy_later [3] [4] (tracker toy_swept) = (t, Ok false).
Proof.
  destruct (swept_server_admits toy_server enrolled_known toy_later toy_later (fst toy_enrolled)
    toy_swept [3] [4]) as (Hc & t & Ht & _).
  - vm_compute. reflexivity.
  - exact toy_tracker_ok.
  - intros k e H. rewrite (toy_tracker_entries _ _ H). vm_compute. reflexivity.
  - vm_compute. discriminate.
  - vm_compute. discriminate.
  - vm_compute. reflexivity.
  - split; [exact Hc|]. exists t. exact Ht.
Defined.

Definition toy_snapshot : bytes := Eval vm_compute in ok_or [] (SnapshotTransactions (cfg toy_server) toy_tracker).

Lemma snapshot_restored_witness :
  exists t', RestoreTransactions (cfg toy_server) toy_now toy_snapshot None
      (newTransactionTracker (maxTransactions toy_tracker) (maxTransactionsPerCredential toy_tracker))
      = Ok t' /\ tracker_ok enrolled_known t'.
Proof.
  destruct (snapshot_restored (cfg toy_server) enrolled_known toy_now None toy_tracker
    toy_snapshot) as (Hrestore & _).
  - intros k e H. rewrite (toy_tracker_entries _ _ H). constructor.
    + split; vm_compute; discriminate.
    + intros c Hc. assert (Ec : cert toy_entry = Some toy_new_certificate) by (vm_compute; reflexivity).
      rewrite Ec in Hc. apply Some_inj in Hc as <-. split; [vm_compute; reflexivity|].
      vm_compute. discriminate.
    + intros _. split; vm_compute; discriminate.
    + vm_compute. reflexivity.
    + intros Hs. assert (Es : state toy_entry = stateIssued) by (vm_compute; reflexivity).
      rewrite Es in Hs. discriminate Hs.
  - exact toy_tracker_ok.
  - vm_compute. discriminate.
  - vm_compute. reflexivity.
  - destruct Hrestore as (t' & Hr & Hok & _).
    + intros k e H. rewrite (toy_tracker_entries _ _ H).
      assert (Er : te_issueRef toy_entry = Some 77) by (vm_compute; reflexivity).
      unfold decodes_ref. rewrite Er. intros d Hd. apply Ok_inj in Hd as <-. reflexivity.
    + exists t'. split; [exact Hr | exact Hok].
Defined.
