(* ===== verification/PolicyProps.v ===== *)
(** * Properties of what the server lets through

    The rules of the Lightweight Profile policy up to the template the CA gets, and
    what a client can learn from an internal error: nothing. *)
From S2P Require Import Prelude Failure Errors Monad Asn1 Der Types StatusInfo Enrollment Crmf.
From S2P Require Import X509 Message RevocationMsg Algorithms Protect Verify Instances CodecProps.
From S2P Require Import Transactions Handler ServerRequest CAHandler Policy Server ServerFacts.
From S2P Require Import ServerRuns ServerSafety ServerExamples.

Section Policy.
Context {CB : Cryptobyte} {GN : GoNames} {GX : GoX509} {GA : GoASN1} {GC : GoCrypto}.

(** C32: under the Lightweight Profile policy the CA sees no request that breaks a rule of
    the profile, and the template of every certificate it is asked for names a subject,
    asks for no CA certificate, and is for a key whose possession was proved. *)
Theorem policy_enforced {S} (ca : CA S) (ctx : context) (msg : PKIMessage) (b : PKIBody)
    (sender : SenderIdentity) (s s' : S) (r : result (option Response)) :
  Body msg = Some b -> LightweightPolicy (NewCAHandler ca) ctx msg sender s = (s', r) ->
  (s' = s /\ exists e, r = Err e) \/
  (policy_passed ctx msg (Type_ b) sender /\ ca_call ca ctx msg sender b s s' /\
   (isCertRequest (Type_ b) = true ->
    exists template pub,
      IssueCertificate ca ctx (bodyTypeToRequestType (Type_ b)) template sender s = (s', r) /\
      no_ca (ExtraExtensions template) /\ Name_String (Subject template) <> "" /\
      cert_PublicKey template = Some pub /\ possession ctx b pub)).
Proof.
  intros Hb H. destruct (LightweightPolicy_cases _ _ _ _ _ _ _ _ Hb H) as [Hr|[Hp Hn]]; [by left|].
  destruct (isCertRequest (Type_ b)) eqn:Et.
  2: { right. split; [done|]. split; [by eapply NewCAHandler_calls | done]. }
  pose proof (NewCAHandler_calls _ _ _ _ _ _ _ _ Hb Hn) as Hcall.
  unfold NewCAHandler in Hn. rewrite Hb, Et in Hn.
  unfold caHandler_handleCertRequest, st_bind at 1, st_lift at 1 in Hn.
  destruct (issuance_template ctx msg) as [template|e] eqn:Ei.
  2: { left. injection Hn as <- <-. split; [done | by exists e]. }
  unfold body_type in Hn. rewrite Hb in Hn. right. split; [done|]. split; [done|]. intros _.
  destruct (issuance_template_possession _ _ _ _ Hb Et Ei) as (pub & Hpub & Hpos & _).
  destruct (policy_template _ _ _ _ _ Hb Et Hp Ei) as (Hca & Hsub & _).
  exists template, pub. done.
Qed.

End Policy.

(** ** Runs that a client cannot tell apart *)

Section Privacy.
Context {CB : Cryptobyte} {GN : GoNames} {GX : GoX509} {GA : GoASN1} {GC : GoCrypto}
  {GP : GoPBMAC1} {GR : GoRandom}.

(** Two runs that end in the same state, in the same failure or with values that [R]
    relates. *)
Definition rel_runs {T A B} (R : A -> B -> Prop) (m1 : ST T A) (m2 : ST T B) : Prop :=
  forall w, exists w', (exists e, m1 w = (w', Err e) /\ m2 w = (w', Err e)) \/
    (exists a b, m1 w = (w', Ok a) /\ m2 w = (w', Ok b) /\ R a b).

Lemma rel_refl {T A} (m : ST T A) : rel_runs eq m m.
Proof.
  intros w. destruct (m w) as [w' [a|e]]; exists w'; [right; by exists a, a | left; by exists e].
Qed.

Lemma rel_bind {T A B C} (R : A -> B -> Prop) (m1 : ST T A) (m2 : ST T B) (k1 : A -> ST T C) k2 :
  rel_runs R m1 m2 -> (forall a b, R a b -> rel_runs eq (k1 a) (k2 b)) ->
  rel_runs eq (st_bind m1 k1) (st_bind m2 k2).
Proof.
  intros Hm Hk w. unfold st_bind. destruct (Hm w) as (w1 & [(e & -> & ->)|(a & b & -> & -> & Hab)]).
  - exists w1. left. by exists e.
  - by apply Hk.
Qed.

Lemma rel_bind_same {T A C} (m : ST T A) (k1 k2 : A -> ST T C) :
  (forall a, rel_runs eq (k1 a) (k2 a)) -> rel_runs eq (st_bind m k1) (st_bind m k2).
Proof. intros Hk. eapply rel_bind; [apply rel_refl|]. by intros a ? <-. Qed.

(** An error that is not meant for the client. *)
Definition internal (e : error) : Prop := errors_As as_ServerError e = None /\ e <> GoPanic.

Definition similar {A} (r1 r2 : result A) : Prop :=
  r1 = r2 \/ exists e1 e2, r1 = Err e1 /\ r2 = Err e2 /\ internal e1 /\ internal e2.

Lemma similar_status {A} (e1 e2 : error) :
  similar (A := A) (Err e1) (Err e2) ->
  errorToStatusInfo (Some e1) = errorToStatusInfo (Some e2).
Proof.
  intros [[= ->] | (x & y & [= ->] & [= ->] & [H1 _] & [H2 _])]; [done|].
  unfold errorToStatusInfo. by rewrite H1, H2.
Qed.

(** Two handlers that differ only in the internal errors they report. *)
Definition handlers_agree {S} (h1 h2 : Handler S) : Prop := forall ctx msg sender s,
  exists s' r1 r2, h1 ctx msg sender s = (s', r1) /\ h2 ctx msg sender s = (s', r2) /\ similar r1 r2.

Context {S : Type} (h1 h2 : Handler S) (c : serverConfig S) (now : Time) (Hagree : handlers_agree h1 h2).
Local Notation s1 := (mkServer h1 c).
Local Notation s2 := (mkServer h2 c).

Lemma rel_handler ctx msg sender :
  rel_runs similar (on_ca (call (h1 ctx msg sender)) : ST (World S) _)
    (on_ca (call (h2 ctx msg sender))).
Proof.
  intros w. rewrite !on_ca_run. unfold call.
  destruct (Hagree ctx msg sender (ca_state w)) as (s' & r1 & r2 & -> & -> & Hr).
  exists (mkWorld (tracker w) (draws w) s').
  destruct Hr as [->|(e1 & e2 & -> & -> & H1 & H2)].
  - destruct r2 as [a|e]; [right; exists (Ok a), (Ok a); by repeat split; left|].
    destruct e; first [left; by eexists | right; eexists _, _; by repeat split; left].
  - right. exists (Err e1), (Err e2). simpl. destruct H1 as [H1 Hn1], H2 as [H2 Hn2].
    split; [by destruct e1|]. split; [by destruct e2|]. right. by exists e1, e2.
Qed.

(** The outcome of a handler, case by case. *)
Ltac outcome r1 r2 Hr :=
  destruct r1 as [o1|e1], r2 as [o2|e2];
  [ destruct Hr as [[= <-]|(? & ? & [=] & _)]
  | exfalso; destruct Hr as [[=]|(? & ? & [=] & _)]
  | exfalso; destruct Hr as [[=]|(? & ? & ? & [=] & _)]
  | apply similar_status in Hr ].

Lemma rel_request ctx msg sender :
  rel_runs eq (handleCertRequest s1 now ctx msg sender) (handleCertRequest s2 now ctx msg sender).
Proof.
  unfold handleCertRequest. destruct (senderCredential sender); [|apply rel_refl].
  apply rel_bind_same. intros w. destruct (getPending _ _ _); [apply rel_refl|].
  apply rel_bind_same. intros id. apply rel_bind_same. intros t.
  eapply rel_bind; [apply rel_handler|]. intros r1 r2 Hr. outcome r1 r2 Hr.
  - destruct o1; apply rel_refl.
  - unfold refuse_request. rewrite Hr. apply rel_refl.
Qed.

Lemma rel_poll ctx msg sender :
  rel_runs eq (handlePollReq s1 now ctx msg sender) (handlePollReq s2 now ctx msg sender).
Proof.
  unfold handlePollReq. destruct (Body msg) as [b|]; [|apply rel_refl].
  destruct (snd (PollReq b)); [|apply rel_refl]. destruct (senderCredential sender); [|apply rel_refl].
  apply rel_bind_same. intros w. destruct (getPending _ _ _); [|apply rel_refl].
  repeat (case_goal; [apply rel_refl|]).
  eapply rel_bind; [apply rel_handler|]. intros r1 r2 Hr. outcome r1 r2 Hr.
  - destruct o1; apply rel_refl.
  - unfold refuse_request. rewrite Hr. apply rel_refl.
Qed.

Lemma rel_certConf ctx msg sender :
  rel_runs eq (handleCertConf s1 now ctx msg sender) (handleCertConf s2 now ctx msg sender).
Proof.
  unfold handleCertConf. destruct (Body msg) as [b|]; [|apply rel_refl].
  destruct (snd (CertConf b)); [|apply rel_refl]. case_goal; [apply rel_refl|].
  destruct (senderCredential sender); [|apply rel_refl]. apply rel_bind_same. intros w.
  destruct (getIssued _ _ _); [|apply rel_refl].
  change (certConf_guards s2) with (certConf_guards s1).
  destruct (certConf_guards s1 _ _ _ _) as [u|e]; [|destruct e; apply rel_refl].
  eapply rel_bind; [apply rel_handler|]. intros r1 r2 Hr. outcome r1 r2 Hr.
  - apply rel_refl.
  - rewrite Hr. apply rel_refl.
Qed.

Lemma rel_revocation ctx msg sender :
  rel_runs eq (handleRevocation s1 now ctx msg sender) (handleRevocation s2 now ctx msg sender).
Proof.
  unfold handleRevocation. destruct (senderCredential sender); [|apply rel_refl].
  eapply rel_bind; [apply rel_handler|]. intros r1 r2 Hr. outcome r1 r2 Hr.
  - apply rel_refl.
  - rewrite Hr. apply rel_refl.
Qed.

Lemma rel_dispatch ctx msg t sender :
  rel_runs eq (dispatch s1 now ctx msg t sender) (dispatch s2 now ctx msg t sender).
Proof.
  unfold dispatch. repeat case_goal;
    first [apply rel_request | apply rel_certConf | apply rel_poll | apply rel_revocation | apply rel_refl].
Qed.

Lemma rel_process_verified ctx msg t fwd sender :
  rel_runs eq (process_verified s1 now ctx msg t fwd sender) (process_verified s2 now ctx msg t fwd sender).
Proof.
  unfold process_verified. apply rel_bind_same. intros authorized.
  assert (Hrest : forall sd, rel_runs eq
    (let! (msg, err) := validateHeader s1 now msg sd in
     match err with
     | Some err => buildErrorResponse s1 now msg (Some sd) (rejection_info err)
     | None => dispatch s1 now (if allowSHA1Signatures c then contextWithSHA1Signatures ctx else ctx)
                 msg t sd
     end)
    (let! (msg, err) := validateHeader s2 now msg sd in
     match err with
     | Some err => buildErrorResponse s2 now msg (Some sd) (rejection_info err)
     | None => dispatch s2 now (if allowSHA1Signatures c then contextWithSHA1Signatures ctx else ctx)
                 msg t sd
     end)).
  { intros sd. apply rel_bind_same. intros [m [e|]]; [apply rel_refl | apply rel_dispatch]. }
  destruct authorized, fwd; first [apply Hrest | apply rel_refl].
Qed.

Lemma rel_process fuel ctx msg fwd :
  rel_runs eq (process s1 now fuel ctx msg fwd) (process s2 now fuel ctx msg fwd).
Proof.
  revert ctx msg fwd. induction fuel as [|fuel IH]; intros ctx msg fwd; [apply rel_refl|].
  cbn [process]. change (cfg s2) with (cfg s1). destruct (signerErr (cfg s1)); [apply rel_refl|].
  destruct (check_version msg); [apply rel_refl|].
  change (verifyRecipient s2) with (verifyRecipient s1).
  destruct (verifyRecipient s1 msg); [|apply rel_refl]. apply rel_bind_same. intros w.
  change (verifyProtection s2) with (verifyProtection s1).
  destruct (verifyProtection s1 now (ca_state w) msg); [|apply rel_refl].
  destruct (Body msg) as [b|]; [|apply rel_refl].
  change (check_profile s2) with (check_profile s1).
  destruct (check_profile s1 _ _ _); [|apply rel_refl].
  case_goal; [|apply rel_process_verified]. change (check_nested s2) with (check_nested s1).
  destruct (check_nested s1 msg b) as [req|e]; [apply IH | destruct e; apply rel_refl].
Qed.

(** C33: internal errors stay inside: two handlers that differ only in the errors they
    return that are not meant for clients, their texts and what they wrap, give the
    same responses to every message, octet for octet. *)
Theorem internal_errors_private (msg : PKIMessage) (w : World S) :
  processMessage s1 now msg w = processMessage s2 now msg w.
Proof.
  destruct (rel_process 2 context_Background msg None w)
    as (w' & [(e & H1 & H2)|(a & b & H1 & H2 & <-)]); unfold processMessage; by rewrite H1, H2.
Qed.

End Privacy.

(** ** Runs *)

Definition toy_asked : list event * result (option Response) :=
  LightweightPolicy (NewCAHandler toy_CA) context_Background toy_device toy_identity [].

Lemma policy_enforced_witness :
  policy_passed context_Background toy_device BodyTypeIR toy_identity /\
  exists template, no_ca (ExtraExtensions template) /\ Name_String (Subject template) <> "".
Proof.
  destruct (policy_enforced toy_CA context_Background toy_device
    (default NewPKIConfBody (Body toy_device)) toy_identity [] (fst toy_asked) (snd toy_asked))
    as [[H _]|(Hp & _ & Ht)].
  - vm_compute. reflexivity.
  - vm_compute. reflexivity.
  - exfalso. apply (f_equal length) in H. vm_compute in H. discriminate H.
  - assert (Et : Type_ (default NewPKIConfBody (Body toy_device)) = BodyTypeIR)
      by (vm_compute; reflexivity).
    rewrite Et in Hp, Ht. split; [exact Hp|]. destruct (Ht eq_refl) as (template & _ & _ & Hca & Hn & _).
    exists template. split; [exact Hca | exact Hn].
Defined.

(** A handler whose database failed, and one that says less. *)
Definition leaky_handler (text : string) : Handler (list event) := fun _ _ _ =>
  st_fail (errorString text).

Lemma leaky_agree a b : handlers_agree (leaky_handler a) (leaky_handler b).
Proof.
  intros ctx msg sender s. exists s, (Err (errorString a)), (Err (errorString b)).
  split; [done|]. split; [done|]. right. by eexists _, _.
Qed.

Lemma internal_errors_private_witness :
  processMessage (mkServer (leaky_handler "dial tcp 10.0.0.7: refused") (cfg toy_server)) toy_now
    toy_device toy_world =
  processMessage (mkServer (leaky_handler "") (cfg toy_server)) toy_now toy_device toy_world.
Proof. exact (internal_errors_private _ _ (cfg toy_server) toy_now (leaky_agree _ _) _ _). Defined.
