(* ===== verification/Client.v ===== *)
(** * The CMP client: configuration, transport and checks

    [src/client/client.go], [src/client/options.go], [src/client/errors.go], the
    HTTP half of [src/client/transport.go] and its checks on what was received.
    The state is the outside world, of a type the model leaves open, the random
    numbers drawn so far, and a history of what was sent, received and waited
    for, which the code has no variable for. *)
From S2P Require Import Prelude Failure Errors Asn1 Types StatusInfo Enrollment Crmf X509 CertPath.
From S2P Require Import RevocationMsg Message Monad Algorithms Protect Verify Http.

(** ** Outside the client *)

(** The network and the clock, of a state [N]: [Do] is [http.Client.Do] on a POST of
    the octets, under the context of the call; [time_After d] waits for [d], or gives
    the error of the context when that is done first; [time_Now] is the clock. *)
Record Transport (N : Type) := mkTransport {
  Do : bytes -> ST N http_Response;
  time_After : Z -> ST N unit;
  time_Now : N -> Time
}.
Arguments mkTransport {N}.
Arguments Do {N}.
Arguments time_After {N}.
Arguments time_Now {N}.

Inductive net_event :=
| Exchanged (sent : bytes) (received : result http_Response)
| Waited (d : Z) (r : result unit).

Record Net (N : Type) := mkNet {
  net : N;
  net_draws : nat;
  history : list net_event
}.
Arguments mkNet {N}.
Arguments net {N}.
Arguments net_draws {N}.
Arguments history {N}.

(** ** Configuration *)

Record Client (N : Type) := mkClient {
  endpoint : string;
  httpClient : Transport N;
  recipient : Name;
  cl_extraCerts : list (option Certificate);
  trustedCAs : option CertPool;
  serverCerts : list Certificate;
  responseProtection : ProtectionMechanism;
  maxResponseBytes : Z;
  maxPolls : Z;
  minCheckAfter : Z;
  maxCheckAfter : Z;
  cl_allowSHA1Signatures : bool
}.
Arguments mkClient {N}.
Arguments endpoint {N}.
Arguments httpClient {N}.
Arguments recipient {N}.
Arguments cl_extraCerts {N}.
Arguments trustedCAs {N}.
Arguments serverCerts {N}.
Arguments responseProtection {N}.
Arguments maxResponseBytes {N}.
Arguments maxPolls {N}.
Arguments minCheckAfter {N}.
Arguments maxCheckAfter {N}.
Arguments cl_allowSHA1Signatures {N}.

(** [time.Second]. *)
Definition Second : Z := 10 ^ 9.

Definition DefaultMaxResponseBytes : Z := 10 * 1024 * 1024.
Definition DefaultMaxPolls : Z := 60.
Definition DefaultMinCheckAfter : Z := 1 * Second.
Definition DefaultMaxCheckAfter : Z := 60 * 60 * Second.

Definition ClientOption (N : Type) : Type := Client N -> Client N.

(** [default_http] stands for [http.DefaultClient]. *)
Definition NewClient {N} (default_http : Transport N) (endpoint : string)
    (opts : list (ClientOption N)) : Client N :=
  foldl (fun c opt => opt c)
    (mkClient endpoint default_http emptyName [] None [] ProtectionAny DefaultMaxResponseBytes
       DefaultMaxPolls DefaultMinCheckAfter DefaultMaxCheckAfter false) opts.

Section Options.
Context {N : Type}.

Definition WithHTTPClient (hc : Transport N) : ClientOption N := fun c =>
  let '(mkClient e _ r x t s p b n lo hi sha) := c in mkClient e hc r x t s p b n lo hi sha.
Definition WithRecipient (name : Name) : ClientOption N := fun c =>
  let '(mkClient e h _ x t s p b n lo hi sha) := c in mkClient e h name x t s p b n lo hi sha.
Definition WithResponseProtection (mechanism : ProtectionMechanism) : ClientOption N := fun c =>
  let '(mkClient e h r x t s _ b n lo hi sha) := c in mkClient e h r x t s mechanism b n lo hi sha.
Definition WithClientExtraCerts (certs : list (option Certificate)) : ClientOption N := fun c =>
  let '(mkClient e h r _ t s p b n lo hi sha) := c in mkClient e h r certs t s p b n lo hi sha.
Definition WithTrustedCAs (pool : option CertPool) : ClientOption N := fun c =>
  let '(mkClient e h r x _ s p b n lo hi sha) := c in mkClient e h r x pool s p b n lo hi sha.
(** Nil entries are left out. *)
Definition WithServerCerts (certs : list (option Certificate)) : ClientOption N := fun c =>
  let '(mkClient e h r x t _ p b n lo hi sha) := c in
  mkClient e h r x t (omap id certs) p b n lo hi sha.
Definition WithClientSHA1Signatures : ClientOption N := fun c =>
  let '(mkClient e h r x t s p b n lo hi _) := c in mkClient e h r x t s p b n lo hi true.
Definition WithMaxResponseBytes (b : Z) : ClientOption N := fun c =>
  let '(mkClient e h r x t s p _ n lo hi sha) := c in mkClient e h r x t s p b n lo hi sha.
Definition WithMaxPolls (n : Z) : ClientOption N := fun c =>
  let '(mkClient e h r x t s p b _ lo hi sha) := c in mkClient e h r x t s p b n lo hi sha.
Definition WithCheckAfterLimits (minimum maximum : Z) : ClientOption N := fun c =>
  let minimum := if minimum <? 0 then 0 else minimum in
  let maximum := if maximum <? minimum then minimum else maximum in
  let '(mkClient e h r x t s p b n _ _ sha) := c in
  mkClient e h r x t s p b n minimum maximum sha.
End Options.

Record EnrollResult := mkEnrollResult {
  er_Certificate : Certificate;
  er_CAPubs : list Certificate;
  er_ExtraCertificates : list Certificate
}.

(** The options of one request. *)
Record requestOptions := mkRequestOptions {
  ro_sender : option Name;
  ro_senderKID : bytes;
  templateSubject : option Name;
  templateExts : list Extension;
  oldCertificate : option Certificate
}.
Definition RequestOption : Type := requestOptions -> requestOptions.
Definition WithSenderName (name : Name) : RequestOption := fun o =>
  let '(mkRequestOptions _ k s e c) := o in mkRequestOptions (Some name) k s e c.
Definition WithSenderKID (kid : bytes) : RequestOption := fun o =>
  let '(mkRequestOptions n _ s e c) := o in mkRequestOptions n kid s e c.
Definition WithTemplateSubject (subject : Name) : RequestOption := fun o =>
  let '(mkRequestOptions n k _ e c) := o in mkRequestOptions n k (Some subject) e c.
Definition WithTemplateExtension (ext : Extension) : RequestOption := fun o =>
  let '(mkRequestOptions n k s e c) := o in mkRequestOptions n k s (e ++ [ext]) c.
Definition WithOldCertificate (certificate : option Certificate) : RequestOption := fun o =>
  let '(mkRequestOptions n k s e _) := o in mkRequestOptions n k s e certificate.
Definition request_options (opts : list RequestOption) : requestOptions :=
  foldl (fun o opt => opt o) (mkRequestOptions None [] None [] None) opts.

(** [&Error{Op: op}] and [&Error{Op: op, Err: err}]. *)
Definition op_error (op : string) : error := ClientError op None.
Definition op_wrap (op : string) (err : error) : error := ClientError op (Some err).

(** [isEmptyName]. *)
Definition isEmptyName (name : Name) : bool :=
  negb (nonempty (Country name)) && negb (nonempty (Organization name))
  && negb (nonempty (OrganizationalUnit name)) && negb (nonempty (Locality name))
  && negb (nonempty (Province name)) && negb (nonempty (StreetAddress name))
  && negb (nonempty (PostalCode name)) && bool_decide (SerialNumber_name name = "")
  && bool_decide (CommonName name = "") && negb (nonempty (Names name))
  && negb (nonempty (default [] (ExtraNames name))).

Section Checks.
Context {CB : Cryptobyte} {GN : GoNames} {GX : GoX509} {GA : GoASN1} {GC : GoCrypto}
  {GP : GoPBMAC1} {GH : GoHTTP}.

(** ** HTTP *)

Record rawHTTPResponse := mkRawHTTP { raw_body : bytes; raw_statusCode : Z }.
Record cmpHTTPResponse := mkCmpHTTP { message : PKIMessage; cmp_statusCode : Z }.

Definition http_error_op (statusCode : Z) : string :=
  "HTTP " +:+ pretty statusCode +:+ ": " +:+ http_StatusText statusCode.

(** [wrapError] of both responses, on a nil error too. *)
Definition http_wrapError (statusCode : Z) (err : option error) : option error :=
  if statusCode =? StatusOK then err else Some (ClientError (http_error_op statusCode) err).
(** The same on an error that is not nil. *)
Definition wrap_status (statusCode : Z) (err : error) : error :=
  if statusCode =? StatusOK then err else op_wrap (http_error_op statusCode) err.

Definition parse (r : rawHTTPResponse) (op : string) : result cmpHTTPResponse :=
  match ParsePKIMessage (raw_body r) with
  | Err err => Err (wrap_status (raw_statusCode r) (op_wrap op err))
  | Ok msg => Ok (mkCmpHTTP msg (raw_statusCode r))
  end.

Definition supportsCMPResponse (statusCode : Z) : bool :=
  let statusClass := statusCode ÷ 100 in
  (statusClass =? 2) || (statusClass =? 4) || (statusClass =? 5).

Definition newHTTPStatusError (statusCode : Z) : error := op_error (http_error_op statusCode).

Section Transport.
Context {N : Type} (c : Client N).

(** One exchange, with its entry in the history. *)
Definition http_Do (der : bytes) : ST (Net N) (result http_Response) := fun w =>
  let '(mkNet n i l) := w in
  let (n, r) := Do (httpClient c) der n in
  (mkNet n i (l ++ [Exchanged der r]), Ok r).

(** What is read of a body. The limit is one more than the maximum, as an [int64]. *)
Definition read_limit : option Z :=
  if 0 <? maxResponseBytes c then Some (int64_wrap (maxResponseBytes c + 1)) else None.

(** What [sendHTTP] makes of a response. *)
Definition accept_response (r : http_Response) : result rawHTTPResponse :=
  match io_ReadAll read_limit (resp_Body r) (resp_BodyErr r) with
  | Err err => Err (op_wrap "read response" err)
  | Ok body =>
      reject_if (0 <? maxResponseBytes c) && (maxResponseBytes c <? Z.of_nat (length body))
        with op_error ("response body too large: limit=" +:+ pretty (maxResponseBytes c)) ;;
      reject_if negb (supportsCMPResponse (StatusCode r)) with newHTTPStatusError (StatusCode r) ;;
      reject_if negb (isCMPMediaType (ContentType r))
        with (if negb (StatusCode r =? StatusOK) then newHTTPStatusError (StatusCode r)
              else op_error ("unexpected Content-Type: " +:+ ContentType r)) ;;
      reject_if negb (nonempty body) && negb (StatusCode r =? StatusOK)
        with newHTTPStatusError (StatusCode r) ;;
      Ok (mkRawHTTP body (StatusCode r))
  end.

Definition sendHTTP (reqDER : bytes) : ST (Net N) rawHTTPResponse :=
  match http_NewRequest (endpoint c) with
  | Some err => st_fail (op_wrap "create HTTP request" err)
  | None =>
      let! r := http_Do reqDER in
      match r with
      | Err err => st_fail (op_wrap "HTTP request" err)
      | Ok resp => st_lift (accept_response resp)
      end
  end.

(** ** Polling intervals *)

Definition clampCheckAfter (seconds : Z) : Z :=
  if seconds <=? 0 then minCheckAfter c
  else if maxCheckAfter c ÷ Second + 1 <=? seconds then maxCheckAfter c
  else
    let wait := int64_wrap (seconds * Second) in
    if wait <? minCheckAfter c then minCheckAfter c
    else if maxCheckAfter c <? wait then maxCheckAfter c
    else wait.

(** ** Verification of responses *)

Definition verificationHint (err : error) (trustedCAs : option CertPool) : string :=
  match errors_As as_VerificationError err with
  | None => ""
  | Some reason =>
      if bool_decide (reason = ReasonMissingTrustAnchors) && is_nil trustedCAs then
        "the response is signature-protected and no trusted CAs are configured, " +:+
        "which a shared-secret client also needs because error messages are signed (RFC 9810 §5.3.21)"
      else if bool_decide (reason = ReasonNoCandidateSigner) && negb (nonempty (serverCerts c)) then
        "the response does not carry its protection certificate in extraCerts, " +:+
        "so configure the certificate the server signs with through WithServerCerts"
      else ""
  end.

(** [creds.(sharedSecreter)]. *)
Definition credentials_secret (creds : Credentials) : bytes :=
  match creds with CredMAC m => mac_secret m | CredSignature _ => [] end.

Definition candidate_certs (resp : PKIMessage) (knownSigner : option Certificate)
    : list CMPCertificate :=
  ExtraCerts resp
  ++ ((fun s => mkCMPCertificate (Raw s)) <$> option_list knownSigner)
  ++ ((fun s => mkCMPCertificate (Raw s)) <$> serverCerts c).

Definition response_options (resp : PKIMessage) (creds : Credentials)
    (trustedCAs : option CertPool) (knownSigner : option Certificate) : VerifyOptions :=
  mkVerifyOptions (responseProtection c) (credentials_secret creds) trustedCAs None
    (candidate_certs resp knownSigner) (SenderKID (Header resp)) false (cl_allowSHA1Signatures c).

(** The nonces that answer a request: its own, and the first alternative. *)
Definition nonce_matches (req resp : PKIMessage) (alternativeRecipNonce : list bytes) : bool :=
  bytes_eqb (RecipNonce (Header resp)) (SenderNonce (Header req))
  || match alternativeRecipNonce with
     | alt :: _ => bytes_eqb (RecipNonce (Header resp)) alt
     | [] => false
     end.

Definition verifyResponse (now : Time) (req resp : PKIMessage) (creds : Credentials)
    (trustedCAs : option CertPool) (knownSigner : option Certificate)
    (alternativeRecipNonce : list bytes) : result VerifyResult :=
  reject_if negb (bytes_eqb (TransactionID (Header resp)) (TransactionID (Header req)))
    with op_error "transaction ID mismatch" ;;
  reject_if negb (nonce_matches req resp alternativeRecipNonce)
    with op_error "recipient nonce mismatch" ;;
  reject_if is_nil (ProtectionAlg (Header resp))
    with op_error "missing protection algorithm in response" ;;
  match Verify now resp (response_options resp creds trustedCAs knownSigner) with
  | Ok vr => Ok vr
  | Err err =>
      let hint := verificationHint err trustedCAs in
      Err (op_wrap "verify protection"
             (if bool_decide (hint = "") then err
              else wrapError (Error_text err +:+ ": " +:+ hint) err))
  end.

End Transport.

(** ** Errors of the peer *)

Definition withUnverifiedStatus (msg : PKIMessage) (err : error) : error :=
  match Body msg with
  | None => err
  | Some b =>
      if negb (Type_ b =? BodyTypeError) then err
      else match snd (Error_get b) with
           | Err _ => err
           | Ok content =>
               let si := em_PKIStatusInfo content in
               UnverifiedStatusError (Status si) (strings_join "; " (StatusString si)) (FailInfo si)
                 (Some err)
           end
  end.

(** [None] is the nil error, which the status of an error message can give. *)
Definition parseErrorResponse (b : PKIBody) : option error :=
  match snd (Error_get b) with
  | Err err => Some (op_wrap "error parsing ErrorMsgContent" err)
  | Ok errContent => AsError (em_PKIStatusInfo errContent)
  end.

(** ** Certificate responses *)

(** The body of the request, whose content the getter may cache, with the ids. *)
Definition answeringCertReqIDs (b : PKIBody) : PKIBody * result (list Z) :=
  if Type_ b =? BodyTypeP10CR then (b, Ok [-1; 0])
  else
    let (b, r) := CertReqMessages_get b in
    (b, match r with
        | Err err => Err (op_wrap "read certReqId from request" err)
        | Ok msgs => Ok ((fun m => cr_req_CertReqID (CertReq m)) <$> msgs)
        end).

Definition checkCertReqID (resp : CertResponse) (ids : list Z) : option error :=
  if bool_decide (cr_CertReqID resp ∈ ids) then None
  else Some (op_error ("response certReqId " +:+ pretty (cr_CertReqID resp)
                        +:+ " does not match the request")).

Definition certRep_get (expectedRepType : BodyType) (b : PKIBody) : result CertRepMessage :=
  if expectedRepType =? BodyTypeIP then snd (IP b)
  else if expectedRepType =? BodyTypeCP then snd (CP b)
  else if expectedRepType =? BodyTypeKUP then snd (KUP b)
  else Err (op_error ("unsupported expected response type " +:+ pretty expectedRepType)).

Definition extractCertRespAndRep (b : PKIBody) (expectedRepType : BodyType)
    : result (CertResponse * CertRepMessage) :=
  let? rep := certRep_get expectedRepType b in
  match Response_ rep with
  | [] => Err (op_error "empty response")
  | [r] => Ok (r, rep)
  | rs => Err (op_error ("response carries " +:+ pretty (Z.of_nat (length rs))
                          +:+ " CertResponse entries for one request"))
  end.

Definition extractCertificate (resp : CertResponse) : result Certificate :=
  match cr_CertifiedKeyPair resp with
  | None => Err (op_error "missing certifiedKeyPair in response")
  | Some keyPair =>
      match ce_Certificate (ckp_CertOrEncCert keyPair) with
      | None => Err (op_error "encrypted certificates not yet supported")
      | Some cert => of_option x509_error (CMPCertificate_Parse cert)
      end
  end.

Definition parseCMPCertificates (certs : list CMPCertificate) : list Certificate :=
  omap CMPCertificate_Parse certs.

Definition enrollmentTrustPool {N} (c : Client N) (vr : VerifyResult) (caPubs : list Certificate)
    : option CertPool :=
  if negb (MACVerified vr) || negb (nonempty caPubs) then trustedCAs c
  else Some (default [] (trustedCAs c) ++ caPubs).

Definition verifyIssuedCertificate (now : Time) (cert : Certificate) (roots : CertPool)
    (candidates : list Certificate) : option error :=
  certpath_Verify candidates roots now cert.

(** [None] when the certificate is for the requested key. *)
Definition checkIssuedKey (cert : Certificate) (requested : option PublicKey) : option error :=
  match requested with
  | None => None
  | Some _ =>
      let issuedKey := match cert_PublicKey cert with
                       | Some k => Some k
                       | None => ParsePKIXPublicKey (RawSubjectPublicKeyInfo cert)
                       end in
      let incomparable :=
        op_error ("cannot compare issued certificate public key of type " +:+ type_text issuedKey
                   +:+ " with the requested key") in
      match issuedKey with
      | None => Some incomparable
      | Some issued =>
          if negb (has_Equal issued) then Some incomparable
          else if negb (PublicKey_Equal issued requested)
          then Some (op_error "issued certificate does not certify the requested public key")
          else None
      end
  end.

End Checks.
