(* ===== verification/ClientEnroll.v ===== *)
(** * The CMP client: the transactions

    The exchanges of [src/client/transport.go] and the operations of
    [src/client/crmf.go], [src/client/p10cr.go] and [src/client/rr.go]. The Go
    functions give a result and an error; where both can be nil the model gives
    [None]. *)
From S2P Require Import Prelude Failure Errors Asn1 Types StatusInfo Enrollment Crmf X509 Message.
From S2P Require Import RevocationMsg Monad Algorithms Protect Verify Http Client.

Section Enroll.
Context {CB : Cryptobyte} {GN : GoNames} {GX : GoX509} {GA : GoASN1} {GC : GoCrypto}
  {GP : GoPBMAC1} {GR : GoRandom} {GH : GoHTTP}.
Context {N : Type} (c : Client N).
#[local] Abbreviation M := (ST (Net N)).

(** ** Access to the world *)

Definition net_draw {A} (f : nat -> A) : M A := fun w =>
  let '(mkNet n i l) := w in (mkNet n (S i) l, Ok (f i)).
(** [time.Now()]. *)
Definition now : M Time := fun w => (w, Ok (time_Now (httpClient c) (net w))).
(** The [select] on [ctx.Done()] and [time.After(d)]. *)
Definition wait (d : Z) : M (result unit) := fun w =>
  let '(mkNet n i l) := w in
  let (n, r) := time_After (httpClient c) d n in
  (mkNet n i (l ++ [Waited d r]), Ok r).

(** [pkicmp.NewPKIMessage], with its two draws. *)
Definition new_message (body : PKIBody) (opts : MessageOptions) : M PKIMessage :=
  let! random1 := net_draw (fun i => rand_Read i 16) in
  let! random2 := net_draw (fun i => rand_Read i 16) in
  let! t := now in
  st_ret (NewPKIMessage random1 random2 t body opts).

(** [creds.Protect(msg)]. *)
Definition protect (creds : Credentials) (msg : PKIMessage) : M PKIMessage :=
  let! random := net_draw (fun i => match creds with
                                    | CredMAC _ => rand_Read i 16
                                    | CredSignature _ => rand_Reader i
                                    end) in
  match Protect random creds msg with
  | (msg, Ok _) => st_ret msg
  | (_, Err err) => st_fail err
  end.

(** [msg.MarshalBinary()]. *)
Definition marshal (msg : PKIMessage) : M (PKIMessage * bytes) :=
  let (msg, r) := MarshalBinary msg in
  let! der := st_lift r in
  st_ret (msg, der).

(** The body of a message, whose fields the code reads without a test for nil. *)
Definition body_of (msg : PKIMessage) : M PKIBody :=
  match Body msg with Some b => st_ret b | None => st_fail GoPanic end.

(** ** The first exchange *)

Definition request_sender (creds : Credentials) (opts : requestOptions) : GeneralName :=
  match ro_sender opts, creds with
  | Some name, _ => NewDirectoryName name
  | None, CredSignature sc => NewDirectoryName (Subject (sc_cert sc))
  | None, CredMAC _ => emptyGeneralName
  end.
Definition request_recipient : GeneralName :=
  if isEmptyName (recipient c) then emptyGeneralName else NewDirectoryName (recipient c).

(** A nil certificate among the extra certificates is dereferenced. *)
Fixpoint extra_certs (certs : list (option Certificate)) : result (list CMPCertificate) :=
  match certs with
  | [] => Ok []
  | None :: _ => Err GoPanic
  | Some crt :: certs =>
      let? rest := extra_certs certs in Ok (mkCMPCertificate (Raw crt) :: rest)
  end.

Definition newRequest (reqBody : PKIBody) (creds : option Credentials) (opts : requestOptions)
    : M PKIMessage :=
  match creds with
  | None => st_fail (op_wrap "protect request" (errorString "no credentials provided"))
  | Some creds =>
      let! msg := new_message reqBody
                    (mkMessageOptions (request_sender creds opts) request_recipient None None []) in
      let! certs := st_lift (extra_certs (cl_extraCerts c)) in
      let msg := set_ExtraCerts (ExtraCerts msg ++ certs) msg in
      let msg := set_Header (set_SenderKID (ro_senderKID opts) (Header msg)) msg in
      map_err (op_wrap "protect request") (protect creds msg)
  end.

(** The answer to a message that was sent and parsed: [verifyResponse], with the error
    of every caller. *)
Definition verified_response (op : string) (req : PKIMessage) (resp : cmpHTTPResponse)
    (creds : Credentials) (trustedCAs : option CertPool) (knownSigner : option Certificate)
    (alternativeRecipNonce : list bytes) : M VerifyResult :=
  let! t := now in
  match verifyResponse c t req (message resp) creds trustedCAs knownSigner alternativeRecipNonce with
  | Ok vr => st_ret vr
  | Err err => st_fail (wrap_status (cmp_statusCode resp)
                          (withUnverifiedStatus (message resp) (op_wrap op err)))
  end.

(** [resp.Header.PVNO < PVNO2 || resp.Header.PVNO > PVNO3]. *)
Definition check_pvno (resp : cmpHTTPResponse) : M unit :=
  let v := PVNO (Header (message resp)) in
  fail_if (v <? PVNO2) || (PVNO3 <? v)
    with wrap_status (cmp_statusCode resp) (op_error ("unsupported protocol version: " +:+ pretty v)) ;;
  st_ret tt.

(** The request as [MarshalBinary] leaves it comes with the response. *)
Definition exchangeFirst (msg : PKIMessage) (creds : Credentials)
    : M (PKIMessage * cmpHTTPResponse * VerifyResult) :=
  let! (msg, reqDER) := map_err (op_wrap "marshal request") (marshal msg) in
  let! httpResp := sendHTTP c reqDER in
  let! cmpResp := st_lift (parse httpResp "parse response") in
  let! vr := verified_response "verify response" msg cmpResp creds (trustedCAs c) None [] in
  let! _ := check_pvno cmpResp in
  st_ret (msg, cmpResp, vr).

(** ** Polling *)

Definition poll_message (origHeader : PKIHeader) (lastResp : PKIMessage) (certReqID : Z)
    : M PKIMessage :=
  let! msg := new_message (NewPollReqBody [certReqID])
                (mkMessageOptions (Sender origHeader) (Recipient origHeader) None None
                   (SenderNonce (Header lastResp))) in
  let h := set_TransactionID (TransactionID origHeader) (Header msg) in
  st_ret (set_Header (set_SenderKID (SenderKID origHeader) h) msg).

(** The interval a pollRep asks for: zero if it has no item. *)
Definition poll_interval (pollRep : PollRepContent) : Z :=
  match pollRep with item :: _ => CheckAfter item | [] => 0 end.

(** One request of the loop; the verified answer and the signer known after it. *)
Definition poll_once (origHeader : PKIHeader) (lastResp : PKIMessage) (creds : Credentials)
    (certReqID : Z) (knownSigner : option Certificate)
    : M (cmpHTTPResponse * VerifyResult * option Certificate) :=
  let! pollMsg := poll_message origHeader lastResp certReqID in
  let! pollMsg := map_err (op_wrap "protect poll request") (protect creds pollMsg) in
  let! (pollMsg, pollDER) := map_err (op_wrap "marshal poll request") (marshal pollMsg) in
  let! httpResp := sendHTTP c pollDER in
  let! cmpResp := st_lift (parse httpResp "parse polled response") in
  let! b := body_of (message cmpResp) in
  let delayedRequestNonce := if Type_ b =? BodyTypePollRep then [] else SenderNonce origHeader in
  let! vr := verified_response "verify polled response" pollMsg cmpResp creds (trustedCAs c)
               knownSigner [delayedRequestNonce] in
  let! _ := check_pvno cmpResp in
  st_ret (cmpResp, vr, match ProtectionCertificate vr with Some s => Some s | None => knownSigner end).

(** The loop, with [fuel] the number of requests it may still send. [None] is a nil response with a nil
    error. *)
Fixpoint poll_from (fuel : nat) (i waitTime : Z) (origHeader : PKIHeader) (lastResp : PKIMessage)
    (creds : Credentials) (certReqID : Z) (knownSigner : option Certificate)
    : M (option (cmpHTTPResponse * VerifyResult)) :=
  match fuel with
  | O => st_fail (op_error ("polling exceeded max retries (" +:+ pretty (maxPolls c) +:+ ")"))
  | S fuel =>
      let! waited := (if 0 <? i then wait waitTime else st_ret (Ok tt)) in
      match waited with
      | Err err => st_fail (op_wrap ("waiting " +:+ Duration_String waitTime +:+ " before poll "
                                      +:+ pretty (i + 1)) err)
      | Ok _ =>
          let! (cmpResp, vr, knownSigner) := poll_once origHeader lastResp creds certReqID knownSigner in
          let! b := body_of (message cmpResp) in
          if Type_ b =? BodyTypeError then
            match http_wrapError (cmp_statusCode cmpResp) (parseErrorResponse b) with
            | Some err => st_fail err
            | None => st_ret None
            end
          else if Type_ b =? BodyTypePollRep then
            let! pollRep := st_lift (snd (PollRep b)) in
            poll_from fuel (i + 1) (clampCheckAfter c (poll_interval pollRep)) origHeader
              (message cmpResp) creds certReqID knownSigner
          else st_ret (Some (cmpResp, vr))
      end
  end.
Definition poll := poll_from (Z.to_nat (maxPolls c)) 0 0.

(** ** Confirmation *)

Record certConfirmation := mkCertConfirmation {
  conf_req : PKIMessage;
  conf_resp : PKIMessage;
  conf_creds : Credentials;
  conf_trustPool : option CertPool;
  conf_knownSigner : option Certificate
}.

Definition conf_message (conf : certConfirmation) (status : CertStatus) : M PKIMessage :=
  let req := Header (conf_req conf) in
  let! msg := new_message (NewCertConfBody [status])
                (mkMessageOptions (Sender req) (Recipient req) None None
                   (SenderNonce (Header (conf_resp conf)))) in
  let h := set_TransactionID (TransactionID req) (Header msg) in
  st_ret (set_Header (set_SenderKID (SenderKID req) h) msg).

(** What [sendCertConf] makes of the HTTP answer to the message it sent. *)
Definition confirmation_answer (conf : certConfirmation) (confMsg : PKIMessage)
    (confHTTPResp : rawHTTPResponse) : M unit :=
  let! confResp := st_lift (parse confHTTPResp "parse PKIConf") in
  let! _ := verified_response "verify PKIConf" confMsg confResp (conf_creds conf)
              (conf_trustPool conf) (conf_knownSigner conf) [] in
  let! b := body_of (message confResp) in
  if Type_ b =? BodyTypeError then
    match http_wrapError (cmp_statusCode confResp) (parseErrorResponse b) with
    | Some err => st_fail err
    | None => st_ret tt
    end
  else if negb (Type_ b =? BodyTypePKIConf) then
    st_fail (wrap_status (cmp_statusCode confResp)
               (op_error ("expected PKIConf but got body type " +:+ pretty (Type_ b))))
  else st_ret tt.

Definition sendCertConf (conf : certConfirmation) (status : CertStatus) : M unit :=
  let! confMsg := conf_message conf status in
  let! confMsg := map_err (op_wrap "protect certConf") (protect (conf_creds conf) confMsg) in
  let! (confMsg, confDER) := map_err (op_wrap "marshal certConf") (marshal confMsg) in
  let! confHTTPResp := map_err (op_wrap "certConf exchange") (sendHTTP c confDER) in
  confirmation_answer conf confMsg confHTTPResp.

(** The status of a refused certificate. *)
Definition refusing_status (status : CertStatus) (text : string) : CertStatus :=
  let '(mkCertStatus hash id _ alg) := status in
  mkCertStatus hash id (Some (mkPKIStatusInfo StatusRejection [text] 0)) alg.

(** The refused certificate is reported; [reason] is the error in every case. *)
Definition rejectCertificate {A} (conf : certConfirmation) (cert : Certificate) (certReqID : Z)
    (text : string) (reason : error) : M A :=
  let unconfirmed err :=
    wrapError (Error_text reason +:+ " (rejection not confirmed by the CA: " +:+ Error_text err
                +:+ ")") reason in
  match NewCertStatus cert certReqID with
  | Err err => st_fail (unconfirmed err)
  | Ok status =>
      let! r := call (sendCertConf conf (refusing_status status text)) in
      match r with
      | Ok _ => st_fail reason
      | Err err => st_fail (unconfirmed err)
      end
  end.

(** ** Enrollment *)

(** What is left of an enrollment once a certificate was extracted. *)
Definition finish_enrollment (conf : certConfirmation) (status : Z) (certResp : CertResponse)
    (certReqIDs : list Z) (cert : Certificate) (caPubs extraCerts : list Certificate)
    (requestedKey : option PublicKey) : M (option EnrollResult) :=
  let reject text reason :=
    rejectCertificate conf cert (cr_CertReqID certResp) text (wrap_status status reason) in
  match checkCertReqID certResp certReqIDs with
  | Some err => reject "certReqId does not match the request" err
  | None =>
      let! trust := (match conf_trustPool conf with
                     | None => st_ret None
                     | Some pool =>
                         let! t := now in
                         st_ret (verifyIssuedCertificate t cert pool (extraCerts ++ caPubs))
                     end) in
      match trust with
      | Some err => reject "certificate validation failed" (op_wrap "verify certificate trust" err)
      | None =>
          match checkIssuedKey cert requestedKey with
          | Some err => reject "certificate does not certify the requested public key" err
          | None =>
              match NewCertStatus cert (cr_CertReqID certResp) with
              | Err err => st_fail (wrap_status status (op_wrap "compute certHash" err))
              | Ok certStatus =>
                  let! _ := sendCertConf conf certStatus in
                  st_ret (Some (mkEnrollResult cert caPubs extraCerts))
              end
          end
      end
  end.

(** The answer that settles the request: the first one, or what the polls end with.
    [None] is a nil response of the polls, which the caller dereferences. *)
Definition settled_response (msg : PKIMessage) (cmpResp : cmpHTTPResponse) (vr : VerifyResult)
    (creds : Credentials) (expectedRepType : BodyType) (certReqIDs : list Z)
    : M (cmpHTTPResponse * VerifyResult * option Certificate * CertResponse * CertRepMessage) :=
  let extract (r : cmpHTTPResponse) : M (CertResponse * CertRepMessage) :=
    let! b := body_of (message r) in
    match extractCertRespAndRep b expectedRepType with
    | Ok x => st_ret x
    | Err err => st_fail (wrap_status (cmp_statusCode r) err)
    end in
  let knownSigner := ProtectionCertificate vr in
  let! (certResp, rep) := extract cmpResp in
  if Status (cr_Status certResp) =? StatusWaiting then
    match checkCertReqID certResp certReqIDs with
    | Some err => st_fail (wrap_status (cmp_statusCode cmpResp) err)
    | None =>
        let! polled := poll (Header msg) (message cmpResp) creds (cr_CertReqID certResp) knownSigner in
        match polled with
        | None => st_fail GoPanic
        | Some (cmpResp, vr) =>
            let knownSigner := match ProtectionCertificate vr with
                               | Some s => Some s
                               | None => knownSigner
                               end in
            let! (certResp, rep) := extract cmpResp in
            st_ret (cmpResp, vr, knownSigner, certResp, rep)
        end
    end
  else st_ret (cmpResp, vr, knownSigner, certResp, rep).

Definition enroll (reqBody : PKIBody) (expectedRepType : BodyType) (creds : option Credentials)
    (opts : requestOptions) (requestedKey : option PublicKey) : M (option EnrollResult) :=
  let (reqBody, r) := answeringCertReqIDs reqBody in
  let! certReqIDs := st_lift r in
  let! msg := newRequest reqBody creds opts in
  match creds with
  | None => st_fail GoPanic
  | Some creds =>
      let! (msg, cmpResp, vr) := exchangeFirst msg creds in
      let! b := body_of (message cmpResp) in
      if Type_ b =? BodyTypeError then
        match http_wrapError (cmp_statusCode cmpResp) (parseErrorResponse b) with
        | Some err => st_fail err
        | None => st_ret None
        end
      else if negb (Type_ b =? expectedRepType) then
        st_fail (wrap_status (cmp_statusCode cmpResp)
                   (op_error ("unexpected response body type: " +:+ pretty (Type_ b))))
      else
        let! (cmpResp, vr, knownSigner, certResp, rep) :=
          settled_response msg cmpResp vr creds expectedRepType certReqIDs in
        let status := cmp_statusCode cmpResp in
        if negb (Status (cr_Status certResp) =? StatusAccepted)
           && negb (Status (cr_Status certResp) =? StatusGrantedWithMods)
        then match http_wrapError status (AsError (cr_Status certResp)) with
             | Some err => st_fail err
             | None => st_ret None
             end
        else
          match extractCertificate certResp with
          | Err err => st_fail (wrap_status status err)
          | Ok cert =>
              let caPubs := parseCMPCertificates (CAPubs rep) in
              finish_enrollment
                (mkCertConfirmation msg (message cmpResp) creds
                   (enrollmentTrustPool c vr caPubs) knownSigner)
                status certResp certReqIDs cert caPubs
                (parseCMPCertificates (ExtraCerts (message cmpResp))) requestedKey
          end
  end.

(** ** The operations *)

(** The template of a CRMF request. *)
Definition crmf_template (key : Signer) (ropts : requestOptions) : result CertTemplate :=
  let? pubDER := of_option (op_wrap "marshal public key" x509_error)
                   (MarshalPKIXPublicKey (Some (Signer_Public key))) in
  let? extDER := (if nonempty (templateExts ropts)
                  then of_option (op_wrap "marshal extensions" asn1_error)
                         (asn1_Marshal_Extensions (templateExts ropts))
                  else Ok []) in
  Ok (mkCertTemplate None []
        (match templateSubject ropts with Some n => NewDirectoryName n | None => emptyGeneralName end)
        pubDER extDER).

(** The controls of a key update: the certificate to update, if one is known. *)
Definition kur_controls (creds : option Credentials) (ropts : requestOptions)
    : result (list AttributeTypeAndValue) :=
  let old := match oldCertificate ropts, creds with
             | Some crt, _ => Some crt
             | None, Some (CredSignature sc) => Some (sc_cert sc)
             | None, _ => None
             end in
  match old with
  | None => Ok []
  | Some crt =>
      match NewOldCertIDControl (Some crt) with
      | Ok control => Ok [control]
      | Err err => Err (op_wrap "encode oldCertID" err)
      end
  end.

Definition crmf_request_body (expectedRepType : BodyType) (reqs : CertReqMessages) : result PKIBody :=
  if expectedRepType =? BodyTypeIP then Ok (NewIRBody reqs)
  else if expectedRepType =? BodyTypeCP then Ok (NewCRBody reqs)
  else if expectedRepType =? BodyTypeKUP then Ok (NewKURBody reqs)
  else Err (op_error ("unsupported CRMF expected response type " +:+ pretty expectedRepType)).

Definition sendCRMF (key : Signer) (creds : option Credentials) (expectedRepType : BodyType)
    (opts : list RequestOption) : M (option EnrollResult) :=
  let ropts := request_options opts in
  let! tmpl := st_lift (crmf_template key ropts) in
  let! controls := st_lift (if expectedRepType =? BodyTypeKUP then kur_controls creds ropts else Ok []) in
  let certReqMsg := mkCertReqMsg (mkCertRequest 0 tmpl controls []) None in
  let! random := net_draw rand_Reader in
  let! certReqMsg := map_err (op_wrap "generate POP") (st_lift (GeneratePOP random key certReqMsg)) in
  let! body := st_lift (crmf_request_body expectedRepType [certReqMsg]) in
  enroll body expectedRepType creds ropts (Some (Signer_Public key)).

Definition SendIR key creds opts := sendCRMF key creds BodyTypeIP opts.
Definition SendCR key creds opts := sendCRMF key creds BodyTypeCP opts.
Definition SendKUR key creds opts := sendCRMF key creds BodyTypeKUP opts.

Definition SendP10CR (csrDER : bytes) (creds : option Credentials) (opts : list RequestOption)
    : M (option EnrollResult) :=
  let ropts := request_options opts in
  let! csr := st_lift (of_option x509_error (x509_ParseCertificateRequest csrDER)) in
  let! requestedKey := st_lift (of_option x509_error
                         (ParsePKIXPublicKey (csr_RawSubjectPublicKeyInfo csr))) in
  enroll (NewP10CRBody csr) BodyTypeCP creds ropts (Some requestedKey).

(** The rest of a revocation: the status in the final response. *)
Definition revocation_status (resp : cmpHTTPResponse) : M unit :=
  let wrapped err := wrap_status (cmp_statusCode resp) err in
  let! b := body_of (message resp) in
  if negb (Type_ b =? BodyTypeRP) then
    st_fail (wrapped (op_error ("unexpected response body type: " +:+ BodyType_String (Type_ b))))
  else match snd (RP b) with
       | Err err => st_fail (wrapped (op_wrap "parse revocation response" err))
       | Ok rep =>
           match rev_Status rep with
           | [si] => match AsError si with Some err => st_fail (wrapped err) | None => st_ret tt end
           | sis => st_fail (wrapped (op_error ("revocation response carries "
                      +:+ pretty (Z.of_nat (length sis)) +:+ " statuses for one request")))
           end
       end.

Definition SendRR (cert : option Certificate) (reason : CRLReason) (creds : option Credentials)
    (opts : list RequestOption) : M unit :=
  let ropts := request_options opts in
  let! details := map_err (op_wrap "build revocation request") (st_lift (NewRevDetails cert reason)) in
  let! msg := newRequest (NewRRBody [details]) creds ropts in
  match creds with
  | None => st_fail GoPanic
  | Some creds =>
      let! (msg, cmpResp, vr) := exchangeFirst msg creds in
      let! b := body_of (message cmpResp) in
      if Type_ b =? BodyTypeError then
        match parseErrorResponse b with
        | Some err =>
            if is_ErrWaiting err then
              let! polled := poll (Header msg) (message cmpResp) creds (-1) (ProtectionCertificate vr) in
              match polled with
              | None => st_fail GoPanic
              | Some (cmpResp, _) => revocation_status cmpResp
              end
            else st_fail (wrap_status (cmp_statusCode cmpResp) err)
        | None =>
            match http_wrapError (cmp_statusCode cmpResp) None with
            | Some err => st_fail err
            | None => st_ret tt
            end
        end
      else revocation_status cmpResp
  end.

End Enroll.
