(* ===== verification/ClientExamples.v ===== *)
(** * A client and its server

    The client of the library in front of the example server: the transport is
    [ServeHTTP], so every message goes through both, octet by octet. *)
From S2P Require Import Prelude Failure Errors Asn1 Der Types StatusInfo Enrollment Crmf X509.
From S2P Require Import Message RevocationMsg Monad Algorithms Protect Verify Http Instances CodecProps.
From S2P Require Import Transactions Handler Server ServerHTTP ServerExamples Client ClientEnroll.

#[export] Instance ExHTTP : GoHTTP := {|
  mime_ParseMediaType := fun v => if bool_decide (v = "") then None else Some v;
  http_StatusText := fun _ => "status";
  http_NewRequest := fun e => if bool_decide (e = "") then Some asn1_error else None;
  Duration_String := pretty;
  has_Equal := fun k => match k with OtherPublicKey _ => false | _ => true end;
  type_text := fun k => match k with Some _ => "key" | None => "<nil>" end
|}.

(** Waiting takes no time here. *)
Definition toy_transport : Transport (World (list event)) := mkTransport
  (fun der w => ServeHTTP MaxRequestBodySize toy_server toy_now
                  (mkHTTPRequest "POST" "application/pkixcmp" der None) w)
  (fun d w => (w, Ok tt))
  (fun _ => toy_now).

Definition toy_client : Client (World (list event)) :=
  NewClient toy_transport "http://ca/cmp" [WithTrustedCAs (Some [ex_root])].
Definition toy_net : Net (World (list event)) := mkNet toy_world 100 [].

(** An enrollment under the shared secret. *)
Definition toy_subject (cn : string) : Name := name_of_rdn [[mkATV oidCommonName (AVString cn)]].
Definition toy_session (cn : string) : Net (World (list event)) * result (option EnrollResult) :=
  SendIR toy_client 3 (Some (CredMAC toy_pbm))
    [WithTemplateSubject (toy_subject cn); WithSenderName (toy_subject "client")] toy_net.
(** A granted certificate that is not for the requested key. *)
Definition toy_conf : certConfirmation :=
  mkCertConfirmation toy_device (snd toy_enrolled) (CredMAC toy_pbm) None None.
Definition toy_granted : CertResponse :=
  mkCertResponse 0 (mkPKIStatusInfo StatusAccepted [] 0)
    (Some (mkCertifiedKeyPair (mkCertOrEncCert (Some (mkCMPCertificate (Raw ex_leaf))) None) None)) [].
Definition toy_status : CertStatus := ok_or (mkCertStatus [] 0 None None) (NewCertStatus ex_leaf 0).
(** A server that answers every message with an error message of one status. *)
Definition toy_error (si : PKIStatusInfo) : PKIMessage -> PKIMessage := fun req =>
  let m := NewPKIMessage (TransactionID (Header req)) [6; 6] toy_now
             (NewErrorBody (mkErrorMsgContent si 0 []))
             (mkMessageOptions emptyGeneralName emptyGeneralName None None (SenderNonce (Header req))) in
  fst (SignatureCredentials_Protect [4] (mkSigCredentials 3 ex_ca [ex_root]) m).
Definition error_transport (si : PKIStatusInfo) : Transport (World (list event)) := mkTransport
  (fun der w => (w, match ParsePKIMessage der with
                    | Ok req => Ok (write_response (toy_error si req))
                    | Err e => Err e
                    end))
  (fun d w => (w, Ok tt)) (fun _ => toy_now).
Definition error_client (si : PKIStatusInfo) : Client (World (list event)) :=
  NewClient (error_transport si) "http://ca/cmp" [WithTrustedCAs (Some [ex_root])].
(** The status is no error. *)
Definition hollow_client : Client (World (list event)) := error_client (mkPKIStatusInfo StatusAccepted [] 0).
(** The status is the rejection of a proof of possession. *)
Definition refused_client : Client (World (list event)) := error_client (mkPKIStatusInfo StatusRejection [] FailBadPOP).
