(* ===== verification/MockClient.v ===== *)
(** * The example client

    [src/examples/mockclient/mockclient.go] and its [cmd/main.go]: an enrollment under
    a shared secret, the update of its key and the revocation of the new certificate,
    with the client of the library. [default_http] stands for [http.DefaultClient]. *)
From S2P Require Import Prelude Failure Errors Asn1 Types X509 RevocationMsg Monad Algorithms Protect Http.
From S2P Require Import MockCA Client ClientEnroll.

Section MockClient.
Context {CB : Cryptobyte} {GN : GoNames} {GX : GoX509} {GA : GoASN1} {GC : GoCrypto}
  {GP : GoPBMAC1} {GR : GoRandom} {GH : GoHTTP} {GI : GoIssuing}.
Context {N : Type} (default_http : Transport N).
#[local] Abbreviation M := (ST (Net N)).

Definition generate_key : M Signer :=
  let! key := net_draw ecdsa_GenerateKey in
  st_lift (of_option rand_error key).

Definition mock_Enroll (endpoint : string) (reference iak : bytes) (subject : Name)
    : M (option EnrollResult * Signer) :=
  let! key := map_err (Errorf_w "generating key") generate_key in
  let! creds := map_err (Errorf_w "creating MAC credentials") (st_lift (NewMACCredentials iak [])) in
  let c := NewClient default_http endpoint [] in
  let! result := map_err (Errorf_w "IR")
    (SendIR c key (Some (CredMAC creds))
       [WithSenderKID reference; WithSenderName subject; WithTemplateSubject subject]) in
  st_ret (result, key).

Definition mock_Renew (endpoint : string) (oldKey : option Signer) (oldCert : option Certificate)
    (trusted : option CertPool) (caCerts : list Certificate) (subject : Name)
    : M (option EnrollResult * Signer) :=
  let! newKey := map_err (Errorf_w "generating key") generate_key in
  let! creds := map_err (Errorf_w "creating signature credentials")
                  (st_lift (NewSignatureCredentials oldKey oldCert caCerts)) in
  let c := NewClient default_http endpoint [WithTrustedCAs trusted] in
  let! result := map_err (Errorf_w "KUR")
    (SendKUR c newKey (Some (CredSignature creds)) [WithSenderName subject; WithTemplateSubject subject]) in
  st_ret (result, newKey).

Definition mock_Revoke (endpoint : string) (key : option Signer) (cert : option Certificate)
    (reason : CRLReason) (trusted : option CertPool) (caCerts : list Certificate) : M unit :=
  let! creds := map_err (Errorf_w "creating signature credentials")
                  (st_lift (NewSignatureCredentials key cert caCerts)) in
  let c := NewClient default_http endpoint [WithTrustedCAs trusted] in
  map_err (Errorf_w "RR") (SendRR c cert reason (Some (CredSignature creds)) []).

(** ** The program *)

(** [result.Certificate] of a result that may be nil. *)
Definition enrolled (r : option EnrollResult) : M EnrollResult :=
  match r with Some r => st_ret r | None => st_fail GoPanic end.

(** [main]; it ends with the revoked certificate or where it logs an error. What it
    logs on the way has no effect. *)
Definition mock_client_main : M Certificate :=
  let endpoint := "http://localhost:8080/cmp" in
  let subject := mkName "my-device" "" [] [] [] [] [] [] [] [] None in
  let! key := generate_key in
  let! creds := st_lift (NewMACCredentials (string_bytes "test-shared-secret") []) in
  let c := NewClient default_http endpoint [] in
  let! result := SendIR c key (Some (CredMAC creds))
    [WithSenderKID (string_bytes "my-device"); WithSenderName subject; WithTemplateSubject subject] in
  let! result := enrolled result in
  let trusted := er_CAPubs result in
  let! newKey := generate_key in
  let! sigCreds := st_lift (NewSignatureCredentials (Some key) (Some (er_Certificate result))
                              (er_CAPubs result)) in
  let c := NewClient default_http endpoint [WithTrustedCAs (Some trusted)] in
  let! renewal := SendKUR c newKey (Some (CredSignature sigCreds))
    [WithSenderName subject; WithTemplateSubject subject] in
  let! renewal := enrolled renewal in
  let! revCreds := st_lift (NewSignatureCredentials (Some newKey) (Some (er_Certificate renewal))
                              (er_CAPubs result)) in
  let! _ := SendRR c (Some (er_Certificate renewal)) CRLReasonCessationOfOperation
              (Some (CredSignature revCreds)) [] in
  st_ret (er_Certificate renewal).

End MockClient.
