(* ===== verification/MockExamples.v ===== *)
(** * The example programs, run

    The client of [MockClient] in front of the server of [MockCA]: the transport is
    [ServeHTTP], so the three transactions go through both programs, octet by octet. *)
From S2P Require Import Prelude Failure Errors Asn1 Der Types StatusInfo Enrollment Crmf X509.
From S2P Require Import Message RevocationMsg Monad Algorithms Protect Verify Http Instances CodecProps.
From S2P Require Import Transactions Handler Policy Server ServerHTTP ServerExamples MockCA Client ClientEnroll.
From S2P Require Import ClientExamples MockClient.

(** The keys are those of [ex_public]; the first is that of the CA. *)
#[export] Instance ExIssuing : GoIssuing := {|
  rand_Int := fun i max => Some (100 + Z.of_nat i);
  ecdsa_GenerateKey := fun i => Some (match i with O => 1 | _ => Z.of_nat i end);
  clock_Now := fun _ => toy_now;
  x509_CreateCertificate := fun _ tmpl parent pub key =>
    match pub, SerialNumber tmpl with
    | Some pub, Some serial =>
        Some (ex_cert_der serial (CommonName (Subject tmpl)) (CommonName (Subject parent)) pub 2)
    | _, _ => None
    end
|}.

Definition mock_started : nat * result (Server MockCA * World MockCA) := mock_main 0%nat.
Definition mock_idle : Server MockCA * World MockCA :=
  let c := mkMockCA 0 emptyCertificate [] ∅ None 0 true 0%nat in
  (fst (mock_server c), mkWorld (newTransactionTracker 0 0) 0%nat c).
Definition mock_start : Server MockCA * World MockCA := ok_or mock_idle (snd mock_started).

Definition mock_transport : Transport (World MockCA) := mkTransport
  (fun der w => ServeHTTP MaxRequestBodySize (fst mock_start) toy_now
                  (mkHTTPRequest "POST" "application/pkixcmp" der None) w)
  (fun d w => (w, Ok tt))
  (fun _ => toy_now).

Definition mock_session : Net (World MockCA) * result Certificate :=
  mock_client_main mock_transport (mkNet (snd mock_start) 100 []).

(** The requests of the session, and the world of the server they lead to. *)
Definition mock_events : list mock_event := Eval vm_compute in
  omap (fun e => match e with
                 | Exchanged sent _ => Some (OnRequest toy_now (mkHTTPRequest "POST" "application/pkixcmp" sent None))
                 | Waited _ _ => None
                 end) (history (fst mock_session)).
Definition mock_replay : World MockCA * result (list http_Response) := Eval vm_compute in
  mock_serve (fst mock_start) mock_events (snd mock_start).
(** Before the last request, the revocation. *)
Definition mock_before : World MockCA * result (list http_Response) := Eval vm_compute in
  mock_serve (fst mock_start) (removelast mock_events) (snd mock_start).
Definition mock_revocation : PKIMessage := Eval vm_compute in
  match last mock_events with
  | Some (OnRequest _ r) => ok_or toy_device (ParsePKIMessage (req_Body r))
  | _ => toy_device
  end.

Lemma parsed_has_serial der c : x509_ParseCertificate der = Some c -> SerialNumber c <> None.
Proof.
  change (x509_ParseCertificate der) with (ex_parse_cert der). unfold ex_parse_cert.
  repeat case_goal; try done. all: intros H; by injection H as <-.
Qed.
