(* ===== verification/MockProps.v ===== *)
(** * What the example CA guarantees

    The properties of the example server, in every world it can reach from its start. *)
From S2P Require Import Prelude Failure Errors Asn1 Der Types StatusInfo Enrollment Crmf X509 Message.
From S2P Require Import MessageFacts RevocationMsg Monad Algorithms Protect Verify Transactions Handler ServerRequest.
From S2P Require Import CAHandler Policy Http Server ServerHTTP MockCA ServerRuns ServerSafety Authority.
From S2P Require Import ServerTotality MockFacts Instances CodecProps ServerExamples ClientExamples.
From S2P Require Import Client ClientEnroll MockClient MockExamples.

Section Mock.
Context {CB : Cryptobyte} {L : CryptobyteLaws CB} {GN : GoNames} {GX : GoX509} {GA : GoASN1} {GC : GoCrypto}
  {GP : GoPBMAC1} {GR : GoRandom} {GH : GoHTTP} {GI : GoIssuing}.
Context (Hserial : forall der c, x509_ParseCertificate der = Some c -> SerialNumber c <> None).

(** The program started and served some events: its server and its world. *)
Definition mock_running (srv : Server MockCA) (w : World MockCA) : Prop :=
  exists i j w0 events resps, mock_main i = (j, Ok (srv, w0)) /\
    mock_serve srv events w0 = (w, Ok resps).

Lemma mock_running_good srv w :
  mock_running srv w -> exists c0, srv = fst (mock_server c0) /\
    good (mock_ok (ca_key (ca_state w)) (ca_cert (ca_state w)))
         (issued_by (ca_key (ca_state w)) (ca_cert (ca_state w))) w /\
    secrets (ca_state w) = Some {[ string_bytes "my-device" := string_bytes "test-shared-secret" ]}.
Proof.
  intros (i & j & w0 & events & resps & Hm & Hs).
  destruct (mock_main_ok (ca_key (ca_state w0)) (ca_cert (ca_state w0)) _ _ _ _ Hm)
    as (c0 & -> & Hw0 & _ & _ & Hsec & Hg). rewrite Hw0 in Hg. specialize (Hg eq_refl eq_refl).
  rewrite <- Hw0 in Hg, Hsec. exists c0. split; [done|].
  destruct (mock_serve_total Hserial _ _ c0 events w0 Hg) as (w' & resps' & Hr & Hw' & Hgr & _).
  rewrite Hr in Hs. injection Hs as <- _.
  rewrite (mg_key _ _ Hgr), (mg_cert _ _ Hgr), (mg_secrets _ _ Hgr). done.
Qed.

(** C5: the invariant of the example CA. In every world the program can reach, through
    whatever requests on [/cmp] and whatever ticks of its timer: the CA has its key, its
    certificate and its logger, every certificate it lists, and every one a transaction
    of the server holds, was parsed from octets signed with that key under that
    certificate from a template without a keyUsage of the requester, and only serial
    numbers of listed certificates are revoked. From such a world every further sequence
    of events is served without a panic, with a response to each request, and the lists
    of issued and of revoked certificates only grow. *)
Theorem mock_ca_invariant srv w events :
  mock_running srv w ->
  let key := ca_key (ca_state w) in let crt := ca_cert (ca_state w) in
  mock_ok key crt (ca_state w) /\ has_certs (issued_by key crt) (tracker w) /\
  exists w' resps, mock_serve srv events w = (w', Ok resps) /\
    length resps = length (List.filter is_request events) /\ mock_grows (ca_state w) (ca_state w').
Proof.
  intros H key crt. destruct (mock_running_good _ _ H) as (c0 & -> & Hg & _).
  split; [apply Hg|]. split; [apply Hg|].
  destruct (mock_serve_total Hserial _ _ c0 events w Hg) as (w' & resps & Hr & _ & Hgr & Hl).
  by exists w', resps.
Qed.

(** Who the server of the program takes a sender for, in the state [c] of its CA. *)
Inductive mock_known (c : MockCA) (msg : PKIMessage) (sender : SenderIdentity) : Prop :=
| known_by_secret :
    si_MACVerified sender = true -> SenderKID (Header msg) = string_bytes "my-device" ->
    secret sender = string_bytes "test-shared-secret" -> si_Certificate sender = None ->
    mock_known c msg sender
| known_by_certificate x :
    si_MACVerified sender = false -> si_Certificate sender = Some x -> x ∈ issuedCerts c ->
    SubjectKeyId x = SenderKID (Header msg) -> revoked c !! big_String (SerialNumber x) = None ->
    mock_known c msg sender.

Lemma mock_authenticated c0 now c msg sender :
  hasLog c = true ->
  secrets c = Some {[ string_bytes "my-device" := string_bytes "test-shared-secret" ]} ->
  authenticated (fst (mock_server c0)) now c msg sender -> mock_known c msg sender.
Proof.
  intros Hlog Hsec. destruct (mock_config c0) as (_ & _ & _ & Hsl & Hcl).
  intros [lookup alg h k data Hm Hl Hs Hkid _ _ _ _ _ Hnone | lookup x alg check data Hm Hl Hs Hx _ _ _ _ _ _].
  - rewrite Hsl in Hl. injection Hl as <-. unfold MockCA_LookupSecret, log_line in Hs.
    rewrite Hlog, Hsec in Hs. cbn [res_bind] in Hs. apply of_option_ok in Hs.
    apply lookup_singleton_Some in Hs as [H1 H2]. apply known_by_secret; [done|congruence|done|done].
  - rewrite Hcl in Hl. injection Hl as <-. unfold MockCA_LookupCertificate, log_line in Hs.
    rewrite Hlog in Hs. cbn [res_bind] in Hs. case_in Hs; [done|].
    apply lookup_issued_spec in Hs as (y & [= <-] & Hin & Hk & Hr). by eapply known_by_certificate.
Qed.

(** C30: revocation is final. Once the running program has recorded a serial number as
    revoked, no later event takes the entry away or changes its reason, and no later
    message is authenticated by a certificate with that serial number: every sender the
    server then takes for authentic is the holder of the configured secret or of a
    certificate the CA issued and has not revoked, found by the senderKID. *)
Theorem revocation_is_final srv w w' events resps serial reason :
  mock_running srv w -> revoked (ca_state w) !! serial = Some reason ->
  mock_serve srv events w = (w', Ok resps) ->
  revoked (ca_state w') !! serial = Some reason /\
  forall now msg sender, authenticated srv now (ca_state w') msg sender ->
    mock_known (ca_state w') msg sender /\
    forall x, si_Certificate sender = Some x -> big_String (SerialNumber x) <> serial.
Proof.
  intros H Hrev Hs. destruct (mock_running_good _ _ H) as (c0 & -> & Hg & Hsec).
  destruct (mock_serve_total Hserial _ _ c0 events w Hg) as (w1 & resps' & Hr & Hg' & Hgr & _).
  rewrite Hs in Hr. injection Hr as <- _.
  assert (Hrev' : revoked (ca_state w') !! serial = Some reason)
    by (eapply lookup_weaken; [exact Hrev | apply (mg_revoked _ _ Hgr)]).
  split; [done|]. intros now msg sender Ha.
  pose proof (mo_log _ _ _ (proj2 Hg')) as Hlog. rewrite <- (mg_secrets _ _ Hgr) in Hsec.
  pose proof (mock_authenticated _ _ _ _ _ Hlog Hsec Ha) as Hk. split; [done|].
  intros x Hx <-. destruct Hk as [_ _ _ Hn|y _ Hy _ _ Hn]; congruence.
Qed.

Lemma parseRevocationRequest_body msg ms :
  Body ms = Body msg -> parseRevocationRequest ms = parseRevocationRequest msg.
Proof. unfold parseRevocationRequest. by intros ->. Qed.

(** C12: only its owner revokes a certificate. If a message makes the program record a
    serial number as revoked, the message is a revocation request protected with an
    issued certificate, found by its senderKID, which has that serial number and is the
    one the request names by serial number and issuer; the recorded reason is the one
    the request gives, and nothing else of the CA changes. *)
Theorem revocation_by_owner srv w w' now msg resp serial reason :
  mock_running srv w -> processMessage srv now msg w = (w', Ok resp) ->
  revoked (ca_state w) !! serial = None -> revoked (ca_state w') !! serial = Some reason ->
  exists b sender x req, Body msg = Some b /\ Type_ b = BodyTypeRR /\
    authenticated srv now (ca_state w) msg sender /\ si_Certificate sender = Some x /\
    x ∈ issuedCerts (ca_state w) /\ SubjectKeyId x = SenderKID (Header msg) /\
    serial = big_String (SerialNumber x) /\
    parseRevocationRequest msg = Ok req /\ hasReason req = true /\ rr_Reason req = reason /\
    identifies req x = true /\ ca_state w' = mark_revoked serial reason (ca_state w).
Proof.
  intros Hrun H Hold Hnew. destruct (mock_running_good _ _ Hrun) as (c0 & -> & Hg & Hsec).
  destruct (mock_message Hserial _ _ c0 now msg w w' resp (proj2 Hg) H)
    as [Heq|(b & sender & ctx & ms & Hb & Ha & Hid & Hcall)]; [by rewrite Heq, Hold in Hnew|].
  destruct Hcall as [Heq|(Hp & [(tmpl & r & _ & _ & Ht & Hi)|(req & r & x & Ht & Hq & Hx & Hxi & Hr)])].
  { by rewrite Heq, Hold in Hnew. }
  { exfalso. destruct Hi as [(n & e & Heq & _)|(n & i & s & t1 & t2 & rd & der & y & _ & _ & _ & Heq & _)];
      rewrite Heq in Hnew; simpl in Hnew; by rewrite Hold in Hnew. }
  destruct Hr as [[Heq _]|(y & Hy & Hn & Hm & _ & _ & _ & Heq & _)]; [by rewrite Heq, Hold in Hnew|].
  rewrite Heq in Hnew. simpl in Hnew. apply lookup_insert_Some in Hnew as [[Hs Hreason]|[_ Hnew]];
    [|by rewrite Hold in Hnew].
  pose proof (mo_log _ _ _ (proj2 Hg)) as Hlog.
  destruct (mock_authenticated _ _ _ _ _ Hlog Hsec Ha) as [_ _ _ Hnone|x' Hmac Hx' Hin Hk _]; [congruence|].
  assert (x' = x) as -> by congruence.
  rewrite (parseRevocationRequest_body msg ms (same_but_id_body _ _ Hid)) in Hq.
  destruct (pp_rr _ _ _ _ Hp Ht) as (_ & req' & Hq' & Hh).
  rewrite (parseRevocationRequest_body msg ms (same_but_id_body _ _ Hid)), Hq in Hq'. injection Hq' as <-.
  assert (Hser : SerialNumber x = Some (rr_SerialNumber req)).
  { unfold identifies in Hxi. destruct (SerialNumber x) as [n|]; [|done].
    apply andb_true_iff in Hxi as [Hxi _]. apply Z.eqb_eq in Hxi. by subst. }
  exists b, sender, x, req. rewrite Hser, <- Hs, Hreason in *. repeat split; try done.
Qed.

(** ** What the CA answers with afterwards *)

Lemma lookup_issued_app l x rev kid :
  lookup_issued (l ++ [x]) rev kid
  = if existsb (fun y => bytes_eqb (SubjectKeyId y) kid) l then lookup_issued l rev kid
    else lookup_issued [x] rev kid.
Proof.
  induction l as [|y l IH]; [done|]. cbn [app existsb]. change (lookup_issued (y :: l ++ [x]) rev kid) with
    (if bytes_eqb (SubjectKeyId y) kid
     then match rev !! big_String (SerialNumber y) with
          | Some _ => Err (errorString "certificate revoked") | None => Ok (Some y) end
     else lookup_issued (l ++ [x]) rev kid).
  cbn [lookup_issued]. destruct (bytes_eqb (SubjectKeyId y) kid); [done|]. exact IH.
Qed.

(** The outcomes of [IssueCertificate]: an error that changes no list, or a certificate
    that is appended, returned with the next reference and, for an ir, with the CA
    certificate; the lookup by its key identifier gives it unless an older certificate
    has that identifier, and refuses it once it is revoked. *)
Lemma issuance_result ctx rt tmpl sender c c' r :
  hasLog c = true -> MockCA_IssueCertificate ctx rt tmpl sender c = (c', r) ->
  (exists n e, c' = reread n c /\ r = Err e) \/
  exists x, r = Ok (Some (mkResponse (Some x) (if bool_decide (rt = RequestIR) then [ca_cert c] else [])
                            None (Some ((nextIssueID c + 1) mod 2 ^ 64)))) /\
    issuedCerts c' = issuedCerts c ++ [x] /\ revoked c' = revoked c /\
    forall issuer name kid, kid <> [] ->
      (Exists (fun y => SubjectKeyId y = kid) (issuedCerts c) ->
       MockCA_LookupCertificate c' issuer name kid = MockCA_LookupCertificate c issuer name kid) /\
      (Forall (fun y => SubjectKeyId y <> kid) (issuedCerts c) -> SubjectKeyId x = kid ->
       revoked c !! big_String (SerialNumber x) = None ->
       MockCA_LookupCertificate c' issuer name kid = Ok (Some x) /\
       forall reason, MockCA_LookupCertificate (mark_revoked (big_String (SerialNumber x)) reason c')
                        issuer name kid = Err (errorString "certificate revoked")).
Proof.
  intros Hlog H. apply issue_spec in H; [|done].
  destruct H as [(n & e & -> & -> & _)|(n & i & s & t1 & t2 & rd & der & x & _ & _ & _ & -> & ->)].
  { left. by exists n, e. }
  right. exists x. split; [done|]. split; [done|]. split; [done|]. intros issuer name kid Hkid.
  unfold MockCA_LookupCertificate, log_line.
  cbn [hasLog issuedCerts revoked add_issueID append_issued reread mark_revoked]. rewrite Hlog.
  apply nonempty_true in Hkid. rewrite Hkid. cbn [negb res_bind]. rewrite lookup_issued_app. split.
  - intros He. replace (existsb _ _) with true; [done|]. symmetry. apply existsb_exists.
    apply List.Exists_exists in He as (y & Hin & Hy). exists y. split; [done|]. by apply bytes_eqb_eq.
  - intros Hall Hx Hr. assert (Hno : existsb (fun y => bytes_eqb (SubjectKeyId y) kid) (issuedCerts c) = false).
    2: { rewrite Hno. cbn [lookup_issued]. rewrite (proj2 (bytes_eqb_eq _ _) Hx), Hr. split; [done|].
      intros reason. rewrite lookup_issued_app, Hno. cbn [lookup_issued].
      by rewrite (proj2 (bytes_eqb_eq _ _) Hx), lookup_insert_eq. }
    apply not_true_iff_false. intros Hex. apply existsb_exists in Hex as (y & Hin & Hy).
    apply bytes_eqb_eq in Hy. by apply (proj1 (List.Forall_forall _ _) Hall y Hin).
Qed.

End Mock.

(** ** Witnesses *)

Lemma mock_starts : mock_main 0%nat = (fst mock_started, Ok (fst mock_start, snd mock_start)).
Proof.
  rewrite <- surjective_pairing. change (mock_main 0%nat) with mock_started. unfold mock_start.
  destruct mock_started as [i [sw|e]] eqn:E; [done|]. exfalso.
  apply (f_equal (fun p => is_ok (snd p))) in E. vm_compute in E. discriminate E.
Qed.

Lemma mock_replay_running : mock_running (fst mock_start) (fst mock_replay).
Proof.
  exists 0%nat, (fst mock_started), (snd mock_start), mock_events, (ok_or [] (snd mock_replay)). split.
  - exact mock_starts.
  - vm_compute. reflexivity.
Qed.

Lemma mock_before_running : mock_running (fst mock_start) (fst mock_before).
Proof.
  exists 0%nat, (fst mock_started), (snd mock_start), (removelast mock_events), (ok_or [] (snd mock_before)). split.
  - exact mock_starts.
  - vm_compute. reflexivity.
Qed.

Lemma mock_ca_invariant_witness :
  length (issuedCerts (ca_state (fst mock_replay))) = 2%nat /\
  mock_ok 1 (ca_cert (ca_state (fst mock_replay))) (ca_state (fst mock_replay)).
Proof.
  split; [vm_compute; reflexivity|].
  change 1 with (ca_key (ca_state (fst mock_replay))).
  exact (proj1 (mock_ca_invariant parsed_has_serial (fst mock_start) (fst mock_replay) [] mock_replay_running)).
Defined.

Definition mock_later : World MockCA * result (list http_Response) :=
  Eval vm_compute in mock_serve (fst mock_start) [OnTick toy_now] (fst mock_replay).

Lemma revocation_is_final_witness :
  revoked (ca_state (fst mock_replay)) !! "109" = Some CRLReasonCessationOfOperation /\
  revoked (ca_state (fst mock_later)) !! "109" = Some CRLReasonCessationOfOperation.
Proof.
  assert (H : revoked (ca_state (fst mock_replay)) !! "109" = Some CRLReasonCessationOfOperation)
    by (vm_compute; reflexivity).
  split; [exact H|].
  refine (proj1 (revocation_is_final parsed_has_serial (fst mock_start) (fst mock_replay) (fst mock_later)
    [OnTick toy_now] (ok_or [] (snd mock_later)) "109" CRLReasonCessationOfOperation
    mock_replay_running H _)).
  vm_compute. reflexivity.
Defined.

Definition mock_answered : World MockCA * result PKIMessage :=
  Eval vm_compute in processMessage (fst mock_start) toy_now mock_revocation (fst mock_before).

Lemma revocation_by_owner_witness :
  exists x, x ∈ issuedCerts (ca_state (fst mock_before)) /\ "109" = big_String (SerialNumber x) /\
    SubjectKeyId x = SenderKID (Header mock_revocation).
Proof.
  destruct (revocation_by_owner parsed_has_serial (fst mock_start) (fst mock_before) (fst mock_answered)
    toy_now mock_revocation (ok_or mock_revocation (snd mock_answered)) "109" CRLReasonCessationOfOperation
    mock_before_running) as (b & sender & x & req & _ & _ & _ & _ & Hin & Hk & Hs & _).
  - vm_compute. reflexivity.
  - vm_compute. reflexivity.
  - vm_compute. reflexivity.
  - exists x. split; [exact Hin|]. split; [exact Hs | exact Hk].
Defined.

#[local] Abbreviation mock_issued := (MockCA_IssueCertificate context_Background RequestIR
  (request_template (toy_subject "device") (Some (ex_public 3)) [] []) toy_identity (ca_state (snd mock_start))).

Lemma issuance_result_witness :
  exists x, issuedCerts (fst mock_issued) = [x].
Proof.
  destruct (issuance_result context_Background RequestIR
    (request_template (toy_subject "device") (Some (ex_public 3)) [] []) toy_identity
    (ca_state (snd mock_start)) (fst mock_issued) (snd mock_issued)) as [(n & e & H & _)|(x & _ & H & _)].
  - vm_compute. reflexivity.
  - apply surjective_pairing.
  - exfalso. apply (f_equal (fun c => length (issuedCerts c))) in H. vm_compute in H. discriminate H.
  - exists x. rewrite H. vm_compute. reflexivity.
Defined.
