(* ===== verification/ClientFacts.v ===== *)
(** * Runs of the client

    What the history of a run holds, whatever its outcome, and what a successful
    step says. *)
From S2P Require Import Prelude Failure Errors Asn1 Types StatusInfo Enrollment Crmf X509 CertPath.
From S2P Require Import Message RevocationMsg Monad Algorithms Protect Verify Http Client ClientEnroll.

(** ** Histories *)

(** The messages sent. *)
Definition sent_in (l : list net_event) : list bytes :=
  omap (fun e => match e with Exchanged der _ => Some der | Waited _ _ => None end) l.

(** [steps c n l n']: the outside world goes from [n] to [n'] by the events of [l]. *)
Inductive steps {N} (c : Client N) : N -> list net_event -> N -> Prop :=
| steps_none n : steps c n [] n
| steps_exchange n n1 n2 der r l :
    Do (httpClient c) der n = (n1, r) -> steps c n1 l n2 -> steps c n (Exchanged der r :: l) n2
| steps_wait n n1 n2 d r l :
    time_After (httpClient c) d n = (n1, r) -> steps c n1 l n2 -> steps c n (Waited d r :: l) n2.

Lemma steps_app {N} (c : Client N) n l n1 l' n2 :
  steps c n l n1 -> steps c n1 l' n2 -> steps c n (l ++ l') n2.
Proof. induction 1; intros; simpl; [done | eapply steps_exchange | eapply steps_wait]; eauto. Qed.
Lemma steps_split {N} (c : Client N) n l l' n2 :
  steps c n (l ++ l') n2 -> exists n1, steps c n l n1 /\ steps c n1 l' n2.
Proof.
  revert n. induction l as [|e l IH]; intros n H; [exists n; split; [constructor | exact H]|].
  inversion H as [|? m ? der r ? Hd Hs|? m ? d r ? Hd Hs]; subst; apply IH in Hs as (n1 & H1 & H2);
    exists n1; (split; [econstructor; eauto | exact H2]).
Qed.

(** [emits c n P m]: whatever its outcome, [m] adds to the history what happened outside,
    with at most [n] exchanges, and waits for intervals of [P] only. *)
Definition emits {N A} (c : Client N) (n : nat) (P : Z -> Prop) (m : ST (Net N) A) : Prop :=
  forall w, exists l, history (fst (m w)) = history w ++ l /\ steps c (net w) l (net (fst (m w))) /\
    (length (sent_in l) <= n)%nat /\ forall d r, Waited d r ∈ l -> P d.

(** [silent m]: nothing happens outside. *)
Definition silent {N A} (m : ST (Net N) A) : Prop :=
  forall w, history (fst (m w)) = history w /\ net (fst (m w)) = net w.

Lemma silent_emits {N A} c n P (m : ST (Net N) A) : silent m -> emits c n P m.
Proof.
  intros H w. destruct (H w) as [-> ->]. exists []. rewrite app_nil_r.
  split_and!; [done | constructor | apply Nat.le_0_l |]. intros d r Hd. by apply not_elem_of_nil in Hd.
Qed.

Lemma silent_bind {N A B} (m : ST (Net N) A) (k : A -> ST (Net N) B) :
  silent m -> (forall a, silent (k a)) -> silent (st_bind m k).
Proof.
  intros Hm Hk w. specialize (Hm w). unfold st_bind. destruct (m w) as [w1 [a|e]]; [|exact Hm].
  destruct Hm as [<- <-]. apply Hk.
Qed.
Lemma silent_map_err {N A} f (m : ST (Net N) A) : silent m -> silent (map_err f m).
Proof. intros H w. specialize (H w). unfold map_err. destruct (m w) as [w1 [a|[]]]; exact H. Qed.

Lemma emits_bind {N A B} c n k P (m : ST (Net N) A) (f : A -> ST (Net N) B) :
  emits c n P m -> (forall a, emits c k P (f a)) -> emits c (n + k) P (st_bind m f).
Proof.
  intros Hm Hf w. destruct (Hm w) as (l & E & Hs & Hl & Hw). unfold st_bind.
  destruct (m w) as [w1 [a|e]]; cbn in E, Hs |- *.
  - destruct (Hf a w1) as (l' & E' & Hs' & Hl' & Hw'). exists (l ++ l').
    rewrite E', E, app_assoc. split; [done|]. split; [by eapply steps_app|].
    unfold sent_in. rewrite omap_app, length_app.
    fold (sent_in l) (sent_in l'). split; [lia|].
    intros d r Hd. apply elem_of_app in Hd as [Hd|Hd]; eauto.
  - exists l. split_and!; [done | done | lia | exact Hw].
Qed.
Lemma emits_silent_bind {N A B} c n P (m : ST (Net N) A) (f : A -> ST (Net N) B) :
  silent m -> (forall a, emits c n P (f a)) -> emits c n P (st_bind m f).
Proof. intros Hm Hf. apply (emits_bind c 0); [by apply silent_emits | done]. Qed.

Lemma emits_map_err {N A} c n P f (m : ST (Net N) A) : emits c n P m -> emits c n P (map_err f m).
Proof.
  intros H w. destruct (H w) as (l & Hl). exists l.
  unfold map_err. destruct (m w) as [w1 [a|[]]]; exact Hl.
Qed.
Lemma emits_call {N A} c n P (m : ST (Net N) A) : emits c n P m -> emits c n P (call m).
Proof.
  intros H w. destruct (H w) as (l & Hl). exists l.
  unfold call. destruct (m w) as [w1 [a|[]]]; exact Hl.
Qed.

Create HintDb emits.

Section Silent.
Context {CB : Cryptobyte} {GN : GoNames} {GX : GoX509} {GA : GoASN1} {GC : GoCrypto}
  {GP : GoPBMAC1} {GR : GoRandom} {GH : GoHTTP}.
Context {N : Type} (c : Client N).

Lemma silent_ret {A} (a : A) : silent (@st_ret (Net N) A a).
Proof. by intros w. Qed.
Lemma silent_fail {A} e : silent (@st_fail (Net N) A e).
Proof. by intros w. Qed.
Lemma silent_lift {A} (r : result A) : silent (@st_lift (Net N) A r).
Proof. by intros w. Qed.
Lemma silent_draw {A} (f : nat -> A) : silent (@net_draw N A f).
Proof. by intros []. Qed.
Lemma silent_now : silent (now c).
Proof. by intros w. Qed.
#[local] Hint Resolve silent_ret silent_fail silent_lift silent_draw silent_now
  @silent_bind @silent_map_err : core.

Lemma silent_body_of msg : silent (@body_of N msg).
Proof. unfold body_of. destruct (Body msg); auto. Qed.
Lemma silent_new_message b o : silent (new_message c b o).
Proof. unfold new_message. auto. Qed.
Lemma silent_protect creds msg : silent (protect (N:=N) creds msg).
Proof. unfold protect. apply silent_bind; [auto|]. intros r. destruct (Protect r creds msg) as [m []]; auto. Qed.
Lemma silent_marshal msg : silent (marshal (N:=N) msg).
Proof. unfold marshal. destruct (MarshalBinary msg). auto. Qed.
Lemma silent_verified_response op req resp creds roots known alts :
  silent (verified_response c op req resp creds roots known alts).
Proof. unfold verified_response. apply silent_bind; [auto|]. intros t. case_goal; auto. Qed.
Lemma silent_check_pvno resp : silent (check_pvno (N:=N) resp).
Proof. unfold check_pvno. case_goal; auto. Qed.
#[local] Hint Resolve silent_new_message silent_protect : core.

Lemma silent_newRequest b creds o : silent (newRequest c b creds o).
Proof. unfold newRequest. destruct creds; auto 7. Qed.
Lemma silent_poll_message h r i : silent (poll_message c h r i).
Proof. unfold poll_message. auto. Qed.
Lemma silent_conf_message conf s : silent (conf_message c conf s).
Proof. unfold conf_message. auto. Qed.
End Silent.

#[export] Hint Resolve silent_ret silent_fail silent_lift silent_draw silent_now silent_body_of
  silent_new_message silent_protect silent_marshal silent_verified_response silent_check_pvno
  silent_newRequest silent_poll_message silent_conf_message silent_map_err : emits.

(** Walks through a method up to its exchanges and waits. *)
Ltac emits :=
  repeat first
    [ progress intros
    | match goal with
      | |- emits _ _ _ (st_bind _ _) => apply emits_silent_bind; [solve [auto with emits] | ]
      | |- emits _ _ _ (map_err _ _) => apply emits_map_err
      | |- emits _ _ _ (call _) => apply emits_call
      | |- emits _ _ _ (st_ret _) => apply silent_emits, silent_ret
      | |- emits _ _ _ (st_fail _) => apply silent_emits, silent_fail
      | |- emits _ _ _ (st_lift _) => apply silent_emits, silent_lift
      | p : (_ * _)%type |- _ => destruct p
      end
    | case_goal ].

Section Emits.
Context {CB : Cryptobyte} {GN : GoNames} {GX : GoX509} {GA : GoASN1} {GC : GoCrypto}
  {GP : GoPBMAC1} {GR : GoRandom} {GH : GoHTTP}.
Context {N : Type} (c : Client N) (P : Z -> Prop).

Lemma emits_wait d n : P d -> emits c n P (wait c d).
Proof.
  intros Hd [s i l]. cbn. destruct (time_After (httpClient c) d s) as [s' r] eqn:E.
  exists [Waited d r]. split_and!; [done | | apply Nat.le_0_l |].
  - eapply steps_wait; [exact E | constructor].
  - intros d' r' H. apply list_elem_of_singleton in H. by injection H as -> ->.
Qed.

Lemma emits_sendHTTP der : emits c 1 P (sendHTTP c der).
Proof.
  unfold sendHTTP. destruct (http_NewRequest (endpoint c)); [apply silent_emits, silent_fail|].
  apply (emits_bind c 1 0); [|emits].
  intros [s i l]. cbn. destruct (Do (httpClient c) der s) as [s' r] eqn:E.
  exists [Exchanged der r]. split_and!; [done | | apply le_n |].
  - eapply steps_exchange; [exact E | constructor].
  - intros d' r' H. by apply list_elem_of_singleton in H.
Qed.

Lemma emits_exchangeFirst msg creds : emits c 1 P (exchangeFirst c msg creds).
Proof. unfold exchangeFirst. emits. apply (emits_bind c 1 0); [apply emits_sendHTTP | emits]. Qed.

Lemma emits_sendCertConf conf status : emits c 1 P (sendCertConf c conf status).
Proof.
  unfold sendCertConf. emits. apply (emits_bind c 1 0); [apply emits_map_err, emits_sendHTTP|].
  intros raw. unfold confirmation_answer. emits.
Qed.

Lemma emits_rejectCertificate {A} conf crt i t e : emits c 1 P (rejectCertificate (A:=A) c conf crt i t e).
Proof.
  unfold rejectCertificate. case_goal; [|emits].
  apply (emits_bind c 1 0); [apply emits_call, emits_sendCertConf | emits].
Qed.

Lemma emits_poll_once h r creds i known : emits c 1 P (poll_once c h r creds i known).
Proof. unfold poll_once. emits. apply (emits_bind c 1 0); [apply emits_sendHTTP | emits]. Qed.

Hypothesis HP : forall seconds, P (clampCheckAfter c seconds).

Lemma emits_poll_from fuel : forall (i d : Z) h r creds id known,
  0 <= i -> (0 < i -> P d) -> emits c fuel P (poll_from c fuel i d h r creds id known).
Proof.
  induction fuel as [|fuel IH]; intros i d h r creds id known Hi Hd; cbn [poll_from]; [emits|].
  apply (emits_bind c 0 (S fuel)).
  { destruct (Z.ltb_spec 0 i); [apply emits_wait; auto | emits]. }
  intros [u|e]; [|emits].
  apply (emits_bind c 1 fuel); [apply emits_poll_once|].
  emits. apply IH; [lia | auto].
Qed.
Lemma emits_poll h r creds id known : emits c (Z.to_nat (maxPolls c)) P (poll c h r creds id known).
Proof. apply emits_poll_from; lia. Qed.

Lemma emits_settled msg resp vr creds t ids :
  emits c (Z.to_nat (maxPolls c)) P (settled_response c msg resp vr creds t ids).
Proof.
  unfold settled_response. apply emits_silent_bind.
  { apply silent_bind; [auto with emits|]. intros b. case_goal; auto with emits. }
  intros [cr rep]. case_goal; [|emits]. case_goal; [emits|].
  rewrite <- (Nat.add_0_r (Z.to_nat _)). apply emits_bind; [apply emits_poll|].
  intros [[resp' vr']|]; [|emits]. apply emits_silent_bind; [|emits].
  apply silent_bind; [auto with emits|]. intros b. case_goal; auto with emits.
Qed.

Lemma emits_finish conf st cr ids crt pubs extra key :
  emits c 1 P (finish_enrollment c conf st cr ids crt pubs extra key).
Proof.
  unfold finish_enrollment. case_goal; [apply emits_rejectCertificate|].
  apply emits_silent_bind; [case_goal; [apply silent_bind|]; auto with emits|].
  intros [e|]; [apply emits_rejectCertificate|].
  case_goal; [apply emits_rejectCertificate|]. case_goal; [|emits].
  apply (emits_bind c 1 0); [apply emits_sendCertConf | emits].
Qed.

Lemma emits_enroll b t creds o key :
  emits c (Z.to_nat (maxPolls c) + 2) P (enroll c b t creds o key).
Proof.
  unfold enroll. destruct (answeringCertReqIDs b) as [b' ids]. emits.
  replace (Z.to_nat (maxPolls c) + 2)%nat with (1 + (Z.to_nat (maxPolls c) + 1))%nat by lia.
  apply emits_bind; [apply emits_exchangeFirst|]. emits.
  apply emits_bind; [apply emits_settled|]. emits. apply emits_finish.
Qed.

Lemma emits_sendCRMF key creds t opts :
  emits c (Z.to_nat (maxPolls c) + 2) P (sendCRMF c key creds t opts).
Proof. unfold sendCRMF. emits. apply emits_enroll. Qed.
Lemma emits_SendP10CR der creds opts :
  emits c (Z.to_nat (maxPolls c) + 2) P (SendP10CR c der creds opts).
Proof. unfold SendP10CR. emits. apply emits_enroll. Qed.

Lemma emits_SendRR crt reason creds opts :
  emits c (Z.to_nat (maxPolls c) + 1) P (SendRR c crt reason creds opts).
Proof.
  assert (Hs : forall r, silent (revocation_status (N:=N) r)).
  { intros r. unfold revocation_status. apply silent_bind; [auto with emits|]. intros b.
    repeat case_goal; auto with emits. }
  unfold SendRR. emits. rewrite Nat.add_comm.
  apply emits_bind; [apply emits_exchangeFirst|]. emits.
  2: by apply silent_emits.
  rewrite <- (Nat.add_0_r (Z.to_nat _)). apply emits_bind; [apply emits_poll|].
  emits. by apply silent_emits.
Qed.
End Emits.

(** ** Polling intervals *)

Lemma clamp_reference {N} (c : Client N) (seconds : Z) :
  0 <= minCheckAfter c <= maxCheckAfter c -> maxCheckAfter c < 2 ^ 63 ->
  clampCheckAfter c seconds = Z.max (minCheckAfter c) (Z.min (maxCheckAfter c) (seconds * Second)).
Proof.
  intros Hlo Hhi. unfold clampCheckAfter, Second.
  rewrite Z.quot_div_nonneg by lia.
  pose proof (Z.div_mod (maxCheckAfter c) (10 ^ 9) ltac:(lia)).
  pose proof (Z.mod_pos_bound (maxCheckAfter c) (10 ^ 9) ltac:(lia)).
  destruct (Z.leb_spec seconds 0); [lia|].
  destruct (Z.leb_spec (maxCheckAfter c / 10 ^ 9 + 1) seconds); [lia|].
  rewrite int64_wrap_id by lia.
  destruct (Z.ltb_spec (seconds * 10 ^ 9) (minCheckAfter c)); [lia|].
  destruct (Z.ltb_spec (maxCheckAfter c) (seconds * 10 ^ 9)); lia.
Qed.
