(* ===== verification/ClientRuns.v ===== *)
(** * Successful runs of the client

    What stands behind a result: the messages that were exchanged for it, and the
    checks they passed. *)
From S2P Require Import Prelude Failure Errors Asn1 Types StatusInfo Enrollment Crmf X509 CertPath.
From S2P Require Import Message RevocationMsg Monad Algorithms Protect Verify Keeps Http Client.
From S2P Require Import ClientEnroll ClientFacts.

(** ** What a run can show *)

Section Shown.
Context {CB : Cryptobyte} {GN : GoNames} {GX : GoX509} {GA : GoASN1} {GC : GoCrypto}
  {GP : GoPBMAC1} {GR : GoRandom} {GH : GoHTTP}.
Context {N : Type} (c : Client N).

(** [resp] is what the client reads of an HTTP answer to [der]. *)
Definition exchanged (l : list net_event) (der : bytes) (resp : cmpHTTPResponse) : Prop :=
  exists h raw, Exchanged der (Ok h) ∈ l /\ accept_response c h = Ok raw /\
    ParsePKIMessage (raw_body raw) = Ok (message resp) /\ cmp_statusCode resp = raw_statusCode raw.

(** The client sent [m] and got [resp], of the same transaction, whose protection
    verifies, under the secret of the credentials or for a certificate that chains to
    [roots], with the result [vr]. *)
Definition answered (l : list net_event) (creds : Credentials) (roots : option CertPool)
    (m : PKIMessage) (resp : cmpHTTPResponse) (vr : VerifyResult) : Prop :=
  exists der t known, snd (MarshalBinary m) = Ok der /\ exchanged l der resp /\
    TransactionID (Header (message resp)) = TransactionID (Header m) /\
    Verify t (message resp) (response_options c (message resp) creds roots known) = Ok vr.

Definition answers_nonce (resp : cmpHTTPResponse) (m : PKIMessage) : Prop :=
  RecipNonce (Header (message resp)) = SenderNonce (Header m).

(** [m] carries [body] in the transaction of [first], protected with the credentials. *)
Definition protected_by (creds : Credentials) (m : PKIMessage) : Prop :=
  exists random m0, Protect random creds m0 = (m, Ok tt).
Definition of_transaction (creds : Credentials) (first : PKIMessage) (body : PKIBody)
    (m : PKIMessage) : Prop :=
  protected_by creds m /\ Body m = Some body /\
  TransactionID (Header m) = TransactionID (Header first).

(** [resp] settles [req]: it answers it, or a poll of its transaction. *)
Definition settles (l : list net_event) (creds : Credentials) (req : PKIMessage)
    (resp : cmpHTTPResponse) (vr : VerifyResult) : Prop :=
  (answered l creds (trustedCAs c) req resp vr /\ answers_nonce resp req) \/
  exists m id, of_transaction creds req (NewPollReqBody [id]) m /\
    answered l creds (trustedCAs c) m resp vr /\ (answers_nonce resp m \/ answers_nonce resp req).

Definition granted (r : CertResponse) : Prop :=
  Status (cr_Status r) = StatusAccepted \/ Status (cr_Status r) = StatusGrantedWithMods.

(** What the client requires of a certificate: it answers a certReqId of the request,
    chains to the trusted certificates if there are any, and has the requested key. *)
Definition acceptable (ids : list Z) (pool : option CertPool) (candidates : list Certificate)
    (key : option PublicKey) (certResp : CertResponse) (crt : Certificate) : Prop :=
  cr_CertReqID certResp ∈ ids /\
  (forall roots, pool = Some roots -> exists t, verifyIssuedCertificate t crt roots candidates = None) /\
  (forall k, key = Some k -> exists issued, PublicKey_Equal issued (Some k) = true /\
     (cert_PublicKey crt = Some issued \/
      cert_PublicKey crt = None /\ ParsePKIXPublicKey (RawSubjectPublicKeyInfo crt) = Some issued)).

(** An error message whose status is not one. *)
Definition hollow_error (resp : cmpHTTPResponse) (b : PKIBody) : Prop :=
  Type_ b = BodyTypeError /\ parseErrorResponse b = None /\ cmp_statusCode resp = StatusOK.

(** The certificate was confirmed with [status], and the CA took note. *)
Definition confirmed (l : list net_event) (creds : Credentials) (roots : option CertPool)
    (req : PKIMessage) (resp : cmpHTTPResponse) (status : CertStatus) : Prop :=
  exists conf ack vr b, of_transaction creds req (NewCertConfBody [status]) conf /\
    RecipNonce (Header conf) = SenderNonce (Header (message resp)) /\
    answered l creds roots conf ack vr /\ answers_nonce ack conf /\
    Body (message ack) = Some b /\ (Type_ b = BodyTypePKIConf \/ hollow_error ack b).

End Shown.

(** ** Single steps *)

Section Steps.
Context {CB : Cryptobyte} {GN : GoNames} {GX : GoX509} {GA : GoASN1} {GC : GoCrypto}
  {GP : GoPBMAC1} {GR : GoRandom} {GH : GoHTTP}.
Context {N : Type} (c : Client N).
Implicit Types (w : Net N) (m msg : PKIMessage).

Lemma map_err_ok {S A} f (x : ST S A) s s' a : map_err f x s = (s', Ok a) <-> x s = (s', Ok a).
Proof. unfold map_err. destruct (x s) as [s1 [a1|[]]]; split; congruence. Qed.

Lemma net_draw_ok {A} (f : nat -> A) w w' a :
  net_draw f w = (w', Ok a) -> history w' = history w /\ exists i, a = f i.
Proof. destruct w. intros [= <- <-]. eauto. Qed.
Lemma now_ok w w' t : now c w = (w', Ok t) -> w' = w.
Proof. by intros [= <- _]. Qed.
Lemma body_of_ok m w w' b : body_of m w = (w', Ok b) -> w' = w /\ Body m = Some b.
Proof. unfold body_of. destruct (Body m); [intros [= <- <-]; done | done]. Qed.

Lemma new_message_ok b o w w' m :
  new_message c b o w = (w', Ok m) ->
  history w' = history w /\ exists r1 r2 t, m = NewPKIMessage r1 r2 t b o.
Proof.
  intros H. unfold new_message in H. st_inv.
  apply net_draw_ok in E as [E ?], E0 as [E0 ?]. apply now_ok in E1 as ->.
  split; [congruence | eauto].
Qed.

(** What the credentials get of the random source at the [i]-th draw. *)
Definition protect_random (creds : Credentials) (i : nat) : bytes :=
  match creds with CredMAC _ => rand_Read i 16 | CredSignature _ => rand_Reader i end.

Lemma protect_run creds msg w w' r :
  protect creds msg w = (w', r) -> history w' = history w /\
    r = match Protect (protect_random creds (net_draws w)) creds msg with
        | (m, Ok _) => Ok m
        | (_, Err e) => Err e
        end.
Proof.
  intros H. unfold protect, st_bind, net_draw in H. destruct w as [n i l].
  fold (protect_random creds i) in H. cbn [net_draws].
  destruct (Protect (protect_random creds i) creds msg) as [m [u|e]]; by injection H as <- <-.
Qed.

Lemma protect_ok creds msg w w' m :
  protect creds msg w = (w', Ok m) ->
  history w' = history w /\ keeps msg m /\ protected_by creds m.
Proof.
  intros H. unfold protect in H. st_inv. apply net_draw_ok in E as [E _].
  pose proof (Protect_keeps a creds msg) as Hk. rename a into r.
  destruct (Protect r creds msg) as [m1 [[]|]] eqn:Ep; [|discriminate H]. injection H as <- <-.
  split_and!; [done|done|]. by exists r, msg.
Qed.

Lemma marshal_ok msg w w' m der :
  marshal msg w = (w', Ok (m, der)) -> w' = w /\ keeps msg m /\ snd (MarshalBinary msg) = Ok der.
Proof.
  intros H. unfold marshal in H. pose proof (MarshalBinary_keeps msg) as Hk.
  destruct (MarshalBinary msg) as [m1 r]. st_inv. injection H0 as -> ->. done.
Qed.

Lemma sendHTTP_ok der w w' raw :
  sendHTTP c der w = (w', Ok raw) ->
  exists h, history w' = history w ++ [Exchanged der (Ok h)] /\ accept_response c h = Ok raw.
Proof.
  intros H. unfold sendHTTP in H. destruct (http_NewRequest (endpoint c)); [discriminate H|]. st_inv.
  destruct w as [n i l]. unfold http_Do in E. cbn in E.
  destruct (Do (httpClient c) der n) as [n' r]. injection E as <- <-.
  destruct r as [h|e]; [|discriminate H]. injection H as <- H. exists h. done.
Qed.

Lemma parse_ok raw op resp :
  parse raw op = Ok resp ->
  ParsePKIMessage (raw_body raw) = Ok (message resp) /\ cmp_statusCode resp = raw_statusCode raw.
Proof. unfold parse. destruct (ParsePKIMessage (raw_body raw)); [intros [= <-]; done | done]. Qed.

Lemma verifyResponse_ok t req resp creds roots known alts vr :
  verifyResponse c t req resp creds roots known alts = Ok vr ->
  TransactionID (Header resp) = TransactionID (Header req) /\
  nonce_matches req resp alts = true /\
  Verify t resp (response_options c resp creds roots known) = Ok vr.
Proof.
  unfold verifyResponse. intros H.
  destruct (bytes_eqb _ _) eqn:Ht; [|discriminate H]. destruct (nonce_matches _ _ _); [|discriminate H].
  destruct (is_nil _); [discriminate H|]. apply bytes_eqb_eq in Ht.
  destruct (Verify _ _ _); [|discriminate H]. done.
Qed.

Lemma verified_response_ok op req resp creds roots known alts vr w w' :
  verified_response c op req resp creds roots known alts w = (w', Ok vr) ->
  w' = w /\ exists t, verifyResponse c t req (message resp) creds roots known alts = Ok vr.
Proof.
  intros H. unfold verified_response in H. st_inv. apply now_ok in E as ->.
  destruct (verifyResponse _ _ _ _ _ _ _ _) eqn:Ev; [|discriminate H]. injection H as <- <-. eauto.
Qed.

Lemma check_pvno_ok resp w w' u : check_pvno (N:=N) resp w = (w', Ok u) -> w' = w.
Proof. unfold check_pvno. case_goal; [done|]. by intros [= <- _]. Qed.

(** The messages of a transaction. *)
Lemma poll_message_ok h last id w w' m :
  poll_message c h last id w = (w', Ok m) ->
  history w' = history w /\ Body m = Some (NewPollReqBody [id]) /\
  TransactionID (Header m) = TransactionID h.
Proof.
  intros H. unfold poll_message in H. st_inv. apply new_message_ok in E as (E & r1 & r2 & t & ->). done.
Qed.
Lemma conf_message_ok conf status w w' m :
  conf_message c conf status w = (w', Ok m) ->
  history w' = history w /\ Body m = Some (NewCertConfBody [status]) /\
  TransactionID (Header m) = TransactionID (Header (conf_req conf)) /\
  RecipNonce (Header m) = SenderNonce (Header (conf_resp conf)).
Proof.
  intros H. unfold conf_message in H. st_inv. apply new_message_ok in E as (E & r1 & r2 & t & ->). done.
Qed.

(** ** Exchanges *)

Lemma nonce_matches_ok m resp alts :
  nonce_matches m resp alts = true ->
  RecipNonce (Header resp) = SenderNonce (Header m) \/ exists alt, head alts = Some alt /\ RecipNonce (Header resp) = alt.
Proof.
  unfold nonce_matches. intros [H|H]%orb_true_iff; [left; by apply bytes_eqb_eq|].
  destruct alts as [|alt alts]; [done|]. apply bytes_eqb_eq in H. eauto.
Qed.

Lemma answered_run op op' creds roots known alts msg m der raw resp vr w w1 w2 :
  snd (MarshalBinary msg) = Ok der -> keeps msg m ->
  sendHTTP c der w = (w1, Ok raw) -> parse raw op = Ok resp ->
  verified_response c op' m resp creds roots known alts w1 = (w2, Ok vr) ->
  exists l, history w2 = history w ++ l /\ length l = 1%nat /\ answered c l creds roots msg resp vr /\
    (answers_nonce resp msg \/ exists alt, head alts = Some alt /\ RecipNonce (Header (message resp)) = alt).
Proof.
  intros Hm [Ht [Hn _]]%keeps_header_core Hs Hp Hv.
  apply sendHTTP_ok in Hs as (h & Hs & Ha). apply parse_ok in Hp as [Hp Hc].
  apply verified_response_ok in Hv as (-> & t & Hv). apply verifyResponse_ok in Hv as (Hi & Hr & Hv).
  exists [Exchanged der (Ok h)]. split; [done|]. split; [done|]. apply nonce_matches_ok in Hr. rewrite Hn in Hr.
  split; [|exact Hr]. exists der, t, known. rewrite Hi, Ht. split_and!; [done| |done|done].
  exists h, raw. split; [by apply list_elem_of_here | done].
Qed.

Lemma exchangeFirst_ok msg creds w w' m resp vr :
  exchangeFirst c msg creds w = (w', Ok (m, resp, vr)) ->
  keeps msg m /\ exists l, history w' = history w ++ l /\
    answered c l creds (trustedCAs c) msg resp vr /\ answers_nonce resp msg.
Proof.
  intros H. unfold exchangeFirst in H. st_inv. injection H0 as <- <- <-.
  apply map_err_ok, marshal_ok in E as (-> & Hk & Hm). apply check_pvno_ok in E3 as ->.
  split; [done|]. destruct (answered_run _ _ _ _ _ _ _ _ _ _ _ _ _ _ _ Hm Hk E0 E1 E2)
    as (lx & Hh & _ & Ha & [Hn|(alt & Hd & _)]); [eauto | discriminate Hd].
Qed.

Lemma newRequest_ok b creds o w w' m :
  newRequest c b (Some creds) o w = (w', Ok m) ->
  history w' = history w /\ protected_by creds m /\ Body m = Some b.
Proof.
  intros H. unfold newRequest in H. st_inv.
  apply new_message_ok in E as (E & r1 & r2 & t & ->). apply map_err_ok, protect_ok in H as (H & Hk & Hp).
  apply keeps_header_core in Hk as (_ & _ & _ & _ & _ & Hb).
  split_and!; [congruence | done | done].
Qed.

Lemma poll_once_ok first last creds id known w w' resp vr s :
  poll_once c (Header first) last creds id known w = (w', Ok (resp, vr, s)) ->
  exists l m b, history w' = history w ++ l /\ of_transaction creds first (NewPollReqBody [id]) m /\
    answered c l creds (trustedCAs c) m resp vr /\ Body (message resp) = Some b /\
    (Type_ b <> BodyTypePollRep -> answers_nonce resp m \/ answers_nonce resp first).
Proof.
  intros H. unfold poll_once in H. st_inv. injection H0 as <- <- ->.
  apply poll_message_ok in E as (E & Eb & Et). apply map_err_ok, protect_ok in E0 as (E0 & Hk & Hp).
  apply map_err_ok, marshal_ok in E1 as (-> & Hk' & Hm). apply body_of_ok in E4 as [-> Hb].
  apply check_pvno_ok in E6 as ->.
  destruct (answered_run _ _ _ _ _ _ _ _ _ _ _ _ _ _ _ Hm Hk' E2 E3 E5) as (lx & Hh & _ & Ha & Hn).
  apply keeps_header_core in Hk as (Ht & _ & _ & _ & _ & Hb').
  eexists lx, _, _. split; [|split; [|split; [exact Ha|split; [exact Hb|]]]].
  - by rewrite Hh, E0, E.
  - split_and!; [exact Hp | congruence | congruence].
  - intros Hne. destruct Hn as [Hn|(alt & Hd & Hn)]; [by left|]. right.
    match type of Hb with _ = Some ?b => destruct (Z.eqb_spec (Type_ b) BodyTypePollRep) end;
      [done|]. injection Hd as <-. exact Hn.
Qed.

Lemma answered_later l l' creds roots m resp vr :
  answered c l creds roots m resp vr -> l ⊆ l' -> answered c l' creds roots m resp vr.
Proof.
  intros (der & t & known & Hm & (h & raw & Hl & Hx) & Hr) Hs. exists der, t, known.
  split; [done|]. split; [|exact Hr]. exists h, raw. split; [by apply Hs | done].
Qed.

Lemma poll_from_ok fuel : forall i d first last creds id known w w' resp vr,
  poll_from c fuel i d (Header first) last creds id known w = (w', Ok (Some (resp, vr))) ->
  exists l m b, history w' = history w ++ l /\ of_transaction creds first (NewPollReqBody [id]) m /\
    answered c l creds (trustedCAs c) m resp vr /\ Body (message resp) = Some b /\
    Type_ b <> BodyTypeError /\ (answers_nonce resp m \/ answers_nonce resp first).
Proof.
  induction fuel as [|fuel IH]; intros i d first last creds id known w w' resp vr H; cbn [poll_from] in H;
    [discriminate H|].
  apply st_bind_ok in H as (w1 & waited & E & H).
  assert (Hw : exists l, history w1 = history w ++ l).
  { destruct (emits_wait c (fun _ => True) d 0 I w) as (l & Hl & _).
    destruct (0 <? i); [rewrite E in Hl; eauto|]. injection E as <- _. exists []. by rewrite app_nil_r. }
  destruct Hw as [l0 Hw]. destruct waited as [u|e]; [|discriminate H].
  apply st_bind_ok in H as (w2 & [[resp1 vr1] s] & E1 & H).
  apply poll_once_ok in E1 as (l & m & b & Hh & Hm & Ha & Hb & Hn).
  apply st_bind_ok in H as (w3 & b' & E2 & H). apply body_of_ok in E2 as [-> Hb'].
  rewrite Hb in Hb'. injection Hb' as <-.
  destruct (Z.eqb_spec (Type_ b) BodyTypeError) as [|He].
  { destruct (http_wrapError _ _); discriminate H. }
  destruct (Z.eqb_spec (Type_ b) BodyTypePollRep) as [|Hp].
  - st_inv. apply IH in H as (l2 & m2 & b2 & Hh2 & Hm2 & Ha2 & Hb2 & He2 & Hn2).
    exists (l0 ++ l ++ l2), m2, b2. split; [by rewrite Hh2, Hh, Hw, !app_assoc|].
    split_and!; try done. eapply answered_later; [exact Ha2|]. set_solver.
  - injection H as <- <- <-. exists (l0 ++ l), m, b. split; [by rewrite Hh, Hw, app_assoc|].
    split_and!; try done; [|auto]. eapply answered_later; [exact Ha|]. set_solver.
Qed.

(** ** Transactions *)

Lemma settles_later l l' creds req resp vr :
  settles c l creds req resp vr -> l ⊆ l' -> settles c l' creds req resp vr.
Proof.
  intros [[Ha Hn]|(m & id & Hm & Ha & Hn)] Hl; [left | right; exists m, id];
    eauto using answered_later.
Qed.

Lemma poll_settles req req' last creds id known w w' resp vr :
  keeps req req' -> poll c (Header req') last creds id known w = (w', Ok (Some (resp, vr))) ->
  exists l b, history w' = history w ++ l /\ settles c l creds req resp vr /\
    Body (message resp) = Some b /\ Type_ b <> BodyTypeError.
Proof.
  intros Hk H. apply poll_from_ok in H as (l & m & b & Hh & Hm & Ha & Hb & He & Hn).
  apply keeps_header_core in Hk as (Ht & Hsn & _).
  exists l, b. split_and!; try done. right. exists m, id.
  unfold of_transaction, answers_nonce in *. rewrite <- Ht, <- Hsn. done.
Qed.

Lemma extract_ok t (r : cmpHTTPResponse) w w' x :
  st_bind (body_of (N:=N) (message r))
    (fun b => match extractCertRespAndRep b t with
              | Ok x => st_ret x
              | Err err => st_fail (wrap_status (cmp_statusCode r) err)
              end) w = (w', Ok x) ->
  w' = w /\ exists b, Body (message r) = Some b /\ extractCertRespAndRep b t = Ok x.
Proof.
  intros H. apply st_bind_ok in H as (w1 & b & E & H). apply body_of_ok in E as [-> E].
  destruct (extractCertRespAndRep b t) eqn:Ex; [|discriminate H]. injection H as <- <-. eauto.
Qed.

Lemma settled_ok l0 req req' resp0 vr0 creds t ids w w' resp vr known certResp rep :
  keeps req req' -> answered c l0 creds (trustedCAs c) req resp0 vr0 -> answers_nonce resp0 req ->
  settled_response c req' resp0 vr0 creds t ids w = (w', Ok (resp, vr, known, certResp, rep)) ->
  exists l b, history w' = history w ++ l /\ settles c (l0 ++ l) creds req resp vr /\
    Body (message resp) = Some b /\ extractCertRespAndRep b t = Ok (certResp, rep).
Proof.
  intros Hk Ha Hn H. unfold settled_response in H.
  apply st_bind_ok in H as (w1 & [cr1 rep1] & E & H). apply extract_ok in E as (-> & b & Hb & Hx).
  destruct (Status (cr_Status cr1) =? StatusWaiting).
  - destruct (checkCertReqID cr1 ids); [discriminate H|].
    apply st_bind_ok in H as (w2 & polled & Ep & H). destruct polled as [[resp1 vr1]|]; [|discriminate H].
    apply st_bind_ok in H as (w3 & [cr2 rep2] & Ex & H). apply extract_ok in Ex as (-> & b2 & Hb2 & Hx2).
    injection H as <- <- <- <- <- <-.
    apply (poll_settles req) in Ep as (l & b' & Hh & Hs & Hb' & _); [|done].
    exists l, b2. split_and!; try done. eapply settles_later; [exact Hs | set_solver].
  - injection H as <- <- <- <- <- <-. exists [], b. rewrite !app_nil_r.
    split_and!; try done. by left.
Qed.

Lemma sendCertConf_ok conf status req w w' u :
  TransactionID (Header (conf_req conf)) = TransactionID (Header req) ->
  sendCertConf c conf status w = (w', Ok u) ->
  exists l, history w' = history w ++ l /\ length l = 1%nat /\
    forall resp, message resp = conf_resp conf ->
      confirmed c l (conf_creds conf) (conf_trustPool conf) req resp status.
Proof.
  intros Hreq H. unfold sendCertConf in H.
  apply st_bind_ok in H as (w1 & m0 & E0 & H). apply st_bind_ok in H as (w2 & m1 & E1 & H).
  apply st_bind_ok in H as (w3 & [m2 der] & E2 & H). apply st_bind_ok in H as (w4 & raw & E3 & H).
  unfold confirmation_answer in H. apply st_bind_ok in H as (w5 & ack & E4 & H). apply st_bind_ok in H as (w6 & vr & E5 & H).
  apply st_bind_ok in H as (w7 & b & E6 & H).
  apply conf_message_ok in E0 as (E0 & Eb & Et & Er). apply map_err_ok, protect_ok in E1 as (E1 & Hk & Hp).
  apply map_err_ok, marshal_ok in E2 as (-> & Hk' & Hm). apply map_err_ok in E3. apply body_of_ok in E6 as [-> Hb].
  injection E4 as <- E4.
  destruct (answered_run _ _ _ _ _ _ _ _ _ _ _ _ _ _ _ Hm Hk' E3 E4 E5) as (l & Hh & Hl & Ha & Hn).
  assert (Hw : w' = w6 /\ (Type_ b = BodyTypePKIConf \/ hollow_error ack b)).
  { unfold hollow_error, http_wrapError in *.
    destruct (Z.eqb_spec (Type_ b) BodyTypeError) as [He|He].
    - destruct (Z.eqb_spec (cmp_statusCode ack) StatusOK); [|discriminate H].
      destruct (parseErrorResponse b); [discriminate H|]. injection H as <- <-. auto.
    - destruct (Z.eqb_spec (Type_ b) BodyTypePKIConf); [|discriminate H]. injection H as <- <-. auto. }
  destruct Hw as [-> Hw]. apply keeps_header_core in Hk as (Hkt & _ & Hkr & _ & _ & Hkb).
  exists l. split; [by rewrite Hh, E1, E0|]. split; [done|]. intros resp Hresp.
  destruct Hn as [Hn|(alt & Hd & _)]; [|discriminate Hd].
  exists m1, ack, vr, b. rewrite Hresp. unfold of_transaction.
  split_and!; try done; congruence.
Qed.

Lemma checkCertReqID_ok r ids : checkCertReqID r ids = None -> cr_CertReqID r ∈ ids.
Proof. unfold checkCertReqID. by case_bool_decide. Qed.

Lemma checkIssuedKey_ok crt k :
  checkIssuedKey crt (Some k) = None ->
  exists issued, PublicKey_Equal issued (Some k) = true /\
    (cert_PublicKey crt = Some issued \/
     cert_PublicKey crt = None /\ ParsePKIXPublicKey (RawSubjectPublicKeyInfo crt) = Some issued).
Proof.
  unfold checkIssuedKey. intros H. set (issued := match cert_PublicKey crt with Some _ => _ | None => _ end) in H.
  destruct issued as [i|] eqn:Ei; [|discriminate H]. exists i. split.
  - destruct (has_Equal i); [|discriminate H]. by destruct (PublicKey_Equal i (Some k)).
  - unfold issued in Ei. destruct (cert_PublicKey crt); auto.
Qed.

Lemma reject_never_ok {A} conf crt id text e w w' (a : A) :
  rejectCertificate c conf crt id text e w <> (w', Ok a).
Proof.
  unfold rejectCertificate. destruct (NewCertStatus crt id); [|discriminate].
  intros H. apply st_bind_ok in H as (w1 & r & _ & H). by destruct r.
Qed.

Lemma finish_ok conf st certResp ids crt pubs extra key req w w' o :
  TransactionID (Header (conf_req conf)) = TransactionID (Header req) ->
  finish_enrollment c conf st certResp ids crt pubs extra key w = (w', Ok o) ->
  o = Some (mkEnrollResult crt pubs extra) /\
  acceptable ids (conf_trustPool conf) (extra ++ pubs) key certResp crt /\
  exists l status, history w' = history w ++ l /\ length l = 1%nat /\ NewCertStatus crt (cr_CertReqID certResp) = Ok status /\
    forall resp, message resp = conf_resp conf ->
      confirmed c l (conf_creds conf) (conf_trustPool conf) req resp status.
Proof.
  intros Hreq H. unfold finish_enrollment in H.
  destruct (checkCertReqID certResp ids) eqn:Ei; [by apply reject_never_ok in H|].
  apply checkCertReqID_ok in Ei. apply st_bind_ok in H as (w1 & trust & Et & H).
  destruct trust as [e|]; [by apply reject_never_ok in H|].
  assert (Ht : w1 = w /\ forall roots, conf_trustPool conf = Some roots ->
            exists t, verifyIssuedCertificate t crt roots (extra ++ pubs) = None).
  { destruct (conf_trustPool conf) as [roots|]; [|by injection Et as <-].
    injection Et as <- Et. split; [done|]. intros r [= <-]. eauto. }
  destruct Ht as [-> Ht]. destruct (checkIssuedKey crt key) eqn:Ek; [by apply reject_never_ok in H|].
  destruct (NewCertStatus crt (cr_CertReqID certResp)) as [status|] eqn:Es; [|discriminate H].
  apply st_bind_ok in H as (w2 & u & Ec & H). injection H as <- <-.
  destruct (sendCertConf_ok _ _ _ _ _ _ Hreq Ec) as (l & Hh & Hl & Hc). split; [done|]. split.
  - split_and!; [done|done|]. intros k ->. by apply checkIssuedKey_ok.
  - exists l, status. done.
Qed.

(** The whole of an enrollment. *)
Definition enrolled (l1 l2 : list net_event) (t : BodyType) (creds : Credentials) (b : PKIBody)
    (key : option PublicKey) (res : EnrollResult) : Prop :=
  exists ids req resp vr body certResp rep status,
    snd (answeringCertReqIDs b) = Ok ids /\ protected_by creds req /\
    Body req = Some (fst (answeringCertReqIDs b)) /\
    settles c l1 creds req resp vr /\ Body (message resp) = Some body /\
    extractCertRespAndRep body t = Ok (certResp, rep) /\ granted certResp /\
    extractCertificate certResp = Ok (er_Certificate res) /\
    er_CAPubs res = parseCMPCertificates (CAPubs rep) /\
    er_ExtraCertificates res = parseCMPCertificates (ExtraCerts (message resp)) /\
    acceptable ids (enrollmentTrustPool c vr (er_CAPubs res))
      (er_ExtraCertificates res ++ er_CAPubs res) key certResp (er_Certificate res) /\
    NewCertStatus (er_Certificate res) (cr_CertReqID certResp) = Ok status /\
    confirmed c l2 creds (enrollmentTrustPool c vr (er_CAPubs res)) req resp status.

Lemma enroll_ok b t creds o key w w' res :
  enroll c b t creds o key w = (w', Ok (Some res)) ->
  exists cr l1 l2, creds = Some cr /\ history w' = history w ++ l1 ++ l2 /\
    length l2 = 1%nat /\ enrolled l1 l2 t cr b key res.
Proof.
  intros H. unfold enroll in H. destruct (answeringCertReqIDs b) as [b' ids] eqn:Eb.
  apply st_bind_ok in H as (w0 & ids' & Ei & H). injection Ei as <- ->.
  apply st_bind_ok in H as (w1 & req & Er & H). destruct creds as [cr|]; [|discriminate H].
  apply newRequest_ok in Er as (Hh1 & Hp & Hb).
  apply st_bind_ok in H as (w2 & [[req' resp0] vr0] & Ex & H).
  apply exchangeFirst_ok in Ex as (Hk & l0 & Hh2 & Ha & Hn).
  apply st_bind_ok in H as (w3 & b0 & Eb0 & H). apply body_of_ok in Eb0 as [-> Hb0].
  destruct (Type_ b0 =? BodyTypeError).
  { destruct (http_wrapError _ _); discriminate H. }
  destruct (negb (Type_ b0 =? t)); [discriminate H|].
  apply st_bind_ok in H as (w4 & [[[[resp vr] known] certResp] rep] & Es & H).
  destruct (settled_ok _ _ _ _ _ _ _ _ _ _ _ _ _ _ _ Hk Ha Hn Es) as (l & body & Hh3 & Hs & Hbody & Hx).
  destruct (_ && _) eqn:Eg; [destruct (http_wrapError _ _); discriminate H|].
  destruct (extractCertificate certResp) as [crt|] eqn:Ec; [|discriminate H].
  apply (finish_ok _ _ _ _ _ _ _ _ req) in H as (Hr & Hacc & l2 & status & Hh4 & Hl2 & Hst & Hc);
    [|by apply keeps_header_core in Hk as (? & _)].
  injection Hr as ->. exists cr, (l0 ++ l), l2. split; [done|].
  split; [by rewrite Hh4, Hh3, Hh2, Hh1, !app_assoc|]. split; [done|].
  exists ids', req, resp, vr, body, certResp, rep, status. rewrite Eb. cbn -[acceptable confirmed] in *.
  split_and!; try done; [|by apply Hc].
  unfold granted. apply andb_false_iff in Eg.
  rewrite !negb_false_iff, !Z.eqb_eq in Eg. exact Eg.
Qed.

(** [m] asks for [key], whose possession it proves. *)
Definition requests_key (key : Signer) (m : CertReqMsg) : Prop :=
  exists random req, GeneratePOP random key (mkCertReqMsg req None) = Ok m /\
    cr_req_CertReqID req = 0 /\
    MarshalPKIXPublicKey (Some (Signer_Public key)) = Some (tmpl_PublicKey (cr_CertTemplate req)).

Lemma sendCRMF_ok key creds t opts w w' res :
  sendCRMF c key creds t opts w = (w', Ok (Some res)) ->
  exists cr (m : CertReqMsg) b l1 l2, creds = Some cr /\ requests_key key m /\ crmf_request_body t [m] = Ok b /\
    history w' = history w ++ l1 ++ l2 /\ length l2 = 1%nat /\
    enrolled l1 l2 t cr b (Some (Signer_Public key)) res.
Proof.
  intros H. unfold sendCRMF in H.
  apply st_bind_ok in H as (w1 & tmpl & Et & H). injection Et as <- Et.
  apply st_bind_ok in H as (w2 & controls & Ec & H). injection Ec as <- _.
  apply st_bind_ok in H as (w3 & random & Er & H). apply net_draw_ok in Er as [Hh _].
  apply st_bind_ok in H as (w4 & m & Em & H). apply map_err_ok in Em. injection Em as <- Em.
  apply st_bind_ok in H as (w5 & b & Eb & H). injection Eb as <- Eb.
  apply enroll_ok in H as (cr & l1 & l2 & Hc & Hh' & Hl & He).
  exists cr, m, b, l1, l2. rewrite Hh', Hh. split_and!; try done.
  exists random, (mkCertRequest 0 tmpl controls []). split; [done|]. split; [done|].
  unfold crmf_template in Et. by split_res.
Qed.

Lemma SendP10CR_ok der creds opts w w' res :
  SendP10CR c der creds opts w = (w', Ok (Some res)) ->
  exists cr csr k l1 l2, creds = Some cr /\ x509_ParseCertificateRequest der = Some csr /\
    ParsePKIXPublicKey (csr_RawSubjectPublicKeyInfo csr) = Some k /\
    history w' = history w ++ l1 ++ l2 /\ length l2 = 1%nat /\
    enrolled l1 l2 BodyTypeCP cr (NewP10CRBody csr) (Some k) res.
Proof.
  intros H. unfold SendP10CR in H.
  apply st_bind_ok in H as (w1 & csr & Ec & H). injection Ec as <- Ec. apply of_option_ok in Ec.
  apply st_bind_ok in H as (w2 & k & Ek & H). injection Ek as <- Ek. apply of_option_ok in Ek.
  apply enroll_ok in H as (cr & l1 & l2 & Hc & Hh' & Hl & He). by exists cr, csr, k, l1, l2.
Qed.

(** The CA answered with one status, an accepting one. *)
Definition revocation_accepted (b : PKIBody) : Prop :=
  Type_ b = BodyTypeRP /\ exists rep si, snd (RP b) = Ok rep /\ rev_Status rep = [si] /\
    (Status si = StatusAccepted \/ Status si = StatusGrantedWithMods).

Lemma AsError_none si : AsError si = None -> Status si = StatusAccepted \/ Status si = StatusGrantedWithMods.
Proof.
  unfold AsError. intros H. destruct (_ || _) eqn:E; [|destruct (Status si =? StatusWaiting); discriminate H].
  apply orb_true_iff in E as [E|E]; apply Z.eqb_eq in E; auto.
Qed.

Lemma revocation_status_ok resp w w' u :
  revocation_status (N:=N) resp w = (w', Ok u) ->
  w' = w /\ exists b, Body (message resp) = Some b /\ revocation_accepted b.
Proof.
  intros H. unfold revocation_status in H. apply st_bind_ok in H as (w1 & b & E & H).
  apply body_of_ok in E as [-> Hb]. destruct (Z.eqb_spec (Type_ b) BodyTypeRP) as [Ht|]; [|discriminate H].
  cbn [negb] in H. destruct (snd (RP b)) as [rep|] eqn:Er; [|discriminate H].
  destruct (rev_Status rep) as [|si [|]] eqn:Es; try discriminate H.
  destruct (AsError si) eqn:Ea; [discriminate H|]. injection H as <- _.
  split; [done|]. exists b. split; [done|]. split; [done|]. exists rep, si. auto using AsError_none.
Qed.

Lemma SendRR_ok crt reason creds opts w w' u :
  SendRR c crt reason creds opts w = (w', Ok u) ->
  exists cr details req resp vr b l, creds = Some cr /\ NewRevDetails crt reason = Ok details /\
    history w' = history w ++ l /\ protected_by cr req /\ Body req = Some (NewRRBody [details]) /\
    settles c l cr req resp vr /\ Body (message resp) = Some b /\
    (revocation_accepted b \/ hollow_error resp b).
Proof.
  intros H. unfold SendRR in H. apply st_bind_ok in H as (w0 & details & Ed & H).
  apply map_err_ok in Ed. injection Ed as <- Ed.
  apply st_bind_ok in H as (w1 & req & Er & H). destruct creds as [cr|]; [|discriminate H].
  apply newRequest_ok in Er as (Hh1 & Hp & Hb).
  apply st_bind_ok in H as (w2 & [[req' resp] vr] & Ex & H).
  apply exchangeFirst_ok in Ex as (Hk & l0 & Hh2 & Ha & Hn).
  apply st_bind_ok in H as (w3 & b0 & Eb0 & H). apply body_of_ok in Eb0 as [-> Hb0].
  exists cr, details, req. destruct (Z.eqb_spec (Type_ b0) BodyTypeError) as [He|He].
  - destruct (parseErrorResponse b0) as [err|] eqn:Ep.
    + destruct (is_ErrWaiting err); [|discriminate H].
      apply st_bind_ok in H as (w4 & polled & Epoll & H). destruct polled as [[resp1 vr1]|]; [|discriminate H].
      apply revocation_status_ok in H as (-> & b1 & Hb1 & Hr).
      apply (poll_settles req) in Epoll as (l & b2 & Hh3 & Hs & Hb2 & _); [|done].
      exists resp1, vr1, b1, (l0 ++ l). split_and!; try done; [|eapply settles_later; [exact Hs|set_solver]|by left].
      by rewrite Hh3, Hh2, Hh1, app_assoc.
    + unfold http_wrapError in H. destruct (Z.eqb_spec (cmp_statusCode resp) StatusOK); [|discriminate H].
      injection H as <- _. exists resp, vr, b0, l0. rewrite Hh2, Hh1. unfold hollow_error.
      split_and!; try done; [by left | by right].
  - apply revocation_status_ok in H as (-> & b1 & Hb1 & Hr).
    exists resp, vr, b1, l0. rewrite Hh2, Hh1. split_and!; try done; by left.
Qed.

(** ** Refusals *)

(** The message [m] cannot be protected with the next random octets, or not be encoded. *)
Definition unencodable (creds : Credentials) (m : PKIMessage) (w : Net N) : Prop :=
  let protected := Protect (protect_random creds (net_draws w)) creds m in
  is_ok (snd protected) = false \/ is_ok (snd (MarshalBinary (fst protected))) = false.

(** The certConf with [status] that the client makes cannot be sent. *)
Definition unsendable (conf : certConfirmation) (status : CertStatus) (w : Net N) : Prop :=
  http_NewRequest (endpoint c) <> None \/
  exists w1 m, conf_message c conf status w = (w1, Ok m) /\ unencodable (conf_creds conf) m w1.

(** The certConf with [status] went out, as the only message. *)
Definition certConf_sent (conf : certConfirmation) (status : CertStatus) (w w' : Net N) : Prop :=
  exists m der a, of_transaction (conf_creds conf) (conf_req conf) (NewCertConfBody [status]) m /\
    RecipNonce (Header m) = SenderNonce (Header (conf_resp conf)) /\
    snd (MarshalBinary m) = Ok der /\ history w' = history w ++ [Exchanged der a].

Lemma wrap_status_panic st e : e <> GoPanic -> wrap_status st e <> GoPanic.
Proof. unfold wrap_status. by destruct (st =? StatusOK). Qed.

Lemma map_err_panic {S A} f (x : ST S A) s :
  snd (x s) <> Err GoPanic -> (forall e, f e <> GoPanic) -> snd (map_err f x s) <> Err GoPanic.
Proof.
  intros H Hf. unfold map_err. destruct (x s) as [s1 [a|e]]; [done|].
  destruct e; try done; intros [= He]; by apply Hf in He.
Qed.

Lemma map_err_err {S A} f (x : ST S A) s s' e :
  map_err f x s = (s', Err e) -> exists e', x s = (s', Err e') /\ (e = f e' \/ e = GoPanic /\ e' = GoPanic).
Proof.
  unfold map_err. destruct (x s) as [s1 [a|e']]; [discriminate|].
  destruct e'; intros [= <- <-]; eauto.
Qed.

Lemma sendHTTP_panic der w : snd (sendHTTP c der w) <> Err GoPanic.
Proof.
  unfold sendHTTP. destruct (http_NewRequest _); [discriminate|]. unfold st_bind, http_Do.
  destruct w as [n i l]. destruct (Do (httpClient c) der n) as [n' [h|e]]; [|discriminate].
  unfold st_lift, accept_response. cbn [snd]. repeat case_goal; discriminate.
Qed.

Lemma parse_body raw op resp : parse raw op = Ok resp -> Body (message resp) <> None.
Proof.
  intros [H _]%parse_ok. unfold ParsePKIMessage in H. split_res.
  repeat (destruct (negb (Empty _)); [discriminate H|]). by apply Ok_inj in H as <-.
Qed.
Lemma parse_panic raw op : parse raw op <> Err GoPanic.
Proof.
  unfold parse. destruct (ParsePKIMessage _); [done|]. intros [= H]. by apply wrap_status_panic in H.
Qed.
Lemma withUnverified_panic m e : e <> GoPanic -> withUnverifiedStatus m e <> GoPanic.
Proof. unfold withUnverifiedStatus. intros H. repeat case_goal; done. Qed.
Lemma parseErrorResponse_panic b e : parseErrorResponse b = Some e -> e <> GoPanic.
Proof.
  unfold parseErrorResponse, AsError. destruct (snd (Error_get b)); [|by intros [= <-]].
  repeat case_goal; try done; by intros [= <-].
Qed.

Lemma confirmation_answer_panic conf m raw w w' r :
  confirmation_answer c conf m raw w = (w', r) -> w' = w /\ r <> Err GoPanic.
Proof.
  intros H. unfold confirmation_answer in H.
  apply st_bind_cases in H as [(w1 & ack & E & H)|(e & E & ->)].
  2: { injection E as <- E. split; [done|]. intros [= ->]. by apply parse_panic in E. }
  injection E as <- E. apply st_bind_cases in H as [(w2 & vr & Ev & H)|(e & Ev & ->)].
  2: { unfold verified_response in Ev. apply st_bind_cases in Ev as [(w2 & t & Et & Ev)|(? & Et & _)];
         [|discriminate Et]. injection Et as <- <-.
       destruct (verifyResponse _ _ _ _ _ _ _ _); [discriminate Ev|]. injection Ev as <- <-. split; [done|].
       intros [= He]. by apply wrap_status_panic in He; [|apply withUnverified_panic]. }
  apply verified_response_ok in Ev as [-> _].
  apply st_bind_cases in H as [(w2 & b & Eb & H)|(e & Eb & ->)].
  2: { apply parse_body in E. unfold body_of in Eb. by destruct (Body (message ack)). }
  apply body_of_ok in Eb as [-> _]. destruct (Type_ b =? BodyTypeError).
  - unfold http_wrapError in H. destruct (cmp_statusCode ack =? StatusOK); [|by injection H as <- <-].
    destruct (parseErrorResponse b) as [e|] eqn:Ee; injection H as <- <-; (split; [done|]); [|done].
    intros [= ->]. by apply parseErrorResponse_panic in Ee.
  - destruct (negb _); injection H as <- <-; (split; [done|]); [|done].
    intros [= He]. by apply wrap_status_panic in He.
Qed.

Lemma sendHTTP_run der w w' r :
  http_NewRequest (endpoint c) = None -> sendHTTP c der w = (w', r) ->
  exists a, history w' = history w ++ [Exchanged der a].
Proof.
  intros En Es. unfold sendHTTP in Es. rewrite En in Es. destruct w as [n i l]. unfold st_bind, http_Do in Es.
  destruct (Do (httpClient c) der n) as [n' a]. exists a. by destruct a; injection Es as <- _.
Qed.

(** Protecting and encoding a message either works or does not touch the network. *)
Lemma protect_marshal creds m0 p1 p2 w w' r k :
  (let! m := map_err (op_wrap p1) (protect creds m0) in
   let! (m, der) := map_err (op_wrap p2) (marshal m) in k m der) w = (w', r) ->
  (exists w1 m1 m2 der, history w1 = history w /\ protected_by creds m1 /\ keeps m0 m1 /\
     snd (MarshalBinary m1) = Ok der /\ k m2 der w1 = (w', r)) \/
  (history w' = history w /\ (exists e : error, r = @Err error unit e) /\ unencodable creds m0 w).
Proof.
  intros H. unfold unencodable. apply st_bind_cases in H as [(w1 & m1 & E1 & H)|(e & E1 & ->)].
  2: { right. apply map_err_err in E1 as (e' & E1 & _). apply protect_run in E1 as [E1 Hp].
       split_and!; [done|eauto|]. left. by destruct (Protect _ creds m0) as [m1 [u|e1]]. }
  apply map_err_ok, protect_run in E1 as [E1 Hp]. set (random := protect_random _ _) in *.
  pose proof (Protect_keeps random creds m0) as Hk.
  destruct (Protect random creds m0) as [m1' [[]|]] eqn:Ep; [|discriminate Hp]. injection Hp as ->.
  apply st_bind_cases in H as [(w2 & [m2 der] & E2 & H)|(e & E2 & ->)].
  - left. apply map_err_ok, marshal_ok in E2 as (-> & _ & Hm).
    exists w1, m1', m2, der. split_and!; try done. by exists random, m0.
  - right. apply map_err_err in E2 as (e' & E2 & _). unfold marshal in E2.
    destruct (MarshalBinary m1') as [m2 [der|e1]] eqn:Em; [discriminate E2|]. injection E2 as <- _.
    split_and!; [done|eauto|]. right. cbn [fst]. by rewrite Em.
Qed.

(** Once the message was sent, [sendCertConf] does not panic. *)
Lemma sendCertConf_sent conf status w w' r :
  sendCertConf c conf status w = (w', r) ->
  (certConf_sent conf status w w' /\ r <> Err GoPanic) \/
  (history w' = history w /\ (exists e, r = Err e) /\ unsendable conf status w).
Proof.
  intros H. unfold sendCertConf in H.
  apply st_bind_cases in H as [(w1 & m0 & Em & H)|(e & E0 & _)]; [|by destruct w].
  pose proof Em as (E0 & Eb & Et & Er)%conf_message_ok.
  apply protect_marshal in H
    as [(w2 & m1 & m2 & der & E1 & Hp & Hk & Hm & H)|(Hh & Hr & Hu)].
  2: { right. rewrite Hh, E0. split_and!; [done..|]. right. by exists w1, m0. }
  apply keeps_header_core in Hk as (Hkt & _ & Hkr & _ & _ & Hkb).
  destruct (http_NewRequest (endpoint c)) as [e|] eqn:En.
  { right. unfold st_bind, map_err, sendHTTP in H. rewrite En in H. injection H as <- <-.
    rewrite E1, E0. split_and!; [done|eauto|]. left. by rewrite En. }
  left. destruct (sendHTTP c der w2) as [w4 r4] eqn:Es. pose proof (sendHTTP_panic der w2) as Hpanic.
  rewrite Es in Hpanic. cbn [snd] in Hpanic. destruct (sendHTTP_run _ _ _ _ En Es) as [a Hs].
  assert (Hsent : certConf_sent conf status w w4).
  { exists m1, der, a. unfold of_transaction. split_and!; first [done | congruence | by rewrite Hs, E1, E0]. }
  apply st_bind_cases in H as [(w5 & raw & E3 & H)|(e & E3 & ->)].
  - apply map_err_ok in E3. rewrite Es in E3. injection E3 as <- ->.
    apply confirmation_answer_panic in H as [-> Hn]. done.
  - apply map_err_err in E3 as (e' & E3 & He). rewrite Es in E3. injection E3 as <- ->.
    split; [done|]. intros [= ->]. by destruct He as [He|[_ ->]].
Qed.

(** A refusal ends with its reason, and leaves the CA told. *)
Lemma rejectCertificate_run {A} conf crt id text reason status w w' (r : result A) :
  NewCertStatus crt id = Ok status -> rejectCertificate c conf crt id text reason w = (w', r) ->
  exists e, r = Err e /\
    ((certConf_sent conf (refusing_status status text) w w' /\ forall info, HasFailure e info = HasFailure reason info) \/
     (history w' = history w /\ unsendable conf (refusing_status status text) w)).
Proof.
  intros Hs H. unfold rejectCertificate in H. rewrite Hs in H. unfold st_bind, call in H.
  destruct (sendCertConf c conf (refusing_status status text) w) as [w1 r1] eqn:E.
  apply sendCertConf_sent in E as [[E Hn]|(E & [e ->] & Hu)].
  - destruct r1 as [u|e]; [injection H as <- <-; eauto|].
    destruct e; first [done | injection H as <- <-; eexists; split; [done|]; left; done].
  - destruct e; injection H as <- <-; eauto 6.
Qed.

End Steps.
