(* ===== verification/ClientErrors.v ===== *)
(** * The errors of a client

    Where an error of an operation can come from: the package itself, a status the peer
    reported in a response that was verified, or a panic with one of three causes. *)
From S2P Require Import Prelude Failure Errors Asn1 Types StatusInfo Enrollment Crmf X509 CertPath.
From S2P Require Import Totality Message RevocationMsg Monad Algorithms Protect Verify Keeps Orderly Http Client.
From S2P Require Import ClientEnroll ClientFacts ClientRuns.

(** ** Errors and what wraps them *)

Definition own (e : error) : Prop := disorderly e = false.

Lemma own_no_panic e : own e -> e <> GoPanic.
Proof. by intros H ->. Qed.

Section Errors.
Context {CB : Cryptobyte} {L : CryptobyteLaws CB} {GN : GoNames} {GX : GoX509} {GA : GoASN1} {GC : GoCrypto}
  {GP : GoPBMAC1} {GR : GoRandom} {GH : GoHTTP}.
Context {N : Type} (c : Client N) (creds : option Credentials).
Implicit Types (l : list net_event) (w : Net N).

(** The code outside of the repository makes no errors of its types and, where it
    returns one, does not panic. *)
Record outside_errors : Prop := {
  oe_request : forall e, http_NewRequest (endpoint c) = Some e -> own e;
  oe_do : forall der n, completes (snd (Do (httpClient c) der n));
  oe_body : forall der n h e, snd (Do (httpClient c) der n) = Ok h -> resp_BodyErr h = Some e -> own e;
  oe_wait : forall d n, completes (snd (time_After (httpClient c) d n));
  oe_sign : forall key random digest h, completes (Signer_Sign key random digest h);
  oe_verify : forall crt roots inter t, completes (x509_Verify crt roots inter t)
}.

(** A status in the body of a response: of an error message, of the one certificate
    response, of the one revocation status. *)
Inductive carries (b : PKIBody) : PKIStatusInfo -> Prop :=
| carries_error content : snd (Error_get b) = Ok content -> carries b (em_PKIStatusInfo content)
| carries_cert t resp rep :
    extractCertRespAndRep b t = Ok (resp, rep) -> carries b (cr_Status resp)
| carries_revocation rep si : snd (RP b) = Ok rep -> rev_Status rep = [si] -> carries b si.

(** The peer reported the status, in a response to a message of the run that was
    verified with the credentials. *)
Definition reported l (st : PKIStatus * string * PKIFailureInfo) : Prop :=
  exists cr m resp vr roots b si, creds = Some cr /\ answered c l cr roots m resp vr /\
    Body (message resp) = Some b /\ carries b si /\
    AsError si = Some (PKIStatusError (fst (fst st)) (snd (fst st)) (snd st)).

(** A poll was answered with an error message whose status is none. *)
Definition hollow_poll l : Prop :=
  exists cr m id resp vr b, creds = Some cr /\ Body m = Some (NewPollReqBody [id]) /\
    answered c l cr (trustedCAs c) m resp vr /\ Body (message resp) = Some b /\ hollow_error resp b.

(** The error is the client's own, or is the status of the peer with what was wrapped
    around it. *)
Definition blameless l (e : error) : Prop :=
  own e \/ exists st, errors_As as_PKIStatusError e = Some st /\ e <> GoPanic /\ reported l st.

(** The causes of a panic; [P] is the one a request itself may bring. *)
Context (P : Prop).
Definition panics l : Prop := None ∈ cl_extraCerts c \/ hollow_poll l \/ P.

Definition explained l (e : error) : Prop := blameless l e \/ (e = GoPanic /\ panics l).

Lemma blameless_no_panic l e : blameless l e -> e <> GoPanic.
Proof. intros [H|(st & _ & H & _)]; [by apply own_no_panic | done]. Qed.

Lemma reported_later l l' st : reported l st -> l ⊆ l' -> reported l' st.
Proof.
  intros (cr & m & resp & vr & roots & b & si & Hc & Ha & H) Hs.
  exists cr, m, resp, vr, roots, b, si. split; [done|]. split; [by eapply answered_later | done].
Qed.
Lemma explained_later l l' e : explained l e -> l ⊆ l' -> explained l' e.
Proof.
  intros [[H|(st & H1 & H2 & H3)]|[-> [H|[(cr & m & id & resp & vr & b & Hc & Hm & Ha & H)|H]]]] Hs.
  - by left; left.
  - left. right. exists st. split; [done|]. split; [done|]. by eapply reported_later.
  - right. split; [done|]. by left.
  - right. split; [done|]. right. left. exists cr, m, id, resp, vr, b. split; [done|]. split; [done|].
    split; [by eapply answered_later | done].
  - right. split; [done|]. by right; right.
Qed.

(** ** Wrapping *)

Lemma blameless_wrap l e : blameless l e -> forall op, blameless l (op_wrap op e).
Proof. intros [H|(st & H & _ & Hr)] op; [by left|]. right. by exists st. Qed.
Lemma blameless_status l n e : blameless l e -> blameless l (wrap_status n e).
Proof. intros H. unfold wrap_status. case_goal; [done | by apply blameless_wrap]. Qed.
Lemma blameless_http l n err e :
  http_wrapError n err = Some e -> (forall e', err = Some e' -> blameless l e') -> blameless l e.
Proof.
  unfold http_wrapError. case_goal; [by intros -> H; apply H|]. intros [= <-] H.
  destruct err as [e'|]; [|by left]. apply (blameless_wrap l e' (H e' eq_refl)).
Qed.

(** ** Computations *)

(** Every failure of [m] is explained by what happened in [l0] and in the run. *)
Definition blames {A} l0 (m : ST (Net N) A) : Prop :=
  forall w w' e, m w = (w', Err e) -> exists l, history w' = history w ++ l /\ explained (l0 ++ l) e.

Definition adds {A} (m : ST (Net N) A) : Prop := forall w, exists l, history (fst (m w)) = history w ++ l.

Lemma adds_emits {A} n Q (m : ST (Net N) A) : emits c n Q m -> adds m.
Proof. intros H w. destruct (H w) as (l & Hl & _). by exists l. Qed.
Lemma adds_silent {A} (m : ST (Net N) A) : silent m -> adds m.
Proof. intros H w. exists []. rewrite app_nil_r. apply H. Qed.

Lemma blames_bind {A B} l0 (m : ST (Net N) A) (k : A -> ST (Net N) B) :
  adds m -> blames l0 m ->
  (forall a w w1 l1, m w = (w1, Ok a) -> history w1 = history w ++ l1 -> blames (l0 ++ l1) (k a)) ->
  blames l0 (st_bind m k).
Proof.
  intros Ha Hm Hk w w' e H. unfold st_bind in H. specialize (Ha w).
  destruct (m w) as [w1 [a|e1]] eqn:E.
  - destruct Ha as [l1 Ha]. cbn [fst] in Ha. destruct (Hk _ _ _ _ E Ha _ _ _ H) as (l2 & Hh & He).
    exists (l1 ++ l2). by rewrite Hh, Ha, !app_assoc.
  - injection H as <- <-. by eapply Hm.
Qed.
(** The first step does nothing outside. *)
Lemma blames_silent {A B} l0 (m : ST (Net N) A) (k : A -> ST (Net N) B) :
  silent m -> blames l0 m -> (forall a w w1, m w = (w1, Ok a) -> blames l0 (k a)) ->
  blames l0 (st_bind m k).
Proof.
  intros Hs Hm Hk. apply blames_bind; [by apply adds_silent | done |]. intros a w w1 l1 E Hh.
  replace (l0 ++ l1) with l0; [by eapply Hk|].
  pose proof (Hs w) as [H _]. rewrite E in H. cbn [fst] in H. rewrite H in Hh.
  rewrite <- (app_nil_r (history w)) in Hh at 1. apply app_inv_head in Hh as <-. by rewrite app_nil_r.
Qed.

Lemma blames_fail {A} l0 e : explained l0 e -> blames l0 (@st_fail (Net N) A e).
Proof. intros H w w' e' [= <- <-]. exists []. by rewrite !app_nil_r. Qed.
Lemma blames_own {A} l0 (m : ST (Net N) A) :
  silent m -> (forall w w' e, m w = (w', Err e) -> own e) -> blames l0 m.
Proof.
  intros Hs H w w' e E. exists []. rewrite app_nil_r. specialize (Hs w). rewrite E in Hs. split; [apply Hs|].
  left. left. by eapply H.
Qed.
Lemma blames_or_reason {A} l0 (m : ST (Net N) A) :
  silent m -> (forall w w' e, m w = (w', Err e) -> own e \/ (P /\ e = GoPanic)) -> blames l0 m.
Proof.
  intros Hs H w w' e E. exists []. rewrite app_nil_r. specialize (Hs w). rewrite E in Hs. split; [apply Hs|].
  destruct (H _ _ _ E) as [He|[Hp ->]]; [by left; left|]. right. split; [done|]. by right; right.
Qed.
Lemma blames_ret {A} l0 (a : A) : blames l0 (@st_ret (Net N) A a).
Proof. by intros w w' e. Qed.
Lemma blames_draw {A} l0 (f : nat -> A) : blames l0 (net_draw f).
Proof. by intros [] w' e. Qed.
Lemma blames_now l0 : blames l0 (now c).
Proof. by intros w w' e. Qed.
Lemma blames_lift {A} l0 (r : result A) : completes r -> blames l0 (@st_lift (Net N) A r).
Proof.
  intros Hr. apply blames_own; [apply silent_lift|]. intros w w' e H. by destruct r; [|injection H as _ <-].
Qed.

Lemma blames_map_err {A} l0 f (m : ST (Net N) A) :
  (forall l e, blameless l e -> blameless l (f e)) -> blames l0 m -> blames l0 (map_err f m).
Proof.
  intros Hf Hm w w' e H. unfold map_err in H. destruct (m w) as [w1 [a|e1]] eqn:E; [done|].
  destruct (Hm _ _ _ E) as (l & Hh & He).
  assert (Hw : w1 = w' /\ (e1 = e \/ e = f e1 /\ e1 <> GoPanic)) by (destruct e1; injection H as <- <-; auto).
  destruct Hw as [<- [->|[-> Hn]]]; exists l; (split; [done|]); [done|].
  destruct He as [He|[-> _]]; [|done]. left. by apply Hf.
Qed.

End Errors.

#[export] Hint Resolve blames_ret blames_draw blames_now blames_lift : emits.

(** ** Steps *)

(** The serial number of the certificate to revoke has no DER encoding: its octets
    have no length. *)
Definition serial_overlong {CB : Cryptobyte} (crt : option Certificate) : Prop :=
  exists cert n, crt = Some cert /\ SerialNumber cert = Some n /\ overlong n.

Section Steps.
Context {CB : Cryptobyte} {L : CryptobyteLaws CB} {GN : GoNames} {GX : GoX509} {GA : GoASN1} {GC : GoCrypto}
  {GP : GoPBMAC1} {GR : GoRandom} {GH : GoHTTP}.
Context {N : Type} (c : Client N) (out : outside_errors c).
Implicit Types (l : list net_event) (w : Net N).

Context (P : Prop).
#[local] Abbreviation writable := (writable P).
#[local] Abbreviation encodes := (encodes P).

(** The same for any credentials: these steps fail with errors of the client only, or
    for the reason [P]. *)
Lemma protect_own cr msg w w' e :
  writable msg -> protect cr msg w = (w', Err e) -> own e \/ (P /\ e = GoPanic).
Proof.
  intros Hm H. apply protect_run in H as [_ H]. set (random := protect_random _ _) in H.
  pose proof (Protect_ends P (oe_sign c out) random cr msg Hm) as Hp.
  destruct (Protect random cr msg) as [m [u|e']]; [done|]. injection H as <-.
  destruct Hp as [Hp|[Hp [= ->]]]; [by left | by right].
Qed.
Lemma marshal_own msg w w' e :
  writable msg -> marshal msg w = (w', Err e) -> own e \/ (P /\ e = GoPanic).
Proof.
  intros Hm H. unfold marshal in H. pose proof (MarshalBinary_ends P msg Hm) as Hp.
  destruct (MarshalBinary msg) as [m [der|e']]; [done|]. injection H as _ <-.
  destruct Hp as [Hp|[Hp [= ->]]]; [by left | by right].
Qed.
Lemma keeps_writable m m' : keeps m m' -> writable m -> writable m'.
Proof.
  intros (_ & _ & _ & _ & _ & Hb)%keeps_header_core (b & Hm & He). exists b. by rewrite Hb.
Qed.

Lemma parse_own raw op e : parse raw op = Err e -> own e.
Proof.
  unfold parse. pose proof (total_spec (u := ParsePKIMessage) (raw_body raw)) as Hp.
  destruct (ParsePKIMessage (raw_body raw)) as [m|e']; [done|]. intros [= <-].
  unfold wrap_status. by case_goal.
Qed.
Lemma accept_own r e : (forall e', resp_BodyErr r = Some e' -> own e') -> accept_response c r = Err e -> own e.
Proof.
  intros Hb. unfold accept_response, io_ReadAll. set (all := match resp_BodyErr r with Some _ => _ | None => _ end).
  assert (Hall : forall e', all = Err e' -> own e').
  { unfold all. destruct (resp_BodyErr r) as [e1|]; [intros e' [= <-]; by apply Hb | done]. }
  destruct (match read_limit c with Some _ => _ | None => _ end) as [body|e1] eqn:Er.
  - unfold newHTTPStatusError, op_error. repeat (case_goal; [by intros [= <-]; repeat case_goal|]). done.
  - intros [= <-]. case_in Er; [case_in Er; [done|]|]; by apply Hall in Er.
Qed.
Lemma verifyResponse_own t req resp cr roots known alts e :
  verifyResponse c t req resp cr roots known alts = Err e -> own e.
Proof.
  unfold verifyResponse, op_error. do 3 (case_goal; [by intros [= <-]|]).
  pose proof (Verify_completes t resp (response_options c resp cr roots known)) as Hv.
  destruct (Verify _ _ _) as [vr|e1]; [done|]. intros [= <-]. case_goal; exact Hv.
Qed.
Lemma withUnverified_own msg e : own e -> own (withUnverifiedStatus msg e).
Proof. intros H. unfold withUnverifiedStatus. repeat case_goal; exact H. Qed.

Context (creds : option Credentials).
#[local] Abbreviation blames := (blames c creds P).

Lemma blames_protect l0 cr msg : writable msg -> blames l0 (protect cr msg).
Proof. intros H. apply blames_or_reason; [auto with emits|]. intros w w' e. by apply protect_own. Qed.
Lemma blames_marshal l0 msg : writable msg -> blames l0 (marshal msg).
Proof. intros H. apply blames_or_reason; [auto with emits|]. intros w w' e. by apply marshal_own. Qed.
Lemma blames_new_message l0 b o : blames l0 (new_message c b o).
Proof.
  unfold new_message. apply blames_silent; [auto with emits..|]. intros r1 _ _ _.
  apply blames_silent; [auto with emits..|]. intros r2 _ _ _.
  apply blames_silent; [auto with emits..|]. auto with emits.
Qed.
Lemma blames_sendHTTP l0 der : blames l0 (sendHTTP c der).
Proof.
  unfold sendHTTP. destruct (http_NewRequest (endpoint c)) as [e|] eqn:En.
  { apply blames_fail. left. left. by apply (oe_request c out) in En. }
  intros [n i h] w' e H. unfold st_bind, http_Do in H. cbn in H.
  pose proof (oe_do c out der n) as Hd. pose proof (oe_body c out der n) as Hb.
  destruct (Do (httpClient c) der n) as [n1 r]. cbn in H, Hd, Hb. exists [Exchanged der r].
  destruct r as [resp|e1]; injection H as <- He; (split; [done|]); left; left.
  - eapply accept_own; [|exact He]. intros e'. by apply Hb.
  - by subst e.
Qed.
Lemma blames_body_of l0 msg b : Body msg = Some b -> blames l0 (body_of msg).
Proof. intros H. unfold body_of. rewrite H. apply blames_ret. Qed.
Lemma blames_verified l0 op req resp cr roots known alts :
  blames l0 (verified_response c op req resp cr roots known alts).
Proof.
  apply blames_own; [auto with emits|]. intros w w' e H. unfold verified_response in H.
  apply st_bind_cases in H as [(w1 & t & _ & H)|(e1 & E & _)]; [|done].
  destruct (verifyResponse _ _ _ _ _ _ _ _) as [vr|e1] eqn:Ev; [done|]. injection H as _ <-.
  apply verifyResponse_own in Ev. unfold wrap_status.
  case_goal; by apply (withUnverified_own _ (op_wrap op e1)).
Qed.
Lemma blames_pvno l0 resp : blames l0 (check_pvno resp).
Proof.
  unfold check_pvno. case_goal; [|apply blames_ret]. apply blames_fail. left.
  apply blameless_status. by left.
Qed.

(** A response that was parsed has a body no getter has read. *)
Lemma parsed_body raw op resp :
  parse raw op = Ok resp -> exists b, Body (message resp) = Some b /\ received b.
Proof. intros H. apply parse_ok in H as [H _]. by apply parsed_received in H. Qed.
Lemma answered_body l cr roots m resp vr :
  answered c l cr roots m resp vr -> exists b, Body (message resp) = Some b /\ received b.
Proof. intros (der & t & known & _ & (h & raw & _ & _ & Hp & _) & _). by apply parsed_received in Hp. Qed.

(** ** Exchanges *)

(** The calls of the package in a bind. *)
Ltac blame :=
  repeat first
    [ match goal with
      | |- blames _ (st_bind _ _) => apply blames_silent; [solve [auto with emits] | |]
      | |- blames _ (map_err _ _) => apply blames_map_err; [by intros; apply blameless_wrap |]
      | |- blames _ (st_ret _) => apply blames_ret
      | |- blames _ (new_message _ _ _) => apply blames_new_message
      | |- blames _ (sendHTTP _ _) => apply blames_sendHTTP
      | |- blames _ (verified_response _ _ _ _ _ _ _ _) => apply blames_verified
      | |- blames _ (check_pvno _) => apply blames_pvno
      | |- forall _, _ => intros ?
      | p : (_ * _)%type |- _ => destruct p
      end ].

Lemma blames_extra l0 : blames l0 (st_lift (extra_certs (cl_extraCerts c))).
Proof.
  assert (H : forall certs e, extra_certs certs = Err e -> e = GoPanic /\ None ∈ certs).
  { intros certs e. induction certs as [|[x|] certs IH]; cbn [extra_certs]; [done| |].
    - intros H. apply res_bind_err in H as [H|(a & _ & H)]; [|done]. destruct (IH H) as [-> Hn].
      split; [done|]. by right.
    - intros [= <-]. split; [done | left]. }
  intros w w' e [= <- He]. exists []. rewrite app_nil_r. split; [done|].
  apply H in He as [-> He]. right. split; [done|]. by left.
Qed.

Lemma blames_newRequest l0 b cr o :
  encodes (PKIBody_marshal b) -> blames l0 (newRequest c b cr o).
Proof.
  intros Hb. unfold newRequest. destruct cr as [cr|]; [|by apply blames_fail; left; left].
  blame; [apply blames_extra | apply blames_protect].
  match goal with H : new_message _ _ _ _ = _ |- _ => apply new_message_ok in H as (_ & r1 & r2 & t & ->) end.
  exists b. by split.
Qed.

Lemma blames_exchangeFirst l0 msg cr : writable msg -> blames l0 (exchangeFirst c msg cr).
Proof.
  intros Hm. unfold exchangeFirst. apply blames_silent; [auto with emits| |].
  { blame. by apply blames_marshal. }
  intros [m der] _ _ _. apply blames_bind; [eapply adds_emits, (emits_sendHTTP c (fun _ => True)) | |].
  { apply blames_sendHTTP. }
  intros raw _ _ l1 _ _. blame.
  apply blames_lift. destruct (parse raw _) eqn:E; [done|]. by apply parse_own in E.
Qed.

Lemma writable_poll h last id w w' m : poll_message c h last id w = (w', Ok m) -> writable m.
Proof.
  intros (_ & Hb & _)%poll_message_ok. exists (NewPollReqBody [id]). split; [done|].
  by apply plain_body_writable.
Qed.
Lemma writable_conf conf status w w' m : conf_message c conf status w = (w', Ok m) -> writable m.
Proof.
  intros (_ & Hb & _)%conf_message_ok. exists (NewCertConfBody [status]). split; [done|].
  by apply plain_body_writable.
Qed.

(** A message of a transaction, protected and encoded. *)
Lemma blames_send {A} l0 op1 op2 m0 cr (k : PKIMessage * bytes -> ST (Net N) A) :
  writable m0 -> (forall r, blames l0 (k r)) ->
  blames l0 (let! m := map_err (op_wrap op1) (protect cr m0) in
             let! r := map_err (op_wrap op2) (marshal m) in k r).
Proof.
  intros Hm Hk. apply blames_silent; [auto with emits | blame; by apply blames_protect |].
  intros m w w1 H. apply map_err_ok, protect_ok in H as (_ & H & _).
  apply blames_silent; [auto with emits | blame; apply blames_marshal; by eapply keeps_writable |].
  intros r _ _ _. apply Hk.
Qed.

Lemma blames_poll_once l0 h last cr id known : blames l0 (poll_once c h last cr id known).
Proof.
  unfold poll_once. apply blames_silent; [auto with emits | unfold poll_message; blame |].
  intros m0 w w1 H. apply writable_poll in H. apply blames_send; [done|]. intros [m der].
  apply blames_bind; [eapply adds_emits, (emits_sendHTTP c (fun _ => True)) | apply blames_sendHTTP |].
  intros raw _ _ l1 _ _. apply blames_silent; [auto with emits | |].
  { apply blames_lift. destruct (parse raw _) eqn:E; [done|]. by apply parse_own in E. }
  intros resp w2 w3 [= _ Hp]. apply parsed_body in Hp as (b & Hb & _).
  blame. by eapply blames_body_of.
Qed.

(** ** Statuses of the peer *)

Context (cr : Credentials) (Hcr : creds = Some cr).

Lemma status_blameless l roots m resp vr b si e :
  answered c l cr roots m resp vr -> Body (message resp) = Some b -> carries b si ->
  AsError si = Some e -> blameless c creds l e.
Proof.
  intros Ha Hb Hs He. pose proof He as He'. unfold AsError in He'. case_in He'; [done|].
  case_in He'; [injection He' as <-; by left|]. injection He' as <-. right. eexists.
  split; [reflexivity|]. split; [done|]. exists cr, m, resp, vr, roots, b, si. split_and!; done.
Qed.

Lemma body_error_blameless l roots m resp vr b e :
  answered c l cr roots m resp vr -> Body (message resp) = Some b ->
  parseErrorResponse b = Some e -> blameless c creds l e.
Proof.
  intros Ha Hb H. destruct (answered_body _ _ _ _ _ _ Ha) as (b' & Hb' & Hr).
  replace b' with b in * by congruence. unfold parseErrorResponse in H.
  assert (Ht : completes (snd (Error_get b))) by (apply total_getter; [apply _ | done]).
  destruct (snd (Error_get b)) as [content|e1] eqn:Eg; [|injection H as <-; by left].
  eapply status_blameless; [exact Ha | exact Hb | by apply carries_error | exact H].
Qed.

Lemma extract_own b t e : received b -> extractCertRespAndRep b t = Err e -> own e.
Proof.
  intros Hr H. assert (Hc : completes (extractCertRespAndRep b t)); [|by rewrite H in Hc].
  unfold extractCertRespAndRep, certRep_get. apply bind_total.
  - repeat case_goal; try done; (apply total_getter; [apply _ | done]).
  - intros rep. by repeat case_goal.
Qed.

Lemma blames_poll_from fuel : forall l0 i d first last id known,
  blames l0 (poll_from c fuel i d (Header first) last cr id known).
Proof.
  induction fuel as [|fuel IH]; intros l0 i d first last id known; cbn [poll_from].
  { apply blames_fail. by left; left. }
  assert (Hw : forall d', emits c 0 (fun _ => True) (if 0 <? i then wait c d' else st_ret (Ok tt))).
  { intros d'. case_goal; [by apply emits_wait | apply silent_emits, silent_ret]. }
  apply blames_bind; [eapply adds_emits, Hw | |].
  { case_goal; [|apply blames_ret]. intros [n k h] w' e H. unfold wait in H. by destruct (time_After _ _ _). }
  intros [u|e1] w w1 l1 Hwait _.
  2: { apply blames_fail. left. apply blameless_wrap. left. case_in Hwait; [|done].
       destruct w as [n k h]. unfold wait in Hwait. pose proof (oe_wait c out d n) as Ho.
       destruct (time_After _ _ _) as [n1 r]. by injection Hwait as _ ->. }
  apply blames_bind; [eapply adds_emits, (emits_poll_once c (fun _ => True)) | apply blames_poll_once |].
  intros [[resp vr] s] w2 w3 l2 Hp Hh.
  apply poll_once_ok in Hp as (l & m & b & Hh' & Hm & Ha & Hb & _).
  rewrite Hh in Hh'. apply app_inv_head in Hh' as <-.
  assert (Ha' : answered c ((l0 ++ l1) ++ l2) cr (trustedCAs c) m resp vr)
    by (eapply answered_later; [exact Ha | set_solver]).
  apply blames_silent; [auto with emits | by eapply blames_body_of |].
  intros b' w4 w5 Hb'. apply body_of_ok in Hb' as [_ Hb']. rewrite Hb in Hb'. injection Hb' as <-.
  case_goal; [case_goal; [apply blames_fail | apply blames_ret] |].
  - left. eapply blameless_http; [eassumption|]. intros e'. by eapply body_error_blameless.
  - case_goal; [|apply blames_ret].
    apply blames_silent; [auto with emits | |].
    + apply blames_lift, total_getter; [apply _|].
      destruct (answered_body _ _ _ _ _ _ Ha) as (b' & Hb' & Hr). by replace b with b' by congruence.
    + intros rep _ _ _. apply IH.
Qed.

(** Polling gives no response only for a hollow error. *)
Lemma hollow_polled fuel : forall l0 i d first last id known w w' l, 0 <= i ->
  poll_from c fuel i d (Header first) last cr id known w = (w', Ok None) ->
  history w' = history w ++ l -> hollow_poll c creds (l0 ++ l).
Proof.
  induction fuel as [|fuel IH]; intros l0 i d first last id known w w' l Hi H Hl; cbn [poll_from] in H;
    [discriminate H|].
  apply st_bind_ok in H as (w1 & waited & E & H).
  assert (Hw : exists l, history w1 = history w ++ l).
  { destruct (emits_wait c (fun _ => True) d 0 I w) as (lw & Hlw & _).
    destruct (0 <? i); [rewrite E in Hlw; eauto|]. injection E as <- _. exists []. by rewrite app_nil_r. }
  destruct Hw as [lw Hw]. destruct waited as [u|e]; [|discriminate H].
  apply st_bind_ok in H as (w2 & [[resp vr] s] & E1 & H).
  apply poll_once_ok in E1 as (lp & m & b & Hh & (_ & Hm & _) & Ha & Hb & _).
  apply st_bind_ok in H as (w3 & b' & E2 & H). apply body_of_ok in E2 as [-> Hb'].
  rewrite Hb in Hb'. injection Hb' as <-.
  assert (Hx : exists lr, history w' = history w2 ++ lr /\
    ((Type_ b = BodyTypeError /\ http_wrapError (cmp_statusCode resp) (parseErrorResponse b) = None) \/
     hollow_poll c creds ((l0 ++ lw ++ lp) ++ lr))).
  { destruct (Z.eqb_spec (Type_ b) BodyTypeError) as [He|He].
    - destruct (http_wrapError _ _) eqn:Eh; [discriminate H|]. injection H as <-. exists [].
      rewrite app_nil_r. eauto.
    - destruct (Z.eqb_spec (Type_ b) BodyTypePollRep); [|discriminate H].
      apply st_bind_ok in H as (w4 & rep & E3 & H). injection E3 as <- _.
      destruct (emits_poll_from c (fun _ => True) ltac:(done) fuel (i + 1)
                  (clampCheckAfter c (poll_interval rep)) (Header first) (message resp) cr id s
                  ltac:(lia) ltac:(done) w2) as (lr & Hlr & _).
      rewrite H in Hlr. cbn [fst] in Hlr. exists lr. split; [done|]. right.
      by eapply IH; [|exact H|]; [lia|]. }
  destruct Hx as (lr & Hlr & Hx). rewrite Hlr, Hh, Hw, <- !app_assoc in Hl. apply app_inv_head in Hl as <-.
  destruct Hx as [[He Hn]|Hx]; [|by rewrite !app_assoc in *].
  unfold http_wrapError in Hn. case_in Hn; [|done]. apply Z.eqb_eq in E0.
  exists cr, m, id, resp, vr, b. split; [done|]. split; [done|]. split; [|done].
  eapply answered_later; [exact Ha | set_solver].
Qed.

(** ** Confirmation *)

Lemma answered_parts op t roots known alts msg m der raw resp vr w w1 l1 :
  snd (MarshalBinary msg) = Ok der -> keeps msg m ->
  sendHTTP c der w = (w1, Ok raw) -> history w1 = history w ++ l1 -> parse raw op = Ok resp ->
  verifyResponse c t m (message resp) cr roots known alts = Ok vr -> answered c l1 cr roots msg resp vr.
Proof.
  intros Hm [Ht _]%keeps_header_core Hs Hh Hp Hv. apply sendHTTP_ok in Hs as (h & Hs & Ha).
  rewrite Hs in Hh. apply app_inv_head in Hh as <-. apply parse_ok in Hp as [Hp Hc].
  apply verifyResponse_ok in Hv as (Hi & _ & Hv). exists der, t, known. rewrite Hi, Ht.
  split_and!; [done| |done|done]. exists h, raw. split; [by apply list_elem_of_here | done].
Qed.

Lemma blames_sendCertConf l0 conf status : conf_creds conf = cr -> blames l0 (sendCertConf c conf status).
Proof.
  intros Hc. unfold sendCertConf. apply blames_silent; [auto with emits | unfold conf_message; blame |].
  intros m0 w w1 H. apply writable_conf in H. rewrite Hc. apply blames_silent; [auto with emits | |].
  { blame. by apply blames_protect. }
  intros m1 w2 w3 H1. apply map_err_ok, protect_ok in H1 as (_ & H1 & _).
  apply blames_silent; [auto with emits | blame; apply blames_marshal; by eapply keeps_writable |].
  intros [m2 der] w4 w5 H2. apply map_err_ok, marshal_ok in H2 as (_ & Hk & Hm2).
  apply blames_bind; [eapply adds_emits, emits_map_err, (emits_sendHTTP c (fun _ => True)) | blame |].
  intros raw w6 w7 l1 H3 Hh. apply map_err_ok in H3. unfold confirmation_answer.
  apply blames_silent; [auto with emits | |].
  { apply blames_lift. destruct (parse raw _) eqn:E; [done|]. by apply parse_own in E. }
  intros resp w8 w9 [= _ Hp]. apply blames_silent; [auto with emits | blame |]. intros vr w10 w11 Hv.
  rewrite Hc in Hv. apply verified_response_ok in Hv as (_ & t & Hv).
  pose proof (answered_parts _ _ _ _ _ _ _ _ _ _ _ _ _ _ Hm2 Hk H3 Hh Hp Hv) as Ha.
  destruct (parsed_body _ _ _ Hp) as (b & Hb & _).
  apply blames_silent; [auto with emits | by eapply blames_body_of |].
  intros b' w12 w13 Hb'. apply body_of_ok in Hb' as [_ Hb']. rewrite Hb in Hb'. injection Hb' as <-.
  case_goal; [case_goal; [apply blames_fail | apply blames_ret] | case_goal; [apply blames_fail | apply blames_ret]].
  - left. eapply blameless_http; [eassumption|]. intros e'.
    eapply body_error_blameless; [|exact Hb]. eapply answered_later; [exact Ha | set_solver].
  - left. apply blameless_status. by left.
Qed.

Lemma blames_reject {A} l0 conf crt id text reason :
  conf_creds conf = cr -> blameless c creds l0 reason ->
  blames l0 (rejectCertificate (A:=A) c conf crt id text reason).
Proof.
  intros Hc Hr. unfold rejectCertificate.
  assert (Hw : forall l t, blameless c creds (l0 ++ l) (wrapError t reason)).
  { intros l t. destruct Hr as [Hr|(st & H1 & _ & H2)]; [by left|]. right. exists st.
    split; [done|]. split; [done|]. eapply reported_later; [exact H2 | set_solver]. }
  destruct (NewCertStatus crt id) as [status|e].
  2: { apply blames_fail. left. specialize (Hw []). rewrite app_nil_r in Hw. apply Hw. }
  pose proof (blames_sendCertConf l0 conf (refusing_status status text) Hc) as Hs.
  apply blames_bind; [eapply adds_emits, emits_call, (emits_sendCertConf c (fun _ => True)) | |].
  - intros w w' e H. unfold call in H. destruct (sendCertConf _ _ _ w) as [w1 [u|e1]] eqn:E; [done|].
    destruct e1; try discriminate H. injection H as <- <-. by apply Hs in E.
  - intros r _ _ l1 _ _. destruct r as [u|e]; apply blames_fail; left; [|apply Hw].
    destruct Hr as [Hr|(st & H1 & H2 & H3)]; [by left|]. right. exists st. split; [done|]. split; [done|].
    eapply reported_later; [exact H3 | set_solver].
Qed.

Lemma blames_finish l0 conf st resp ids crt pubs extra key :
  conf_creds conf = cr -> blames l0 (finish_enrollment c conf st resp ids crt pubs extra key).
Proof.
  intros Hc. unfold finish_enrollment.
  assert (Hown : forall e, own e -> blameless c creds l0 (wrap_status st e))
    by (intros e He; apply blameless_status; by left).
  destruct (checkCertReqID resp ids) as [e|] eqn:Ei.
  { apply blames_reject; [done|]. apply Hown. unfold checkCertReqID in Ei. case_in Ei; [done|].
    by injection Ei as <-. }
  apply blames_silent; [case_goal; [apply silent_bind|]; auto with emits | case_goal; blame; auto with emits |].
  intros trust w w1 Ht. destruct trust as [e|].
  { apply blames_reject; [done|]. apply Hown. case_in Ht; [|done]. st_inv.
    match goal with H : Some e = _ |- _ =>
      symmetry in H; by apply certpath_completes in H; [|apply (oe_verify c out)] end. }
  destruct (checkIssuedKey crt key) as [e|] eqn:Ek.
  { apply blames_reject; [done|]. apply Hown. unfold checkIssuedKey, op_error in Ek.
    repeat (case_in Ek; try done); by injection Ek as <-. }
  pose proof (NewCertStatus_completes crt (cr_CertReqID resp)) as Hs.
  destruct (NewCertStatus crt (cr_CertReqID resp)) as [status|e].
  - apply blames_bind; [eapply adds_emits, (emits_sendCertConf c (fun _ => True)) | by apply blames_sendCertConf |].
    intros u w2 w3 l1 _ _. apply blames_ret.
  - apply blames_fail. left. by apply Hown.
Qed.

(** ** Enrollment *)

Lemma blames_extract l0 roots m resp vr t :
  answered c l0 cr roots m resp vr ->
  blames l0 (let! b := body_of (message resp) in
             match extractCertRespAndRep b t with
             | Ok x => st_ret x
             | Err err => st_fail (wrap_status (cmp_statusCode resp) err)
             end).
Proof.
  intros Ha. destruct (answered_body _ _ _ _ _ _ Ha) as (b & Hb & Hr).
  apply blames_silent; [auto with emits | by eapply blames_body_of |].
  intros b' w w1 H. apply body_of_ok in H as [_ H]. rewrite Hb in H. injection H as <-.
  destruct (extractCertRespAndRep b t) eqn:E; [apply blames_ret|]. apply blames_fail. left.
  apply blameless_status. left. by eapply extract_own.
Qed.

Lemma blames_settled l0 msg resp vr m t ids :
  answered c l0 cr (trustedCAs c) m resp vr -> blames l0 (settled_response c msg resp vr cr t ids).
Proof.
  intros Ha. unfold settled_response.
  apply blames_silent; [|by eapply blames_extract|].
  { apply silent_bind; [auto with emits|]. intros b. case_goal; auto with emits. }
  intros [cresp rep] w w1 _. case_goal; [|apply blames_ret].
  destruct (checkCertReqID cresp ids) as [e|] eqn:Ei.
  { apply blames_fail. left. apply blameless_status. left. unfold checkCertReqID in Ei.
    case_in Ei; [done|]. by injection Ei as <-. }
  apply blames_bind; [eapply adds_emits, (emits_poll c (fun _ => True)); done | apply blames_poll_from |].
  intros [[resp' vr']|] w2 w3 l1 Hp Hh.
  2: { apply blames_fail. right. split; [done|]. right. left. by eapply hollow_polled; [|exact Hp|]. }
  apply poll_from_ok in Hp as (l & m' & b & Hh' & _ & Ha' & _).
  rewrite Hh in Hh'. apply app_inv_head in Hh' as <-.
  apply blames_silent; [| |intros [? ?] _ _ _; apply blames_ret].
  - apply silent_bind; [auto with emits|]. intros b'. case_goal; auto with emits.
  - eapply blames_extract, answered_later; [exact Ha' | set_solver].
Qed.

(** The first message of an operation, and its verified answer. *)
Lemma blames_first {A} l0 b o (k : PKIMessage * cmpHTTPResponse * VerifyResult -> ST (Net N) A) :
  encodes (PKIBody_marshal b) ->
  (forall l msg m resp vr body, keeps msg m -> answered c l cr (trustedCAs c) msg resp vr ->
     answers_nonce resp msg -> Body (message resp) = Some body -> blames l (k (m, resp, vr))) ->
  blames l0 (let! msg := newRequest c b (Some cr) o in let! r := exchangeFirst c msg cr in k r).
Proof.
  intros Hb Hk. apply blames_silent; [auto with emits | by apply blames_newRequest |].
  intros msg w w1 H. apply newRequest_ok in H as (_ & _ & Hbody).
  apply blames_bind; [eapply adds_emits, (emits_exchangeFirst c (fun _ => True)) | |].
  { apply blames_exchangeFirst. by exists b. }
  intros [[m resp] vr] w2 w3 l1 H Hh. apply exchangeFirst_ok in H as (Hkeep & l & Hh' & Ha & Hn).
  rewrite Hh in Hh'. apply app_inv_head in Hh' as <-.
  destruct (answered_body _ _ _ _ _ _ Ha) as (body & Hbd & _).
  eapply Hk; [exact Hkeep | eapply answered_later; [exact Ha | set_solver] | done | exact Hbd].
Qed.

Lemma extractCertificate_own resp e : extractCertificate resp = Err e -> own e.
Proof.
  unfold extractCertificate, op_error. repeat (case_goal; [|by intros [= <-]]).
  by destruct (CMPCertificate_Parse _); [|intros [= <-]].
Qed.

Lemma blames_enroll l0 b t o key :
  encodes (PKIBody_marshal (fst (answeringCertReqIDs b))) -> completes (snd (answeringCertReqIDs b)) ->
  blames l0 (enroll c b t (Some cr) o key).
Proof.
  intros Hb Hids. unfold enroll. destruct (answeringCertReqIDs b) as [b' ids]. cbn [fst snd] in Hb, Hids.
  apply blames_silent; [auto with emits | by apply blames_lift |]. intros ids' _ _ _.
  apply blames_first; [done|]. intros l msg m resp vr body Hk Ha Hn Hbody.
  apply blames_silent; [auto with emits | by eapply blames_body_of |]. intros b1 w w1 H.
  apply body_of_ok in H as [_ H]. rewrite Hbody in H. injection H as <-.
  case_goal; [case_goal; [apply blames_fail | apply blames_ret]|].
  { left. eapply blameless_http; [eassumption|]. intros e'. by eapply body_error_blameless. }
  case_goal; [apply blames_fail; left; apply blameless_status; by left|].
  apply blames_bind; [eapply adds_emits, (emits_settled c (fun _ => True)); done | by eapply blames_settled |].
  intros [[[[resp' vr'] signer] cresp] rep] w2 w3 l1 H Hh.
  apply (settled_ok c l msg) in H as (l' & b2 & Hh' & Hs & Hb2 & Hx); [|done..].
  rewrite Hh in Hh'. apply app_inv_head in Hh' as <-.
  assert (Ha' : exists m', answered c (l ++ l1) cr (trustedCAs c) m' resp' vr').
  { destruct Hs as [[Hs _]|(m' & id & _ & Hs & _)]; eauto. }
  destruct Ha' as [m' Ha']. case_goal; [case_goal; [apply blames_fail | apply blames_ret]|].
  { left. eapply blameless_http; [eassumption|]. intros e' He.
    eapply status_blameless; [exact Ha' | exact Hb2 | by eapply carries_cert | exact He]. }
  destruct (extractCertificate cresp) as [crt|e] eqn:Ec; [by apply blames_finish|].
  apply blames_fail. left. apply blameless_status. left. by apply extractCertificate_own in Ec.
Qed.

Lemma blames_revocation l0 roots m resp vr :
  answered c l0 cr roots m resp vr -> blames l0 (revocation_status resp).
Proof.
  intros Ha. destruct (answered_body _ _ _ _ _ _ Ha) as (b & Hb & Hr). unfold revocation_status.
  assert (Hown : forall e, own e -> blames l0 (@st_fail (Net N) unit (wrap_status (cmp_statusCode resp) e)))
    by (intros e He; apply blames_fail; left; apply blameless_status; by left).
  apply blames_silent; [auto with emits | by eapply blames_body_of |].
  intros b' w w1 H. apply body_of_ok in H as [_ H]. rewrite Hb in H. injection H as <-.
  case_goal; [by apply Hown|].
  assert (Ht : completes (snd (RP b))) by (apply total_getter; [apply _ | done]).
  destruct (snd (RP b)) as [rep|e] eqn:Eg; [|by apply Hown].
  destruct (rev_Status rep) as [|si [|]] eqn:Es; [by apply Hown | | by apply Hown].
  destruct (AsError si) as [e|] eqn:Ee; [|apply blames_ret]. apply blames_fail. left. apply blameless_status.
  eapply status_blameless; [exact Ha | exact Hb | by eapply carries_revocation | exact Ee].
Qed.

Lemma NewRevDetails_template crt reason d :
  NewRevDetails crt reason = Ok d ->
  exists cert, crt = Some cert /\ tmpl_SerialNumber (CertDetails d) = SerialNumber cert.
Proof.
  unfold NewRevDetails. destruct crt as [cert|]; [|done]. destruct (SerialNumber cert) as [n|] eqn:En; [|done].
  intros H. exists cert. split; [done|]. rewrite En. case_in H; [done|].
  repeat (apply res_bind_ok in H as (? & _ & H)). by injection H as <-.
Qed.

Lemma blames_SendRR l0 crt reason o :
  (serial_overlong crt -> P) -> blames l0 (SendRR c crt reason (Some cr) o).
Proof.
  intros HP. unfold SendRR. apply blames_silent; [auto with emits | |].
  { blame. apply blames_lift, NewRevDetails_completes. }
  intros details v0 v1 Hd. apply map_err_ok in Hd. injection Hd as _ Hd.
  apply NewRevDetails_template in Hd as (cert & -> & Hd).
  apply blames_first.
  { apply new_body_writable; [|done]. intros x [-> | []%not_elem_of_nil]%elem_of_cons (n & Hn & Ho).
    apply HP. exists cert, n. split; [done|]. by rewrite <- Hd. }
  intros l msg m resp vr body Hk Ha Hn Hbody.
  apply blames_silent; [auto with emits | by eapply blames_body_of |]. intros b1 w w1 H.
  apply body_of_ok in H as [_ H]. rewrite Hbody in H. injection H as <-.
  case_goal; [|by eapply blames_revocation].
  destruct (parseErrorResponse body) as [e|] eqn:Ep.
  - case_goal.
    + apply blames_bind; [eapply adds_emits, (emits_poll c (fun _ => True)); done | apply blames_poll_from |].
      intros [[resp' vr']|] w2 w3 l1 Hp Hh.
      2: { apply blames_fail. right. split; [done|]. right. left. by eapply hollow_polled; [|exact Hp|]. }
      apply poll_from_ok in Hp as (l' & m' & b' & Hh' & _ & Ha' & _).
      rewrite Hh in Hh'. apply app_inv_head in Hh' as <-.
      eapply blames_revocation, answered_later; [exact Ha' | set_solver].
    + apply blames_fail. left. apply blameless_status. by eapply body_error_blameless.
  - case_goal; [|apply blames_ret]. apply blames_fail. left. by eapply blameless_http.
Qed.

End Steps.

(** ** The operations *)

(** A status is not in an error of the package, nor is a panic. *)
Lemma errors_As_weaken {A B} (p : error -> option A) (q : error -> option B) :
  (forall e, q e = None -> p e = None) -> forall e, errors_As q e = None -> errors_As p e = None.
Proof.
  intros Hpq. fix IH 1. intros e H.
  destruct e as [d [e|]|r [e|]|r [e|]|s t f| |s f t|o [e|]|s t f [e|]|t|t e|e1 e2|n| |];
    cbn [errors_As] in H |- *;
    (case_in H; [done|]); rewrite (Hpq _ E); try done; try (by apply IH).
  case_in H; [done|]. by rewrite (IH _ E0), (IH _ H).
Qed.

Lemma own_no_status e : own e -> errors_As as_PKIStatusError e = None.
Proof.
  intros H. apply (errors_As_weaken as_PKIStatusError as_disorder); [by intros []|].
  unfold own, disorderly in H. by destruct (errors_As as_disorder e).
Qed.

Section Operations.
Context {CB : Cryptobyte} {L : CryptobyteLaws CB} {GN : GoNames} {GX : GoX509} {GA : GoASN1} {GC : GoCrypto}
  {GP : GoPBMAC1} {GR : GoRandom} {GH : GoHTTP}.
Context {N : Type} (c : Client N) (out : outside_errors c) (creds : option Credentials).
Section Reason.
Context (P : Prop).
(** Without credentials no request is made. *)
Lemma blames_no_credentials {A} creds' l0 b o (k : PKIMessage -> ST (Net N) A) :
  blames c creds' P l0 (let! msg := newRequest c b None o in k msg).
Proof.
  intros w w' e H. unfold newRequest, st_bind, st_fail in H. injection H as <- <-. exists [].
  rewrite app_nil_r. split; [done|]. by left; left.
Qed.

#[local] Abbreviation blames := (blames c creds P).

Lemma blames_enroll_any l0 b t o key :
  encodes P (PKIBody_marshal (fst (answeringCertReqIDs b))) -> completes (snd (answeringCertReqIDs b)) ->
  blames l0 (enroll c b t creds o key).
Proof.
  intros Hb Hids. destruct creds as [cr|] eqn:E; [by apply blames_enroll|]. unfold enroll.
  destruct (answeringCertReqIDs b) as [b' ids].
  apply blames_silent; [auto with emits | by apply blames_lift |]. intros ids' _ _ _.
  apply blames_no_credentials.
Qed.

Lemma crmf_answering t reqs b :
  crmf_request_body t reqs = Ok b ->
  (forall m, m ∈ reqs -> tmpl_SerialNumber (cr_CertTemplate (CertReq m)) = None) ->
  answeringCertReqIDs b = (b, Ok ((fun m => cr_req_CertReqID (CertReq m)) <$> reqs)) /\
  encodes P (PKIBody_marshal b).
Proof.
  intros Hb Hs.
  assert (Ht : forall x, x ∈ ((fun m => cr_CertTemplate (CertReq m)) <$> reqs) -> template_overlong x -> P).
  { intros x (m & -> & Hm)%list_elem_of_fmap (n & Hn & _). specialize (Hs _ Hm). congruence. }
  revert Hb. unfold crmf_request_body.
  repeat (case_goal; [intros [= <-]; split; [done | by apply new_body_writable]|]). done.
Qed.

Lemma blames_sendCRMF l0 key t o : blames l0 (sendCRMF c key creds t o).
Proof.
  unfold sendCRMF. apply blames_silent; [auto with emits | |].
  { apply blames_lift. unfold crmf_template. total. }
  intros tmpl v0 v1 [= _ Ht]. assert (Hs : tmpl_SerialNumber tmpl = None).
  { unfold crmf_template in Ht. do 2 apply res_bind_ok in Ht as (? & _ & Ht). by injection Ht as <-. }
  apply blames_silent; [auto with emits | |].
  { apply blames_lift. case_goal; [|done]. unfold kur_controls. case_goal; [|done].
    pose proof (NewOldCertIDControl_completes (Some c0)) as Hc. by destruct (NewOldCertIDControl _). }
  intros controls _ _ _. apply blames_silent; [auto with emits.. |]. intros random _ _ _.
  apply blames_silent; [auto with emits | |].
  { apply blames_map_err; [by intros; apply blameless_wrap|].
    apply blames_lift, GeneratePOP_completes; [apply (oe_sign c out) | done]. }
  intros msg v2 v3 Hm. apply map_err_ok in Hm. injection Hm as _ Hm. apply GeneratePOP_template in Hm. apply blames_silent; [auto with emits | |].
  { apply blames_lift. unfold crmf_request_body. by repeat case_goal. }
  intros b w w1 [= _ Hb]. apply crmf_answering in Hb as [Hb He].
  2: { intros m ->%list_elem_of_singleton. by rewrite Hm. }
  apply blames_enroll_any; by rewrite Hb.
Qed.

Lemma blames_SendRR_any l0 crt reason o :
  (serial_overlong crt -> P) -> blames l0 (SendRR c crt reason creds o).
Proof.
  intros HP.
  destruct creds as [cr|] eqn:E; [by apply blames_SendRR|]. unfold SendRR.
  apply blames_silent; [auto with emits | | intros details _ _ _; apply blames_no_credentials].
  apply blames_map_err; [by intros; apply blameless_wrap|]. apply blames_lift, NewRevDetails_completes.
Qed.

Lemma blames_SendP10CR l0 der o : blames l0 (SendP10CR c der creds o).
Proof.
  unfold SendP10CR. apply blames_silent; [auto with emits | apply blames_lift; by apply of_option_total |].
  intros csr _ _ _. apply blames_silent; [auto with emits | apply blames_lift; by apply of_option_total |].
  intros key _ _ _. apply blames_enroll_any; [by apply plain_body_writable | done].
Qed.

End Reason.

(** The operations of a client: the requests for a certificate and the revocation, each
    with the certificate it is to revoke. *)
Inductive operation : forall A, option Certificate -> ST (Net N) A -> Prop :=
| op_CRMF key t o : operation _ None (sendCRMF c key creds t o)
| op_P10CR der o : operation _ None (SendP10CR c der creds o)
| op_RR crt reason o : operation _ crt (SendRR c crt reason creds o).

Lemma operation_blames A crt (op : ST (Net N) A) :
  operation A crt op -> blames c creds (serial_overlong crt) [] op.
Proof. intros []; [apply blames_sendCRMF | apply blames_SendP10CR | by apply blames_SendRR_any]. Qed.

End Operations.

Arguments operation {CB GN GX GA GC GP GR GH N} c creds {A} crt _.
