(* ===== verification/HttpFacts.v ===== *)
(** * Client and server over HTTP

    What each side makes of the other's octets: the responses a client hands on, the
    requests a server reads, and the exchange between a client and its server. *)
From S2P Require Import Prelude Failure Errors Asn1 Types X509 Message Monad Algorithms Protect Http.
From S2P Require Import Transactions Handler Server ServerHTTP Client.

Section Facts.
Context {CB : Cryptobyte} {GN : GoNames} {GX : GoX509} {GA : GoASN1} {GC : GoCrypto}
  {GP : GoPBMAC1} {GR : GoRandom} {GH : GoHTTP}.

Lemma supports_classes s : supportsCMPResponse s = true <-> 200 <= s < 300 \/ 400 <= s < 600.
Proof.
  unfold supportsCMPResponse. rewrite !orb_true_iff, !Z.eqb_eq.
  pose proof (Z.quot_rem s 100 ltac:(lia)). pose proof (Z.rem_bound_abs s 100 ltac:(lia)).
  pose proof (Z.rem_sign_nz s 100). destruct (Z.eq_dec (Z.rem s 100) 0); lia.
Qed.
Lemma media_type v : isCMPMediaType v = true <-> mime_ParseMediaType v = Some "application/pkixcmp".
Proof.
  unfold isCMPMediaType. destruct (mime_ParseMediaType v); [|done]. rewrite bool_decide_eq_true.
  split; congruence.
Qed.

Lemma response_accepted {N} (c : Client N) (h : http_Response) :
  maxResponseBytes c < 2 ^ 63 - 1 -> resp_BodyErr h = None ->
  (0 < maxResponseBytes c -> Z.of_nat (length (resp_Body h)) <= maxResponseBytes c) ->
  supportsCMPResponse (StatusCode h) = true -> isCMPMediaType (ContentType h) = true ->
  (resp_Body h <> [] \/ StatusCode h = StatusOK) ->
  accept_response c h = Ok (mkRawHTTP (resp_Body h) (StatusCode h)).
Proof.
  intros Hm Hb Hl Hs Ht Hn. unfold accept_response, read_limit. rewrite Hb, Hs, Ht.
  assert (Ha : io_ReadAll (if 0 <? maxResponseBytes c then Some (int64_wrap (maxResponseBytes c + 1)) else None)
                 (resp_Body h) None = Ok (resp_Body h)).
  { destruct (Z.ltb_spec 0 (maxResponseBytes c)); [|done]. rewrite int64_wrap_id by lia. cbn.
    destruct (Z.leb_spec (maxResponseBytes c + 1) (Z.of_nat (length (resp_Body h)))); [lia | done]. }
  rewrite Ha. replace (_ && _) with false.
  2: { destruct (Z.ltb_spec 0 (maxResponseBytes c)); [|done]. symmetry. apply Z.ltb_ge. auto. }
  cbn [negb]. replace (_ && _) with false; [done|].
  destruct Hn as [Hn|Hn]; [by apply nonempty_true in Hn as ->|].
  rewrite Hn. by rewrite andb_false_r.
Qed.

Lemma accept_response_inv {N} (c : Client N) (h : http_Response) (raw : rawHTTPResponse) :
  maxResponseBytes c < 2 ^ 63 - 1 -> accept_response c h = Ok raw ->
  raw = mkRawHTTP (resp_Body h) (StatusCode h) /\ resp_BodyErr h = None /\
  (0 < maxResponseBytes c -> Z.of_nat (length (resp_Body h)) <= maxResponseBytes c) /\
  supportsCMPResponse (StatusCode h) = true /\ isCMPMediaType (ContentType h) = true /\
  (resp_Body h <> [] \/ StatusCode h = StatusOK).
Proof.
  intros Hm H. unfold accept_response, read_limit in H. destruct (io_ReadAll _ _ _) as [body|] eqn:Eb; [|discriminate H].
  destruct (_ && _) eqn:Es in H; [discriminate H|].
  destruct (supportsCMPResponse (StatusCode h)) eqn:Ec; [|discriminate H].
  destruct (isCMPMediaType (ContentType h)) eqn:Et; [|discriminate H].
  cbn [negb] in H. destruct (_ && _) eqn:En in H; [discriminate H|]. apply Ok_inj in H as <-.
  assert (Hb : body = resp_Body h /\ resp_BodyErr h = None /\
               (0 < maxResponseBytes c -> Z.of_nat (length body) <= maxResponseBytes c)).
  { destruct (Z.ltb_spec 0 (maxResponseBytes c)).
    - rewrite int64_wrap_id in Eb by lia. cbn [andb] in Es. apply Z.ltb_ge in Es. cbn in Eb.
      destruct (Z.leb_spec (maxResponseBytes c + 1) (Z.of_nat (length (resp_Body h)))).
      + apply Ok_inj in Eb as <-. rewrite length_take in Es. lia.
      + destruct (resp_BodyErr h); [discriminate Eb|]. by apply Ok_inj in Eb as <-.
    - cbn in Eb. destruct (resp_BodyErr h); [discriminate Eb|]. apply Ok_inj in Eb as <-. split_and!; [done|done|lia]. }
  destruct Hb as (-> & Hb & Hl). split_and!; try done.
  apply andb_false_iff in En as [En|En]; [left; by apply negb_false_iff, nonempty_true in En|].
  right. by apply negb_false_iff, Z.eqb_eq in En.
Qed.

(** With the largest limit, one more than it is negative: nothing of a body is read. *)
Lemma largest_limit_reads_nothing {N} (c : Client N) (h : http_Response) (raw : rawHTTPResponse) :
  maxResponseBytes c = 2 ^ 63 - 1 -> accept_response c h = Ok raw -> raw_body raw = [].
Proof.
  intros Hm H. unfold accept_response, read_limit in H. rewrite Hm in H.
  change (0 <? 2 ^ 63 - 1) with true in H. change (int64_wrap (2 ^ 63 - 1 + 1)) with (- 2 ^ 63) in H.
  cbn [andb io_ReadAll] in H.
  assert (Hl : - 2 ^ 63 <=? Z.of_nat (length (resp_Body h)) = true) by (apply Z.leb_le; lia).
  rewrite Hl in H. change (Z.to_nat (- 2 ^ 63)) with 0%nat in H. cbn [take] in H.
  repeat (case_in H; [discriminate H|]). by apply Ok_inj in H as <-.
Qed.

(** The POST of the client, and a transport that is the server. *)
Definition post (der : bytes) : http_Request := mkHTTPRequest "POST" "application/pkixcmp" der None.
Definition served {S} (maxBody : Z) (srv : Server S) (at_ : Time) (c : Client (World S)) : Prop :=
  http_NewRequest (endpoint c) = None /\
  forall der n, Do (httpClient c) der n = ServeHTTP maxBody srv at_ (post der) n.

Lemma read_request_ok maxBody r msg :
  0 <= maxBody -> read_request maxBody r = Ok msg ->
  Method r = "POST" /\ mime_ParseMediaType (req_ContentType r) = Some "application/pkixcmp" /\
  ParsePKIMessage (take (Z.to_nat maxBody) (req_Body r)) = Ok msg.
Proof.
  intros Hmax Er. unfold read_request in Er.
  case_bool_decide as Hm; [|discriminate Er]. destruct (isCMPMediaType _) eqn:Et; [|discriminate Er].
  apply media_type in Et. cbn [negb] in Er.
  destruct (io_ReadAll _ _ _) as [body|] eqn:Eb; [|discriminate Er].
  apply io_ReadAll_bound in Eb as [_ ->]; [|done].
  destruct (ParsePKIMessage _) as [msg'|] eqn:Ep; [|discriminate Er]. injection Er as ->. done.
Qed.

Lemma read_request_err maxBody r h :
  0 <= maxBody -> read_request maxBody r = Err h ->
  (StatusCode h = StatusMethodNotAllowed /\ Method r <> "POST") \/
  (StatusCode h = StatusUnsupportedMediaType /\
   mime_ParseMediaType (req_ContentType r) <> Some "application/pkixcmp") \/
  (StatusCode h = StatusBadRequest /\
   (req_BodyErr r = None -> is_ok (ParsePKIMessage (take (Z.to_nat maxBody) (req_Body r))) = false)).
Proof.
  intros Hmax Er. unfold read_request in Er.
  case_bool_decide as Hm; [|injection Er as <-; auto]. cbn [negb] in Er.
  destruct (isCMPMediaType _) eqn:Et.
  2: { injection Er as <-. right. left. split; [done|]. intros Hc%media_type. congruence. }
  right. right. cbn [negb] in Er.
  destruct (io_ReadAll _ _ _) as [body|] eqn:Eb.
  - apply io_ReadAll_bound in Eb as [_ ->]; [|done].
    destruct (ParsePKIMessage _); [discriminate Er|]. injection Er as <-. done.
  - injection Er as <-. split; [done|]. intros Hb. cbn in Eb. rewrite Hb in Eb. by case_in Eb.
Qed.

Lemma serve_ok {S} maxBody (srv : Server S) at_ r msg resp der w w' :
  read_request maxBody r = Ok msg -> processMessage srv at_ msg w = (w', Ok resp) ->
  snd (MarshalBinary resp) = Ok der ->
  ServeHTTP maxBody srv at_ r w = (w', Ok (mkHTTPResponse StatusOK "application/pkixcmp" der None)).
Proof.
  intros Hr Hp Hm. unfold ServeHTTP. rewrite Hr. unfold st_bind. rewrite Hp. unfold st_ret, write_response.
  by rewrite Hm.
Qed.

Lemma sendHTTP_served {S} maxBody (srv : Server S) at_ (c : Client (World S)) req msg resp der n n' i l :
  served maxBody srv at_ c -> read_request maxBody (post req) = Ok msg ->
  processMessage srv at_ msg n = (n', Ok resp) -> snd (MarshalBinary resp) = Ok der ->
  mime_ParseMediaType "application/pkixcmp" = Some "application/pkixcmp" ->
  maxResponseBytes c < 2 ^ 63 - 1 ->
  (0 < maxResponseBytes c -> Z.of_nat (length der) <= maxResponseBytes c) ->
  exists l', sendHTTP c req (mkNet n i l) = (mkNet n' i l', Ok (mkRawHTTP der StatusOK)).
Proof.
  intros [Hn Hdo] Hr Hp Hm Hmime Hmax Hlen. eexists. unfold sendHTTP. rewrite Hn.
  unfold st_bind at 1, http_Do. rewrite Hdo, (serve_ok _ _ _ _ _ _ _ _ _ Hr Hp Hm). unfold st_lift.
  repeat f_equal. apply (response_accepted c (mkHTTPResponse _ _ _ _)); auto. by apply media_type.
Qed.

End Facts.
