(* ===== verification/ClientProps.v ===== *)
(** * What the client promises

    The certificate an enrollment gives, the revocation an operation reports, the
    bounds on what it sends and waits for, the report of a refused certificate, and the
    octets it reads from the network, with the server at the other end. *)
From S2P Require Import Prelude Failure Errors Asn1 Der Types StatusInfo Enrollment Crmf X509.
From S2P Require Import CertPath Totality Message RevocationMsg Monad Algorithms Protect Verify Keeps Http.
From S2P Require Import Instances CodecProps Transactions Handler Server ServerHTTP ServerExamples.
From S2P Require Import Client ClientEnroll ClientFacts ClientRuns ClientErrors HttpFacts ClientExamples.

Section Props.
Context {CB : Cryptobyte} {GN : GoNames} {GX : GoX509} {GA : GoASN1} {GC : GoCrypto}
  {GP : GoPBMAC1} {GR : GoRandom} {GH : GoHTTP}.

(** C34: an enrollment, with a request made for a key or with a CSR, gives a certificate
    only if a verified response of the same transaction, to the request or to a poll of
    it, granted it; the certificate has the requested key, answers the request and chains
    to the trusted certificates if any are configured; and it was confirmed with one more
    message, and a verified acknowledgement. *)
Theorem enrolled_certificate_checked {N} (c : Client N) (w w' : Net N) (res : EnrollResult) :
  (forall key creds t opts, sendCRMF c key creds t opts w = (w', Ok (Some res)) ->
     exists cr m b l1 l2, creds = Some cr /\ requests_key key m /\ crmf_request_body t [m] = Ok b /\
       history w' = history w ++ l1 ++ l2 /\ length l2 = 1%nat /\
       enrolled c l1 l2 t cr b (Some (Signer_Public key)) res) /\
  (forall der creds opts, SendP10CR c der creds opts w = (w', Ok (Some res)) ->
     exists cr csr k l1 l2, creds = Some cr /\ x509_ParseCertificateRequest der = Some csr /\
       ParsePKIXPublicKey (csr_RawSubjectPublicKeyInfo csr) = Some k /\
       history w' = history w ++ l1 ++ l2 /\ length l2 = 1%nat /\
       enrolled c l1 l2 BodyTypeCP cr (NewP10CRBody csr) (Some k) res).
Proof. split; intros *; [apply sendCRMF_ok | apply SendP10CR_ok]. Qed.

(** C35: a revocation is reported as done only if a verified response of its
    transaction says so, or carries an error message whose status is not an error. *)
Theorem revocation_reported {N} (c : Client N) (crt : option Certificate) (reason : CRLReason)
    (creds : option Credentials) (opts : list RequestOption) (w w' : Net N) :
  SendRR c crt reason creds opts w = (w', Ok tt) ->
  exists cr details req resp vr b l, creds = Some cr /\ NewRevDetails crt reason = Ok details /\
    history w' = history w ++ l /\ protected_by cr req /\ Body req = Some (NewRRBody [details]) /\
    settles c l cr req resp vr /\ Body (message resp) = Some b /\
    (revocation_accepted b \/ hollow_error resp b).
Proof. apply SendRR_ok. Qed.

(** C36: whatever the peer answers, the history of an operation is what happened outside:
    it sends a bounded number of messages, and waits between its polls for the interval
    the CA asked for, clamped to the limits of the configuration without an overflow. *)
Theorem operations_bounded {N} (c : Client N) :
  0 <= minCheckAfter c <= maxCheckAfter c -> maxCheckAfter c < 2 ^ 63 ->
  let within d := minCheckAfter c <= d <= maxCheckAfter c in
  (forall seconds, clampCheckAfter c seconds =
     Z.max (minCheckAfter c) (Z.min (maxCheckAfter c) (seconds * Second))) /\
  (forall key creds t opts, emits c (Z.to_nat (maxPolls c) + 2) within (sendCRMF c key creds t opts)) /\
  (forall csr creds opts, emits c (Z.to_nat (maxPolls c) + 2) within (SendP10CR c csr creds opts)) /\
  (forall crt reason creds opts, emits c (Z.to_nat (maxPolls c) + 1) within (SendRR c crt reason creds opts)).
Proof.
  intros Hl Hm. assert (Hc : forall s, minCheckAfter c <= clampCheckAfter c s <= maxCheckAfter c).
  { intros s. rewrite clamp_reference by done. lia. }
  split_and!; [intros s; by apply clamp_reference | ..]; intros.
  - by apply emits_sendCRMF.
  - by apply emits_SendP10CR.
  - by apply emits_SendRR.
Qed.

(** The checks of a certificate, at one reading of the clock. *)
Definition passes (t : Time) (ids : list Z) (pool : option CertPool) (candidates : list Certificate)
    (key : option PublicKey) (certResp : CertResponse) (crt : Certificate) : Prop :=
  checkCertReqID certResp ids = None /\
  (forall roots, pool = Some roots -> verifyIssuedCertificate t crt roots candidates = None) /\
  checkIssuedKey crt key = None.

(** The first check that fails, as the client reports it. *)
Definition refusal_reason (t : Time) (st : Z) (ids : list Z) (pool : option CertPool)
    (candidates : list Certificate) (key : option PublicKey) (certResp : CertResponse)
    (crt : Certificate) (reason : error) (text : string) : Prop :=
  exists err, reason = wrap_status st err /\
  ((checkCertReqID certResp ids = Some err /\ text = "certReqId does not match the request") \/
   (exists roots e, pool = Some roots /\ verifyIssuedCertificate t crt roots candidates = Some e /\
      err = op_wrap "verify certificate trust" e /\ text = "certificate validation failed") \/
   (checkIssuedKey crt key = Some err /\ text = "certificate does not certify the requested public key")).

(** C37: a granted certificate that fails a check is never accepted: the client answers
    the CA with exactly one message, a certConf that rejects that certificate, in the
    same transaction, and reports the reason, whose failure bits are not affected by what
    the CA says to the rejection. Only if such a message cannot be made is it left out. *)
Theorem refused_certificate_reported {N} (c : Client N) (conf : certConfirmation) (st : Z)
    (certResp : CertResponse) (ids : list Z) (crt : Certificate) (pubs extra : list Certificate)
    (key : option PublicKey) (status : CertStatus) (w w' : Net N) (r : result (option EnrollResult)) :
  let t := time_Now (httpClient c) (net w) in
  ~ passes t ids (conf_trustPool conf) (extra ++ pubs) key certResp crt ->
  NewCertStatus crt (cr_CertReqID certResp) = Ok status ->
  finish_enrollment c conf st certResp ids crt pubs extra key w = (w', r) ->
  exists e reason text, r = Err e /\
    refusal_reason t st ids (conf_trustPool conf) (extra ++ pubs) key certResp crt reason text /\
    ((certConf_sent conf (refusing_status status text) w w' /\
      forall info, HasFailure e info = HasFailure reason info) \/
     (history w' = history w /\ unsendable c conf (refusing_status status text) w)).
Proof.
  intros t Hno Hs H. unfold finish_enrollment in H.
  destruct (checkCertReqID certResp ids) as [err|] eqn:Ei.
  { apply (rejectCertificate_run _ _ _ _ _ _ _ _ _ _ Hs) in H as (e & -> & H).
    eexists e, _, _. split; [done|]. split; [|exact H]. exists err. auto. }
  apply st_bind_cases in H as [(w1 & trust & Et & H)|(e & Et & _)].
  2: { by destruct (conf_trustPool conf). }
  assert (Ht : w1 = w /\ trust = match conf_trustPool conf with
            | Some roots => verifyIssuedCertificate t crt roots (extra ++ pubs) | None => None end).
  { destruct (conf_trustPool conf); by injection Et as <- <-. }
  destruct Ht as [-> Ev]. destruct trust as [e'|].
  { destruct (conf_trustPool conf) as [roots|] eqn:Er; [|discriminate Ev].
    apply (rejectCertificate_run _ _ _ _ _ _ _ _ _ _ Hs) in H as (e & -> & H).
    eexists e, _, _. split; [done|]. split; [|exact H]. eexists. split; [done|]. right. left.
    exists roots, e'. done. }
  destruct (checkIssuedKey crt key) as [err|] eqn:Ek.
  { apply (rejectCertificate_run _ _ _ _ _ _ _ _ _ _ Hs) in H as (e & -> & H).
    eexists e, _, _. split; [done|]. split; [|exact H]. exists err. auto. }
  destruct Hno. split_and!; [done| |done]. intros roots Hr. by rewrite Hr in Ev.
Qed.

(** C11: an operation that fails says so with an error of the client, or with the status
    of the peer, which it carries only if the peer reported it in a response that was
    verified with the credentials: a failure bit [HasFailure] finds in an error is always
    authenticated, whatever came over the network before. Every run comes to an end, and
    it ends in a panic for three reasons only: a nil among the extra certificates of the
    configuration, a verified answer to a poll that is an error message without an error,
    or a certificate to revoke whose serial number is too long for DER. What runs outside
    of the repository is taken to make no errors of its own that pass for those, and not
    to panic. *)
Theorem operation_errors {L : CryptobyteLaws CB} {N A} (c : Client N) (creds : option Credentials)
    (crt : option Certificate) (op : ST (Net N) A) (w w' : Net N) (e : error) :
  outside_errors c -> operation c creds crt op -> op w = (w', Err e) ->
  exists l, history w' = history w ++ l /\
    (forall st, errors_As as_PKIStatusError e = Some st -> reported c creds l st) /\
    (forall info, HasFailure e info = true ->
       exists st, reported c creds l st /\ Z.land (snd st) info <> 0) /\
    e <> OutOfFuel /\
    (e = GoPanic -> None ∈ cl_extraCerts c \/ hollow_poll c creds l \/ serial_overlong crt).
Proof.
  intros Ho Hop Hr. destruct (operation_blames c Ho creds A crt op Hop _ _ _ Hr) as (l & Hh & He).
  exists l. split; [done|]. cbn [app] in He.
  assert (Hst : forall st, errors_As as_PKIStatusError e = Some st -> reported c creds l st).
  { intros st Hs. destruct He as [[H|(st' & H & _ & Hp)]|[-> _]]; [|congruence|done].
    by rewrite (own_no_status _ H) in Hs. }
  split_and!; [done | | |].
  - intros info Hf. unfold HasFailure in Hf.
    destruct (errors_As as_PKIStatusError e) as [[[s t] f]|]; [|done].
    exists (s, t, f). split; [by apply Hst|]. simpl. by apply negb_true_iff, Z.eqb_neq in Hf.
  - destruct He as [[H|(st & H & _)]|[-> _]]; [by intros -> | by intros -> | done].
  - intros Hp. destruct He as [H|[_ H]]; [by destruct (blameless_no_panic _ _ _ _ H) | done].
Qed.

(** C38: the client hands on a body only of a response of class 2xx, 4xx or 5xx with the
    CMP media type, complete and within the configured size, and with a body at all
    unless it is a 200; and every such response is handed on as it was received. *)
Theorem responses_screened {N} (c : Client N) (h : http_Response) (raw : rawHTTPResponse) :
  maxResponseBytes c < 2 ^ 63 - 1 ->
  accept_response c h = Ok raw <->
  raw = mkRawHTTP (resp_Body h) (StatusCode h) /\ resp_BodyErr h = None /\
  (0 < maxResponseBytes c -> Z.of_nat (length (resp_Body h)) <= maxResponseBytes c) /\
  (200 <= StatusCode h < 300 \/ 400 <= StatusCode h < 600) /\
  mime_ParseMediaType (ContentType h) = Some "application/pkixcmp" /\
  (resp_Body h <> [] \/ StatusCode h = StatusOK).
Proof.
  intros Hm. rewrite <- supports_classes, <- media_type. split; [by apply accept_response_inv|].
  intros (-> & Hb & Hl & Hs & Ht & Hn). by apply response_accepted.
Qed.

(** C39: over HTTP the server answers messages and nothing else: a request that is no
    POST, has another media type or does not parse changes nothing and gets an error
    status; any other gets the octets of the response to its message, and a client whose
    transport is this server reads exactly those octets. *)
Theorem http_carries_messages {S} (maxBody : Z) (srv : Server S) (at_ : Time) (r : http_Request)
    (w : World S) :
  0 <= maxBody -> mime_ParseMediaType "application/pkixcmp" = Some "application/pkixcmp" ->
  match read_request maxBody r with
  | Err h => ServeHTTP maxBody srv at_ r w = (w, Ok h) /\
      ((StatusCode h = StatusMethodNotAllowed /\ Method r <> "POST") \/
       (StatusCode h = StatusUnsupportedMediaType /\
        mime_ParseMediaType (req_ContentType r) <> Some "application/pkixcmp") \/
       (StatusCode h = StatusBadRequest /\
        (req_BodyErr r = None -> is_ok (ParsePKIMessage (take (Z.to_nat maxBody) (req_Body r))) = false)))
  | Ok msg => ParsePKIMessage (take (Z.to_nat maxBody) (req_Body r)) = Ok msg /\
      forall w' resp der, processMessage srv at_ msg w = (w', Ok resp) ->
        snd (MarshalBinary resp) = Ok der ->
        ServeHTTP maxBody srv at_ r w = (w', Ok (mkHTTPResponse StatusOK "application/pkixcmp" der None)) /\
        forall (c : Client (World S)) (req : bytes) (i : nat) (l : list net_event),
          r = post req -> served maxBody srv at_ c -> maxResponseBytes c < 2 ^ 63 - 1 ->
          (0 < maxResponseBytes c -> Z.of_nat (length der) <= maxResponseBytes c) ->
          exists l', sendHTTP c req (mkNet w i l) = (mkNet w' i l', Ok (mkRawHTTP der StatusOK))
  end.
Proof.
  intros Hmax Hmime. destruct (read_request maxBody r) as [msg|h] eqn:Er.
  - split; [by apply read_request_ok in Er as (_ & _ & ?)|]. intros w' resp der Hp Hm.
    split; [by eapply serve_ok|]. intros c req i l -> Hs Hb Hl. by eapply sendHTTP_served.
  - split; [|by apply read_request_err]. unfold ServeHTTP. by rewrite Er.
Qed.

End Props.

(** ** Runs *)

#[local] Abbreviation device_session :=
  (sendCRMF toy_client 3 (Some (CredMAC toy_pbm)) BodyTypeIP
     [WithTemplateSubject (toy_subject "device"); WithSenderName (toy_subject "client")] toy_net).
#[local] Abbreviation leaf_revocation :=
  (SendRR toy_client (Some ex_leaf) CRLReasonSuperseded (Some (CredSignature toy_credentials)) []
     toy_net).
#[local] Abbreviation device_refusal :=
  (finish_enrollment toy_client toy_conf 200 toy_granted [0] ex_leaf [] [] (Some (ex_public 3))
     (mkNet (fst toy_enrolled) 100 [])).

Lemma enrolled_certificate_checked_witness :
  exists res cr m b l1 l2,
    snd (device_session) = Ok (Some res) /\ CommonName (Subject (er_Certificate res)) = "device" /\
    Some (CredMAC toy_pbm) = Some cr /\ requests_key 3 m /\ crmf_request_body BodyTypeIP [m] = Ok b /\
    history (fst (device_session)) = history toy_net ++ l1 ++ l2 /\ length l2 = 1%nat /\
    enrolled toy_client l1 l2 BodyTypeIP cr b (Some (Signer_Public 3)) res.
Proof.
  assert (Hn : match snd device_session with
               | Ok (Some res) => CommonName (Subject (er_Certificate res)) | _ => "" end = "device")
    by (vm_compute; reflexivity).
  destruct device_session as [w' [[res|]|e]] eqn:E; try discriminate Hn.
  destruct (enrolled_certificate_checked toy_client toy_net w' res) as [Hcrmf _].
  destruct (Hcrmf 3 (Some (CredMAC toy_pbm)) BodyTypeIP
      [WithTemplateSubject (toy_subject "device"); WithSenderName (toy_subject "client")] E)
    as (cr & m & b & l1 & l2 & H).
  exists res, cr, m, b, l1, l2. split; [reflexivity|]. split; [exact Hn | exact H].
Defined.

Lemma revocation_reported_witness :
  exists cr details req resp vr b l, Some (CredSignature toy_credentials) = Some cr /\
    NewRevDetails (Some ex_leaf) CRLReasonSuperseded = Ok details /\
    history (fst leaf_revocation) = history toy_net ++ l /\ protected_by cr req /\
    Body req = Some (NewRRBody [details]) /\ settles toy_client l cr req resp vr /\
    Body (message resp) = Some b /\ (revocation_accepted b \/ hollow_error resp b).
Proof.
  assert (Hok : snd leaf_revocation = Ok tt) by (vm_compute; reflexivity).
  destruct leaf_revocation as [w' r] eqn:E. cbn [snd] in Hok. subst r.
  cbn [fst].
  exact (revocation_reported toy_client (Some ex_leaf) CRLReasonSuperseded
           (Some (CredSignature toy_credentials)) [] toy_net w' E).
Defined.

Lemma operations_bounded_witness :
  emits toy_client 62 (fun d => DefaultMinCheckAfter <= d <= DefaultMaxCheckAfter)
    (sendCRMF toy_client 3 (Some (CredMAC toy_pbm)) BodyTypeIP []) /\
  clampCheckAfter toy_client (2 ^ 62) = DefaultMaxCheckAfter.
Proof.
  destruct (operations_bounded toy_client) as (Hc & He & _).
  - vm_compute. split; discriminate.
  - reflexivity.
  - split; [exact (He 3 (Some (CredMAC toy_pbm)) BodyTypeIP []) | rewrite Hc; reflexivity].
Defined.

Lemma refused_certificate_reported_witness :
  exists e reason text, snd device_refusal = Err e /\
    refusal_reason toy_now 200 [0] None [] (Some (ex_public 3)) toy_granted ex_leaf reason text /\
    ((certConf_sent toy_conf (refusing_status toy_status text) (mkNet (fst toy_enrolled) 100 [])
        (fst device_refusal) /\ forall info, HasFailure e info = HasFailure reason info) \/
     (history (fst device_refusal) = [] /\
      unsendable toy_client toy_conf (refusing_status toy_status text) (mkNet (fst toy_enrolled) 100 []))).
Proof.
  assert (Hs : NewCertStatus ex_leaf 0 = Ok toy_status) by (vm_compute; reflexivity).
  assert (Hk : is_nil (checkIssuedKey ex_leaf (Some (ex_public 3))) = false) by (vm_compute; reflexivity).
  destruct device_refusal as [w' r] eqn:E. cbn [fst snd].
  refine (refused_certificate_reported toy_client toy_conf 200 toy_granted [0] ex_leaf [] []
           (Some (ex_public 3)) toy_status (mkNet (fst toy_enrolled) 100 []) w' r _ Hs E).
  intros (_ & _ & H). rewrite H in Hk. discriminate Hk.
Defined.

(** The transport of [error_client] keeps the assumption on what is outside. *)
Lemma error_client_outside si : outside_errors (error_client si).
Proof.
  assert (Hdo : forall der n, snd (Do (httpClient (error_client si)) der n)
                = match ParsePKIMessage der with
                  | Ok req => Ok (write_response (toy_error si req))
                  | Err e => Err e
                  end) by reflexivity.
  constructor; [done | | | done | done |].
  - intros der n. rewrite Hdo. pose proof (total_spec (u := ParsePKIMessage) der) as Hp.
    by destruct (ParsePKIMessage der).
  - intros der n h e. rewrite Hdo. destruct (ParsePKIMessage der) as [req|]; [|done].
    intros H He. exfalso. assert (Hn : resp_BodyErr (write_response (toy_error si req)) = None).
    { unfold write_response. generalize (snd (MarshalBinary (toy_error si req))). by intros []. }
    injection H as H. congruence.
  - intros crt roots inter t. cbn. unfold ex_verify. by repeat case_match.
Qed.

Lemma operation_errors_witness :
  exists e st, snd (SendIR refused_client 3 (Some (CredSignature toy_credentials)) [] toy_net) = Err e /\
    HasFailure e FailBadPOP = true /\ Z.land (snd st) FailBadPOP <> 0 /\
    reported refused_client (Some (CredSignature toy_credentials))
      (history (fst (SendIR refused_client 3 (Some (CredSignature toy_credentials)) [] toy_net))) st.
Proof.
  assert (He : match snd (SendIR refused_client 3 (Some (CredSignature toy_credentials)) [] toy_net) with
               | Err e => HasFailure e FailBadPOP | Ok _ => false end = true) by (vm_compute; reflexivity).
  destruct (SendIR refused_client 3 (Some (CredSignature toy_credentials)) [] toy_net)
    as [w' [r|e]] eqn:E; [discriminate He|]. cbn [fst snd] in He |- *.
  destruct (operation_errors refused_client (Some (CredSignature toy_credentials)) None _ _ _ _
              (error_client_outside _) (op_CRMF _ _ 3 BodyTypeIP []) E) as (l & Hl & _ & Hf & _).
  destruct (Hf _ He) as (st & Hr & Hz). exists e, st. rewrite Hl.
  split; [reflexivity|]. split; [exact He|]. split; [exact Hz | exact Hr].
Defined.

Lemma responses_screened_witness :
  let h := mkHTTPResponse 404 "application/pkixcmp" [48; 0] None in
  accept_response toy_client h = Ok (mkRawHTTP [48; 0] 404) /\
  ~ (accept_response toy_client (mkHTTPResponse 302 "application/pkixcmp" [48; 0] None)
     = Ok (mkRawHTTP [48; 0] 302)).
Proof.
  assert (Hm : maxResponseBytes toy_client < 2 ^ 63 - 1) by (vm_compute; reflexivity). split.
  - apply (responses_screened toy_client _ _ Hm). cbn [resp_Body resp_BodyErr StatusCode ContentType].
    split_and!; [done | done | intros _; vm_compute; discriminate | lia | done | by left].
  - intros H. apply (responses_screened toy_client _ _ Hm) in H as (_ & _ & _ & Hc & _).
    cbn [StatusCode] in Hc. lia.
Defined.

Lemma http_carries_messages_witness :
  exists msg, read_request 2000 (post (ex_encoding toy_device)) = Ok msg /\
    ParsePKIMessage (ex_encoding toy_device) = Ok msg.
Proof.
  assert (Hok : is_ok (read_request 2000 (post (ex_encoding toy_device))) = true)
    by (vm_compute; reflexivity).
  assert (Ht : take (Z.to_nat 2000) (req_Body (post (ex_encoding toy_device)))
               = ex_encoding toy_device) by (vm_compute; reflexivity).
  pose proof (http_carries_messages 2000 toy_server toy_now
    (post (ex_encoding toy_device)) toy_world ltac:(vm_compute; discriminate) eq_refl) as H.
  destruct (read_request _ _) as [msg|h]; [|discriminate Hok]. destruct H as [H _].
  rewrite Ht in H. exists msg. split; [reflexivity | exact H].
Defined.

(** An error message whose status is no error passes for success. *)
Lemma hollow_error_accepted :
  snd (SendRR hollow_client (Some ex_leaf) CRLReasonSuperseded
         (Some (CredSignature toy_credentials)) [] toy_net) = Ok tt /\
  snd (SendIR hollow_client 3 (Some (CredSignature toy_credentials)) [] toy_net) = Ok None.
Proof. by vm_compute. Qed.
