(* ===== verification/Agreement.v ===== *)
(** * The agreement of client and server

    A client whose transport is the server: the octets of a message are those of one
    message only, so what the client sent is what the server confirmed. *)
From S2P Require Import Prelude Failure Errors Asn1 Asn1Facts Der Types TypesFacts StatusInfo Enrollment.
From S2P Require Import EnrollmentFacts Crmf X509 CertPath Message MessageFacts BodyFacts.
From S2P Require Import RevocationMsg Monad Algorithms Protect Verify Keeps Http.
From S2P Require Import Instances CodecProps Transactions TransactionsFacts Handler ServerRequest CAHandler.
From S2P Require Import Server ServerHTTP ServerFacts ServerRuns ServerSafety ServerExamples.
From S2P Require Import Client ClientEnroll ClientFacts ClientRuns HttpFacts ClientExamples.

Section Octets.
Context {CB : Cryptobyte} {L : CryptobyteLaws CB} {GN : GoNames} {GX : GoX509}.

(** An element cut short is no element. *)
Lemma cut_element e t c t' e' c' n :
  tlv t c = Some e -> read_any (take n e) = Some (t', e', c', []) -> take n e = e.
Proof.
  intros He Hr. destruct (read_any_split _ _ _ _ _ Hr) as [Hs _]. rewrite app_nil_r in Hs.
  apply read_any_tlv in Hr. rewrite <- Hs in Hr.
  pose proof (tlv_read _ _ _ (drop n e) Hr) as H1. rewrite take_drop in H1.
  pose proof (tlv_read _ _ _ [] He) as H2. rewrite app_nil_r in H2. congruence.
Qed.

Lemma parse_whole s m :
  ParsePKIMessage s = Ok m -> exists t e c, read_any s = Some (t, e, c, []).
Proof.
  unfold ParsePKIMessage, ReadASN1. intros H.
  destruct (read_any s) as [[[[t e] c] rest]|]; [|discriminate H]. cbn in H.
  destruct (t =? SEQUENCE); [|discriminate H]. cbn [of_option res_bind] in H. split_res.
  case_in H; [discriminate H|]. case_in H; [discriminate H|].
  exists t, e, c. by destruct rest.
Qed.

Lemma MarshalBinary_element m e : snd (MarshalBinary m) = Ok e -> exists c, tlv SEQUENCE c = Some e.
Proof.
  unfold MarshalBinary. destruct (Body m) as [b|]; [|discriminate].
  unfold marshal_parts. destruct (Bytes (PKIBody_marshal b)); [|discriminate]. cbn [snd].
  intros (c & _ & H)%bout_AddASN1. eauto.
Qed.

(** Of an encoded message nothing shorter is a message. *)
Lemma cut_message m e n m' :
  snd (MarshalBinary m) = Ok e -> ParsePKIMessage (take n e) = Ok m' -> take n e = e.
Proof.
  intros [c He]%MarshalBinary_element (t & e' & c' & Hr)%parse_whole. by eapply cut_element.
Qed.

(** The body of a message is received, whatever its header. *)
Lemma received_body m b e m' :
  Body m = Some b -> dirty b = true -> ContextSpecific (Type_ b) = Type_ b ->
  snd (MarshalBinary m) = Ok e -> ParsePKIMessage e = Ok m' ->
  exists raw, bout (PKIBody_marshal b) = Ok raw /\
    Body m' = Some (mkPKIBody (Type_ b) raw false None None).
Proof.
  intros Hb Hd Ht Hm Hp. unfold MarshalBinary in Hm. rewrite Hb in Hm. unfold marshal_parts, Bytes in Hm.
  destruct (bout (PKIBody_marshal b)) as [raw|] eqn:EB; [|discriminate Hm]. cbn [snd] in Hm.
  exists raw. split; [done|]. destruct (dirty_body_tlv b raw Hd EB) as (ct & Hct).
  apply bout_AddASN1 in Hm as (c & Hc & Hm).
  apply bout_seq in Hc as (rawH & c' & Hh & (rawB & tr & HB & _ & ->)%bout_seq & ->).
  apply bout_AddBytes in HB as ->. unfold ParsePKIMessage in Hp.
  rewrite <- (app_nil_r e), (ReadASN1_tlv _ _ _ [] Hm) in Hp. cbn [of_option res_bind] in Hp.
  destruct (ReadAnyASN1Element_element rawH (raw ++ tr) (PKIHeader_element _ _ Hh)) as [t1 Hr1].
  rewrite Hr1 in Hp. cbn [of_option res_bind] in Hp.
  destruct (PKIHeader_unmarshal rawH) as [hd|]; [|discriminate Hp]. cbn [res_bind] in Hp.
  destruct (ReadAnyASN1Element_element raw tr ltac:(by exists (Type_ b), ct)) as [t2 Hr].
  rewrite Hr in Hp. cbn [of_option res_bind] in Hp.
  rewrite (PKIBody_unmarshal_tlv _ _ _ Hct Ht) in Hp. cbn [res_bind] in Hp. split_res.
  repeat (case_in Hp; [discriminate Hp|]). by apply Ok_inj in Hp as <-.
Qed.

Lemma certConf_read status raw :
  CertStatus_wf status -> bout (PKIBody_marshal (NewCertConfBody [status])) = Ok raw ->
  snd (CertConf (mkPKIBody BodyTypeCertConf raw false None None)) = Ok [status].
Proof.
  intros Hwf Hr. pose proof (body_rt (C_certConf [status]) raw ltac:(by constructor) Hr) as H. unfold get_body in H.
  cbn [Type_ BodyFacts.body_of NewCertConfBody new_body] in H.
  repeat match type of H with context [?a =? ?b] =>
    let v := eval vm_compute in (a =? b) in change (a =? b) with v in H end.
  cbv iota in H.
  match type of H with res_map _ ?x = _ => destruct x; [|discriminate H] end. by injection H as <-.
Qed.

Lemma received_certConf m status e m' :
  Body m = Some (NewCertConfBody [status]) -> CertStatus_wf status ->
  snd (MarshalBinary m) = Ok e -> ParsePKIMessage e = Ok m' ->
  exists b, Body m' = Some b /\ Type_ b = BodyTypeCertConf /\ snd (CertConf b) = Ok [status].
Proof.
  intros Hb Hwf Hm Hp. destruct (received_body _ _ _ _ Hb eq_refl eq_refl Hm Hp) as (raw & Hr & Hb').
  eexists. split; [exact Hb'|]. split; [done|]. by apply certConf_read.
Qed.
End Octets.

Section Agreement.
Context {CB : Cryptobyte} {L : CryptobyteLaws CB} {GN : GoNames} {GX : GoX509} {GA : GoASN1}
  {GC : GoCrypto} {GP : GoPBMAC1} {GR : GoRandom} {GH : GoHTTP}.
Context {S : Type} (srv : Server S) (at_ : Time).

(** ** The server *)

(** The server, in the state [n], took [msg] as the confirmation [status] of a
    certificate it had issued to the sender: the message is authentic, the certificate
    has the hash in [status], the handler accepted, and the transaction is over. *)
Definition confirmation_taken (n n' : World S) (msg : PKIMessage) (status : CertStatus) : Prop :=
  exists sender credID entry crt r,
    authenticated srv at_ (ca_state n) msg sender /\ credentialID sender = Ok credID /\
    getIssued credID (TransactionID (Header msg)) (tracker n) = Some entry /\
    cert entry = Some crt /\ CertificateHash status crt = Ok (CertHash status) /\
    certReqIDMatches entry (cs_CertReqID status) = true /\
    RecipNonce (Header msg) = issuedSenderNonce entry /\
    handler srv (issued_context (server_context srv context_Background) entry) msg sender (ca_state n)
      = (ca_state n', Ok r) /\
    tracker n' = fst (delete_txn credID (TransactionID (Header msg)) (tracker n)).

(** A certConf is refused before it is looked at, or handled as it came. *)
Lemma certConf_processed msg b n n' resp :
  Body msg = Some b -> Type_ b = BodyTypeCertConf ->
  processMessage srv at_ msg n = (n', Ok resp) ->
  refusal resp \/
  exists sender k, verified srv at_ (ca_state n) msg b sender /\
    handleCertConf srv at_ (server_context srv context_Background) msg sender (drawn k n) = (n', Ok resp).
Proof.
  intros Hb Ht H. apply process_cases in H as [[_ H]|(b' & sender & Hv & H)]; [by left|].
  assert (b' = b) as -> by (destruct Hv; congruence). rewrite Ht in H.
  destruct H as [[_ H]|[H _]]; [|discriminate H]. unfold process_verified in H. cbn [st_bind st_ret] in H.
  apply st_bind_ok in H as (w1 & [ms err] & Hh & H). destruct err as [e|].
  { apply buildErrorResponse_refused in H as [_ H]. by left. }
  unfold validateHeader, body_type in Hh. rewrite Hb in Hh. unfold st_bind at 1, st_lift at 1 in Hh.
  rewrite Ht in Hh. change (isInitialRequest BodyTypeCertConf) with false in Hh. cbn [negb] in Hh.
  rewrite orb_true_r, andb_true_r in Hh.
  destruct (nonempty (TransactionID (Header msg))) eqn:En; cbn [negb] in Hh; [|discriminate Hh].
  apply st_bind_ok in Hh as (w2 & m1 & H1 & Hh). injection H1 as <- <-.
  apply st_bind_ok in Hh as (w3 & r & H2 & Hh). injection Hh as <- <- Hr.
  destruct r as [[]|]; [|discriminate Hr]. apply call_returns in H2 as [H2 _].
  apply admit_transaction_ok in H2 as (_ & credID & _ & Hw & Htr). cbn in Htr.
  right. exists sender, 0%nat. split; [done|]. rewrite drawn_0.
  replace w3 with n in H by (destruct n; by rewrite Hw, Htr).
  exact H.
Qed.

Lemma certConf_taken msg b status n n' resp :
  Body msg = Some b -> Type_ b = BodyTypeCertConf -> snd (CertConf b) = Ok [status] ->
  processMessage srv at_ msg n = (n', Ok resp) ->
  confirmation_taken n n' msg status \/ refusal resp.
Proof.
  intros Hb Ht Hc H. destruct (certConf_processed _ _ _ _ _ Hb Ht H) as [Hr|(sender & k & Hv & Hh)];
    [by right|].
  apply handleCertConf_cases in Hh as [[_ Hr]|(credID & conf & entry & r & Hcf & Hh & Hr)]; [by right|].
  destruct Hcf as [(b' & Hb' & Hconf) _ Hcred Hentry Hg]. rewrite Hb in Hb'. injection Hb' as <-.
  rewrite Hc in Hconf. injection Hconf as <-.
  destruct r as [r|e]; [|right; by eapply protected_as_refusal, Hr]. left.
  destruct (certConf_guards_ok _ _ _ _ _ Hg) as [[Hn _] Hhash _ _].
  destruct (Hhash status ltac:(by left)) as (crt & Hcrt & Hch & Hid & _).
  exists sender, credID, entry, crt, r. destruct Hr as [Hr _]. split_and!; try done.
  by eapply verifyProtection_sound, Hv.
Qed.

(** A response a client reads is the one the server made for what it sent. *)
Lemma serve_inv maxBody der n n' h m :
  0 <= maxBody -> mime_ParseMediaType "text/plain; charset=utf-8" <> Some "application/pkixcmp" ->
  snd (MarshalBinary m) = Ok der -> isCMPMediaType (ContentType h) = true ->
  ServeHTTP maxBody srv at_ (post der) n = (n', Ok h) ->
  exists msg resp, ParsePKIMessage der = Ok msg /\ processMessage srv at_ msg n = (n', Ok resp) /\
    snd (MarshalBinary resp) = Ok (resp_Body h).
Proof.
  intros Hmax Hplain Hm Ht H. unfold ServeHTTP in H.
  assert (He : forall text code, isCMPMediaType (ContentType (http_Error text code)) = false).
  { intros text code. apply not_true_iff_false. by rewrite media_type. }
  destruct (read_request maxBody (post der)) as [msg|refusal] eqn:Er.
  - apply read_request_ok in Er as (_ & _ & Hp); [|done]. cbn [req_Body post] in Hp.
    pose proof (cut_message _ _ _ _ Hm Hp) as Hcut. rewrite Hcut in Hp.
    apply st_bind_ok in H as (n1 & resp & Hr & H). injection H as <- <-. exists msg, resp.
    split_and!; [done | done |]. unfold write_response in *.
    destruct (snd (MarshalBinary resp)); [done | by rewrite He in Ht].
  - injection H as _ <-. exfalso. unfold read_request in Er.
    repeat match type of Er with
      | (if ?b then _ else _) = _ => destruct b
      | match ?x with Ok _ => _ | Err _ => _ end = _ => destruct x
      end; try discriminate Er; injection Er as <-; by rewrite He in Ht.
Qed.

(** ** The client *)

Context (c : Client (World S)).

Inductive enrollment : ST (Net (World S)) (option EnrollResult) -> Prop :=
| by_key key creds t opts : enrollment (sendCRMF c key creds t opts)
| by_request der creds opts : enrollment (SendP10CR c der creds opts).

Lemma enrollment_steps op w :
  enrollment op -> exists l, history (fst (op w)) = history w ++ l /\
    steps c (net w) l (net (fst (op w))).
Proof.
  intros H. assert (He : exists k, emits c k (fun _ => True) op).
  { destruct H; eexists; [by apply emits_sendCRMF | by apply emits_SendP10CR]. }
  destruct He as [k He]. destruct (He w) as (l & Hh & Hs & _). eauto.
Qed.

(** The certReqIds of a request of the client. *)
Lemma crmf_request_ids key m t b :
  requests_key key m -> crmf_request_body t [m] = Ok b -> snd (answeringCertReqIDs b) = Ok [0].
Proof.
  intros (random & req & Hm & Hid & _) Hb. assert (He : CertReq m = req).
  { unfold GeneratePOP in Hm. destruct (Bytes _); [|discriminate Hm]. split_res.
    destruct (Signer_Sign _ _ _ _); [|discriminate Hm]. by apply Ok_inj in Hm as <-. }
  unfold crmf_request_body in Hb. rewrite <- Hid, <- He.
  repeat (case_in Hb; [by apply Ok_inj in Hb as <-|]). discriminate Hb.
Qed.

Lemma NewCertStatus_wf crt id status :
  int64_ok id = true -> NewCertStatus crt id = Ok status -> CertStatus_wf status.
Proof.
  intros Hid H. unfold NewCertStatus in H.
  assert (Hgen : forall hash alg s, @Ok error _ (mkCertStatus hash id None alg) = Ok s ->
            opt_wf AlgorithmIdentifier_wf alg -> CertStatus_wf s).
  { intros hash alg s [= <-] Ha. done. }
  destruct (cert_SignatureAlgorithm crt);
    first [ eapply Hgen; [exact H | by split; [|left]]
          | apply res_bind_ok in H as (hash & _ & H); eapply Hgen; [exact H|];
            destruct (compositex509_SignatureAlgorithm _); [|done];
            split; [by destruct (composite_PreHash _) | by left] ].
Qed.

(** The confirmation that ends a successful enrollment. *)
Lemma enrollment_confirmed op w w' res :
  enrollment op -> op w = (w', Ok (Some res)) ->
  exists id l e status creds roots req resp,
    history w' = history w ++ l ++ [e] /\ steps c (net w) (l ++ [e]) (net w') /\
    int64_ok id = true /\ NewCertStatus (er_Certificate res) id = Ok status /\
    confirmed c [e] creds roots req resp status.
Proof.
  intros Hop H. destruct (enrollment_steps op w Hop) as (l & Hh & Hs). rewrite H in Hh, Hs. cbn [fst] in *.
  assert (Hx : exists creds b t key l1 l2 ids, history w' = history w ++ l1 ++ l2 /\ length l2 = 1%nat /\
    enrolled c l1 l2 t creds b key res /\ snd (answeringCertReqIDs b) = Ok ids /\
    Forall (fun id => int64_ok id = true) ids).
  { destruct Hop.
    - apply sendCRMF_ok in H as (cr & m & b & l1 & l2 & _ & Hk & Hb & H).
      pose proof (crmf_request_ids _ _ _ _ Hk Hb). exists cr, b, t, (Some (Signer_Public key)), l1, l2, [0].
      split_and!; try apply H; [done | by repeat constructor].
    - apply SendP10CR_ok in H as (cr & csr & k & l1 & l2 & _ & _ & _ & H).
      exists cr, (NewP10CRBody csr), BodyTypeCP, (Some k), l1, l2, [-1; 0].
      split_and!; try apply H; [done | by repeat constructor]. }
  destruct Hx as (creds & b & t & key & l1 & l2 & ids & Hh' & Hl & He & Hids & Hok).
  destruct l2 as [|e [|]]; try discriminate Hl. rewrite Hh' in Hh. apply app_inv_head in Hh as <-.
  destruct He as (ids' & req & resp & vr & body & certResp & rep & status & Hids' & _ & _ & _ & _ & _ & _ & _ & _ & _ & Ha & Hst & Hc).
  rewrite Hids in Hids'. apply Ok_inj in Hids' as <-. rewrite Forall_forall in Hok.
  exists (cr_CertReqID certResp), l1, e, status, creds, (enrollmentTrustPool c vr (er_CAPubs res)), req, resp.
  split_and!; try done. apply Hok, Ha.
Qed.
End Agreement.

Section Props.
Context {CB : Cryptobyte} {L : CryptobyteLaws CB} {GN : GoNames} {GX : GoX509} {GA : GoASN1}
  {GC : GoCrypto} {GP : GoPBMAC1} {GR : GoRandom} {GH : GoHTTP}.

(** C40: what a client holds is what its server confirmed. When a client whose transport
    is the server is given a certificate, its last message was a certConf with the hash of
    that certificate, which the server read as it was sent; the server found it authentic
    and took it as the confirmation of a certificate it had issued, which has that very
    hash, and closed the transaction; unless it answered with an error message whose
    status is not an error, which passes for success. *)
Theorem parties_agree {S} (maxBody : Z) (srv : Server S) (at_ : Time) (c : Client (World S))
    (op : ST (Net (World S)) (option EnrollResult)) (w w' : Net (World S)) (res : EnrollResult) :
  0 <= maxBody -> served maxBody srv at_ c -> maxResponseBytes c < 2 ^ 63 - 1 ->
  mime_ParseMediaType "text/plain; charset=utf-8" <> Some "application/pkixcmp" ->
  enrollment c op -> op w = (w', Ok (Some res)) ->
  exists id status conf der h msg n l,
    NewCertStatus (er_Certificate res) id = Ok status /\
    Body conf = Some (NewCertConfBody [status]) /\ snd (MarshalBinary conf) = Ok der /\
    history w' = history w ++ l ++ [Exchanged der (Ok h)] /\ steps c (net w) l n /\
    ParsePKIMessage der = Ok msg /\ (exists resp, processMessage srv at_ msg n = (net w', Ok resp)) /\
    (confirmation_taken srv at_ n (net w') msg status \/
     exists ack b, ParsePKIMessage (resp_Body h) = Ok (message ack) /\ Body (message ack) = Some b /\
       hollow_error ack b).
Proof.
  intros Hmax [_ Hdo] Hbytes Hplain Hop H.
  destruct (enrollment_confirmed c op w w' res Hop H)
    as (id & l & e & status & creds & roots & req & resp & Hh & Hs & Hid & Hst & Hc).
  destruct Hc as (conf & ack & vr & b & (_ & Hb & _) & _ & Ha & _ & Hack & Hend).
  destruct Ha as (der & t & known & Hm & (h & raw & He & Hacc & Hp & _) & _).
  apply list_elem_of_singleton in He as <-. apply steps_split in Hs as (n & Hs & Hlast).
  inversion Hlast as [|? n1 ? ? ? ? Hx Hnil|]; subst. inversion Hnil; subst. rewrite Hdo in Hx.
  apply accept_response_inv in Hacc as (-> & _ & _ & _ & Ht & _); [|done]. cbn [raw_body] in Hp.
  destruct (serve_inv _ _ _ _ _ _ _ _ Hmax Hplain Hm Ht Hx) as (msg & answer & Hmsg & Hrun & Henc).
  exists id, status, conf, der, h, msg, n, l. split_and!; try done; [by exists answer|].
  pose proof (NewCertStatus_wf _ _ _ Hid Hst) as Hwf.
  destruct (received_certConf _ _ _ _ Hb Hwf Hm Hmsg) as (bc & Hbc & Htc & Hcontent).
  destruct (certConf_taken _ _ _ _ _ _ _ _ Hbc Htc Hcontent Hrun) as [Htaken|[si Href]]; [by left|].
  right. exists ack, b. split_and!; [done | done |]. destruct Hend as [Hend|Hend]; [|exact Hend].
  destruct (received_body _ _ _ _ Href eq_refl eq_refl Henc Hp) as (rawB & _ & Hack').
  rewrite Hack in Hack'. injection Hack' as ->. discriminate Hend.
Qed.

End Props.

(** ** A run *)

#[local] Abbreviation device_enrollment :=
  (sendCRMF toy_client 3 (Some (CredMAC toy_pbm)) BodyTypeIP
     [WithTemplateSubject (toy_subject "device"); WithSenderName (toy_subject "client")]).

Lemma parties_agree_witness :
  exists res id status conf der h msg n l,
    snd (device_enrollment toy_net) = Ok (Some res) /\
    NewCertStatus (er_Certificate res) id = Ok status /\
    Body conf = Some (NewCertConfBody [status]) /\ snd (MarshalBinary conf) = Ok der /\
    history (fst (device_enrollment toy_net)) = history toy_net ++ l ++ [Exchanged der (Ok h)] /\
    steps toy_client (net toy_net) l n /\ ParsePKIMessage der = Ok msg /\
    (exists resp, processMessage toy_server toy_now msg n
       = (net (fst (device_enrollment toy_net)), Ok resp)) /\
    (confirmation_taken toy_server toy_now n (net (fst (device_enrollment toy_net))) msg status \/
     exists ack b, ParsePKIMessage (resp_Body h) = Ok (message ack) /\ Body (message ack) = Some b /\
       hollow_error ack b).
Proof.
  assert (Hn : match snd (device_enrollment toy_net) with Ok (Some _) => true | _ => false end = true)
    by (vm_compute; reflexivity).
  assert (Hserved : served MaxRequestBodySize toy_server toy_now toy_client).
  { split; [reflexivity|]. intros der n. reflexivity. }
  destruct (device_enrollment toy_net) as [w' [[res|]|e]] eqn:E; try discriminate Hn.
  exists res. destruct (parties_agree MaxRequestBodySize toy_server toy_now toy_client device_enrollment
      toy_net w' res ltac:(discriminate) Hserved ltac:(vm_compute; reflexivity) ltac:(discriminate)
      (by_key toy_client _ _ _ _) E) as (id & status & conf & der & h & msg & n & l & H).
  exists id, status, conf, der, h, msg, n, l. split; [reflexivity | exact H].
Defined.
