(* ===== verification/Admission.v ===== *)
(** * What the server admits

    The runs of [Server] forward: a message under a shared secret that passes the checks
    is admitted, and a request of it that the CA grants is recorded and answered. *)
From S2P Require Import Prelude Failure Errors Asn1 Types StatusInfo Enrollment Crmf X509 Message MessageFacts.
From S2P Require Import RevocationMsg Monad Algorithms Protect Verify ProtectFacts Transactions.
From S2P Require Import TransactionsFacts Handler ServerRequest CAHandler Policy Server ServerFacts ServerRuns.
From S2P Require Import ServerSafety.

Section Admission.
Context {CB : Cryptobyte} {GN : GoNames} {GX : GoX509} {GA : GoASN1} {GC : GoCrypto}
  {GP : GoPBMAC1} {GR : GoRandom}.
Context {S : Type} (srv : Server S) (now : Time).

(** ** The sender *)

(** Who a message under the secret [sec] comes from. *)
Definition mac_identity (sd : GeneralName) (kid sec : bytes) (params : MACCredentialOption)
    : SenderIdentity :=
  mkSenderIdentity None (header_name sd) kid true None sec (Some params) sd.

Definition mac_credential (sd : GeneralName) (kid : bytes) : bytes :=
  hash_Sum SHA256 (string_bytes "cmp-mac" ++ writeLengthPrefixed kid
                   ++ writeLengthPrefixed (senderNameKey sd)).
Lemma mac_identity_credential sd kid sec params :
  credentialID (mac_identity sd kid sec params) = Ok (mac_credential sd kid).
Proof. done. Qed.

Lemma verified_mac at_ m o res :
  Verify at_ m o = Ok res -> MACVerified res = true ->
  exists a, ProtectionAlg (Header m) = Some a /\ isMACAlgorithm (Algorithm a) = true /\
    nonempty (Protection m) = true.
Proof.
  unfold Verify. intros H Hm. destruct (ProtectionAlg (Header m)) as [a|]; [|done].
  exists a. split; [done|]. case_in H; [done|]. apply negb_false_iff in E. split; [|done].
  case_in H; [done|]. case_in H; [exact E1|]. case_in H; [|done]. case_in H; [done|].
  by destruct (Verify_is_signature _ _ _ _ _ H) as [cert ->].
Qed.

Lemma verifyProtection_mac s msg lookup sec params :
  secretLookup (cfg srv) = Some lookup ->
  lookup s (header_name (Sender (Header msg))) (SenderKID (Header msg)) = Ok sec ->
  Verify now msg (mac_options sec) = Ok (mkVerifyResult true (Some params) None) ->
  verifyProtection srv now s msg
  = Ok (mac_identity (Sender (Header msg)) (SenderKID (Header msg)) sec params).
Proof.
  intros Hl Hs Hv. destruct (verified_mac _ _ _ _ Hv eq_refl) as (a & Ha & Hm & Hp).
  unfold verifyProtection. rewrite Ha, Hp, Hm. unfold verifyMACProtection. by rewrite Hl, Hs, Hv.
Qed.

(** ** The header *)

Definition on_time (msg : PKIMessage) : Prop :=
  messageTimeTolerance (cfg srv) <= 0 \/ HasMessageTime (Header msg) = false \/
  now - messageTimeTolerance (cfg srv) <= MessageTime (Header msg) <= now + messageTimeTolerance (cfg srv).

Lemma check_header_lenient msg isFirst :
  strictProfile (cfg srv) = false -> on_time msg -> (isFirst = true -> RecipNonce (Header msg) = []) ->
  check_header srv now msg isFirst = Ok tt.
Proof.
  intros Hs Ht Hr. unfold check_header. rewrite Hs. cbn [andb].
  assert (_ && _ = false) as ->.
  2: { destruct isFirst; [|done]. by rewrite Hr. }
  apply not_true_iff_false.
  rewrite !andb_true_iff, orb_true_iff, !Z.ltb_lt. destruct Ht as [?|[->|?]]; [lia | intuition discriminate | lia].
Qed.

(** Room for one more transaction. *)
Definition has_room (credID : bytes) (t : transactionTracker) : Prop :=
  count t < maxTransactions t /\
  default 0 (credentialCounts t !! makeCredentialKey credID) < maxTransactionsPerCredential t.

Definition start_txn (credID tx : bytes) (t : transactionTracker) : transactionTracker :=
  let ck := makeCredentialKey credID in
  mkTracker (<[makeKey credID tx := active_entry now ck]> (transactions t)) (count t + 1)
    (maxTransactions t) (<[ck := default 0 (credentialCounts t !! ck) + 1]> (credentialCounts t))
    (maxTransactionsPerCredential t).

Lemma startIfAbsent_room credID tx t :
  has_room credID t -> transactions t !! makeKey credID tx = None ->
  startIfAbsent now credID tx t = (start_txn credID tx t, Ok false).
Proof.
  destruct t as [m n mx cc mc]. intros [Hn Hc] Hk.
  cbn [transactions count maxTransactions credentialCounts maxTransactionsPerCredential] in Hn, Hc, Hk.
  unfold startIfAbsent, st_bind, st_get, count_Add, credCount_Add, LoadOrStore, st_ret, start_txn.
  cbn [transactions count maxTransactions credentialCounts maxTransactionsPerCredential set_transactions].
  rewrite (proj2 (Z.ltb_ge mx (n + 1))) by lia.
  rewrite (proj2 (Z.ltb_ge mc _)) by lia. cbn [transactions]. by rewrite Hk.
Qed.

(** The tracker once the header of a message was accepted. *)
Definition accepted_tracker (credID : bytes) (msg : PKIMessage) (isFirst : bool)
    (t : transactionTracker) : transactionTracker :=
  if isFirst then start_txn credID (TransactionID (Header msg)) t else t.

Lemma admit_accepted msg isFirst sender credID w :
  check_header srv now msg isFirst = Ok tt -> credentialID sender = Ok credID ->
  (isFirst = true -> has_room credID (tracker w) /\
     transactions (tracker w) !! makeKey credID (TransactionID (Header msg)) = None) ->
  admit_transaction srv now msg isFirst sender w
  = (mkWorld (accepted_tracker credID msg isFirst (tracker w)) (draws w) (ca_state w), Ok tt).
Proof.
  intros Hh Hc Hr. unfold admit_transaction, senderCredential. rewrite Hh, Hc.
  unfold st_bind at 1, st_lift. destruct isFirst; cbn [negb]; [|by destruct w].
  destruct Hr as [Hr Hk]; [done|]. unfold st_bind. rewrite on_tracker_run. unfold call.
  by rewrite startIfAbsent_room.
Qed.

Lemma process_admitted msg b sender credID w :
  verified srv now (ca_state w) msg b sender -> Type_ b <> BodyTypeNested ->
  TransactionID (Header msg) <> [] -> credentialID sender = Ok credID ->
  let isFirst := isInitialRequest (Type_ b) in
  check_header srv now msg isFirst = Ok tt ->
  (isFirst = true -> has_room credID (tracker w) /\
     transactions (tracker w) !! makeKey credID (TransactionID (Header msg)) = None) ->
  processMessage srv now msg w
  = dispatch srv now (server_context srv context_Background) msg (Type_ b) sender
      (mkWorld (accepted_tracker credID msg isFirst (tracker w)) (draws w) (ca_state w)).
Proof.
  intros [E1 E2 E3 E4 E5 E6] Ht Hid Hc isFirst Hh Hr. apply nonempty_true in Hid.
  unfold processMessage. cbn [process]. rewrite E1, E2, E3.
  unfold st_bind at 1, st_get at 1. rewrite E4, E5, E6. apply Z.eqb_neq in Ht. rewrite Ht.
  unfold process_verified. unfold st_bind at 1, st_ret at 1.
  unfold validateHeader, body_type. rewrite E5, Hid. cbn [negb andb]. unfold st_bind, st_lift, st_ret, call.
  fold isFirst. by rewrite (admit_accepted _ _ _ _ _ Hh Hc Hr).
Qed.

(** ** A granted request *)

Definition generalInfo_of (si : PKIStatusInfo) (msg : PKIMessage) : list InfoTypeAndValue :=
  if grants_implicit srv msg then [ImplicitConfirmInfoValue]
  else if (0 <? confirmWait (cfg srv)) && (Status si =? StatusAccepted)
  then [ConfirmWaitTimeInfoValue now (confirmWait (cfg srv))] else [].

Lemma generalInfo_of_wf si msg : Forall info_wf (generalInfo_of si msg).
Proof. unfold generalInfo_of. repeat case_goal; by repeat constructor. Qed.

Lemma request_granted ctx msg b sender credID id r s1 crt e w :
  Body msg = Some b -> credentialID sender = Ok credID ->
  let key := makeKey credID (TransactionID (Header msg)) in
  transactions (tracker w) !! key = Some e -> state e = stateActive ->
  certReqIDFromRequest msg = Ok id -> grants_implicit srv msg = false ->
  handler srv ctx msg sender (ca_state w) = (s1, Ok (Some r)) -> Waiting r = None ->
  resp_Certificate r = Some crt ->
  let rt := requestTypeFromBody (Type_ b) in
  exists resp,
    buildResponseInternal srv now msg (certRep_body id accepted_info (Some crt) (CACerts r) rt)
      (Some sender) (generalInfo_of accepted_info msg) (si_protectionParams sender)
      (mkWorld (tracker w) (draws w) s1)
    = (mkWorld (tracker w) (2 + draws w) s1, Ok resp) /\
    handleCertRequest srv now ctx msg sender w
    = (mkWorld (set_transactions
                  (<[key := issued_for now credID rt id crt r sender msg resp]> (transactions (tracker w)))
                  (tracker w)) (2 + draws w) s1, Ok resp).
Proof.
  intros Hb Hc key He Ha Hid Hg Hh Hw Hcrt rt.
  destruct (buildResponseInternal_spec srv now msg (certRep_body id accepted_info (Some crt) (CACerts r) rt)
    (Some sender) (generalInfo_of accepted_info msg) (si_protectionParams sender)
    (mkWorld (tracker w) (draws w) s1)) as (resp & Hresp & _).
  exists resp. split; [exact Hresp|].
  unfold handleCertRequest, senderCredential. rewrite Hc. unfold st_bind at 1, st_get.
  unfold getPending, get_in_state. fold key. rewrite He, Ha, bool_decide_eq_false_2 by done.
  unfold st_bind at 1, st_lift at 1. rewrite Hid. unfold st_bind at 1, st_lift at 1, body_type. rewrite Hb.
  unfold st_bind at 1. rewrite on_ca_run. unfold call. rewrite Hh. cbn [fst snd]. rewrite Hw, Hcrt.
  unfold st_bind at 1, buildCertRepResponseForType. change (mkPKIStatusInfo StatusAccepted [] 0) with accepted_info.
  fold rt (generalInfo_of accepted_info msg). rewrite Hresp. unfold record_issuance. rewrite Hcrt, Hg.
  unfold st_bind at 1. rewrite on_tracker_run. unfold setIssued. rewrite advance_spec.
  cbn [tracker drawn]. fold key. rewrite He. unfold may_advance. rewrite Ha. reflexivity.
Qed.

End Admission.
