(* ===== verification/SessionFacts.v ===== *)
(** * Lemmas for the session of an honest client

    A request of the client as the server reads it and as its CA is asked about it, and
    messages under a shared secret as their peer has them. *)
From S2P Require Import Prelude Failure Errors Asn1 Asn1Facts Types TypesFacts StatusInfo Enrollment.
From S2P Require Import EnrollmentFacts Crmf CrmfFacts X509 CertPath Message MessageFacts BodyFacts.
From S2P Require Import RevocationMsg Monad Algorithms Protect Verify Keeps ProtectFacts SignatureFacts Http.
From S2P Require Import Transactions TransactionsFacts Handler ServerRequest CAHandler Policy Server ServerHTTP.
From S2P Require Import ServerFacts ServerRuns ServerSafety ServerProps TransactionProps Admission.
From S2P Require Import Client ClientEnroll ClientFacts ClientRuns HttpFacts.

(** ** The request *)

Section Request.
Context {CB : Cryptobyte} {L : CryptobyteLaws CB} {GN : GoNames} {GX : GoX509} {GA : GoASN1}
  {GC : GoCrypto} {GL : GoCryptoLaws GX GC}.

(** A request as its reader has it, with the octets that were signed. *)
Definition with_raw (raw : bytes) (r : CertRequest) : CertRequest :=
  let '(mkCertRequest id t cs _) := r in mkCertRequest id t cs raw.

Lemma GeneratePOP_raw random key req m :
  GeneratePOP random key (mkCertReqMsg req None) = Ok m ->
  exists raw pop, bout (CertRequest_marshal req) = Ok raw /\ m = mkCertReqMsg req (Some pop) /\
    proofOfPossession_wf pop /\ is_nil (pop_Signature pop) = false /\
    GeneratePOP random key (mkCertReqMsg (with_raw raw req) None)
    = Ok (mkCertReqMsg (with_raw raw req) (Some pop)).
Proof.
  intros H. destruct req as [id t cs raw0]. unfold GeneratePOP, Bytes in *. cbn [CertReq with_raw] in *.
  change (CertRequest_marshal (mkCertRequest id t cs raw0)) with (CertRequest_marshal (mkCertRequest id t cs [])) in *.
  destruct (bout (CertRequest_marshal (mkCertRequest id t cs []))) as [raw|] eqn:Er; [|done].
  exists raw. change (CertRequest_marshal (mkCertRequest id t cs raw)) with (CertRequest_marshal (mkCertRequest id t cs [])).
  rewrite Er. apply res_bind_ok in H as ([oid h] & Hk & H). pose proof (keyAlgorithm_OID_ok _ _ _ Hk) as Ho.
  rewrite Hk. cbn [res_bind].
  destruct (Signer_Sign _ _ _ _) as [sig|]; [|done]. injection H as <-. eexists. split; [done|].
  split; [done|]. split; [|done]. split; [done|]. split; [exact Ho | by left].
Qed.

(** The two requests of the client that a server reads under its own type. *)
Definition request_type (t : BodyType) : BodyType :=
  if t =? BodyTypeIP then BodyTypeIR else BodyTypeCR.
Definition enrolls (t : BodyType) : Prop := t = BodyTypeIP \/ t = BodyTypeCP.

Lemma crmf_request t m : enrolls t ->
  exists b, crmf_request_body t [m] = Ok b /\ Type_ b = request_type t /\ dirty b = true.
Proof. intros [->| ->]; by eexists. Qed.

Lemma get_IR raw x :
  get_body (mkPKIBody BodyTypeIR raw false None None) = Ok (C_ir x) ->
  snd (IR (mkPKIBody BodyTypeIR raw false None None)) = Ok x.
Proof.
  change (res_map C_ir (snd (IR (mkPKIBody BodyTypeIR raw false None None))) = Ok (C_ir x) ->
          snd (IR (mkPKIBody BodyTypeIR raw false None None)) = Ok x).
  destruct (snd (IR _)); [by intros [= ->] | done].
Qed.
Lemma get_CR raw x :
  get_body (mkPKIBody BodyTypeCR raw false None None) = Ok (C_cr x) ->
  snd (CR (mkPKIBody BodyTypeCR raw false None None)) = Ok x.
Proof.
  change (res_map C_cr (snd (CR (mkPKIBody BodyTypeCR raw false None None))) = Ok (C_cr x) ->
          snd (CR (mkPKIBody BodyTypeCR raw false None None)) = Ok x).
  destruct (snd (CR _)); [by intros [= ->] | done].
Qed.

(** What the server reads in the body of a request for [pub]. *)
Definition requests (pub : PublicKey) (tmpl : CertTemplate) (t : BodyType) (msg : PKIMessage) : Prop :=
  exists b m, Body msg = Some b /\ Type_ b = request_type t /\
    (forall other, crmf_body msg other = Ok [m]) /\ cr_req_CertReqID (CertReq m) = 0 /\
    cr_CertTemplate (CertReq m) = tmpl /\ tmpl_Extensions tmpl = [] /\ tmpl_PublicKey tmpl <> [] /\
    ParsePKIXPublicKey (tmpl_PublicKey tmpl) = Some pub /\
    (exists pop, Popo m = Some pop /\ is_nil (pop_Signature pop) = false) /\
    forall allowSHA1, VerifyPOPWithOptions m allowSHA1 = None.

Lemma request_read t random key tmpl m b s r msg msg' :
  enrolls t -> CertTemplate_wf tmpl -> tmpl_Extensions tmpl = [] -> tmpl_PublicKey tmpl <> [] ->
  ParsePKIXPublicKey (tmpl_PublicKey tmpl) = Some (Signer_Public key) ->
  GeneratePOP random key (mkCertReqMsg (mkCertRequest 0 tmpl [] []) None) = Ok m ->
  crmf_request_body t [m] = Ok b -> received s r b msg msg' ->
  bout (PKIBody_marshal b) = Ok (rawBody msg) ->
  requests (Signer_Public key) tmpl t msg'.
Proof.
  intros Ht Hwf He Hne Hp Hg Hb Hr Hraw.
  destruct (GeneratePOP_raw _ _ _ _ Hg) as (raw & pop & Hreq & -> & Hpop & Hsig & Hg').
  set (m' := mkCertReqMsg (with_raw raw (mkCertRequest 0 tmpl [] [])) (Some pop)) in *.
  destruct (GeneratePOP_verifies random key (with_raw raw (mkCertRequest 0 tmpl [] [])) m'
    (Signer_Public key) eq_refl Hp Hne Hreq Hg') as [_ Hv].
  assert (Hm' : Forall CertReqMsg_wf [m']).
  { constructor; [|constructor]. split; [|done]. split; [done|]. split; [done|]. by split; [constructor|]. }
  assert (Hc : exists b', Body msg' = Some b' /\ Type_ b' = request_type t /\
            (if request_type t =? BodyTypeIR then snd (IR b') else snd (CR b')) = Ok [m']).
  { destruct Ht as [-> | ->]; injection Hb as <-.
    - destruct (received_content s r (C_ir [m']) msg msg' Hr Hm' Hraw) as (b' & Hb' & Hx).
      exists b'. destruct Hr as (_ & _ & _ & _ & _ & Hb). rewrite Hb in Hb'. injection Hb' as <-.
      split; [done|]. split; [done|].
      by apply get_IR in Hx.
    - destruct (received_content s r (C_cr [m']) msg msg' Hr Hm' Hraw) as (b' & Hb' & Hx).
      exists b'. destruct Hr as (_ & _ & _ & _ & _ & Hb). rewrite Hb in Hb'. injection Hb' as <-.
      split; [done|]. split; [done|].
      by apply get_CR in Hx. }
  destruct Hc as (b' & Hb' & Htype & Hget). exists b', m'. split_and!; try done; [|by exists pop].
  intros other. unfold crmf_body. rewrite Hb', Htype. destruct Ht as [-> | ->]; exact Hget.
Qed.

End Request.

(** ** The CA *)

Section Grants.
Context {CB : Cryptobyte} {GN : GoNames} {GX : GoX509} {GA : GoASN1} {GC : GoCrypto}.
Context {S : Type} (ca : CA S).
Implicit Types (msg : PKIMessage) (sender : SenderIdentity) (s : S).

Section Requested.
Context (pub : PublicKey) (tmpl : CertTemplate) (t : BodyType) (pubDER : bytes).
Context (Ht : enrolls t) (Hpub : MarshalPKIXPublicKey (Some pub) = Some pubDER).

(** The certificate the CA is asked for. *)
Definition requested_template : Certificate :=
  request_template (template_subject tmpl) (Some pub) (hash_Sum SHA1 pubDER) [].

Lemma requests_parsed msg :
  requests pub tmpl t msg ->
  parseCRMFMsg msg = Ok (mkParsedCRMF 0 (template_subject tmpl) (Some pub) [] true).
Proof.
  intros (b & m & _ & _ & Hm & Hid & Htm & He & Hne & Hp & (pop & Hpop & Hsig) & _).
  unfold parseCRMFMsg. rewrite Hm. cbn [res_bind]. rewrite Htm, Hid. unfold template_publicKey, template_extensions.
  apply nonempty_true in Hne. rewrite Hne, Hp, He, Hpop, Hsig. done.
Qed.

Lemma requests_proved ctx msg : requests pub tmpl t msg -> enforceProofOfPossession ctx msg = Ok tt.
Proof.
  intros H. pose proof (requests_parsed _ H) as Hp.
  destruct H as (b & m & Hb & Htype & Hm & _ & _ & _ & _ & _ & _ & Hv).
  unfold enforceProofOfPossession. rewrite Hb, Htype, Hp. unfold verifyPOPMsg. rewrite Hm, Hv.
  by destruct Ht as [-> | ->].
Qed.

Lemma requests_template ctx msg :
  requests pub tmpl t msg -> issuance_template ctx msg = Ok requested_template.
Proof.
  intros H. unfold issuance_template, request_fields. rewrite (requests_proved _ _ H), (requests_parsed _ H).
  destruct H as (b & m & Hb & Htype & _). rewrite Hb, Htype.
  assert ((request_type t =? BodyTypeP10CR) = false) as -> by (by destruct Ht as [-> | ->]).
  cbn [res_bind crmf_subject crmf_publicKey crmf_extensions decodeBasicConstraints]. by rewrite Hpub.
Qed.

Lemma handler_asked ctx msg sender s :
  requests pub tmpl t msg ->
  NewCAHandler ca ctx msg sender s
  = IssueCertificate ca ctx (bodyTypeToRequestType (request_type t)) requested_template sender s.
Proof.
  intros H. pose proof (requests_template ctx _ H) as Hx. destruct H as (b & m & Hb & Htype & _).
  unfold NewCAHandler, caHandler_handleCertRequest, body_type. rewrite Hb, Htype, Hx.
  by destruct Ht as [-> | ->].
Qed.

Lemma policy_passed ctx msg sender :
  requests pub tmpl t msg -> Name_String (template_subject tmpl) <> "" ->
  nonempty (DirectoryName (Sender (Header msg))) || nonempty (SenderKID (Header msg)) = true ->
  policy_check ctx msg (request_type t) sender = Ok tt.
Proof.
  intros H Hn Hs. unfold policy_check. rewrite <- andb_assoc, <- negb_orb, Hs, andb_false_r.
  assert (Hv : validateCRMF ctx msg = Ok tt).
  { unfold validateCRMF. rewrite (requests_parsed _ H). cbn [res_bind crmf_certReqID].
    rewrite (requests_proved ctx _ H). cbn [res_bind crmf_subject Z.eqb negb].
    by rewrite bool_decide_eq_false_2. }
  by destruct Ht as [-> | ->].
Qed.

End Requested.

(** The handler of the CA, with the profile policy in front of it or not. *)
Definition drives (h : Handler S) (named : Prop) : Prop :=
  h = NewCAHandler ca \/ (h = LightweightPolicy (NewCAHandler ca) /\ named).

Lemma drives_request h pub tmpl t pubDER ctx msg sender s :
  enrolls t -> MarshalPKIXPublicKey (Some pub) = Some pubDER -> requests pub tmpl t msg ->
  drives h (Name_String (template_subject tmpl) <> "" /\
    nonempty (DirectoryName (Sender (Header msg))) || nonempty (SenderKID (Header msg)) = true) ->
  h ctx msg sender s
  = IssueCertificate ca ctx (bodyTypeToRequestType (request_type t)) (requested_template pub tmpl pubDER)
      sender s.
Proof.
  intros Ht Hp H [->|[-> [Hn Hs]]]; [by apply handler_asked|]. unfold LightweightPolicy.
  pose proof H as (b & _ & Hb & Htype & _). rewrite Hb, Htype.
  unfold st_bind, st_lift. rewrite (policy_passed pub tmpl t Ht) by done. by apply handler_asked.
Qed.

Lemma drives_confirmation h named ctx entry crt cs msg sender b s :
  drives h named ->
  (named -> nonempty (DirectoryName (Sender (Header msg))) || nonempty (SenderKID (Header msg)) = true) ->
  Body msg = Some b -> Type_ b = BodyTypeCertConf -> snd (CertConf b) = Ok [cs] -> StatusInfo cs = None ->
  cert entry = Some crt ->
  (forall confirm ctx ref, ConfirmCertificate ca = Some confirm ->
     exists s', confirm ctx crt ConfirmAccepted ref s = (s', Ok tt)) ->
  exists s', h (issued_context ctx entry) msg sender s = (s', Ok None).
Proof.
  intros Hd Hn Hb Ht Hc Hs Hcrt Hok.
  assert (Hca : exists s', NewCAHandler ca (issued_context ctx entry) msg sender s = (s', Ok None)).
  { unfold NewCAHandler, caHandler_handleCertConf. rewrite Hb, Ht.
    change (isCertRequest BodyTypeCertConf) with false. cbv iota. rewrite Z.eqb_refl, Hc.
    destruct (ConfirmCertificate ca) as [confirm|]; [|by exists s].
    assert (IssuedCertFromContext (issued_context ctx entry) = Some crt) as -> by (by destruct ctx).
    unfold certStatusRejects. rewrite Hs. cbv iota.
    destruct (Hok confirm (issued_context ctx entry) (IssueRefFromContext (issued_context ctx entry)) eq_refl)
      as [s' Hs']. exists s'. unfold no_response, st_bind. by rewrite Hs'. }
  destruct Hd as [->|[-> Hnamed]]; [done|]. unfold LightweightPolicy. rewrite Hb, Ht.
  unfold st_bind, st_lift, policy_check.
  rewrite <- andb_assoc, <- negb_orb, (Hn Hnamed), andb_false_r. exact Hca.
Qed.

End Grants.

(** ** Messages under the shared secret *)

Section Wire.
Context {CB : Cryptobyte} {L : CryptobyteLaws CB} {GN : GoNames} {GX : GoX509} {GC : GoCrypto}
  {GL : GoCryptoLaws GX GC} {GP : GoPBMAC1} {PL : GoPBMAC1Laws CB GP}.

(** The message [m] with body [b], before it was protected, as its peer reads it. *)
Record as_read (s r : GeneralName) (b : PKIBody) (m m' : PKIMessage) : Prop := {
  ar_id : TransactionID (Header m') = TransactionID (Header m);
  ar_nonce : SenderNonce (Header m') = SenderNonce (Header m);
  ar_recip : RecipNonce (Header m') = RecipNonce (Header m);
  ar_kid : SenderKID (Header m') = SenderKID (Header m);
  ar_info : GeneralInfo (Header m') = GeneralInfo (Header m);
  ar_sender : Sender (Header m') = s;
  ar_recipient : Recipient (Header m') = r;
  ar_time : MessageTime (Header m')
            = if HasMessageTime (Header m) then truncate_second (MessageTime (Header m)) else 0;
  ar_version : PVNO (Header m') = required_pvno (Header m) (PKIBody_marshal b);
  ar_timed : HasMessageTime (Header m') = HasMessageTime (Header m);
  ar_alg : is_nil (ProtectionAlg (Header m')) = false;
  ar_extra : ExtraCerts m' = ExtraCerts m;
  ar_body : exists raw, bout (PKIBody_marshal b) = Ok raw /\
    Body m' = Some (mkPKIBody (Type_ b) raw false None None)
}.

Lemma protected_read s r b salt cr m m1 m2 e :
  sendable s r b m -> mac_config_wf (mac_cfg cr) -> MACCredentials_Protect salt cr m = (m1, Ok tt) ->
  MarshalBinary m1 = (m2, Ok e) ->
  m2 = m1 /\ (exists a, Header m1 = sent_header (set_ProtectionAlg (Some a) (Header m)) b) /\
  exists m3, ParsePKIMessage e = Ok m3 /\ as_read s r b m m3 /\
    received s r b m1 m3 /\ bout (PKIBody_marshal b) = Ok (rawBody m1) /\
    forall o now, accepts_mac o (mac_secret cr) ->
      exists params, Verify now m3 o = Ok (mkVerifyResult true (Some params) None).
Proof.
  intros Hs Hc Hp Hm. pose proof (MACCredentials_Protect_ok _ _ _ _ Hp) as (a & b' & rawH & rawB & mac & Hb & HB & H1).
  assert (b' = b) as -> by (destruct Hs; congruence).
  pose proof (fun now o Ho => mac_credentials_verified s r b salt cr m m1 m2 e now o Hs Hc Hp Hm Ho) as Hv.
  destruct (Hv 0 (mkVerifyOptions ProtectionAny (mac_secret cr) None None [] [] false false))
    as (-> & m3 & p & Hparse & Hrec & _ & _); [by split|].
  split; [done|]. split; [exists a; rewrite H1; by destruct m|].
  exists m3. split; [done|]. split; [|split; [done|split; [rewrite H1, HB; by destruct m|]]].
  - destruct Hrec as (Hh & _ & He & _ & Hrb & Hbody). rewrite H1 in Hh, He, Hrb, Hbody.
    assert (Hr : rawBody (set_Protection mac (encoded (with_alg a m) b rawH rawB)) = rawB) by (by destruct m).
    rewrite Hr in Hbody. destruct m as [[] ? ? ? ? ?].
    constructor; rewrite ?Hh, ?He, ?Hbody; try done; [|by exists rawB].
    unfold received_header, HasMessageTime. cbn. unfold HasMessageTime. cbn.
    by match goal with |- context [if ?b then _ else 0] => destruct b end.
  - intros o now Ho. destruct (Hv now o Ho) as (_ & m3' & p' & Hp' & _ & _ & Hok).
    rewrite Hparse in Hp'. apply Ok_inj in Hp' as <-. by exists p'.
Qed.

(** The versions of the messages of a session. *)
Definition session_version (v : Z) : Prop := v = PVNO2 \/ v = PVNO3.

Lemma session_required h b : session_version (PVNO h) -> session_version (required_pvno h (PKIBody_marshal b)).
Proof.
  intros Hv. destruct (required_pvno_cases h b) as [-> | [-> _]]; [by right|].
  destruct Hv as [-> | ->]; [by left | by right].
Qed.
Lemma session_check msg : session_version (PVNO (Header msg)) -> check_version msg = None.
Proof. unfold check_version. by intros [-> | ->]. Qed.

End Wire.
