(* ===== verification/Session.v ===== *)
(** * A session of an honest client

    A client with a shared secret and the server of a CA that grants its request: the
    enrollment succeeds, unless a message of it cannot be encoded within the limits. *)
From S2P Require Import Prelude Failure Errors Asn1 Asn1Facts Types TypesFacts StatusInfo Enrollment.
From S2P Require Import EnrollmentFacts Crmf CrmfFacts X509 CertPath Message MessageFacts BodyFacts.
From S2P Require Import RevocationMsg Monad Algorithms Protect Verify Keeps ProtectFacts SignatureFacts Http.
From S2P Require Import Transactions TransactionsFacts Handler ServerRequest CAHandler Policy Server ServerHTTP.
From S2P Require Import ServerFacts ServerRuns ServerSafety ServerProps TransactionProps Admission SessionFacts.
From S2P Require Import Client ClientEnroll ClientFacts ClientRuns HttpFacts.

(** ** The parties *)

Section Parties.
Context {CB : Cryptobyte} {L : CryptobyteLaws CB} {GN : GoNames} {GX : GoX509} {GA : GoASN1}
  {GC : GoCrypto} {GL : GoCryptoLaws GX GC} {GP : GoPBMAC1} {PL : GoPBMAC1Laws CB GP} {GR : GoRandom}
  {GH : GoHTTP}.

(** The CA and its server with its clock and the limit on requests, a client whose
    transport the server is, the key to certify and its encoding, the secret, what the
    client asks for with the template it makes of it, its extra certificates, and the
    names: of the client and of its recipient as the server reads them, of the server and
    of the client as the client does. *)
Record session (S : Type) := mkSession {
  ss_ca : CA S;
  ss_server : Server S;
  ss_time : Time;
  ss_maxBody : Z;
  ss_client : Client (World S);
  ss_key : Signer;
  ss_pubDER : bytes;
  ss_secret : bytes;
  ss_mac : macCredentialConfig;
  ss_opts : list RequestOption;
  ss_type : BodyType;
  ss_template : CertTemplate;
  ss_certs : list CMPCertificate;
  ss_from : GeneralName;
  ss_to : GeneralName;
  ss_reply_from : GeneralName;
  ss_reply_to : GeneralName
}.
#[global] Arguments mkSession {S}.
#[global] Arguments ss_ca {S}.
#[global] Arguments ss_server {S}.
#[global] Arguments ss_time {S}.
#[global] Arguments ss_maxBody {S}.
#[global] Arguments ss_client {S}.
#[global] Arguments ss_key {S}.
#[global] Arguments ss_pubDER {S}.
#[global] Arguments ss_secret {S}.
#[global] Arguments ss_mac {S}.
#[global] Arguments ss_opts {S}.
#[global] Arguments ss_type {S}.
#[global] Arguments ss_template {S}.
#[global] Arguments ss_certs {S}.
#[global] Arguments ss_from {S}.
#[global] Arguments ss_to {S}.
#[global] Arguments ss_reply_from {S}.
#[global] Arguments ss_reply_to {S}.

Context {S : Type} (x : session S).
#[local] Abbreviation srv := (ss_server x).
#[local] Abbreviation at_ := (ss_time x).
#[local] Abbreviation c := (ss_client x).
#[local] Abbreviation sec := (ss_secret x).
#[local] Abbreviation ropts := (request_options (ss_opts x)).
#[local] Abbreviation kid := (ro_senderKID ropts).
#[local] Abbreviation pub := (Signer_Public (ss_key x)).
#[local] Abbreviation clock n := (time_Now (httpClient c) n).

Definition ss_credentials : MACCredentials := mkMACCredentials sec (ss_mac x).
#[local] Abbreviation creds := (CredMAC ss_credentials).
(** Who the server takes the client for. *)
Definition ss_identity (params : MACCredentialOption) : SenderIdentity :=
  mac_identity (ss_from x) kid sec params.
(** The key of a transaction of the client. *)
Definition ss_transaction (txid : bytes) : bytes := makeKey (mac_credential (ss_from x) kid) txid.

(** A client that is configured for the server and has a key it can prove to possess. *)
Record honest_client : Prop := {
  cl_transport : served (ss_maxBody x) srv at_ c;
  cl_mime : mime_ParseMediaType "application/pkixcmp" = Some "application/pkixcmp";
  cl_maxBody : 0 <= ss_maxBody x;
  cl_maxResponse : maxResponseBytes c < 2 ^ 63 - 1;
  cl_accepts : responseProtection c <> ProtectionSignature;
  cl_extra : extra_certs (cl_extraCerts c) = Ok (ss_certs x) /\ Forall CMPCertificate_wf (ss_certs x);
  cl_secret : sec <> [] /\ mac_config_wf (ss_mac x);
  cl_names : reads_as (request_sender creds ropts) (ss_from x) /\ reads_as (request_recipient c) (ss_to x);
  cl_type : enrolls (ss_type x);
  cl_template : crmf_template (ss_key x) ropts = Ok (ss_template x) /\ CertTemplate_wf (ss_template x) /\
    tmpl_Extensions (ss_template x) = [];
  cl_key : MarshalPKIXPublicKey (Some pub) = Some (ss_pubDER x) /\ ParsePKIXPublicKey (ss_pubDER x) = Some pub /\
    tmpl_PublicKey (ss_template x) = (ss_pubDER x) /\ (ss_pubDER x) <> [];
  cl_proof : forall random, exists m,
    GeneratePOP random (ss_key x) (mkCertReqMsg (mkCertRequest 0 (ss_template x) [] []) None) = Ok m
}.

(** A server that knows the secret and is in front of the CA, without the strict
    profile. *)
Record honest_server : Prop := {
  hs_signer : signerErr (cfg srv) = None;
  hs_lenient : strictProfile (cfg srv) = false;
  hs_secret : exists lookup, secretLookup (cfg srv) = Some lookup /\
    forall st, lookup st (header_name (ss_from x)) kid = Ok sec;
  hs_recipient : forall m, Recipient (Header m) = ss_to x -> verifyRecipient srv m = Ok tt;
  hs_clock : forall n, messageTimeTolerance (cfg srv) <= 0 \/
    at_ - messageTimeTolerance (cfg srv) <= truncate_second (clock n) <= at_ + messageTimeTolerance (cfg srv);
  hs_names : reads_as (response_sender srv) (ss_reply_from x) /\ reads_as (ss_from x) (ss_reply_to x);
  hs_extra : Forall (fun crt => element (Raw crt)) (cfg_extraCerts (cfg srv));
  hs_handler : drives (ss_ca x) (handler srv) (Name_String (template_subject (ss_template x)) <> "" /\
    nonempty (DirectoryName (ss_from x)) || nonempty kid = true)
}.

(** The certificates that come with a granted one, as the client reads them. *)
Definition published (rp : Response) : list Certificate :=
  parseCMPCertificates ((fun crt => mkCMPCertificate (Raw crt)) <$> CACerts rp).
Definition accompanying : list Certificate :=
  parseCMPCertificates ((fun crt => mkCMPCertificate (Raw crt)) <$> cfg_extraCerts (cfg srv)).

(** A certificate the client can accept. *)
Record suitable (rp : Response) (crt : Certificate) : Prop := {
  su_encoded : element (Raw crt) /\ Forall (fun crt => element (Raw crt)) (CACerts rp);
  su_parsed : CMPCertificate_Parse (mkCMPCertificate (Raw crt)) = Some crt;
  su_key : checkIssuedKey crt (Some pub) = None;
  su_trusted : forall n pool,
    enrollmentTrustPool c (mkVerifyResult true None None) (published rp) = Some pool ->
    verifyIssuedCertificate (clock n) crt pool (accompanying ++ published rp) = None;
  su_hash : exists status, NewCertStatus crt 0 = Ok status;
  su_composite : forall a, compositex509_SignatureAlgorithm (Raw crt) = Some a ->
    hashFromSigAlg (cert_SignatureAlgorithm crt) = HashNone
}.

(** A CA that grants, in the state [st], what the holder of the secret asks for, and takes
    its confirmation. *)
Record willing_CA (st : S) : Prop := {
  wc_issues : forall ctx params, exists st' rp crt,
    IssueCertificate (ss_ca x) ctx (bodyTypeToRequestType (request_type (ss_type x)))
      (requested_template pub (ss_template x) (ss_pubDER x)) (ss_identity params) st = (st', Ok (Some rp)) /\
    Waiting rp = None /\ resp_Certificate rp = Some crt /\ suitable rp crt;
  wc_confirms : forall confirm ctx crt ref st1, ConfirmCertificate (ss_ca x) = Some confirm ->
    exists st2, confirm ctx crt ConfirmAccepted ref st1 = (st2, Ok tt)
}.

(** ** The messages of the session *)

(** A message of the client before it is protected. *)
Definition client_message (txid nonce recip : bytes) (now : Time) (b : PKIBody)
    (certs : list CMPCertificate) : PKIMessage :=
  mkPKIMessage
    (mkPKIHeader PVNO2 (request_sender creds ropts) (request_recipient c) now None kid [] txid nonce
       recip [] [] false)
    (Some b) [] certs [] [].

(** A body as its constructor leaves it. *)
Definition built (b : PKIBody) : Prop := dirty b = true /\ ContextSpecific (Type_ b) = Type_ b.

(** A message of the client that the server gets whole. *)
Definition reaches_server (random : bytes) (m : PKIMessage) : bool :=
  match MACCredentials_Protect random ss_credentials m with
  | (m1, Ok _) =>
      match snd (MarshalBinary m1) with
      | Ok der => Z.of_nat (length der) <=? ss_maxBody x
      | Err _ => false
      end
  | (_, Err _) => false
  end.

(** The answer to what the server reads as [req]. *)
Definition server_message (req : PKIMessage) (b : PKIBody) (params : MACCredentialOption)
    (gi : list InfoTypeAndValue) (nonce : bytes) : PKIMessage :=
  response_message srv at_ req b (Some (ss_identity params)) gi nonce.
(** A message of the server, protected with the parameters [params], that the client gets
    whole. *)
Definition reaches_client (random : bytes) (params : MACCredentialOption) (m : PKIMessage) : bool :=
  match MACCredentials_Protect random (mkMACCredentials sec (params emptyMacConfig)) m with
  | (m1, Ok _) =>
      match snd (MarshalBinary m1) with
      | Ok der => (maxResponseBytes c <=? 0) || (Z.of_nat (length der) <=? maxResponseBytes c)
      | Err _ => false
      end
  | (_, Err _) => false
  end.

(** What the server reads of the message [m] with body [b], with the parameters of its
    protection. *)
Definition server_reads (m : PKIMessage) (b : PKIBody) (req : PKIMessage)
    (params : MACCredentialOption) : Prop :=
  as_read (ss_from x) (ss_to x) b m req /\
  Verify at_ req (mac_options sec) = Ok (mkVerifyResult true (Some params) None).

(** The server gets the message [m] as [req]. *)
Definition server_gets (random : bytes) (m req : PKIMessage) (params : MACCredentialOption) : Prop :=
  exists m1 der, MACCredentials_Protect random ss_credentials m = (m1, Ok tt) /\
    snd (MarshalBinary m1) = Ok der /\ read_request (ss_maxBody x) (post der) = Ok req /\
    Verify at_ req (mac_options sec) = Ok (mkVerifyResult true (Some params) None).

(** ** The run that starts in a state *)

Section Run.
Context (w : Net (World S)).
#[local] Abbreviation drawn_by_client i := (rand_Read (i + net_draws w) 16).
#[local] Abbreviation drawn_by_server i := (rand_Read (i + draws (net w)) 16).

Definition request_body (b : PKIBody) : Prop :=
  exists m, GeneratePOP (rand_Reader (net_draws w)) (ss_key x)
              (mkCertReqMsg (mkCertRequest 0 (ss_template x) [] []) None) = Ok m /\
    crmf_request_body (ss_type x) [m] = Ok b.
Definition first_id : bytes := drawn_by_client 1.
Definition first_request (b : PKIBody) : PKIMessage :=
  client_message first_id (drawn_by_client 2) [] (clock (net w)) b (ss_certs x).

(** What the CA makes of the request. *)
Definition grant (params : MACCredentialOption) (st : S) (rp : Response) (crt : Certificate) : Prop :=
  IssueCertificate (ss_ca x) (server_context srv context_Background)
    (bodyTypeToRequestType (request_type (ss_type x)))
    (requested_template pub (ss_template x) (ss_pubDER x)) (ss_identity params) (ca_state (net w))
  = (st, Ok (Some rp)) /\ Waiting rp = None /\ resp_Certificate rp = Some crt.
Definition grant_body (rp : Response) (crt : Certificate) : PKIBody :=
  certRep_body 0 accepted_info (Some crt) (CACerts rp) (requestTypeFromBody (request_type (ss_type x))).
Definition grant_message (req : PKIMessage) (params : MACCredentialOption) (rp : Response)
    (crt : Certificate) : PKIMessage :=
  server_message req (grant_body rp crt) params (generalInfo_of srv at_ accepted_info req)
    (drawn_by_server 0).

(** The confirmation, when the state of the server is [n]. *)
Definition confirmation (n : World S) (status : CertStatus) : PKIMessage :=
  client_message first_id (drawn_by_client 5) (drawn_by_server 0) (clock n) (NewCertConfBody [status]) [].
Definition acknowledgment (req : PKIMessage) (params : MACCredentialOption) : PKIMessage :=
  server_message req NewPKIConfBody params [] (drawn_by_server 2).

(** One of the four messages of the run does not reach its peer whole: it cannot be
    protected or encoded, or exceeds the limit of who reads it. *)
Inductive undelivered : Prop :=
| lost_request b :
    request_body b -> reaches_server (drawn_by_client 3) (first_request b) = false -> undelivered
| lost_grant b req params st rp crt :
    request_body b -> server_gets (drawn_by_client 3) (first_request b) req params ->
    grant params st rp crt ->
    reaches_client (drawn_by_server 1) params (grant_message req params rp crt) = false -> undelivered
| lost_confirmation params rp crt status n :
    grant params (ca_state n) rp crt -> NewCertStatus crt 0 = Ok status ->
    reaches_server (drawn_by_client 6) (confirmation n status) = false -> undelivered
| lost_acknowledgment b req params rp crt status n req' params' :
    request_body b -> server_gets (drawn_by_client 3) (first_request b) req params ->
    grant params (ca_state n) rp crt -> NewCertStatus crt 0 = Ok status ->
    server_gets (drawn_by_client 6) (confirmation n status) req' params' ->
    reaches_client (drawn_by_server 3) params (acknowledgment req' params') = false -> undelivered.

End Run.

(** ** Delivery *)

Context (Hcl : honest_client) (Hsv : honest_server).

Lemma reaches_server_inv random m :
  reaches_server random m = true ->
  exists m1 der, MACCredentials_Protect random ss_credentials m = (m1, Ok tt) /\
    snd (MarshalBinary m1) = Ok der /\ Z.of_nat (length der) <= ss_maxBody x.
Proof.
  unfold reaches_server. destruct (MACCredentials_Protect random _ m) as [m1 [[]|e]]; [|done].
  destruct (snd (MarshalBinary m1)) as [der|e] eqn:E; [|done]. intros H%Z.leb_le. by exists m1, der.
Qed.
Lemma reaches_client_inv random params m :
  reaches_client random params m = true ->
  exists m1 der,
    MACCredentials_Protect random (mkMACCredentials sec (params emptyMacConfig)) m = (m1, Ok tt) /\
    snd (MarshalBinary m1) = Ok der /\
    (0 < maxResponseBytes c -> Z.of_nat (length der) <= maxResponseBytes c).
Proof.
  unfold reaches_client. destruct (MACCredentials_Protect random _ m) as [m1 [[]|e]]; [|done].
  destruct (snd (MarshalBinary m1)) as [der|e] eqn:E; [|done]. rewrite orb_true_iff, !Z.leb_le. intros H.
  exists m1, der. split_and!; [done | done | lia].
Qed.

Lemma client_sendable txid nonce recip now b certs :
  built b -> Forall CMPCertificate_wf certs ->
  sendable (ss_from x) (ss_to x) b (client_message txid nonce recip now b certs).
Proof.
  intros [Hd Ht] Hc. split; [done|]. split; [done|]. split; [done|]. split; [|done].
  split; [done|]. split; [apply Hcl|]. split; [apply Hcl | done].
Qed.

Lemma to_server txid nonce recip now b certs random :
  let m := client_message txid nonce recip now b certs in
  built b -> Forall CMPCertificate_wf certs -> reaches_server random m = true ->
  exists m1 der req params, MACCredentials_Protect random ss_credentials m = (m1, Ok tt) /\
    MarshalBinary m1 = (m1, Ok der) /\
    (exists a, Header m1 = sent_header (set_ProtectionAlg (Some a) (Header m)) b) /\
    read_request (ss_maxBody x) (post der) = Ok req /\ server_reads m b req params /\
    received (ss_from x) (ss_to x) b m1 req /\ bout (PKIBody_marshal b) = Ok (rawBody m1).
Proof.
  intros m Hb Hc (m1 & der & Hp & Hm & Hl)%reaches_server_inv.
  destruct (MarshalBinary m1) as [m2 r2] eqn:Em. cbn [snd] in Hm. subst r2.
  destruct (protected_read _ _ _ _ ss_credentials _ _ _ _ (client_sendable txid nonce recip now b certs Hb Hc)
              (proj2 (cl_secret Hcl)) Hp Em) as (-> & Ha & req & Hparse & Hr & Hrec & Hraw & Hv).
  destruct (Hv (mac_options sec) at_) as [params Hver]; [by split|].
  exists m1, der, req, params. split_and!; try done.
  unfold read_request. cbn [Method post req_ContentType req_Body req_BodyErr negb bool_decide].
  rewrite (proj2 (media_type _) (cl_mime Hcl)). cbn [negb].
  assert (io_ReadAll (Some (ss_maxBody x)) der None = Ok der) as ->; [|by rewrite Hparse].
  cbn [io_ReadAll]. case_goal; [|done]. rewrite take_ge; [done|]. pose proof (cl_maxBody Hcl). lia.
Qed.

(** What the server answers, from its draws on. *)
Lemma server_sendable req b params gi nonce :
  Forall info_wf gi -> built b -> Sender (Header req) = ss_from x -> session_version (PVNO (Header req)) ->
  sendable (ss_reply_from x) (ss_reply_to x) b (server_message req b params gi nonce).
Proof.
  intros Hgi [Hd Ht] Hs Hv. split; [done|]. split; [done|]. split; [done|].
  split; [|apply Forall_fmap; exact (hs_extra Hsv)].
  split; [by destruct Hv as [H|H]; cbn; rewrite H|]. cbn. rewrite Hs.
  split; [apply Hsv|]. split; [apply Hsv|]. by split.
Qed.

(** The message [m] with body [b], protected as [m1] and encoded as [der], is read by the
    client as [resp]. *)
Definition client_gets (m : PKIMessage) (b : PKIBody) (m1 : PKIMessage) (der : bytes)
    (resp : PKIMessage) : Prop :=
  SenderNonce (Header m1) = SenderNonce (Header m) /\ snd (MarshalBinary m1) = Ok der /\
  (0 < maxResponseBytes c -> Z.of_nat (length der) <= maxResponseBytes c) /\
  ParsePKIMessage der = Ok resp /\ as_read (ss_reply_from x) (ss_reply_to x) b m resp /\
  forall o now, accepts_mac o sec ->
    exists params, Verify now resp o = Ok (mkVerifyResult true (Some params) None).

Lemma to_client req b params0 gi params now0 m0 w :
  Forall info_wf gi -> built b -> Sender (Header req) = ss_from x -> session_version (PVNO (Header req)) ->
  Verify now0 m0 (mac_options sec) = Ok (mkVerifyResult true (Some params) None) ->
  let m := server_message req b params0 gi (rand_Read (draws w) 16) in
  reaches_client (rand_Read (Datatypes.S (draws w)) 16) params m = true ->
  exists m1 der resp,
    buildResponseInternal srv at_ req b (Some (ss_identity params0)) gi (Some params) w = (drawn 2 w, Ok m1) /\
    client_gets m b m1 der resp.
Proof.
  intros Hgi Hb Hs Hv Hver m (m1 & der & Hprot & Hm & Hl)%reaches_client_inv.
  destruct (echo_config _ _ _ _ _ Hver eq_refl) as (alg & _ & Hsec & _ & Hwf & _ & Herr & _).
  destruct (MarshalBinary m1) as [m2 r2] eqn:Em. cbn [snd] in Hm. subst r2.
  destruct (protected_read _ _ _ _ (mkMACCredentials sec (params emptyMacConfig)) _ _ _ _
              (server_sendable req b params0 gi (rand_Read (draws w) 16) Hgi Hb Hs Hv)
              Hwf Hprot Em) as (-> & [a Ha] & resp & Hparse & Hr & _ & _ & Hok).
  exists m1, der, resp. split; [|split; [by rewrite Ha|split; [by rewrite Em|done]]].
  unfold buildResponseInternal, make16, draw, st_bind, st_ret, uses_mac. destruct w as [tr d s].
  apply nonempty_true in Hsec. cbn [mac_options SharedSecret] in Hsec. unfold protectResponseWithOptions.
  change (si_MACVerified (ss_identity params0)) with true. change (secret (ss_identity params0)) with sec.
  rewrite Hsec. cbn [andb]. unfold NewMACCredentials. rewrite Hsec. simpl. rewrite Herr.
  unfold m, server_message in Hprot. cbn [draws] in Hprot. by rewrite Hprot.
Qed.

End Parties.
