(* ===== verification/SessionExample.v ===== *)
(** * A session to run

    The example client and server as the parties of a session. *)
From S2P Require Import Prelude Failure Errors Asn1 Asn1Facts Der Types TypesFacts StatusInfo Enrollment.
From S2P Require Import EnrollmentFacts Crmf CrmfFacts X509 CertPath Message MessageFacts BodyFacts.
From S2P Require Import RevocationMsg Monad Algorithms Protect Verify Keeps ProtectFacts SignatureFacts Http.
From S2P Require Import Instances CodecProps Transactions TransactionsFacts Handler ServerRequest CAHandler.
From S2P Require Import Policy Server ServerHTTP ServerFacts ServerRuns ServerExamples Admission SessionFacts.
From S2P Require Import Client ClientEnroll HttpFacts ClientExamples Session.

Definition device_options : list RequestOption :=
  [WithTemplateSubject (toy_subject "device"); WithSenderName (toy_subject "client")].
Definition device_pubDER : bytes := Eval vm_compute in default [] (MarshalPKIXPublicKey (Some (Signer_Public 3))).
Definition device_template : CertTemplate := Eval vm_compute in
  ok_or (ex_template "device" (ex_public 3)) (crmf_template 3 (request_options device_options)).

(** A name as its peer reads it. *)
Definition name_read (gn : GeneralName) : GeneralName :=
  match bout (GeneralName_marshal gn) with
  | Ok e => match GeneralName_unmarshal e with Ok (gn, _) => gn | Err _ => gn end
  | Err _ => gn
  end.
Definition device_from : GeneralName := Eval vm_compute in name_read (NewDirectoryName (toy_subject "client")).
Definition device_to : GeneralName := Eval vm_compute in name_read emptyGeneralName.
Definition device_reply_from : GeneralName := Eval vm_compute in name_read (response_sender toy_server).
Definition device_reply_to : GeneralName := Eval vm_compute in name_read device_from.

Definition device_session : session (list event) :=
  mkSession toy_CA toy_server toy_now MaxRequestBodySize toy_client 3 device_pubDER toy_secret
    (WithMACIterationCount 3 (WithPBM emptyMacConfig)) device_options BodyTypeIP device_template []
    device_from device_to device_reply_from device_reply_to.

Lemma names_read gn gn' :
  GeneralName_unmarshal (gn_Raw gn') = Ok (gn', []) -> bout (GeneralName_marshal gn) = Ok (gn_Raw gn') ->
  reads_as gn gn'.
Proof. intros Hw. by apply reads_as_by. Qed.

Lemma device_client : honest_client device_session.
Proof.
  constructor.
  - split; [reflexivity|]. intros der n. reflexivity.
  - vm_compute. reflexivity.
  - discriminate.
  - reflexivity.
  - discriminate.
  - split; [reflexivity|]. constructor.
  - split; [discriminate|]. split; [right; left; reflexivity|]. split; (split; [reflexivity | left; reflexivity]).
  - split; apply names_read; vm_compute; reflexivity.
  - left. reflexivity.
  - split; [reflexivity|]. split; [|reflexivity].
    split; [reflexivity|]. split; [|split; [right; reflexivity | left; reflexivity]].
    intros e He. vm_compute in He. injection He as <-. vm_compute. reflexivity.
  - split; [reflexivity|]. split; [vm_compute; reflexivity|]. split; [reflexivity | discriminate].
  - intros random. eexists. reflexivity.
Qed.

Lemma device_server : honest_server device_session.
Proof.
  constructor.
  - vm_compute. reflexivity.
  - vm_compute. reflexivity.
  - exists (fun _ _ _ => Ok toy_secret). split; [vm_compute; reflexivity|]. intros st. reflexivity.
  - intros m Hm. unfold verifyRecipient. rewrite Hm. vm_compute. reflexivity.
  - intros n. right. vm_compute. split; discriminate.
  - split; apply names_read; vm_compute; reflexivity.
  - replace (cfg_extraCerts _) with (@nil Certificate) by (vm_compute; reflexivity). constructor.
  - right. split; [reflexivity|]. split; [vm_compute; discriminate | vm_compute; reflexivity].
Qed.

(** What the CA makes of the request. *)
Definition device_certificate : Certificate := Eval vm_compute in
  toy_certificate [] (requested_template (Signer_Public 3) device_template device_pubDER).
Definition device_response : Response := mkResponse (Some device_certificate) [ex_ca] None (Some 77).

Lemma device_suitable : suitable device_session device_response device_certificate.
Proof.
  constructor.
  - split; [|apply Forall_singleton]; exists SEQUENCE; apply single_element_inv; vm_compute; reflexivity.
  - vm_compute. reflexivity.
  - vm_compute. reflexivity.
  - intros n pool H. vm_compute in H. injection H as <-. vm_compute. reflexivity.
  - eexists. vm_compute. reflexivity.
  - intros a _. vm_compute. reflexivity.
Qed.

Lemma device_CA : willing_CA device_session [].
Proof.
  constructor.
  - intros ctx params. exists [Ev_issued RequestIR "device" (Some (Signer_Public 3))], device_response, device_certificate.
    split; [vm_compute; reflexivity|]. split; [reflexivity|]. split; [reflexivity | exact device_suitable].
  - intros confirm ctx crt ref st H. injection H as <-. eexists. reflexivity.
Qed.

Lemma device_room :
  has_room (mac_credential device_from []) (tracker (net toy_net)) /\
  transactions (tracker (net toy_net)) !! ss_transaction device_session (first_id toy_net) = None.
Proof. split; [vm_compute; split; reflexivity | vm_compute; reflexivity]. Qed.

(** The messages of the run. *)
Definition device_request : CertReqMsg := Eval vm_compute in
  ok_or ex_certReqMsg (GeneratePOP (rand_Reader 100) 3
    (mkCertReqMsg (mkCertRequest 0 device_template [] []) None)).
Definition device_sent (random : bytes) (m : PKIMessage) : bytes :=
  ok_or [] (snd (MarshalBinary (fst (MACCredentials_Protect random toy_pbm m)))).
Definition device_read (random : bytes) (m : PKIMessage) : PKIMessage :=
  ok_or m (ParsePKIMessage (device_sent random m)).
Definition device_first : PKIMessage := Eval vm_compute in
  first_request device_session toy_net (NewIRBody [device_request]).
Definition device_asked : PKIMessage := Eval vm_compute in device_read (rand_Read 103 16) device_first.
Definition device_status : CertStatus := Eval vm_compute in ok_or toy_status (NewCertStatus device_certificate 0).
Definition device_confirmation : PKIMessage := Eval vm_compute in
  confirmation device_session toy_net toy_world device_status.
Definition device_confirmed : PKIMessage := Eval vm_compute in
  device_read (rand_Read 106 16) device_confirmation.

(** The configuration a message was verified with. *)
Definition verified_config (r : result VerifyResult) : option macCredentialConfig :=
  match r with Ok v => (fun p => p emptyMacConfig) <$> ProtectionParams v | Err _ => None end.
Definition device_config : macCredentialConfig := Eval vm_compute in
  default emptyMacConfig (verified_config (Verify toy_now device_asked (mac_options toy_secret))).

Lemma device_gets random m req req' params :
  server_gets device_session random m req params ->
  read_request MaxRequestBodySize (post (device_sent random m)) = Ok req' -> req = req'.
Proof.
  intros (m1 & der & Hp & Hm & Hr & _). unfold device_sent.
  change (ss_credentials device_session) with toy_pbm in Hp. rewrite Hp. cbn [fst]. rewrite Hm. cbn [ok_or].
  change (ss_maxBody device_session) with MaxRequestBodySize in Hr. rewrite Hr. by intros [= ->].
Qed.
Lemma device_params random m params :
  server_gets device_session random m device_asked params -> params emptyMacConfig = device_config.
Proof.
  intros (_ & _ & _ & _ & _ & Hv).
  assert (Hx : verified_config (Verify (ss_time device_session) device_asked (mac_options (ss_secret device_session)))
               = Some device_config) by (vm_compute; reflexivity).
  rewrite Hv in Hx. change (Some (params emptyMacConfig) = Some device_config) in Hx. congruence.
Qed.
Lemma device_requests b : request_body device_session toy_net b -> b = NewIRBody [device_request].
Proof.
  intros (m & Hm & Hb). change (net_draws toy_net) with 100%nat in Hm.
  assert (Hx : GeneratePOP (rand_Reader 100) 3 (mkCertReqMsg (mkCertRequest 0 device_template [] []) None)
               = Ok device_request) by (vm_compute; reflexivity).
  change (GeneratePOP (rand_Reader 100) 3 (mkCertReqMsg (mkCertRequest 0 device_template [] []) None) = Ok m) in Hm.
  rewrite Hx in Hm. apply Ok_inj in Hm as <-. by apply Ok_inj in Hb as <-.
Qed.
Lemma device_granted params st rp crt :
  grant device_session toy_net params st rp crt -> rp = device_response /\ crt = device_certificate.
Proof.
  intros (Hi & _ & Hc).
  assert (Hx : IssueCertificate (ss_ca device_session) (server_context toy_server context_Background)
    RequestIR (requested_template (Signer_Public 3) device_template device_pubDER)
    (ss_identity device_session params) [] =
    ([Ev_issued RequestIR "device" (Some (Signer_Public 3))], Ok (Some device_response)))
    by (vm_compute; reflexivity).
  change (IssueCertificate (ss_ca device_session) (server_context toy_server context_Background)
    RequestIR (requested_template (Signer_Public 3) device_template device_pubDER)
    (ss_identity device_session params) [] = (st, Ok (Some rp))) in Hi.
  rewrite Hx in Hi. assert (rp = device_response) as -> by congruence. split; [reflexivity|].
  change (Some device_certificate = Some crt) in Hc. congruence.
Qed.

Lemma device_asks req params :
  server_gets device_session (rand_Read 103 16) (first_request device_session toy_net (NewIRBody [device_request]))
    req params -> req = device_asked /\ params emptyMacConfig = device_config.
Proof.
  intros H. assert (req = device_asked) as -> by (eapply device_gets; [exact H | vm_compute; reflexivity]).
  split; [reflexivity|]. by eapply device_params.
Qed.
Lemma device_confirms status n req params :
  NewCertStatus device_certificate 0 = Ok status ->
  server_gets device_session (rand_Read 106 16) (confirmation device_session toy_net n status) req params ->
  req = device_confirmed.
Proof.
  intros Hst H. assert (Hx : NewCertStatus device_certificate 0 = Ok device_status) by (vm_compute; reflexivity).
  rewrite Hx in Hst. apply Ok_inj in Hst as <-. eapply device_gets; [exact H | vm_compute; reflexivity].
Qed.

(** Every message of the run arrives. *)
Lemma device_delivered : ~ undelivered device_session toy_net.
Proof.
  assert (Hx : NewCertStatus device_certificate 0 = Ok device_status) by (vm_compute; reflexivity).
  intros [b Hb H|b req params st rp crt Hb Hg Hgr H|params rp crt status n Hgr Hst H
    |b req params rp crt status n req' params' Hb Hg Hgr Hst Hg' H].
  - apply device_requests in Hb as ->. vm_compute in H. discriminate H.
  - apply device_requests in Hb as ->. apply device_asks in Hg as [-> Hp]. apply device_granted in Hgr as [-> ->].
    unfold reaches_client in H. rewrite Hp in H. vm_compute in H. discriminate H.
  - apply device_granted in Hgr as [_ ->]. rewrite Hx in Hst. apply Ok_inj in Hst as <-.
    vm_compute in H. discriminate H.
  - apply device_requests in Hb as ->. apply device_asks in Hg as [-> Hp]. apply device_granted in Hgr as [_ ->].
    apply device_confirms in Hg' as ->; [|exact Hst].
    unfold reaches_client in H. rewrite Hp in H. vm_compute in H. discriminate H.
Qed.
