(* ===== verification/SessionServer.v ===== *)
(** * The server in a session

    What the server does with the two messages of an honest client: it grants the request
    and takes the confirmation. *)
From S2P Require Import Prelude Failure Errors Asn1 Asn1Facts Types TypesFacts StatusInfo Enrollment.
From S2P Require Import EnrollmentFacts Crmf CrmfFacts X509 CertPath Message MessageFacts BodyFacts.
From S2P Require Import RevocationMsg Monad Algorithms Protect Verify Keeps ProtectFacts SignatureFacts Http.
From S2P Require Import Transactions TransactionsFacts Handler ServerRequest CAHandler Policy Server ServerHTTP.
From S2P Require Import ServerFacts ServerRuns ServerSafety ServerProps TransactionProps Admission SessionFacts.
From S2P Require Import Client ClientEnroll ClientFacts ClientRuns HttpFacts Agreement Session.

Section Server.
Context {CB : Cryptobyte} {L : CryptobyteLaws CB} {GN : GoNames} {GX : GoX509} {GA : GoASN1}
  {GC : GoCrypto} {GL : GoCryptoLaws GX GC} {GP : GoPBMAC1} {PL : GoPBMAC1Laws CB GP} {GR : GoRandom}
  {GH : GoHTTP}.
Context {S : Type} (x : session S) (Hcl : honest_client x) (Hsv : honest_server x).
#[local] Abbreviation srv := (ss_server x).
#[local] Abbreviation at_ := (ss_time x).
#[local] Abbreviation sec := (ss_secret x).
#[local] Abbreviation kid := (ro_senderKID (request_options (ss_opts x))).
#[local] Abbreviation pub := (Signer_Public (ss_key x)).
#[local] Abbreviation credential := (mac_credential (ss_from x) kid).

(** ** What the server makes of a message of the client *)

Section Message.
Context (txid nonce recip : bytes) (n0 : World S) (b : PKIBody) (certs : list CMPCertificate).
Context (req : PKIMessage) (params : MACCredentialOption).
Context (Hr : server_reads x
  (client_message x txid nonce recip (time_Now (httpClient (ss_client x)) n0) b certs) b req params).

Lemma session_verified s :
  exists b', Body req = Some b' /\ Type_ b' = Type_ b /\ verified srv at_ s req b' (ss_identity x params).
Proof.
  destruct Hr as [Ha Hv]. destruct (ar_body _ _ _ _ _ Ha) as (raw & _ & Hb).
  eexists. split; [exact Hb|]. split; [done|]. constructor.
  - apply Hsv.
  - apply session_check. rewrite (ar_version _ _ _ _ _ Ha). apply session_required. by left.
  - apply (hs_recipient _ Hsv), (ar_recipient _ _ _ _ _ Ha).
  - destruct (hs_secret _ Hsv) as (lookup & Hl & Hs).
    unfold ss_identity. rewrite <- (ar_sender _ _ _ _ _ Ha).
    change kid with (SenderKID (Header (client_message x txid nonce recip
      (time_Now (httpClient (ss_client x)) n0) b certs))).
    rewrite <- (ar_kid _ _ _ _ _ Ha). apply (verifyProtection_mac _ _ _ _ lookup); try done.
    by rewrite (ar_sender _ _ _ _ _ Ha), (ar_kid _ _ _ _ _ Ha).
  - exact Hb.
  - unfold check_profile. by rewrite (hs_lenient _ Hsv).
Qed.

Lemma session_header isFirst : (isFirst = true -> recip = []) -> check_header srv at_ req isFirst = Ok tt.
Proof.
  intros Hf. destruct Hr as [Ha _]. apply check_header_lenient; [apply Hsv| |].
  - unfold on_time. destruct (hs_clock _ Hsv n0) as [Ht|Ht]; [by left|]. right.
    rewrite (ar_timed _ _ _ _ _ Ha), (ar_time _ _ _ _ _ Ha).
    destruct (HasMessageTime _); [by right | by left].
  - rewrite (ar_recip _ _ _ _ _ Ha). exact Hf.
Qed.

Lemma session_admitted w :
  let isFirst := isInitialRequest (Type_ b) in
  Type_ b <> BodyTypeNested -> txid <> [] -> (isFirst = true -> recip = []) ->
  (isFirst = true -> has_room credential (tracker w) /\
     transactions (tracker w) !! ss_transaction x txid = None) ->
  processMessage srv at_ req w
  = dispatch srv at_ (server_context srv context_Background) req (Type_ b) (ss_identity x params)
      (mkWorld (accepted_tracker at_ credential req isFirst (tracker w)) (draws w) (ca_state w)).
Proof.
  intros isFirst Hn Hid Hf Hroom. destruct (session_verified (ca_state w)) as (b' & Hb & Ht & Hv).
  destruct Hr as [Ha _]. unfold isFirst in *. rewrite <- Ht in *.
  apply (process_admitted srv at_ req b' (ss_identity x params) credential w Hv Hn).
  - by rewrite (ar_id _ _ _ _ _ Ha).
  - done.
  - by apply session_header.
  - intros H. destruct (Hroom H) as [? Hk]. split; [done|]. by rewrite (ar_id _ _ _ _ _ Ha).
Qed.

End Message.

(** ** The request *)

Section Run.
Context (w : Net (World S)).
#[local] Abbreviation rt := (requestTypeFromBody (request_type (ss_type x))).

(** The server once it has granted the request. *)
Definition granted_world (st : S) (rp : Response) (crt : Certificate) (req : PKIMessage)
    (params : MACCredentialOption) (m1 : PKIMessage) : World S :=
  let t := start_txn at_ credential (first_id w) (tracker (net w)) in
  mkWorld (set_transactions
             (<[ss_transaction x (first_id w) := issued_for at_ credential rt 0 crt rp (ss_identity x params) req m1]>
                (transactions t)) t)
    (2 + draws (net w)) st.

Lemma grant_built rp crt : built (grant_body x rp crt).
Proof. unfold grant_body, certRep_body. by repeat case_goal. Qed.

Lemma request_body_type b : request_body x w b -> built b /\ Type_ b = request_type (ss_type x).
Proof.
  intros (m & _ & H). destruct (crmf_request (ss_type x) m (cl_type x Hcl)) as (b' & Hb & Ht & Hd).
  rewrite H in Hb. apply Ok_inj in Hb as <-. unfold built. rewrite Ht. split; [|done]. split; [done|].
  by destruct (cl_type x Hcl) as [-> | ->].
Qed.

Lemma request_processed b req params st rp crt :
  request_body x w b -> server_reads x (first_request x w b) b req params ->
  requests pub (ss_template x) (ss_type x) req -> grant x w params st rp crt ->
  has_room credential (tracker (net w)) ->
  transactions (tracker (net w)) !! ss_transaction x (first_id w) = None -> first_id w <> [] ->
  reaches_client x (rand_Read (1 + draws (net w)) 16) params (grant_message x w req params rp crt) = true ->
  exists m1 der resp,
    processMessage srv at_ req (net w) = (granted_world st rp crt req params m1, Ok m1) /\
    client_gets x (grant_message x w req params rp crt) (grant_body x rp crt) m1 der resp.
Proof.
  intros Hb Hr Hreq (Hi & Hw & Hcrt) Hroom Hk Hid Hdel.
  destruct (request_body_type _ Hb) as [_ Ht].
  assert (Htypes : isInitialRequest (Type_ b) = true /\ isCertRequest (Type_ b) = true /\ Type_ b <> BodyTypeNested).
  { rewrite Ht. by destruct (cl_type x Hcl) as [-> | ->]. }
  destruct Htypes as (Hfirst & Hcr & Hnn). pose proof Hr as [Ha Hver].
  pose proof (session_verified _ _ _ _ _ _ _ _ Hr (ca_state (net w))) as (b' & Hb' & Ht' & _).
  pose proof (session_admitted _ _ _ _ _ _ _ _ Hr (net w) Hnn Hid ltac:(done) ltac:(done)) as Hproc.
  rewrite Hfirst in Hproc. set (w1 := mkWorld (accepted_tracker _ _ _ _ _) _ _) in Hproc.
  assert (Htr : tracker w1 = start_txn at_ credential (first_id w) (tracker (net w))).
  { unfold w1, accepted_tracker. cbn [tracker]. by rewrite (ar_id _ _ _ _ _ Ha). }
  assert (Hh : handler srv (server_context srv context_Background) req (ss_identity x params) (ca_state w1)
               = (st, Ok (Some rp))).
  { rewrite (drives_request (ss_ca x) _ pub (ss_template x) (ss_type x) (ss_pubDER x) _ _ _ _
      (cl_type x Hcl) (proj1 (cl_key x Hcl)) Hreq); [exact Hi|].
    rewrite (ar_sender _ _ _ _ _ Ha), (ar_kid _ _ _ _ _ Ha). apply Hsv. }
  destruct (request_granted srv at_ (server_context srv context_Background) req b' (ss_identity x params)
    credential 0 rp st crt (active_entry at_ (makeCredentialKey credential)) w1) as (m1 & Hm & Hrun); try done.
  { rewrite Htr, (ar_id _ _ _ _ _ Ha). apply lookup_insert_eq. }
  { unfold certReqIDFromRequest, body_type. rewrite Hb'. cbn [res_bind].
    rewrite (requests_parsed _ _ _ _ Hreq), Ht', Ht. by destruct (cl_type x Hcl) as [-> | ->]. }
  { unfold grants_implicit, requestHasImplicitConfirm. rewrite (ar_info _ _ _ _ _ Ha). by rewrite andb_false_r. }
  destruct (to_client x Hsv req (grant_body x rp crt) params (generalInfo_of srv at_ accepted_info req) params
    at_ req (mkWorld (tracker w1) (draws (net w)) st)) as (m2 & der & resp & Hm2 & Hgets); try done.
  { apply generalInfo_of_wf. }
  { apply grant_built. }
  { apply Ha. }
  { rewrite (ar_version _ _ _ _ _ Ha). apply session_required. by left. }
  cbn [draws ca_state] in *. rewrite Ht', Ht in Hm, Hrun. unfold grant_body in Hm2.
  change (si_protectionParams (ss_identity x params)) with (Some params) in Hm.
  change (draws w1) with (draws (net w)) in Hm, Hrun.
  assert (m2 = m1) as -> by (rewrite Hm2 in Hm; by injection Hm).
  exists m1, der, resp. split; [|done].
  rewrite Hproc. unfold dispatch. rewrite Hcr, Hrun. unfold granted_world. by rewrite <- Htr, (ar_id _ _ _ _ _ Ha).
Qed.

(** ** The confirmation *)

Lemma confirmation_processed st rp crt req0 params m1 status req params' :
  let n := granted_world st rp crt req0 params m1 in
  let key := ss_transaction x (first_id w) in
  composite_prehash_sha2 -> sha2_linked -> willing_CA x (ca_state (net w)) -> suitable x rp crt ->
  NewCertStatus crt 0 = Ok status ->
  TransactionID (Header req0) = first_id w -> first_id w <> [] ->
  SenderNonce (Header m1) = rand_Read (0 + draws (net w)) 16 -> rand_Read (0 + draws (net w)) 16 <> [] ->
  Verify at_ req0 (mac_options sec) = Ok (mkVerifyResult true (Some params) None) ->
  server_reads x (confirmation x w n status) (NewCertConfBody [status]) req params' ->
  reaches_client x (rand_Read (3 + draws (net w)) 16) params (acknowledgment x w req params') = true ->
  transactions (tracker (net w)) !! key = None ->
  exists n' m2 der resp, processMessage srv at_ req n = (n', Ok m2) /\
    transactions (tracker n') !! key = None /\ count (tracker n') = count (tracker (net w)) /\
    client_gets x (acknowledgment x w req params') NewPKIConfBody m2 der resp.
Proof.
  intros n key Hpre Hlink Hca Hsu Hst Hid0 Hid Hn1 Hnne Hver0 Hr Hdel Hnone. pose proof Hr as [Ha Hver].
  destruct (session_verified _ _ _ _ _ _ _ _ Hr (ca_state n)) as (b' & Hb' & Ht' & _).
  pose proof (session_admitted _ _ _ _ _ _ _ _ Hr n ltac:(done) Hid ltac:(done) ltac:(done)) as Hproc.
  assert (Hc : snd (CertConf b') = Ok [status]).
  { destruct (ar_body _ _ _ _ _ Ha) as (raw & Hraw & Hb). rewrite Hb in Hb'. injection Hb' as <-.
    apply certConf_read; [|done]. by apply (NewCertStatus_wf crt 0). }
  destruct (NewCertStatus_checks crt 0 status Hpre Hlink (su_composite _ _ _ Hsu) Hst) as (_ & Hsi & _).
  set (entry := issued_for at_ credential rt 0 crt rp (ss_identity x params) req0 m1).
  destruct (drives_confirmation (ss_ca x) (handler srv) _ (server_context srv context_Background) entry crt status
    req (ss_identity x params') b' (ca_state n) (hs_handler _ Hsv)) as [s2 Hh]; try done.
  { intros [_ H]. by rewrite (ar_sender _ _ _ _ _ Ha), (ar_kid _ _ _ _ _ Ha). }
  { intros confirm ctx ref Hconf. by eapply (wc_confirms _ _ Hca). }
  assert (Hhc : honest_confirmation srv credential req0 m1 req (ss_identity x params') crt 0).
  { constructor; try done; [by exists b', status| | |by rewrite Hn1|by rewrite (hs_lenient _ Hsv)].
    - by rewrite (ar_id _ _ _ _ _ Ha), Hid0.
    - by rewrite (ar_recip _ _ _ _ _ Ha), Hn1. }
  assert (Hlook : transactions (tracker n) !! makeKey credential (TransactionID (Header req0)) = Some entry).
  { rewrite Hid0. apply lookup_insert_eq. }
  pose proof (confirmation_accepted srv at_ at_ (server_context srv context_Background) req0 m1 req
    (ss_identity x params) (ss_identity x params') n s2 rp crt credential rt 0 None Hpre Hlink
    (su_composite _ _ _ Hsu) Hlook Hhc Hh) as Hrun.
  destruct (to_client x Hsv req NewPKIConfBody params' [] params at_ req0
    (mkWorld (remove_txn (makeKey credential (TransactionID (Header req0))) entry (tracker n)) (draws n) s2))
    as (m2 & der & resp & Hm2 & Hgets); try done.
  { apply Ha. }
  { rewrite (ar_version _ _ _ _ _ Ha). apply session_required. by left. }
  eexists _, m2, der, resp. split; [|split; [|split; [|exact Hgets]]].
  - rewrite Hproc. refine (eq_trans _ (eq_trans Hrun Hm2)). reflexivity.
  - cbn. rewrite Hid0. apply lookup_delete_eq.
  - cbn. lia.
Qed.

End Run.
End Server.
