(* ===== verification/Liveness.v ===== *)
(** * An honest enrollment succeeds

    The client of a session: its request, the grant it accepts and its confirmation, run
    against its server. *)
From S2P Require Import Prelude Failure Errors Asn1 Asn1Facts Types TypesFacts StatusInfo Enrollment.
From S2P Require Import EnrollmentFacts Crmf CrmfFacts X509 CertPath Message MessageFacts BodyFacts.
From S2P Require Import RevocationMsg Monad Algorithms Protect Verify Keeps ProtectFacts SignatureFacts Http.
From S2P Require Import Transactions TransactionsFacts Handler ServerRequest CAHandler Policy Server ServerHTTP.
From S2P Require Import ServerFacts ServerRuns ServerSafety ServerProps TransactionProps Admission SessionFacts.
From S2P Require Import Client ClientEnroll ClientFacts ClientRuns HttpFacts Agreement Session SessionServer.
From S2P Require Import Der Instances CodecProps ServerExamples ClientExamples SessionExample.

Section Client.
Context {CB : Cryptobyte} {L : CryptobyteLaws CB} {GN : GoNames} {GX : GoX509} {GA : GoASN1}
  {GC : GoCrypto} {GL : GoCryptoLaws GX GC} {GP : GoPBMAC1} {PL : GoPBMAC1Laws CB GP} {GR : GoRandom}
  {GH : GoHTTP}.
Context {S : Type} (x : session S) (Hcl : honest_client x) (Hsv : honest_server x).
#[local] Abbreviation srv := (ss_server x).
#[local] Abbreviation at_ := (ss_time x).
#[local] Abbreviation c := (ss_client x).
#[local] Abbreviation creds := (CredMAC (ss_credentials x)).
#[local] Abbreviation ropts := (request_options (ss_opts x)).
#[local] Abbreviation clock n := (time_Now (httpClient c) n).
Implicit Types (w : Net (World S)) (n : World S).

(** ** Messages of the client *)

Lemma st_bind_run {A B} (m : ST (Net (World S)) A) (k : A -> ST (Net (World S)) B) w w' a :
  m w = (w', Ok a) -> st_bind m k w = k a w'.
Proof. unfold st_bind. by intros ->. Qed.

Lemma protect_mac_run m m1 n i l op :
  MACCredentials_Protect (rand_Read i 16) (ss_credentials x) m = (m1, Ok tt) ->
  map_err op (protect creds m) (mkNet n i l) = (mkNet n (1 + i) l, Ok m1).
Proof.
  intros H. apply map_err_ok. unfold protect, st_bind, net_draw, Protect. by rewrite H.
Qed.
Lemma marshal_run m der w op :
  MarshalBinary m = (m, Ok der) -> map_err op (marshal m) w = (w, Ok (m, der)).
Proof. intros H. apply map_err_ok. unfold marshal. by rewrite H. Qed.

Lemma newRequest_run b n i l m1 :
  MACCredentials_Protect (rand_Read (2 + i) 16) (ss_credentials x)
    (client_message x (rand_Read i 16) (rand_Read (1 + i) 16) [] (clock n) b (ss_certs x)) = (m1, Ok tt) ->
  newRequest c b (Some creds) ropts (mkNet n i l) = (mkNet n (3 + i) l, Ok m1).
Proof.
  intros H. unfold newRequest, new_message, st_bind at 1 2 3 4 5, st_lift, net_draw, now, st_ret.
  rewrite (proj1 (cl_extra x Hcl)). cbn [net]. exact (protect_mac_run _ _ n (2 + i) l _ H).
Qed.

(** ** One exchange *)

(** The answer the server makes to the message [m1] of the client. *)
Lemma exchange_run m1 der req n n' r1 m b rder resp i l op :
  read_request (ss_maxBody x) (post der) = Ok req -> processMessage srv at_ req n = (n', Ok r1) ->
  client_gets x m b r1 rder resp ->
  TransactionID (Header m) = TransactionID (Header m1) -> RecipNonce (Header m) = SenderNonce (Header m1) ->
  exists h, sendHTTP c der (mkNet n i l) = (mkNet n' i (l ++ [Exchanged der (Ok h)]), Ok (mkRawHTTP rder StatusOK)) /\
    parse (mkRawHTTP rder StatusOK) op = Ok (mkCmpHTTP resp StatusOK) /\
    forall op' pool known alt w, exists params,
      verified_response c op' m1 (mkCmpHTTP resp StatusOK) creds pool known alt w
      = (w, Ok (mkVerifyResult true (Some params) None)).
Proof.
  intros Hr Hp (_ & Hm & Hl & Hparse & Ha & Hv) Ht Hn.
  destruct (sendHTTP_served _ _ _ c _ _ _ _ _ _ i l (cl_transport x Hcl) Hr Hp Hm (cl_mime x Hcl)
    (cl_maxResponse x Hcl) Hl) as [l' Hs].
  pose proof (sendHTTP_ok _ _ _ _ _ Hs) as (h & Hh & _). cbn [history] in Hh. subst l'.
  exists h. split; [exact Hs|]. split; [unfold parse; cbn [raw_body]; by rewrite Hparse|].
  intros op' pool known alt w.
  destruct (Hv (response_options c resp creds pool known) (clock (net w))) as [params Hver].
  { split; [done | apply Hcl]. }
  exists params. unfold verified_response, st_bind, now, verifyResponse. cbn [message].
  rewrite (ar_id _ _ _ _ _ Ha), Ht, bytes_eqb_refl. unfold nonce_matches.
  by rewrite (ar_recip _ _ _ _ _ Ha), Hn, bytes_eqb_refl, (ar_alg _ _ _ _ _ Ha), Hver.
Qed.

(** ** The grant *)

Definition granted_pair (crt : Certificate) : CertifiedKeyPair :=
  mkCertifiedKeyPair (mkCertOrEncCert (Some (mkCMPCertificate (Raw crt))) None) None.
Definition granted_response (crt : Certificate) : CertResponse :=
  mkCertResponse 0 accepted_info (Some (granted_pair crt)) [].
Definition granted_rep (rp : Response) (crt : Certificate) : CertRepMessage :=
  mkCertRepMessage ((fun ca => mkCMPCertificate (Raw ca)) <$> CACerts rp) [granted_response crt].

Lemma granted_rep_wf rp crt : suitable x rp crt -> CertRepMessage_wf (granted_rep rp crt).
Proof.
  intros [[He Hca] _ _ _ _ _]. split; [by apply Forall_fmap|]. constructor; [|constructor].
  split; [done|]. split; [by vm_compute|]. by split.
Qed.

Lemma get_IP raw m :
  get_body (mkPKIBody BodyTypeIP raw false None None) = Ok (C_ip m) ->
  snd (IP (mkPKIBody BodyTypeIP raw false None None)) = Ok m.
Proof.
  change (res_map C_ip (snd (IP (mkPKIBody BodyTypeIP raw false None None))) = Ok (C_ip m) ->
          snd (IP (mkPKIBody BodyTypeIP raw false None None)) = Ok m).
  destruct (snd (IP _)); [by intros [= ->] | done].
Qed.
Lemma get_CP raw m :
  get_body (mkPKIBody BodyTypeCP raw false None None) = Ok (C_cp m) ->
  snd (CP (mkPKIBody BodyTypeCP raw false None None)) = Ok m.
Proof.
  change (res_map C_cp (snd (CP (mkPKIBody BodyTypeCP raw false None None))) = Ok (C_cp m) ->
          snd (CP (mkPKIBody BodyTypeCP raw false None None)) = Ok m).
  destruct (snd (CP _)); [by intros [= ->] | done].
Qed.

Lemma grant_read rp crt m resp :
  suitable x rp crt -> as_read (ss_reply_from x) (ss_reply_to x) (grant_body x rp crt) m resp ->
  exists b, Body resp = Some b /\ Type_ b = ss_type x /\
    extractCertRespAndRep b (ss_type x) = Ok (granted_response crt, granted_rep rp crt).
Proof.
  intros Hsu Ha. destruct (ar_body _ _ _ _ _ Ha) as (raw & Hraw & Hb). eexists. split; [exact Hb|].
  pose proof (granted_rep_wf _ _ Hsu) as Hwf. unfold extractCertRespAndRep, certRep_get.
  unfold grant_body in *. destruct (cl_type x Hcl) as [Ht|Ht]; rewrite Ht in *; (split; [done|]).
  - pose proof (get_IP _ _ (body_rt (C_ip (granted_rep rp crt)) raw Hwf Hraw)) as Hg.
    rewrite Z.eqb_refl. match goal with |- context [IP ?b] => change b with (mkPKIBody BodyTypeIP raw false None None) end.
    by rewrite Hg.
  - pose proof (get_CP _ _ (body_rt (C_cp (granted_rep rp crt)) raw Hwf Hraw)) as Hg.
    change (BodyTypeCP =? BodyTypeIP) with false. cbv iota. rewrite Z.eqb_refl.
    match goal with |- context [CP ?b] => change b with (mkPKIBody BodyTypeCP raw false None None) end.
    by rewrite Hg.
Qed.

(** ** The confirmation *)

Lemma conf_message_run w b a m1 resp pool known status n i l :
  Header m1 = sent_header (set_ProtectionAlg (Some a) (Header (first_request x w b))) b ->
  SenderNonce (Header resp) = rand_Read (0 + draws (net w)) 16 -> i = (4 + net_draws w)%nat ->
  conf_message c (mkCertConfirmation m1 resp creds pool known) status (mkNet n i l)
  = (mkNet n (2 + i) l, Ok (confirmation x w n status)).
Proof.
  intros Hh Hn ->. unfold conf_message, new_message, st_bind, net_draw, now, st_ret. cbn [conf_req conf_resp].
  by rewrite Hh, Hn.
Qed.

Lemma confirmed_answer conf m1 resp m b :
  as_read (ss_reply_from x) (ss_reply_to x) b m resp -> Type_ b = BodyTypePKIConf ->
  forall raw w params,
  parse raw "parse PKIConf" = Ok (mkCmpHTTP resp StatusOK) ->
  verified_response c "verify PKIConf" m1 (mkCmpHTTP resp StatusOK) (conf_creds conf) (conf_trustPool conf)
    (conf_knownSigner conf) [] w = (w, Ok params) ->
  confirmation_answer c conf m1 raw w = (w, Ok tt).
Proof.
  intros Ha Ht raw w params Hp Hv. destruct (ar_body _ _ _ _ _ Ha) as (r & _ & Hb).
  unfold confirmation_answer, st_bind, st_lift. rewrite Hp, Hv. unfold body_of. cbn [message]. rewrite Hb.
  unfold st_ret. cbn [Type_]. by rewrite Ht.
Qed.

Lemma sendCertConf_run w b a m1 resp0 pool known status n c1 der req n' r1 m rder resp l :
  Header m1 = sent_header (set_ProtectionAlg (Some a) (Header (first_request x w b))) b ->
  SenderNonce (Header resp0) = rand_Read (0 + draws (net w)) 16 ->
  MACCredentials_Protect (rand_Read (6 + net_draws w) 16) (ss_credentials x) (confirmation x w n status) = (c1, Ok tt) ->
  MarshalBinary c1 = (c1, Ok der) -> read_request (ss_maxBody x) (post der) = Ok req ->
  processMessage srv at_ req n = (n', Ok r1) -> client_gets x m NewPKIConfBody r1 rder resp ->
  TransactionID (Header m) = TransactionID (Header c1) -> RecipNonce (Header m) = SenderNonce (Header c1) ->
  exists h, sendCertConf c (mkCertConfirmation m1 resp0 creds pool known) status (mkNet n (4 + net_draws w) l)
            = (mkNet n' (7 + net_draws w) (l ++ [Exchanged der (Ok h)]), Ok tt).
Proof.
  intros Hh Hn Hprot Hm Hr Hp Hg Ht Hr'.
  destruct (exchange_run _ _ _ _ _ _ _ _ _ _ (7 + net_draws w) l "parse PKIConf" Hr Hp Hg Ht Hr')
    as (h & Hs & Hparse & Hv). exists h.
  unfold sendCertConf. erewrite st_bind_run by by eapply conf_message_run.
  erewrite st_bind_run by exact (protect_mac_run _ _ n _ l _ Hprot).
  erewrite st_bind_run by exact (marshal_run _ _ _ _ Hm). cbn beta iota.
  erewrite st_bind_run by (apply map_err_ok; exact Hs).
  destruct Hg as (_ & _ & _ & _ & Ha & _).
  destruct (Hv "verify PKIConf" pool known [] (mkNet n' (7 + net_draws w) (l ++ [Exchanged der (Ok h)]))) as [params Hver].
  by eapply confirmed_answer.
Qed.

(** ** The two exchanges *)

#[local] Abbreviation credential := (mac_credential (ss_from x) (ro_senderKID ropts)).
#[local] Abbreviation pub := (Signer_Public (ss_key x)).

(** The request of the run is granted: [m1] was sent, the server is in the state [n]. *)
Record request_exchange w (b : PKIBody) (m1 : PKIMessage) (der : bytes) (req : PKIMessage)
    (params : MACCredentialOption) (rp : Response) (crt : Certificate) (n : World S)
    (r1 : PKIMessage) (rder : bytes) (resp : PKIMessage) : Prop := {
  re_body : request_body x w b;
  re_protected : MACCredentials_Protect (rand_Read (3 + net_draws w) 16) (ss_credentials x)
                   (first_request x w b) = (m1, Ok tt);
  re_encoded : MarshalBinary m1 = (m1, Ok der);
  re_header : exists a, Header m1 = sent_header (set_ProtectionAlg (Some a) (Header (first_request x w b))) b;
  re_read : read_request (ss_maxBody x) (post der) = Ok req;
  re_verified : server_reads x (first_request x w b) b req params;
  re_grant : grant x w params (ca_state n) rp crt;
  re_suitable : suitable x rp crt;
  re_state : n = granted_world x w (ca_state n) rp crt req params r1;
  re_processed : processMessage srv at_ req (net w) = (n, Ok r1);
  re_answer : client_gets x (grant_message x w req params rp crt) (grant_body x rp crt) r1 rder resp
}.

Lemma request_exchanged w :
  willing_CA x (ca_state (net w)) -> (forall i, rand_Read i 16 <> []) ->
  has_room credential (tracker (net w)) ->
  transactions (tracker (net w)) !! ss_transaction x (first_id w) = None ->
  undelivered x w \/ exists b m1 der req params rp crt n r1 rder resp,
    request_exchange w b m1 der req params rp crt n r1 rder resp.
Proof.
  intros Hca Hrand Hroom Hk. destruct (cl_proof x Hcl (rand_Reader (net_draws w))) as [m Hpop].
  destruct (crmf_request (ss_type x) m (cl_type x Hcl)) as (b & Hb & _).
  assert (Hbody : request_body x w b) by (by exists m). destruct (request_body_type x Hcl w b Hbody) as [Hbuilt _].
  destruct (reaches_server x (rand_Read (3 + net_draws w) 16) (first_request x w b)) eqn:Hto;
    [|left; by eapply lost_request].
  destruct (to_server x Hcl _ _ _ _ _ _ _ Hbuilt (proj2 (cl_extra x Hcl)) Hto)
    as (m1 & der & req & params & Hprot & Hm & Ha & Hread & Hr & Hrec & Hraw).
  destruct (cl_key x Hcl) as (_ & Hkey & Htk & Hne). destruct (cl_template x Hcl) as (_ & Hwf & Hext).
  assert (Hreq : requests pub (ss_template x) (ss_type x) req).
  { eapply (request_read (ss_type x) _ _ _ m b _ _ m1 req); try done; [apply Hcl | by rewrite Htk..]. }
  destruct (wc_issues x _ Hca (server_context srv context_Background) params)
    as (st & rp & crt & Hi & Hw & Hcrt & Hsu).
  assert (Hgrant : grant x w params st rp crt) by done.
  assert (Hgets : server_gets x (rand_Read (3 + net_draws w) 16) (first_request x w b) req params).
  { exists m1, der. rewrite Hm. by destruct Hr. }
  destruct (reaches_client x (rand_Read (1 + draws (net w)) 16) params (grant_message x w req params rp crt))
    eqn:Hback; [|left; by eapply lost_grant].
  destruct (request_processed x Hcl Hsv w b req params st rp crt) as (r1 & rder & resp & Hrun & Hg);
    try done; [apply Hrand|].
  right. exists b, m1, der, req, params, rp, crt, (granted_world x w st rp crt req params r1), r1, rder, resp.
  by constructor.
Qed.

(** The transaction of the run is over. *)
Definition over w n : Prop :=
  transactions (tracker n) !! ss_transaction x (first_id w) = None /\
  count (tracker n) = count (tracker (net w)).

Lemma confirmation_exchanged w b m1 der req params rp crt n r1 rder resp status i l pool known :
  composite_prehash_sha2 -> sha2_linked -> willing_CA x (ca_state (net w)) -> (forall i, rand_Read i 16 <> []) ->
  transactions (tracker (net w)) !! ss_transaction x (first_id w) = None ->
  request_exchange w b m1 der req params rp crt n r1 rder resp -> NewCertStatus crt 0 = Ok status ->
  i = (4 + net_draws w)%nat ->
  undelivered x w \/ exists n' cder h,
    sendCertConf c (mkCertConfirmation m1 resp creds pool known) status (mkNet n i l)
    = (mkNet n' (7 + net_draws w) (l ++ [Exchanged cder (Ok h)]), Ok tt) /\ over w n'.
Proof.
  intros Hpre Hlink Hca Hrand Hk [Hbody Hp1 Hm1 [a Hh] Hread1 Hr Hgrant Hsu Hn _ Hg] Hst ->.
  destruct (reaches_server x (rand_Read (6 + net_draws w) 16) (confirmation x w n status)) eqn:Hto;
    [|left; by eapply lost_confirmation].
  destruct (to_server x Hcl (first_id w) _ _ _ (NewCertConfBody [status]) [] _ ltac:(done) ltac:(constructor) Hto)
    as (c1 & cder & creq & params' & Hprot & Hm & [a' Hh'] & Hread & Hr' & _).
  pose proof Hr as [Ha Hver]. pose proof Hr' as [Ha' Hver'].
  destruct (reaches_client x (rand_Read (3 + draws (net w)) 16) params (acknowledgment x w creq params'))
    eqn:Hback.
  2: { left. eapply lost_acknowledgment; [exact Hbody|exists m1, der; by rewrite Hm1|exact Hgrant|exact Hst|
                                          |exact Hback].
       exists c1, cder. by rewrite Hm. }
  destruct (confirmation_processed x Hsv w (ca_state n) rp crt req params r1 status creq params')
    as (n' & r2 & rder2 & resp2 & Hrun & Hgone & Hcount & Hg'); try done.
  { apply (ar_id _ _ _ _ _ Ha). }
  { apply Hrand. }
  { apply Hg. }
  { by rewrite <- Hn. }
  destruct Hg as (_ & _ & _ & _ & Hga & _).
  right. destruct (sendCertConf_run w b a m1 resp pool known status n c1 cder creq n' r2
    (acknowledgment x w creq params') rder2 resp2 l Hh)
    as [h Hs]; try done.
  { apply (ar_nonce _ _ _ _ _ Hga). }
  { by rewrite Hn. }
  { rewrite Hh'. apply (ar_id _ _ _ _ _ Ha'). }
  { rewrite Hh'. apply (ar_nonce _ _ _ _ _ Ha'). }
  by exists n', cder, h.
Qed.

(** ** The enrollment *)

Lemma crmf_request_read key m t b :
  requests_key key m -> crmf_request_body t [m] = Ok b -> enrolls t -> answeringCertReqIDs b = (b, Ok [0]).
Proof.
  intros Hk Hb Ht. pose proof (crmf_request_ids _ _ _ _ Hk Hb) as Hids.
  destruct Ht as [-> | ->]; injection Hb as <-.
  all: match goal with |- ?l = _ => rewrite (surjective_pairing l), Hids end; reflexivity.
Qed.

Lemma answer_type w b m1 der req params rp crt n r1 rder resp :
  request_exchange w b m1 der req params rp crt n r1 rder resp ->
  exists body, Body resp = Some body /\ Type_ body = ss_type x /\
    extractCertRespAndRep body (ss_type x) = Ok (granted_response crt, granted_rep rp crt).
Proof. intros H. eapply grant_read; apply H. Qed.

Lemma answer_version w b m1 der req params rp crt n r1 rder resp w' :
  request_exchange w b m1 der req params rp crt n r1 rder resp ->
  check_pvno (mkCmpHTTP resp StatusOK) w' = (w', Ok tt).
Proof.
  intros H. destruct (re_verified _ _ _ _ _ _ _ _ _ _ _ _ H) as [Ha _].
  destruct (re_answer _ _ _ _ _ _ _ _ _ _ _ _ H) as (_ & _ & _ & _ & Hg & _).
  assert (Hv : session_version (PVNO (Header resp))).
  { rewrite (ar_version _ _ _ _ _ Hg). apply session_required. cbn. rewrite (ar_version _ _ _ _ _ Ha).
    apply session_required. by left. }
  unfold check_pvno. cbn [message]. by destruct Hv as [-> | ->].
Qed.

Lemma exchangeFirst_run w b m1 der req params rp crt n r1 rder resp i l :
  request_exchange w b m1 der req params rp crt n r1 rder resp ->
  exists h params', exchangeFirst c m1 creds (mkNet (net w) i l)
    = (mkNet n i (l ++ [Exchanged der (Ok h)]),
       Ok (m1, mkCmpHTTP resp StatusOK, mkVerifyResult true (Some params') None)).
Proof.
  intros H. pose proof H as [_ _ Hm [a Hh] Hread [Ha _] _ _ _ Hrun Hg].
  destruct (exchange_run m1 der req (net w) n r1 (grant_message x w req params rp crt) _ rder resp i l
    "parse response" Hread Hrun Hg) as (h & Hs & Hp & Hv).
  { rewrite Hh. apply (ar_id _ _ _ _ _ Ha). }
  { rewrite Hh. apply (ar_nonce _ _ _ _ _ Ha). }
  destruct (Hv "verify response" (trustedCAs c) None [] (mkNet n i (l ++ [Exchanged der (Ok h)]))) as [params' Hver].
  exists h, params'. unfold exchangeFirst. erewrite st_bind_run by exact (marshal_run _ _ _ _ Hm). cbn beta iota.
  erewrite st_bind_run by exact Hs. unfold st_bind at 1, st_lift at 1. rewrite Hp.
  erewrite st_bind_run by exact Hver. erewrite st_bind_run by by eapply answer_version. done.
Qed.

Lemma finish_run rp crt conf status params w1 w2 :
  suitable x rp crt -> NewCertStatus crt 0 = Ok status ->
  conf_trustPool conf = enrollmentTrustPool c (mkVerifyResult true (Some params) None) (published rp) ->
  sendCertConf c conf status w1 = (w2, Ok tt) ->
  finish_enrollment c conf StatusOK (granted_response crt) [0] crt (published rp) (accompanying x) (Some pub) w1
  = (w2, Ok (Some (mkEnrollResult crt (published rp) (accompanying x)))).
Proof.
  intros Hsu Hst Hpool Hs. unfold finish_enrollment, checkCertReqID.
  rewrite bool_decide_eq_true_2 by (apply list_elem_of_here).
  assert (Htrust : (match conf_trustPool conf with
                    | None => st_ret None
                    | Some pool => let! t := now c in
                        st_ret (verifyIssuedCertificate t crt pool (accompanying x ++ published rp))
                    end) w1 = (w1, Ok None)).
  { rewrite Hpool. destruct (enrollmentTrustPool _ _ _) as [pool|] eqn:Ep; [|done].
    unfold st_bind, now, st_ret. by rewrite (su_trusted _ _ _ Hsu _ _ Ep). }
  erewrite st_bind_run by exact Htrust. cbv iota. rewrite (su_key _ _ _ Hsu).
  change (cr_CertReqID (granted_response crt)) with 0. rewrite Hst.
  by erewrite st_bind_run by exact Hs.
Qed.

(** The steps of [enroll] up to the confirmation. *)
Lemma enroll_run w b m1 der req params rp crt n r1 rder resp i l status :
  request_exchange w b m1 der req params rp crt n r1 rder resp -> NewCertStatus crt 0 = Ok status ->
  answeringCertReqIDs b = (b, Ok [0]) -> i = (1 + net_draws w)%nat ->
  exists h params', let pool := enrollmentTrustPool c (mkVerifyResult true (Some params') None) (published rp) in
    forall w2, sendCertConf c (mkCertConfirmation m1 resp creds pool None) status
      (mkNet n (3 + i) (l ++ [Exchanged der (Ok h)])) = (w2, Ok tt) ->
    enroll c b (ss_type x) (Some creds) ropts (Some pub) (mkNet (net w) i l)
    = (w2, Ok (Some (mkEnrollResult crt (published rp) (accompanying x)))).
Proof.
  intros H Hst Hids ->.
  destruct (exchangeFirst_run _ _ _ _ _ _ _ _ _ _ _ _ (4 + net_draws w) l H) as (h & params' & Hx).
  exists h, params'. intros pool w2 Hc. pose proof H as [_ Hprot _ _ _ _ _ Hsu _ _ Hg].
  destruct Hg as (_ & _ & _ & _ & Hga & _).
  destruct (answer_type _ _ _ _ _ _ _ _ _ _ _ _ H) as (body & Hb & Ht & He).
  assert (Hbody : forall w', body_of resp w' = (w', Ok body)) by (intros w'; unfold body_of; by rewrite Hb).
  assert (Hset : forall vr w', settled_response c m1 (mkCmpHTTP resp StatusOK) vr creds (ss_type x) [0] w'
    = (w', Ok (mkCmpHTTP resp StatusOK, vr, ProtectionCertificate vr, granted_response crt, granted_rep rp crt))).
  { intros vr w'. unfold settled_response. unfold st_bind at 1 2. cbn [message]. by rewrite Hbody, He. }
  unfold enroll. rewrite Hids. unfold st_bind at 1, st_lift at 1.
  erewrite st_bind_run by exact (newRequest_run _ _ (1 + net_draws w) l _ Hprot).
  erewrite st_bind_run by exact Hx. cbn beta iota. cbn [message].
  erewrite st_bind_run by apply Hbody.
  assert (Hn : (Type_ body =? BodyTypeError) = false) by (rewrite Ht; by destruct (cl_type x Hcl) as [-> | ->]).
  rewrite Hn, Ht, Z.eqb_refl. cbn [negb].
  erewrite st_bind_run by apply Hset. cbn beta iota. cbn [granted_response cr_Status Status accepted_info].
  rewrite Z.eqb_refl. cbn [negb andb]. unfold extractCertificate. cbn [granted_response cr_CertifiedKeyPair
    granted_pair ckp_CertOrEncCert ce_Certificate]. rewrite (su_parsed _ _ _ Hsu). cbn [of_option].
  cbn [message cmp_statusCode]. rewrite (ar_extra _ _ _ _ _ Hga).
  by apply (finish_run rp crt _ status params').
Qed.
End Client.

Section Props.
Context {CB : Cryptobyte} {L : CryptobyteLaws CB} {GN : GoNames} {GX : GoX509} {GA : GoASN1}
  {GC : GoCrypto} {GL : GoCryptoLaws GX GC} {GP : GoPBMAC1} {PL : GoPBMAC1Laws CB GP} {GR : GoRandom}
  {GH : GoHTTP}.

(** C10: an honest enrollment succeeds. A client that shares a secret with a server whose
    CA is willing to grant its request gets the certificate the CA issued, in two
    exchanges, after which the transaction is over and the table of the server is as full
    as before; unless a message of the run cannot be encoded within the limits of who
    reads it. *)
Theorem honest_enrollment_succeeds {S} (x : session S) (w : Net (World S)) :
  honest_client x -> honest_server x -> willing_CA x (ca_state (net w)) ->
  composite_prehash_sha2 -> sha2_linked -> (forall i, rand_Read i 16 <> []) ->
  has_room (mac_credential (ss_from x) (ro_senderKID (request_options (ss_opts x)))) (tracker (net w)) ->
  transactions (tracker (net w)) !! ss_transaction x (first_id w) = None ->
  undelivered x w \/
  exists w' params st rp crt der h der' h',
    grant x w params st rp crt /\
    sendCRMF (ss_client x) (ss_key x) (Some (CredMAC (ss_credentials x))) (ss_type x) (ss_opts x) w
    = (w', Ok (Some (mkEnrollResult crt (published rp) (accompanying x)))) /\
    over x w (net w') /\
    history w' = history w ++ [Exchanged der (Ok h); Exchanged der' (Ok h')].
Proof.
  intros Hcl Hsv Hca Hpre Hlink Hrand Hroom Hk.
  destruct (request_exchanged x Hcl Hsv w Hca Hrand Hroom Hk)
    as [Hu|(b & m1 & der & req & params & rp & crt & n & r1 & rder & resp & H)]; [by left|].
  destruct (su_hash _ _ _ (re_suitable _ _ _ _ _ _ _ _ _ _ _ _ _ H)) as [status Hst].
  destruct (re_body _ _ _ _ _ _ _ _ _ _ _ _ _ H) as (m & Hpop & Hb).
  assert (Hids : answeringCertReqIDs b = (b, Ok [0])).
  { apply (crmf_request_read (ss_key x) m (ss_type x) b); [|done|apply Hcl].
    exists (rand_Reader (net_draws w)), (mkCertRequest 0 (ss_template x) [] []). split; [done|]. split; [done|].
    destruct (cl_key x Hcl) as (Hk1 & _ & Hk2 & _). by rewrite Hk1, <- Hk2. }
  destruct w as [n0 i l].
  destruct (enroll_run x Hcl (mkNet n0 i l) b m1 der req params rp crt n r1 rder resp (1 + i) l
    status H Hst Hids eq_refl) as (h & params' & Hrun).
  destruct (confirmation_exchanged x Hcl Hsv (mkNet n0 i l) b m1 der req params rp crt n r1 rder resp status
    (4 + i) (l ++ [Exchanged der (Ok h)])
    (enrollmentTrustPool (ss_client x) (mkVerifyResult true (Some params') None) (published rp)) None
    Hpre Hlink Hca Hrand Hk H Hst eq_refl) as [Hu|(n' & cder & h' & Hs & Hover)]; [by left|]. right.
  eexists (mkNet n' (7 + i) ((l ++ [Exchanged der (Ok h)]) ++ [Exchanged cder (Ok h')])), params, _, rp, crt, der, h, cder, h'.
  split; [apply H|]. split; [|split; [exact Hover|]].
  - unfold sendCRMF. destruct (cl_template x Hcl) as [Ht _].
    erewrite st_bind_run by exact (f_equal (pair _) Ht).
    erewrite st_bind_run by (unfold st_lift; by destruct (cl_type x Hcl) as [-> | ->]).
    erewrite st_bind_run by reflexivity.
    erewrite st_bind_run by (apply map_err_ok; exact (f_equal (pair _) Hpop)).
    erewrite st_bind_run by exact (f_equal (pair _) Hb).
    exact (Hrun _ Hs).
  - cbn [history]. by rewrite <- app_assoc.
Qed.
End Props.

(** ** A run *)

(** On the example session every message arrives, so the enrollment succeeds. *)
Lemma honest_enrollment_succeeds_witness :
  exists w' params st rp crt der h der' h',
    grant device_session toy_net params st rp crt /\
    sendCRMF toy_client 3 (Some (CredMAC toy_pbm)) BodyTypeIP device_options toy_net
    = (w', Ok (Some (mkEnrollResult crt (published rp) (accompanying device_session)))) /\
    over device_session toy_net (net w') /\
    history w' = [Exchanged der (Ok h); Exchanged der' (Ok h')].
Proof.
  destruct (honest_enrollment_succeeds device_session toy_net device_client device_server device_CA)
    as [Hu|H].
  - intros a. right. right. reflexivity.
  - intros h [->|[->| ->]]; reflexivity.
  - intros i. discriminate.
  - exact (proj1 device_room).
  - exact (proj2 device_room).
  - exfalso. exact (device_delivered Hu).
  - exact H.
Defined.
